(** * Distributed DDL propagation: planning, validation and execution

    A shallow embedding of the utility hook of the distributed-table
    extension ([utility_hook.c], [tablecmds.c]) together with the properties
    its specification states about it.

    Catalog and metadata lookups that the C code performs through the
    relation cache are fields of the record [Env]; every outbound
    interaction (worker command, lock, server log line) is appended to the
    session's [log], so the order of effects is part of what is proved.
    A lock is logged where the code takes it, with its lock mode: by
    resolving a name ([RangeVarGetRelid], [AlterTableLookupRelation],
    [heap_openrv]), by opening a relation ([relation_open], [heap_open],
    [index_open]) or by [LockRelationOid] and [LockShardListMetadata];
    [NoLock] takes none. Releases are not logged. *)

From Stdlib Require Import List String Ascii ZArith Lia Bool.
From Stdlib Require Import Permutation Sorted DecimalString.
Import ListNotations.

Local Open Scope string_scope.
Local Open Scope list_scope.
Local Open Scope Z_scope.

(* ================================================================== *)
(** * Data model *)
(* ================================================================== *)

(** [Oid] is PostgreSQL's unsigned 32-bit object identifier; no arithmetic
    is ever done on it, it is only compared. *)
Definition Oid := Z.
Definition InvalidOid : Oid := 0.
Definition OidIsValid (o : Oid) : bool := negb (o =? InvalidOid).

Definition uint64 := Z.
Definition AttrNumber := Z.

(** The Oids of the system catalogs [pg_class] and [pg_index]
    ([RelationRelationId] of [pg_class.h], [IndexRelationId] of
    [pg_index.h]). *)
Definition RelationRelationId : Oid := 1259.
Definition IndexRelationId : Oid := 2610.

(** A double-quote character, for messages that quote identifiers. *)
Definition dquote : string := String (ascii_of_nat 34) EmptyString.

(** Partition methods of [pg_dist_partition.h]
    (the [char] constants ['a'], ['h'], ['r'], ['n']). *)
Inductive PartitionMethodKind :=
| DISTRIBUTE_BY_APPEND
| DISTRIBUTE_BY_HASH
| DISTRIBUTE_BY_RANGE
| DISTRIBUTE_BY_NONE.

Definition PartitionMethodKind_eqb (a b : PartitionMethodKind) : bool :=
  match a, b with
  | DISTRIBUTE_BY_APPEND, DISTRIBUTE_BY_APPEND
  | DISTRIBUTE_BY_HASH, DISTRIBUTE_BY_HASH
  | DISTRIBUTE_BY_RANGE, DISTRIBUTE_BY_RANGE
  | DISTRIBUTE_BY_NONE, DISTRIBUTE_BY_NONE => true
  | _, _ => false
  end.

(** The lock modes of PostgreSQL's [lockdefs.h]. *)
Inductive LOCKMODE :=
| NoLock
| AccessShareLock
| RowShareLock
| RowExclusiveLock
| ShareUpdateExclusiveLock
| ShareLock
| ShareRowExclusiveLock
| ExclusiveLock
| AccessExclusiveLock.

Record RangeVar := mkRangeVar {
  schemaname : option string;
  relname : string
}.

Record Var := mkVar { varattno : AttrNumber }.

Record ShardInterval := mkShardInterval {
  si_relationId : Oid;
  shardId : uint64
}.

Record ShardPlacement := mkShardPlacement {
  placementId : uint64;
  sp_shardId : uint64;
  sp_nodeName : string;
  sp_nodePort : Z;
  sp_groupId : Z
}.

Record WorkerNode := mkWorkerNode {
  groupId : Z;
  workerName : string;
  workerPort : Z;
  hasMetadata : bool
}.

Record RelationShard := mkRelationShard {
  rs_relationId : Oid;
  rs_shardId : uint64
}.

Inductive TaskType := DDL_TASK | VACUUM_ANALYZE_TASK.

Inductive ReplicationModel := REPLICATION_MODEL_INVALID.

Definition INVALID_JOB_ID : uint64 := 0.

(** [dependedTaskList] is always [NULL] in the tasks built here and is left
    out. [taskId] counts from 1 within one task list; a PostgreSQL [List]
    never holds 2^31 cells, so the counter does not wrap. *)
Record Task := mkTask {
  jobId : uint64;
  taskId : Z;
  taskType : TaskType;
  queryString : string;
  replicationModel : ReplicationModel;
  anchorShardId : uint64;
  taskPlacementList : list ShardPlacement;
  relationShardList : list RelationShard
}.

Record DDLJob := mkDDLJob {
  targetRelationId : Oid;
  concurrentIndexCmd : bool;
  executeSequentially : bool;
  commandString : string;
  taskList : list Task
}.

(* ------------------------------------------------------------------ *)
(** ** Parse trees *)

Inductive ConstrType :=
| CONSTR_NULL
| CONSTR_NOTNULL
| CONSTR_DEFAULT
| CONSTR_CHECK
| CONSTR_PRIMARY
| CONSTR_UNIQUE
| CONSTR_EXCLUSION
| CONSTR_FOREIGN.

Definition is_CONSTR_FOREIGN (c : ConstrType) : bool :=
  match c with CONSTR_FOREIGN => true | _ => false end.

(** [pktable] is only meaningful for foreign keys; [skip_validation] is the
    flag [PlanAlterTableStmt] scribbles on the parse tree. *)
Record Constraint := mkConstraint {
  contype : ConstrType;
  conname : option string;
  pktable : RangeVar;
  skip_validation : bool
}.

Record TypeName := mkTypeName {
  names : list string;
  pct_type : bool
}.

Record ColumnDef := mkColumnDef {
  colname : string;
  typeName : option TypeName;
  constraints : list Constraint
}.

Record PartitionCmd := mkPartitionCmd { pc_name : RangeVar }.

(** The [def] field of an [AlterTableCmd] is a [Node *]. *)
Inductive Node :=
| T_ColumnDef (c : ColumnDef)
| T_Constraint (c : Constraint)
| T_PartitionCmd (p : PartitionCmd)
| T_OtherNode.

(** The sub-command kinds the code names, and [AT_Other] for the remaining
    values of PostgreSQL's [AlterTableType] enumeration. *)
Inductive AlterTableType :=
| AT_AddColumn
| AT_DropColumn
| AT_ColumnDefault
| AT_AlterColumnType
| AT_DropNotNull
| AT_SetNotNull
| AT_AddConstraint
| AT_DropConstraint
| AT_AttachPartition
| AT_DetachPartition
| AT_EnableTrigAll
| AT_DisableTrigAll
| AT_ReplicaIdentity
| AT_SetRelOptions
| AT_ResetRelOptions
| AT_ReplaceRelOptions
| AT_SetTableSpace
| AT_Other (tag : Z).

Record AlterTableCmd := mkAlterTableCmd {
  subtype : AlterTableType;
  name : string;
  def : Node
}.

Inductive ObjectType := OBJECT_TABLE | OBJECT_INDEX | OBJECT_OTHER.

Record AlterTableStmt := mkAlterTableStmt {
  relation : option RangeVar;
  cmds : list AlterTableCmd;
  relkind : ObjectType;
  missing_ok : bool
}.

Record TruncateStmt := mkTruncateStmt { relations : list RangeVar }.

Record IndexStmt := mkIndexStmt {
  idxname : string;
  ix_relation : RangeVar;
  concurrent : bool
}.

(** [ii_KeyAttrNumbers] and [ii_ExclusionOps] are C arrays indexed from 0;
    [ii_ExclusionOps] is [NULL] unless the index backs an exclusion
    constraint. *)
Record IndexInfo := mkIndexInfo {
  ii_NumIndexAttrs : Z;
  ii_KeyAttrNumbers : list AttrNumber;
  ii_Unique : bool;
  ii_ExclusionOps : option (list Oid)
}.

(** The parse trees [multi_ProcessUtility] tells apart here. *)
Inductive UtilityStmt :=
| T_IndexStmt (s : IndexStmt)
| T_AlterTableStmt (s : AlterTableStmt)
| T_TruncateStmt (s : TruncateStmt)
| T_OtherStmt.

Inductive RelKind := RELKIND_RELATION | RELKIND_INDEX | RELKIND_FOREIGN_TABLE
                   | RELKIND_PARTITIONED_TABLE | RELKIND_OTHER.

(* ------------------------------------------------------------------ *)
(** ** Errors and server log lines *)

(** The error taxonomy of the specification. [UndefinedTable] is the error
    PostgreSQL's [RangeVarGetRelid] raises for a missing relation when
    [missing_ok] is false; [UncheckedAccess] stands for the places where
    the C code dereferences a pointer or casts a node without a check. *)
Inductive ErrorClass :=
| UnsupportedCommand
| ConflictingExecutionMode
| PartialIndexFailure
| UndefinedTable
| NotCoordinator
| WorkerFailure
| UncheckedAccess.

Inductive SqlErrCode :=
| ERRCODE_FEATURE_NOT_SUPPORTED
| ERRCODE_UNDEFINED_TABLE
| ERRCODE_INTERNAL_ERROR.

(** What [ereport] is given, without the [errdetail] text. *)
Record ErrorData := mkErrorData {
  class : ErrorClass;
  sqlerrcode : SqlErrCode;
  message : string;
  hint : option string
}.

Inductive Result (A : Type) :=
| Ok (a : A)
| Error (e : ErrorData).
Arguments Ok {A} a.
Arguments Error {A} e.

Inductive TargetWorkerSet := WORKERS_WITH_METADATA | ALL_WORKERS.

Inductive ConnectionType := PARALLEL_CONNECTION | SEQUENTIAL_CONNECTION.

Inductive CommitProtocol := COMMIT_PROTOCOL_BARE | COMMIT_PROTOCOL_1PC | COMMIT_PROTOCOL_2PC.

Inductive Event :=
| EvLockShardListMetadata (shards : list uint64) (mode : LOCKMODE)
| EvFinalizedShardPlacementList (shard : uint64)
| EvBeginOrContinueCoordinatedTransaction
| EvLockRelationOid (rel : Oid) (mode : LOCKMODE)
| EvSendCommandToWorker (nodeName : string) (nodePort : Z) (command : string)
| EvSendCommandToWorkers (target : TargetWorkerSet) (command : string)
| EvSendBareCommandListToWorkers (target : TargetWorkerSet) (commands : list string)
| EvExecuteModifyTasksSequentiallyWithoutResults (tasks : list Task)
| EvExecuteModifyTasksWithoutResults (tasks : list Task)
| EvCommitTransactionCommand
| EvStartTransactionCommand
| EvInvalidateForeignKeyGraph
| EvWarning (sqlerrcode : SqlErrCode) (message : string)
| EvDebug1 (message : string).

(* ================================================================== *)
(** * Environment and session state *)
(* ================================================================== *)

(** Everything the code asks of modules outside this part of the source:
    name resolution and the system catalogs, the distribution metadata
    cache, the foreign-key helpers, the rendering helpers and format
    macros of other headers, and how the cluster answers the commands sent
    to it. The functions below only read it. *)
Record Env := mkEnv {
  (* name resolution and system catalogs *)
  relid_of : RangeVar -> Oid;               (* [InvalidOid] when there is no such relation *)
  get_rel_relkind : Oid -> RelKind;
  get_rel_name : Oid -> string;
  get_rel_namespace : Oid -> Oid;
  get_namespace_name : Oid -> string;
  get_relname_relid : string -> Oid -> Oid;
  IndexGetRelation : Oid -> Oid;
  SearchSysCacheAttName : Oid -> string -> option AttrNumber;
  RelationGetIndexList : Oid -> list Oid;
  BuildIndexInfo : Oid -> IndexInfo;
  OperatorImplementsEquality : Oid -> bool;
  generate_qualified_relation_name : Oid -> string;
  (* PostgreSQL's [AlterTableGetLockLevel(cmds)]: the lock an ALTER TABLE
     with these sub-commands takes on its relation *)
  AlterTableGetLockLevel : list AlterTableCmd -> LOCKMODE;
  (* distribution metadata *)
  IsDistributedTable : Oid -> bool;
  PartitionMethod : Oid -> PartitionMethodKind;
  DistPartitionKey : Oid -> option Var;
  TableColocationId : Oid -> Z;
  TablesColocated : Oid -> Oid -> bool;
  LoadShardIntervalList : Oid -> list ShardInterval;
  shard_placements : uint64 -> list ShardPlacement;
  ShouldSyncTableMetadata : Oid -> bool;
  PartitionTableReplicated : Oid -> bool;
  ActivePrimaryNodeList : list WorkerNode;
  GetLocalGroupId : Z;
  IsCoordinator : bool;
  ClusterHasKnownMetadataWorkers : bool;
  (* foreign keys *)
  ConstraintIsAForeignKey : string -> Oid -> bool;
  ConstraintIsAForeignKeyToReferenceTable : string -> Oid -> bool;
  ColumnAppearsInForeignKeyToReferenceTable : string -> Oid -> bool;
  TableReferenced : Oid -> bool;
  referencingRelationsViaForeignKey : Oid -> list Oid;
  foreign_constraint_outcome :
    Oid -> PartitionMethodKind -> option Var -> Z -> option ErrorData;
  (* rendering helpers and the format macros of worker_protocol.h *)
  quote_literal_cstr : string -> string;
  LockModeToLockModeText : LOCKMODE -> string;
  WORKER_APPLY_SHARD_DDL_COMMAND : uint64 -> string -> string -> string;
  WORKER_APPLY_INTER_SHARD_DDL_COMMAND :
    uint64 -> string -> uint64 -> string -> string -> string;
  quote_identifier : string -> string;
  DISABLE_DDL_PROPAGATION : string;
  (* [get_namespace_name] of each entry of [fetch_search_path(false)];
     [None] for a namespace that was dropped meanwhile *)
  search_path_schema_names : list (option string);
  (* the cluster: [None] when the workers carry the request out *)
  tasks_outcome : list Task -> option ErrorData;
  bare_commands_outcome : TargetWorkerSet -> list string -> option ErrorData;
  workers_command_outcome : TargetWorkerSet -> string -> option ErrorData;
  worker_command_outcome : string -> Z -> string -> option ErrorData
}.

(** The process- and transaction-scoped variables the code reads and
    writes, the validity flag of [pg_index] rows (the durable value and the
    uncommitted updates of the open transaction), and the log of effects in
    the order they happened. *)
Record Session := mkSession {
  MultiShardConnectionType : ConnectionType;
  MultiShardCommitProtocol : CommitProtocol;
  SavedMultiShardCommitProtocol : CommitProtocol;
  shouldInvalidateForeignKeyGraph : bool;
  IsTransactionBlock : bool;
  ParallelQueryExecutedInTransaction : bool;
  indisvalid_durable : Oid -> bool;
  indisvalid_pending : list (Oid * bool);
  log : list Event
}.

Definition with_log (s : Session) (l : list Event) : Session :=
  mkSession s.(MultiShardConnectionType) s.(MultiShardCommitProtocol)
    s.(SavedMultiShardCommitProtocol) s.(shouldInvalidateForeignKeyGraph)
    s.(IsTransactionBlock) s.(ParallelQueryExecutedInTransaction)
    s.(indisvalid_durable) s.(indisvalid_pending) l.

Definition with_connection_type (s : Session) (c : ConnectionType) : Session :=
  mkSession c s.(MultiShardCommitProtocol)
    s.(SavedMultiShardCommitProtocol) s.(shouldInvalidateForeignKeyGraph)
    s.(IsTransactionBlock) s.(ParallelQueryExecutedInTransaction)
    s.(indisvalid_durable) s.(indisvalid_pending) s.(log).

Definition with_commit_protocol (s : Session) (cur saved : CommitProtocol) : Session :=
  mkSession s.(MultiShardConnectionType) cur saved
    s.(shouldInvalidateForeignKeyGraph)
    s.(IsTransactionBlock) s.(ParallelQueryExecutedInTransaction)
    s.(indisvalid_durable) s.(indisvalid_pending) s.(log).

Definition with_invalidate_flag (s : Session) (b : bool) : Session :=
  mkSession s.(MultiShardConnectionType) s.(MultiShardCommitProtocol)
    s.(SavedMultiShardCommitProtocol) b
    s.(IsTransactionBlock) s.(ParallelQueryExecutedInTransaction)
    s.(indisvalid_durable) s.(indisvalid_pending) s.(log).

Definition with_pg_index (s : Session) (d : Oid -> bool) (p : list (Oid * bool)) : Session :=
  mkSession s.(MultiShardConnectionType) s.(MultiShardCommitProtocol)
    s.(SavedMultiShardCommitProtocol) s.(shouldInvalidateForeignKeyGraph)
    s.(IsTransactionBlock) s.(ParallelQueryExecutedInTransaction)
    d p s.(log).

(* ------------------------------------------------------------------ *)
(** ** The monad of the embedding: session state and [ereport(ERROR)] *)

Definition M (A : Type) : Type := Session -> Result A * Session.

Definition ret {A : Type} (a : A) : M A := fun s => (Ok a, s).

Definition bind {A B : Type} (m : M A) (k : A -> M B) : M B :=
  fun s =>
    match m s with
    | (Ok a, s') => k a s'
    | (Error e, s') => (Error e, s')
    end.

Declare Scope m_scope.
Delimit Scope m_scope with m.
Notation "x <- m ;; k" := (bind m (fun x => k))
  (at level 61, m at next level, right associativity) : m_scope.
Notation "m ;;; k" := (bind m (fun _ => k))
  (at level 61, right associativity) : m_scope.
Local Open Scope m_scope.

Definition ereport_ERROR {A : Type} (e : ErrorData) : M A :=
  fun s => (Error e, s).

Definition emit (ev : Event) : M unit :=
  fun s => (Ok tt, with_log s (s.(log) ++ [ev])).

Definition get_session : M Session := fun s => (Ok s, s).

(** [PG_TRY(); { body } PG_CATCH(); { handler } PG_END_TRY();] *)
Definition PG_TRY {A : Type} (body : M A) (handler : ErrorData -> M A) : M A :=
  fun s =>
    match body s with
    | (Ok a, s') => (Ok a, s')
    | (Error e, s') => handler e s'
    end.

(** A request to the cluster: logged, then it fails when the cluster says so. *)
Definition request (ev : Event) (outcome : option ErrorData) : M unit :=
  emit ev ;;;
  match outcome with
  | None => ret tt
  | Some e => ereport_ERROR e
  end.

(** The session once a relation has been locked: the lock is logged;
    [NoLock] only names the absence of a lock and leaves the session as it
    is. *)
Definition with_relation_lock (s : Session) (relationId : Oid)
    (lockmode : LOCKMODE) : Session :=
  match lockmode with
  | NoLock => s
  | _ => with_log s (s.(log) ++ [EvLockRelationOid relationId lockmode])
  end.

(** The lock that PostgreSQL's [RangeVarGetRelid], [relation_open],
    [heap_openrv] and [index_open] take on the relation they resolve or
    open. *)
Definition lock_relation (relationId : Oid) (lockmode : LOCKMODE) : M unit :=
  fun s => (Ok tt, with_relation_lock s relationId lockmode).

(** PostgreSQL's [relation_open(relationId, lockmode)],
    [heap_open(relationId, lockmode)] and [index_open(relationId,
    lockmode)]: what the code reads from the opened relation comes from
    [Env]. *)
Definition relation_open : Oid -> LOCKMODE -> M unit := lock_relation.
Definition heap_open : Oid -> LOCKMODE -> M unit := lock_relation.
Definition index_open : Oid -> LOCKMODE -> M unit := lock_relation.

Definition run {A : Type} (m : M A) (s : Session) : Result A := fst (m s).
Definition effects {A : Type} (m : M A) (s : Session) : list Event := log (snd (m s)).

(* ================================================================== *)
(** * Task list builder ([utility_hook.c]) *)
(* ================================================================== *)

Section TaskLists.

Variable env : Env.

(** [LockShardListMetadata(shardIntervalList, lockMode)] of
    [resource_lock.c]: one call that takes the shard metadata lock of every
    shard of the list. *)
Definition LockShardListMetadata (shardIntervalList : list ShardInterval)
    (lockMode : LOCKMODE) : M unit :=
  emit (EvLockShardListMetadata (map shardId shardIntervalList) lockMode).

(** [FinalizedShardPlacementList(shardId)]: a metadata lookup; it is logged
    so that its position relative to the metadata lock is observable. *)
Definition FinalizedShardPlacementList (shard : uint64) : M (list ShardPlacement) :=
  emit (EvFinalizedShardPlacementList shard) ;;;
  ret (shard_placements env shard).

(** The [foreach] loop of [DDLTaskList]; [taskId] is the running counter
    ([task->taskId = taskId++]) and the tasks come out in the order
    [lappend] builds them. *)
Fixpoint DDLTaskList_foreach (shardIntervalList : list ShardInterval) (taskId : Z)
    (escapedSchemaName escapedCommandString : string) : M (list Task) :=
  match shardIntervalList with
  | [] => ret []
  | shardInterval :: rest =>
      let shardId := shardInterval.(shardId) in
      let applyCommand :=
        WORKER_APPLY_SHARD_DDL_COMMAND env shardId escapedSchemaName
          escapedCommandString in
      placements <- FinalizedShardPlacementList shardId ;;
      let task :=
        {| jobId := INVALID_JOB_ID;
           taskId := taskId;
           taskType := DDL_TASK;
           queryString := applyCommand;
           replicationModel := REPLICATION_MODEL_INVALID;
           anchorShardId := shardId;
           taskPlacementList := placements;
           relationShardList := [] |} in
      tasks <- DDLTaskList_foreach rest (taskId + 1) escapedSchemaName
                 escapedCommandString ;;
      ret (task :: tasks)
  end.

Definition DDLTaskList (relationId : Oid) (commandString : string) : M (list Task) :=
  let shardIntervalList := LoadShardIntervalList env relationId in
  let schemaId := get_rel_namespace env relationId in
  let schemaName := get_namespace_name env schemaId in
  let escapedSchemaName := quote_literal_cstr env schemaName in
  let escapedCommandString := quote_literal_cstr env commandString in
  (* lock metadata before getting placement lists *)
  LockShardListMetadata shardIntervalList ShareLock ;;;
  DDLTaskList_foreach shardIntervalList 1 escapedSchemaName escapedCommandString.

(** The [forboth] loop of [InterShardDDLTaskList]: it stops at the end of
    the shorter list. *)
Fixpoint InterShardDDLTaskList_forboth (leftRelationId rightRelationId : Oid)
    (leftShardList rightShardList : list ShardInterval) (taskId : Z)
    (escapedLeftSchemaName escapedRightSchemaName escapedCommandString : string)
    : M (list Task) :=
  match leftShardList, rightShardList with
  | leftShardInterval :: leftRest, rightShardInterval :: rightRest =>
      let leftShardId := leftShardInterval.(shardId) in
      let rightShardId := rightShardInterval.(shardId) in
      let leftRelationShard :=
        {| rs_relationId := leftRelationId; rs_shardId := leftShardId |} in
      let rightRelationShard :=
        {| rs_relationId := rightRelationId; rs_shardId := rightShardId |} in
      let applyCommand :=
        WORKER_APPLY_INTER_SHARD_DDL_COMMAND env leftShardId escapedLeftSchemaName
          rightShardId escapedRightSchemaName escapedCommandString in
      placements <- FinalizedShardPlacementList leftShardId ;;
      let task :=
        {| jobId := INVALID_JOB_ID;
           taskId := taskId;
           taskType := DDL_TASK;
           queryString := applyCommand;
           replicationModel := REPLICATION_MODEL_INVALID;
           anchorShardId := leftShardId;
           taskPlacementList := placements;
           relationShardList := [leftRelationShard; rightRelationShard] |} in
      tasks <- InterShardDDLTaskList_forboth leftRelationId rightRelationId
                 leftRest rightRest (taskId + 1) escapedLeftSchemaName
                 escapedRightSchemaName escapedCommandString ;;
      ret (task :: tasks)
  | _, _ => ret []
  end.

(** The reference-table branch: [linitial(rightShardList)] is appended until
    the right list is as long as the left one. [linitial] of an empty list
    dereferences a null cell. *)
Definition broadcast_reference_shard (leftShardList rightShardList : list ShardInterval)
    : M (list ShardInterval) :=
  match rightShardList with
  | [] =>
      ereport_ERROR
        {| class := UncheckedAccess; sqlerrcode := ERRCODE_INTERNAL_ERROR;
           message := "linitial of an empty shard list"; hint := None |}
  | rightShardInterval :: _ =>
      let rightShardCount := List.length rightShardList in
      let leftShardCount := List.length leftShardList in
      ret (rightShardList
             ++ repeat rightShardInterval (leftShardCount - rightShardCount)%nat)
  end.

Definition InterShardDDLTaskList (leftRelationId rightRelationId : Oid)
    (commandString : string) : M (list Task) :=
  let leftShardList := LoadShardIntervalList env leftRelationId in
  let leftSchemaId := get_rel_namespace env leftRelationId in
  let leftSchemaName := get_namespace_name env leftSchemaId in
  let escapedLeftSchemaName := quote_literal_cstr env leftSchemaName in
  let rightPartitionMethod := PartitionMethod env rightRelationId in
  let rightShardList := LoadShardIntervalList env rightRelationId in
  let rightSchemaId := get_rel_namespace env rightRelationId in
  let rightSchemaName := get_namespace_name env rightSchemaId in
  let escapedRightSchemaName := quote_literal_cstr env rightSchemaName in
  let escapedCommandString := quote_literal_cstr env commandString in
  rightShardList <-
    (if PartitionMethodKind_eqb rightPartitionMethod DISTRIBUTE_BY_NONE
     then broadcast_reference_shard leftShardList rightShardList
     else ret rightShardList) ;;
  (* lock metadata before getting placement lists *)
  LockShardListMetadata leftShardList ShareLock ;;;
  InterShardDDLTaskList_forboth leftRelationId rightRelationId leftShardList
    rightShardList 1 escapedLeftSchemaName escapedRightSchemaName
    escapedCommandString.

End TaskLists.

(* ================================================================== *)
(** * Support validator and planner for ALTER TABLE ([utility_hook.c]) *)
(* ================================================================== *)

Section AlterTable.

Variable env : Env.

(** PostgreSQL's [RangeVarGetRelid(rangeVar, lockmode, missing_ok)]: the
    relation the name resolves to is locked in [lockmode] and returned; a
    name that resolves to nothing takes no lock. *)
Definition RangeVarGetRelid (rangeVar : RangeVar) (lockmode : LOCKMODE)
    (missingOK : bool) : M Oid :=
  let relationId := relid_of env rangeVar in
  if OidIsValid relationId then
    lock_relation relationId lockmode ;;;
    ret relationId
  else if missingOK then ret InvalidOid
  else ereport_ERROR
         {| class := UndefinedTable; sqlerrcode := ERRCODE_UNDEFINED_TABLE;
            message := "relation does not exist"; hint := None |}.

Definition unchecked_access {A : Type} (what : string) : M A :=
  ereport_ERROR
    {| class := UncheckedAccess; sqlerrcode := ERRCODE_INTERNAL_ERROR;
       message := what; hint := None |}.

(** PostgreSQL's [AlterTableLookupRelation(stmt, lockmode)]:
    [RangeVarGetRelid(stmt->relation, lockmode, stmt->missing_ok)]. *)
Definition AlterTableLookupRelation (alterTableStatement : AlterTableStmt)
    (lockmode : LOCKMODE) : M Oid :=
  match alterTableStatement.(relation) with
  | None => unchecked_access "alterTableStatement->relation is NULL"
  | Some rangeVar =>
      RangeVarGetRelid rangeVar lockmode alterTableStatement.(missing_ok)
  end.

(** The unchecked casts [(Constraint * ) command->def] and the like. *)
Definition as_Constraint (n : Node) : M Constraint :=
  match n with
  | T_Constraint c => ret c
  | _ => unchecked_access "command->def is not a Constraint"
  end.

Definition as_ColumnDef (n : Node) : M ColumnDef :=
  match n with
  | T_ColumnDef c => ret c
  | _ => unchecked_access "command->def is not a ColumnDef"
  end.

Definition as_PartitionCmd (n : Node) : M PartitionCmd :=
  match n with
  | T_PartitionCmd c => ret c
  | _ => unchecked_access "command->def is not a PartitionCmd"
  end.

Definition unsupported (msg : string) (h : option string) : ErrorData :=
  {| class := UnsupportedCommand; sqlerrcode := ERRCODE_FEATURE_NOT_SUPPORTED;
     message := msg; hint := h |}.

(** The one validator error raised without an [errcode]. *)
Definition involves_partition_column_error : ErrorData :=
  {| class := UnsupportedCommand; sqlerrcode := ERRCODE_INTERNAL_ERROR;
     message := "cannot execute ALTER TABLE command involving partition column";
     hint := None |}.

Definition MarkInvalidateForeignKeyGraph : M unit :=
  fun s => (Ok tt, with_invalidate_flag s true).

Definition InvalidateForeignKeyGraphForDDL : M unit :=
  s <- get_session ;;
  if s.(shouldInvalidateForeignKeyGraph)
  then emit EvInvalidateForeignKeyGraph ;;;
       (fun s => (Ok tt, with_invalidate_flag s false))
  else ret tt.

Definition AlterInvolvesPartitionColumn (alterTableStatement : AlterTableStmt)
    (command : AlterTableCmd) : M bool :=
  let alterColumnName := command.(name) in
  let lockmode := AlterTableGetLockLevel env alterTableStatement.(cmds) in
  relationId <- AlterTableLookupRelation alterTableStatement lockmode ;;
  if negb (OidIsValid relationId) then ret false
  else
    let partitionColumn := DistPartitionKey env relationId in
    match SearchSysCacheAttName env relationId alterColumnName with
    | Some attnum =>
        (* reference tables do not have partition column, so allow them *)
        match partitionColumn with
        | Some partitionColumn => ret (attnum =? partitionColumn.(varattno))
        | None => ret false
        end
    | None => ret false
    end.

Definition is_serial_pseudotype (typeName : string) : bool :=
  String.eqb typeName "smallserial" || String.eqb typeName "serial2" ||
  String.eqb typeName "serial" || String.eqb typeName "serial4" ||
  String.eqb typeName "bigserial" || String.eqb typeName "serial8".

(** How one iteration of a [foreach] ends: with [break] out of the
    [switch] (the loop goes on) or with [return]. *)
Inductive Flow := Continue | Return.

(** The body of the [foreach] loop of [ErrorIfUnsupportedAlterTableStmt]:
    the [switch] over the sub-command kind. *)
Definition ErrorIfUnsupportedAlterTableStmt_switch
    (alterTableStatement : AlterTableStmt) (command : AlterTableCmd) : M Flow :=
  let commandList := alterTableStatement.(cmds) in
  match command.(subtype) with
  | AT_AddColumn =>
      match command.(def) with
      | T_ColumnDef column =>
          match column.(typeName) with
          | Some tn =>
              match tn.(names) with
              | [typeName] =>
                  if negb tn.(pct_type) && is_serial_pseudotype typeName
                  then ereport_ERROR
                         (unsupported
                            "cannot execute ADD COLUMN commands involving serial pseudotypes"
                            None)
                  else ret Continue
              | _ => ret Continue
              end
          | None => ret Continue
          end
      | _ => ret Continue
      end
  | AT_DropColumn | AT_ColumnDefault | AT_AlterColumnType | AT_DropNotNull =>
      involves <- AlterInvolvesPartitionColumn alterTableStatement command ;;
      if involves then ereport_ERROR involves_partition_column_error
      else ret Continue
  | AT_AddConstraint =>
      (* we only allow constraints if they are only subcommand *)
      if (1 <? Z.of_nat (List.length commandList))
      then ereport_ERROR
             (unsupported "cannot execute ADD CONSTRAINT command with other subcommands"
                (Some "You can issue each subcommand separately"))
      else
        constraint <- as_Constraint command.(def) ;;
        match constraint.(conname) with
        | None =>
            ereport_ERROR
              (unsupported "cannot create constraint without a name on a distributed table"
                 None)
        | Some _ => ret Continue
        end
  | AT_AttachPartition =>
      relationId <- AlterTableLookupRelation alterTableStatement NoLock ;;
      partitionCommand <- as_PartitionCmd command.(def) ;;
      let missingOK := false in
      partitionRelationId <- RangeVarGetRelid partitionCommand.(pc_name) NoLock
                               missingOK ;;
      (* we only allow partitioning commands if they are only subcommand *)
      if (1 <? Z.of_nat (List.length commandList))
      then ereport_ERROR
             (unsupported "cannot execute ATTACH PARTITION command with other subcommands"
                (Some "You can issue each subcommand separately."))
      else if IsDistributedTable env partitionRelationId &&
              negb (TablesColocated env relationId partitionRelationId)
      then ereport_ERROR
             (unsupported
                "distributed tables cannot have non-colocated distributed tables as a partition "
                None)
      else ret Continue
  | AT_DetachPartition =>
      (* we only allow partitioning commands if they are only subcommand *)
      if (1 <? Z.of_nat (List.length commandList))
      then ereport_ERROR
             (unsupported "cannot execute DETACH PARTITION command with other subcommands"
                (Some "You can issue each subcommand separately."))
      else ret Continue
  | AT_DropConstraint =>
      let lockmode := AlterTableGetLockLevel env alterTableStatement.(cmds) in
      relationId <- AlterTableLookupRelation alterTableStatement lockmode ;;
      if negb (OidIsValid relationId) then ret Return
      else if ConstraintIsAForeignKey env command.(name) relationId
      then MarkInvalidateForeignKeyGraph ;;; ret Continue
      else ret Continue
  | AT_SetNotNull | AT_EnableTrigAll | AT_DisableTrigAll | AT_ReplicaIdentity =>
      ret Continue
  | AT_SetRelOptions | AT_ResetRelOptions | AT_ReplaceRelOptions =>
      (* this command is supported by Citus *)
      ret Continue
  | AT_SetTableSpace | AT_Other _ =>
      ereport_ERROR (unsupported "alter table command is currently unsupported" None)
  end.

Fixpoint ErrorIfUnsupportedAlterTableStmt_foreach
    (alterTableStatement : AlterTableStmt) (commands : list AlterTableCmd) : M unit :=
  match commands with
  | [] => ret tt
  | command :: rest =>
      flow <- ErrorIfUnsupportedAlterTableStmt_switch alterTableStatement command ;;
      match flow with
      | Continue => ErrorIfUnsupportedAlterTableStmt_foreach alterTableStatement rest
      | Return => ret tt
      end
  end.

Definition ErrorIfUnsupportedAlterTableStmt (alterTableStatement : AlterTableStmt)
    : M unit :=
  ErrorIfUnsupportedAlterTableStmt_foreach alterTableStatement
    alterTableStatement.(cmds).

Fixpoint ErrorIfUnsupportedAlterIndexStmt_foreach (commands : list AlterTableCmd)
    : M unit :=
  match commands with
  | [] => ret tt
  | command :: rest =>
      match command.(subtype) with
      | AT_SetRelOptions | AT_ResetRelOptions | AT_ReplaceRelOptions =>
          ErrorIfUnsupportedAlterIndexStmt_foreach rest
      | _ =>
          ereport_ERROR
            (unsupported "alter index ... set tablespace ... is currently unsupported"
               None)
      end
  end.

Definition ErrorIfUnsupportedAlterIndexStmt (alterTableStatement : AlterTableStmt)
    : M unit :=
  ErrorIfUnsupportedAlterIndexStmt_foreach alterTableStatement.(cmds).

(* ------------------------------------------------------------------ *)
(** ** Execution mode *)

(** [SetLocalMultiShardModifyModeToSequential()] sets the transaction-local
    [citus.multi_shard_modify_mode] to sequential. *)
Definition SetLocalMultiShardModifyModeToSequential : M unit :=
  fun s => (Ok tt, with_connection_type s SEQUENTIAL_CONNECTION).

Definition is_reference_table (relationId : Oid) : bool :=
  IsDistributedTable env relationId &&
  PartitionMethodKind_eqb (PartitionMethod env relationId) DISTRIBUTE_BY_NONE.

Definition conflicting_execution_mode_error (relationName : string) : ErrorData :=
  {| class := ConflictingExecutionMode; sqlerrcode := ERRCODE_INTERNAL_ERROR;
     message := ("cannot modify table " ++ dquote ++ relationName ++ dquote ++
                 " because there was a parallel operation on a distributed table in the transaction")%string;
     hint := Some ("Try re-running the transaction with " ++ dquote ++
                   "SET LOCAL citus.multi_shard_modify_mode TO 'sequential';" ++
                   dquote)%string |}.

(** The [foreach] over the column constraints of an ADD COLUMN in
    [SetupExecutionModeForAlterTable] (no [break]: every foreign key is
    looked up). *)
Fixpoint SetupExecutionMode_column_constraints (columnConstraints : list Constraint)
    (executeSequentially : bool) : M bool :=
  match columnConstraints with
  | [] => ret executeSequentially
  | constraint :: rest =>
      if is_CONSTR_FOREIGN constraint.(contype)
      then
        rightRelationId <- RangeVarGetRelid constraint.(pktable) NoLock false ;;
        SetupExecutionMode_column_constraints rest
          (if is_reference_table rightRelationId then true else executeSequentially)
      else SetupExecutionMode_column_constraints rest executeSequentially
  end.

Definition SetupExecutionModeForAlterTable (relationId : Oid) (command : AlterTableCmd)
    : M bool :=
  executeSequentially <-
    match command.(subtype) with
    | AT_DropConstraint =>
        let constraintName := command.(name) in
        ret (ConstraintIsAForeignKeyToReferenceTable env constraintName relationId)
    | AT_AddColumn =>
        columnDefinition <- as_ColumnDef command.(def) ;;
        SetupExecutionMode_column_constraints columnDefinition.(constraints) false
    | AT_DropColumn | AT_AlterColumnType =>
        let affectedColumnName := command.(name) in
        if ColumnAppearsInForeignKeyToReferenceTable env affectedColumnName relationId
        then
          s <- get_session ;;
          (if s.(IsTransactionBlock) &&
              match command.(subtype) with AT_AlterColumnType => true | _ => false end
           then SetLocalMultiShardModifyModeToSequential
           else ret tt) ;;;
          ret true
        else ret false
    | AT_AddConstraint =>
        constraint <- as_Constraint command.(def) ;;
        if is_CONSTR_FOREIGN constraint.(contype)
        then
          rightRelationId <- RangeVarGetRelid constraint.(pktable) NoLock false ;;
          ret (is_reference_table rightRelationId)
        else ret false
    | _ => ret false
    end ;;
  s <- get_session ;;
  if executeSequentially && IsDistributedTable env relationId &&
     negb (PartitionMethodKind_eqb (PartitionMethod env relationId) DISTRIBUTE_BY_NONE) &&
     s.(ParallelQueryExecutedInTransaction)
  then ereport_ERROR (conflicting_execution_mode_error (get_rel_name env relationId))
  else ret executeSequentially.

(* ------------------------------------------------------------------ *)
(** ** Planner *)

(** The first foreign key among the column constraints of an ADD COLUMN
    ([break] after it); [rightRelationId] is kept when there is none. The
    write to [constraint->skip_validation] is not part of the model. *)
Fixpoint PlanAlterTableStmt_column_constraints (lockmode : LOCKMODE)
    (missingOK : bool) (columnConstraints : list Constraint)
    (rightRelationId : Oid) : M Oid :=
  match columnConstraints with
  | [] => ret rightRelationId
  | constraint :: rest =>
      if is_CONSTR_FOREIGN constraint.(contype)
      then RangeVarGetRelid constraint.(pktable) lockmode missingOK
      else PlanAlterTableStmt_column_constraints lockmode missingOK rest
             rightRelationId
  end.

(** The [foreach] over the sub-commands in [PlanAlterTableStmt]. [None] is
    the [return NIL] inside the loop. [lockmode] is the function's local
    variable, set from the statement's sub-commands before the loop. *)
Fixpoint PlanAlterTableStmt_foreach (alterTableStatement : AlterTableStmt)
    (leftRelationId : Oid) (commands : list AlterTableCmd)
    (rightRelationId : Oid) (executeSequentially : bool)
    : M (option (Oid * bool)) :=
  match commands with
  | [] => ret (Some (rightRelationId, executeSequentially))
  | command :: rest =>
      let lockmode := AlterTableGetLockLevel env alterTableStatement.(cmds) in
      right <-
        match command.(subtype) with
        | AT_AddConstraint =>
            constraint <- as_Constraint command.(def) ;;
            if is_CONSTR_FOREIGN constraint.(contype)
            then
              relid <- RangeVarGetRelid constraint.(pktable) lockmode
                         alterTableStatement.(missing_ok) ;;
              ret (Some relid)
            else ret (Some rightRelationId)
        | AT_AddColumn =>
            columnDefinition <- as_ColumnDef command.(def) ;;
            relid <- PlanAlterTableStmt_column_constraints lockmode
                       alterTableStatement.(missing_ok)
                       columnDefinition.(constraints) rightRelationId ;;
            ret (Some relid)
        | AT_AttachPartition =>
            partitionCommand <- as_PartitionCmd command.(def) ;;
            relid <- RangeVarGetRelid partitionCommand.(pc_name) NoLock false ;;
            (* Do not generate tasks if relation is distributed and the
               partition is not distributed. *)
            if negb (IsDistributedTable env relid) then ret None
            else ret (Some relid)
        | AT_DetachPartition =>
            partitionCommand <- as_PartitionCmd command.(def) ;;
            relid <- RangeVarGetRelid partitionCommand.(pc_name) NoLock false ;;
            ret (Some relid)
        | _ => ret (Some rightRelationId)
        end ;;
      match right with
      | None => ret None
      | Some rightRelationId =>
          sequential <- SetupExecutionModeForAlterTable leftRelationId command ;;
          PlanAlterTableStmt_foreach alterTableStatement leftRelationId rest
            rightRelationId (executeSequentially || sequential)
      end
  end.

Definition is_RELKIND_INDEX (k : RelKind) : bool :=
  match k with RELKIND_INDEX => true | _ => false end.

Definition PlanAlterTableStmt (alterTableStatement : AlterTableStmt)
    (alterTableCommand : string) : M (list DDLJob) :=
  (* first check whether a distributed relation is affected *)
  match alterTableStatement.(relation) with
  | None => ret []
  | Some _ =>
      let lockmode := AlterTableGetLockLevel env alterTableStatement.(cmds) in
      leftRelationId <- AlterTableLookupRelation alterTableStatement lockmode ;;
      if negb (OidIsValid leftRelationId) then ret []
      else
        let leftRelationKind := get_rel_relkind env leftRelationId in
        let leftRelationId :=
          if is_RELKIND_INDEX leftRelationKind
          then IndexGetRelation env leftRelationId
          else leftRelationId in
        if negb (IsDistributedTable env leftRelationId) then ret []
        else
          (if is_RELKIND_INDEX leftRelationKind
           then ErrorIfUnsupportedAlterIndexStmt alterTableStatement
           else ErrorIfUnsupportedAlterTableStmt alterTableStatement) ;;;
          planned <- PlanAlterTableStmt_foreach alterTableStatement leftRelationId
                       alterTableStatement.(cmds) InvalidOid false ;;
          match planned with
          | None => ret []
          | Some (rightRelationId, executeSequentially) =>
              tasks <-
                (if OidIsValid rightRelationId
                 then
                   if negb (IsDistributedTable env rightRelationId) then ret []
                   else
                     (* if foreign key related, use specialized task list function ... *)
                     InterShardDDLTaskList env leftRelationId rightRelationId
                       alterTableCommand
                 else
                   (* ... otherwise use standard DDL task list function *)
                   DDLTaskList env leftRelationId alterTableCommand) ;;
              ret [ {| targetRelationId := leftRelationId;
                       concurrentIndexCmd := false;
                       executeSequentially := executeSequentially;
                       commandString := alterTableCommand;
                       taskList := tasks |} ]
          end
  end.

End AlterTable.

(* ================================================================== *)
(** * Constraint validation ([ErrorIfUnsupportedConstraint]) *)
(* ================================================================== *)

Section Constraints.

Variable env : Env.

(** The [for] loop over the key attributes of one index, from
    [attributeIndex] on, for [remaining] more iterations; the result is
    [hasDistributionColumn]. *)
Fixpoint index_has_distribution_column (indexInfo : IndexInfo)
    (distributionColumn : Var) (attributeIndex remaining : nat) : bool :=
  match remaining with
  | O => false
  | S remaining' =>
      let attributeNumber := nth attributeIndex indexInfo.(ii_KeyAttrNumbers) 0 in
      if negb (distributionColumn.(varattno) =? attributeNumber)
      then index_has_distribution_column indexInfo distributionColumn
             (S attributeIndex) remaining'
      else
        let uniqueConstraint := indexInfo.(ii_Unique) in
        let exclusionConstraintWithEquality :=
          match indexInfo.(ii_ExclusionOps) with
          | Some ops => OperatorImplementsEquality env (nth attributeIndex ops InvalidOid)
          | None => false
          end in
        if uniqueConstraint || exclusionConstraintWithEquality then true
        else index_has_distribution_column indexInfo distributionColumn
               (S attributeIndex) remaining'
  end.

Definition append_table_constraint_warning (relationName : string) : Event :=
  EvWarning ERRCODE_FEATURE_NOT_SUPPORTED
    ("table " ++ dquote ++ relationName ++ dquote ++
     " has a UNIQUE or EXCLUDE constraint")%string.

Definition constraint_without_partition_column_error (relationName : string)
    : ErrorData :=
  {| class := UnsupportedCommand; sqlerrcode := ERRCODE_FEATURE_NOT_SUPPORTED;
     message := ("cannot create constraint on " ++ dquote ++ relationName ++ dquote)%string;
     hint := None |}.

Definition is_DISTRIBUTE_BY_NONE (m : PartitionMethodKind) : bool :=
  PartitionMethodKind_eqb m DISTRIBUTE_BY_NONE.

Definition is_DISTRIBUTE_BY_APPEND (m : PartitionMethodKind) : bool :=
  PartitionMethodKind_eqb m DISTRIBUTE_BY_APPEND.

(** The [foreach] over the indexes of the relation. *)
Fixpoint ErrorIfUnsupportedConstraint_foreach (relationName : string)
    (distributionMethod : PartitionMethodKind) (distributionColumn : option Var)
    (indexOidList : list Oid) : M unit :=
  match indexOidList with
  | [] => ret tt
  | indexOid :: rest =>
      index_open indexOid RowExclusiveLock ;;;
      (* extract index key information from the index's pg_index info *)
      let indexInfo := BuildIndexInfo env indexOid in
      (* only check unique indexes and exclusion constraints. *)
      if negb indexInfo.(ii_Unique) &&
         match indexInfo.(ii_ExclusionOps) with None => true | Some _ => false end
      then ErrorIfUnsupportedConstraint_foreach relationName distributionMethod
             distributionColumn rest
      else
        (if is_DISTRIBUTE_BY_APPEND distributionMethod
         then emit (append_table_constraint_warning relationName)
         else ret tt) ;;;
        let attributeCount := Z.to_nat indexInfo.(ii_NumIndexAttrs) in
        hasDistributionColumn <-
          match distributionColumn with
          | Some distributionColumn =>
              ret (index_has_distribution_column indexInfo distributionColumn
                     0 attributeCount)
          | None =>
              match attributeCount with
              | O => ret false
              | S _ => unchecked_access "distributionColumn is NULL"
              end
          end ;;
        if negb hasDistributionColumn
        then ereport_ERROR (constraint_without_partition_column_error relationName)
        else ErrorIfUnsupportedConstraint_foreach relationName distributionMethod
               distributionColumn rest
  end.

(** [ErrorIfUnsupportedForeignConstraint] of [foreign_constraint.c]: the
    environment says whether it raises. *)
Definition ErrorIfUnsupportedForeignConstraint (relation : Oid)
    (distributionMethod : PartitionMethodKind) (distributionColumn : option Var)
    (colocationId : Z) : M unit :=
  match foreign_constraint_outcome env relation distributionMethod
          distributionColumn colocationId with
  | None => ret tt
  | Some e => ereport_ERROR e
  end.

Definition ErrorIfUnsupportedConstraint (relation : Oid)
    (distributionMethod : PartitionMethodKind) (distributionColumn : option Var)
    (colocationId : Z) : M unit :=
  ErrorIfUnsupportedForeignConstraint relation distributionMethod distributionColumn
    colocationId ;;;
  if is_DISTRIBUTE_BY_NONE distributionMethod then ret tt
  else
    let relationName := get_rel_name env relation in
    let indexOidList := RelationGetIndexList env relation in
    ErrorIfUnsupportedConstraint_foreach relationName distributionMethod
      distributionColumn indexOidList.

Definition ErrorIfUnsupportedAlterAddConstraintStmt
    (alterTableStatement : AlterTableStmt) : M unit :=
  let lockmode := AlterTableGetLockLevel env alterTableStatement.(cmds) in
  relationId <- AlterTableLookupRelation env alterTableStatement lockmode ;;
  let distributionMethod := PartitionMethod env relationId in
  let distributionColumn := DistPartitionKey env relationId in
  let colocationId := TableColocationId env relationId in
  relation_open relationId ExclusiveLock ;;;
  ErrorIfUnsupportedConstraint relationId distributionMethod distributionColumn
    colocationId.

End Constraints.

(* ================================================================== *)
(** * TRUNCATE and the distributed lock orderer ([tablecmds.c]) *)
(* ================================================================== *)

(** Modelled from the spec: [SortList] of [listutils.c] is not part of this
    source. It returns the list sorted by the C comparator ([<= 0] means
    "not after"); the model inserts from the right, which keeps the order
    of elements that compare equal. *)
Fixpoint SortList_insert {A : Type} (compare : A -> A -> Z) (x : A) (l : list A) : list A :=
  match l with
  | [] => [x]
  | y :: l' =>
      if compare x y <=? 0 then x :: l
      else y :: SortList_insert compare x l'
  end.

Definition SortList {A : Type} (l : list A) (compare : A -> A -> Z) : list A :=
  fold_right (SortList_insert compare) [] l.

(** Modelled from the spec: [CompareOids] is not part of this source; object
    ids are compared as numbers. *)
Definition CompareOids (left right : Oid) : Z :=
  if left <? right then -1 else if right <? left then 1 else 0.

Definition comparison_to_int (c : comparison) : Z :=
  match c with Lt => -1 | Eq => 0 | Gt => 1 end.

(** Modelled from the spec: [CompareWorkerNodes] is not part of this source;
    the order over worker nodes is total, by group id then address (name,
    then port). *)
Definition CompareWorkerNodes (left right : WorkerNode) : Z :=
  match left.(groupId) ?= right.(groupId) with
  | Eq =>
      match String.compare left.(workerName) right.(workerName) with
      | Eq => comparison_to_int (left.(workerPort) ?= right.(workerPort))
      | c => comparison_to_int c
      end
  | c => comparison_to_int c
  end.

Section Truncate.

Variable env : Env.

Definition LOCK_RELATION_IF_EXISTS (qualifiedRelationName lockModeText : string) : string :=
  ("SELECT lock_relation_if_exists('" ++ qualifiedRelationName ++ "', '" ++
   lockModeText ++ "');")%string.

Definition sequential_truncate_debug_message : string :=
  "switching to sequential query execution mode".

(** The [foreach] of [ExecuteTruncateStmtSequentialIfNecessary]; it returns
    at the first relation that calls for sequential mode. *)
Fixpoint ExecuteTruncateStmtSequentialIfNecessary_foreach (relationList : list RangeVar)
    : M unit :=
  match relationList with
  | [] => ret tt
  | rangeVar :: rest =>
      let failOK := false in
      relationId <- RangeVarGetRelid env rangeVar NoLock failOK ;;
      if IsDistributedTable env relationId &&
         PartitionMethodKind_eqb (PartitionMethod env relationId) DISTRIBUTE_BY_NONE &&
         TableReferenced env relationId
      then
        emit (EvDebug1 sequential_truncate_debug_message) ;;;
        SetLocalMultiShardModifyModeToSequential
        (* nothing to do more *)
      else ExecuteTruncateStmtSequentialIfNecessary_foreach rest
  end.

Definition ExecuteTruncateStmtSequentialIfNecessary (command : TruncateStmt) : M unit :=
  ExecuteTruncateStmtSequentialIfNecessary_foreach command.(relations).

Definition LockRelationOid (relationId : Oid) (lockMode : LOCKMODE) : M unit :=
  emit (EvLockRelationOid relationId lockMode).

Definition SendCommandToWorker (nodeName : string) (nodePort : Z) (command : string)
    : M unit :=
  request (EvSendCommandToWorker nodeName nodePort command)
    (worker_command_outcome env nodeName nodePort command).

(** The inner [foreach] of [AcquireDistributedLockOnRelations]. *)
Fixpoint AcquireDistributedLock_workers (relationId : Oid) (lockMode : LOCKMODE)
    (lockRelationCommand : string) (workerNodeList : list WorkerNode) : M unit :=
  match workerNodeList with
  | [] => ret tt
  | workerNode :: rest =>
      let nodeName := workerNode.(workerName) in
      let nodePort := workerNode.(workerPort) in
      (* if local node is one of the targets, acquire the lock locally *)
      (if workerNode.(groupId) =? GetLocalGroupId env
       then LockRelationOid relationId lockMode
       else SendCommandToWorker nodeName nodePort lockRelationCommand) ;;;
      AcquireDistributedLock_workers relationId lockMode lockRelationCommand rest
  end.

(** The outer [foreach] of [AcquireDistributedLockOnRelations]. *)
Fixpoint AcquireDistributedLock_relations (lockMode : LOCKMODE)
    (workerNodeList : list WorkerNode) (relationIdList : list Oid) : M unit :=
  match relationIdList with
  | [] => ret tt
  | relationId :: rest =>
      (if ShouldSyncTableMetadata env relationId
       then
         let qualifiedRelationName := generate_qualified_relation_name env relationId in
         let lockRelationCommand :=
           LOCK_RELATION_IF_EXISTS qualifiedRelationName
             (LockModeToLockModeText env lockMode) in
         AcquireDistributedLock_workers relationId lockMode lockRelationCommand
           workerNodeList
       else ret tt) ;;;
      AcquireDistributedLock_relations lockMode workerNodeList rest
  end.

Definition AcquireDistributedLockOnRelations (relationIdList : list Oid)
    (lockMode : LOCKMODE) : M unit :=
  let workerNodeList := ActivePrimaryNodeList env in
  let relationIdList := SortList relationIdList CompareOids in
  let workerNodeList := SortList workerNodeList CompareWorkerNodes in
  emit EvBeginOrContinueCoordinatedTransaction ;;;
  AcquireDistributedLock_relations lockMode workerNodeList relationIdList.

Definition list_member_oid (l : list Oid) (o : Oid) : bool :=
  existsb (Z.eqb o) l.

Definition list_append_unique_oid (l : list Oid) (o : Oid) : list Oid :=
  if list_member_oid l o then l else l ++ [o].

(** The [foreach] of [LockTruncatedRelationMetadataInWorkers];
    [heap_openrv] raises for a relation that does not exist. *)
Fixpoint LockTruncatedRelationMetadataInWorkers_foreach (relationList : list RangeVar)
    (distributedRelationList : list Oid) : M (list Oid) :=
  match relationList with
  | [] => ret distributedRelationList
  | relationRV :: rest =>
      relationId <- RangeVarGetRelid env relationRV NoLock false ;;
      if negb (IsDistributedTable env relationId)
      then LockTruncatedRelationMetadataInWorkers_foreach rest distributedRelationList
      else if list_member_oid distributedRelationList relationId
      then LockTruncatedRelationMetadataInWorkers_foreach rest distributedRelationList
      else
        let distributedRelationList := distributedRelationList ++ [relationId] in
        let referencingTableList := referencingRelationsViaForeignKey env relationId in
        LockTruncatedRelationMetadataInWorkers_foreach rest
          (fold_left list_append_unique_oid referencingTableList distributedRelationList)
  end.

Definition LockTruncatedRelationMetadataInWorkers (truncateStatement : TruncateStmt)
    : M unit :=
  (* nothing to do if there is no metadata at worker nodes *)
  if negb (ClusterHasKnownMetadataWorkers env) then ret tt
  else
    distributedRelationList <-
      LockTruncatedRelationMetadataInWorkers_foreach truncateStatement.(relations) [] ;;
    match distributedRelationList with
    | [] => ret tt
    | _ => AcquireDistributedLockOnRelations distributedRelationList AccessExclusiveLock
    end.

End Truncate.

(* ================================================================== *)
(** * Execution coordinator ([utility_hook.c]) *)
(* ================================================================== *)

Section Execution.

Variable env : Env.

(** [EnsureCoordinator] and [EnsurePartitionTableNotReplicated] belong to
    other modules; the environment says whether they raise. *)
Definition EnsureCoordinator : M unit :=
  if IsCoordinator env then ret tt
  else ereport_ERROR
         {| class := NotCoordinator; sqlerrcode := ERRCODE_FEATURE_NOT_SUPPORTED;
            message := "operation is not allowed on this node";
            hint := Some "Connect to the coordinator and run it again." |}.

Definition EnsurePartitionTableNotReplicated (relationId : Oid) : M unit :=
  if PartitionTableReplicated env relationId
  then ereport_ERROR
         (unsupported
            "modifications on partitions when replication factor is greater than 1 is not supported"
            None)
  else ret tt.

Definition SendCommandToWorkers (target : TargetWorkerSet) (command : string) : M unit :=
  request (EvSendCommandToWorkers target command)
    (workers_command_outcome env target command).

Definition SendBareCommandListToWorkers (target : TargetWorkerSet)
    (commandList : list string) : M unit :=
  request (EvSendBareCommandListToWorkers target commandList)
    (bare_commands_outcome env target commandList).

Definition ExecuteModifyTasksSequentiallyWithoutResults (taskList : list Task) : M unit :=
  request (EvExecuteModifyTasksSequentiallyWithoutResults taskList)
    (tasks_outcome env taskList).

Definition ExecuteModifyTasksWithoutResults (taskList : list Task) : M unit :=
  request (EvExecuteModifyTasksWithoutResults taskList) (tasks_outcome env taskList).

(** The loop of [CurrentSearchPath] over the schema names of the search
    path. *)
Fixpoint CurrentSearchPath_foreach (schemaNames : list (option string))
    (currentSearchPath : string) (schemaAdded : bool) : string :=
  match schemaNames with
  | [] => currentSearchPath
  | None :: rest => CurrentSearchPath_foreach rest currentSearchPath schemaAdded
  | Some schemaName :: rest =>
      let currentSearchPath :=
        if schemaAdded then (currentSearchPath ++ ",")%string else currentSearchPath in
      CurrentSearchPath_foreach rest
        (currentSearchPath ++ quote_identifier env schemaName)%string true
  end.

Definition CurrentSearchPath : option string :=
  let currentSearchPath :=
    CurrentSearchPath_foreach (search_path_schema_names env) "" false in
  if (0 <? String.length currentSearchPath)%nat then Some currentSearchPath else None.

Definition SetSearchPathToCurrentSearchPathCommand : option string :=
  match CurrentSearchPath with
  | None => None
  | Some currentSearchPath =>
      Some ("SET search_path TO " ++ currentSearchPath ++ ";")%string
  end.

Definition partial_index_failure_error : ErrorData :=
  {| class := PartialIndexFailure; sqlerrcode := ERRCODE_INTERNAL_ERROR;
     message := "CONCURRENTLY-enabled index command failed";
     hint := Some "Use DROP INDEX CONCURRENTLY IF EXISTS to remove the invalid index, then retry the original command." |}.

Definition is_SEQUENTIAL_CONNECTION (c : ConnectionType) : bool :=
  match c with SEQUENTIAL_CONNECTION => true | PARALLEL_CONNECTION => false end.

Definition ExecuteDistributedDDLJob (ddlJob : DDLJob) : M unit :=
  let shouldSyncMetadata := ShouldSyncTableMetadata env ddlJob.(targetRelationId) in
  EnsureCoordinator ;;;
  EnsurePartitionTableNotReplicated ddlJob.(targetRelationId) ;;;
  if negb ddlJob.(concurrentIndexCmd)
  then
    (if shouldSyncMetadata
     then
       let setSearchPathCommand := SetSearchPathToCurrentSearchPathCommand in
       SendCommandToWorkers WORKERS_WITH_METADATA (DISABLE_DDL_PROPAGATION env) ;;;
       match setSearchPathCommand with
       | Some setSearchPathCommand =>
           SendCommandToWorkers WORKERS_WITH_METADATA setSearchPathCommand
       | None => ret tt
       end ;;;
       SendCommandToWorkers WORKERS_WITH_METADATA ddlJob.(commandString)
     else ret tt) ;;;
    s <- get_session ;;
    if is_SEQUENTIAL_CONNECTION s.(MultiShardConnectionType) ||
       ddlJob.(executeSequentially)
    then ExecuteModifyTasksSequentiallyWithoutResults ddlJob.(taskList)
    else ExecuteModifyTasksWithoutResults ddlJob.(taskList)
  else
    (* save old commit protocol to restore at xact end *)
    (fun s => (Ok tt, with_commit_protocol s COMMIT_PROTOCOL_BARE
                        s.(MultiShardCommitProtocol))) ;;;
    PG_TRY
      (ExecuteModifyTasksSequentiallyWithoutResults ddlJob.(taskList) ;;;
       if shouldSyncMetadata
       then
         let commandList := [DISABLE_DDL_PROPAGATION env] in
         let setSearchPathCommand := SetSearchPathToCurrentSearchPathCommand in
         let commandList :=
           match setSearchPathCommand with
           | Some setSearchPathCommand => commandList ++ [setSearchPathCommand]
           | None => commandList
           end in
         let commandList := commandList ++ [ddlJob.(commandString)] in
         SendBareCommandListToWorkers WORKERS_WITH_METADATA commandList
       else ret tt)
      (fun _ => ereport_ERROR partial_index_failure_error).

(* ------------------------------------------------------------------ *)
(** ** Index validity and [PostProcessUtility] *)

(** The value of [indisvalid] the open transaction sees. *)
Fixpoint lookup_pending (pending : list (Oid * bool)) (indexRelationId : Oid)
    : option bool :=
  match pending with
  | [] => None
  | (o, b) :: rest =>
      match lookup_pending rest indexRelationId with
      | Some b' => Some b'
      | None => if o =? indexRelationId then Some b else None
      end
  end.

Definition indisvalid (s : Session) (indexRelationId : Oid) : bool :=
  match lookup_pending s.(indisvalid_pending) indexRelationId with
  | Some b => b
  | None => s.(indisvalid_durable) indexRelationId
  end.

(** [CommitTransactionCommand()]: the updates of the transaction become
    durable. *)
Definition CommitTransactionCommand : M unit :=
  (fun s =>
     (Ok tt,
      with_pg_index s
        (fun o => indisvalid s o)
        [])) ;;;
  emit EvCommitTransactionCommand.

Definition StartTransactionCommand : M unit := emit EvStartTransactionCommand.

(** What PostgreSQL does when an [ERROR] ends the command: the open
    transaction is rolled back, its updates are dropped. *)
Definition AbortCurrentTransaction (s : Session) : Session :=
  with_pg_index s s.(indisvalid_durable) [].

(** [index_set_state_flags(indexRelationId, INDEX_DROP_CLEAR_VALID)]: an
    in-place, non-transactional update of the [pg_index] row. *)
Definition index_set_state_flags_INDEX_DROP_CLEAR_VALID (indexRelationId : Oid) : M unit :=
  fun s =>
    (Ok tt,
     with_pg_index s
       (fun o => if o =? indexRelationId then false else s.(indisvalid_durable) o)
       s.(indisvalid_pending)).

(** [indexForm->indisvalid = true; CatalogTupleUpdate(...)]: an update of
    the open transaction. *)
Definition CatalogTupleUpdate_indisvalid (indexRelationId : Oid) : M unit :=
  fun s =>
    (Ok tt,
     with_pg_index s s.(indisvalid_durable)
       (s.(indisvalid_pending) ++ [(indexRelationId, true)])).

(** PostgreSQL's [heap_openrv(rangeVar, lockmode)]: the relation is
    resolved and locked; a relation that does not exist raises. *)
Definition heap_openrv (rangeVar : RangeVar) (lockmode : LOCKMODE) : M Oid :=
  RangeVarGetRelid env rangeVar lockmode false.

Definition PostProcessUtility (parsetree : UtilityStmt) : M unit :=
  match parsetree with
  | T_IndexStmt indexStmt =>
      (* and even then only if they're CONCURRENT *)
      if negb indexStmt.(concurrent) then ret tt
      (* finally, this logic only applies to the coordinator *)
      else if negb (IsCoordinator env) then ret tt
      else
        (* commit the current transaction and start anew *)
        CommitTransactionCommand ;;;
        StartTransactionCommand ;;;
        (* get the affected relation and index *)
        relation <- heap_openrv indexStmt.(ix_relation) ShareUpdateExclusiveLock ;;
        let indexRelationId :=
          get_relname_relid env indexStmt.(idxname) (get_rel_namespace env relation) in
        index_open indexRelationId RowExclusiveLock ;;;
        (* mark index as invalid, in-place (cannot be rolled back) *)
        index_set_state_flags_INDEX_DROP_CLEAR_VALID indexRelationId ;;;
        (* re-open a transaction command from here on out *)
        CommitTransactionCommand ;;;
        StartTransactionCommand ;;;
        (* now, update index's validity in a way that can roll back *)
        heap_open IndexRelationId RowExclusiveLock ;;;
        CatalogTupleUpdate_indisvalid indexRelationId
  | _ => ret tt
  end.

Fixpoint ExecuteDistributedDDLJobs (ddlJobs : list DDLJob) : M unit :=
  match ddlJobs with
  | [] => ret tt
  | ddlJob :: rest =>
      ExecuteDistributedDDLJob ddlJob ;;;
      ExecuteDistributedDDLJobs rest
  end.

(** The part of [multi_ProcessUtility] that follows the local command, for
    an index statement: post-processing, the foreign-key graph flush, then
    the worker jobs. *)
Definition multi_ProcessUtility_after_local_IndexStmt (indexStmt : IndexStmt)
    (ddlJobs : list DDLJob) : M unit :=
  (* don't run post-process code for local commands *)
  match ddlJobs with
  | [] => ret tt
  | _ => PostProcessUtility (T_IndexStmt indexStmt)
  end ;;;
  InvalidateForeignKeyGraphForDDL ;;;
  (* after local command has completed, finish by executing worker DDLJobs, if any *)
  ExecuteDistributedDDLJobs ddlJobs.

End Execution.

(* ================================================================== *)
(** * The other commands of the utility hook *)
(* ================================================================== *)

(** ** Parse trees and helpers of other modules *)

(** The values of PostgreSQL's [ObjectType] that the rename code tells
    apart. *)
Inductive RenameObjectType :=
| RENAME_OBJECT_TABLE
| RENAME_OBJECT_COLUMN
| RENAME_OBJECT_TABCONSTRAINT
| RENAME_OBJECT_INDEX
| RENAME_OBJECT_POLICY
| RENAME_OBJECT_FOREIGN_TABLE
| RENAME_OBJECT_OTHER.

Record RenameStmt := mkRenameStmt {
  renameType : RenameObjectType;
  relationType : RenameObjectType;
  rn_relation : RangeVar;
  rn_missing_ok : bool
}.

Record AlterObjectSchemaStmt := mkAlterObjectSchemaStmt {
  aos_relation : option RangeVar;
  aos_missing_ok : bool
}.

(** A VACUUM or ANALYZE statement: the option bits, and per target
    relation its name and the explicit column list. *)
Record VacuumRelation := mkVacuumRelation {
  vr_relation : RangeVar;
  va_cols : list string
}.

Record VacuumStmt := mkVacuumStmt {
  options : Z;
  rels : list VacuumRelation
}.

Inductive DropBehavior := DROP_RESTRICT | DROP_CASCADE.

(** A DROP statement: for DROP TABLE the objects are table names, for DROP
    SCHEMA schema names. *)
Record DropTableStmt := mkDropTableStmt { dt_objects : list RangeVar }.

Record DropSchemaStmt := mkDropSchemaStmt {
  ds_objects : list string;
  behavior : DropBehavior
}.


Inductive GrantTargetType := ACL_TARGET_OBJECT | ACL_TARGET_ALL_IN_SCHEMA | ACL_TARGET_DEFAULTS.

Inductive GrantObjectType := RELATION_OBJECT_TYPE | OTHER_GRANT_OBJECT_TYPE.

Record AccessPriv := mkAccessPriv {
  priv_name : string;
  cols : list string
}.

Inductive RoleSpecType :=
| ROLESPEC_CSTRING
| ROLESPEC_CURRENT_USER
| ROLESPEC_SESSION_USER
| ROLESPEC_PUBLIC.

Record RoleSpec := mkRoleSpec {
  roletype : RoleSpecType;
  rolename : string
}.

(** The objects of a GRANT are relation names for a grant on tables and
    schema names for a grant on all tables of schemas. *)
Inductive GrantObject :=
| GrantRelation (relvar : RangeVar)
| GrantSchema (nspname : string).

Record GrantStmt := mkGrantStmt {
  is_grant : bool;
  targtype : GrantTargetType;
  objtype : GrantObjectType;
  gr_objects : list GrantObject;
  privileges : list AccessPriv;
  grantees : list RoleSpec;
  grant_option : bool
}.

(** One call of [CreateDistributedTable]. *)
Record CreateDistributedTableCall := mkCreateDistributedTableCall {
  cdt_relationId : Oid;
  cdt_distributionColumn : option Var;
  cdt_distributionMethod : PartitionMethodKind;
  cdt_colocateWithTableName : string;
  cdt_viaDeprecatedAPI : bool
}.

(** What these commands ask of modules outside this part of the source, on
    top of [Env]: catalog scans, partition helpers, name rendering, the
    identity of the session, and the version-compatibility helpers for
    VACUUM statements. *)
Record Externals := mkExternals {
  IsPolicyRenameStmt : RenameStmt -> bool;
  ExtractVacuumTargetRels : VacuumStmt -> list RangeVar;
  VacuumColumnList : VacuumStmt -> Z -> list string;
  AppendShardIdToName : string -> uint64 -> string;
  quote_qualified_identifier : string -> string -> string;
  TableReferencing : Oid -> bool;
  PartitionedTable : Oid -> bool;
  PartitionList : Oid -> list Oid;
  GenerateDetachPartitionCommand : Oid -> string;
  get_namespace_oid : string -> Oid;         (* [InvalidOid] when there is no such schema *)
  undefined_schema_error : string -> ErrorData;  (* raised for it when [missing_ok] is false *)
  pg_class_relnames : Oid -> list string;    (* the scan of [pg_class] by [relnamespace] *)
  DistTableOidList : list Oid;
  generate_relation_name : Oid -> string;
  current_user_name : string;                (* [GetUserNameFromId(GetUserId(), false)] *)
  session_user_name : string                 (* [GetUserNameFromId(GetSessionUserId(), false)] *)
}.

(* ------------------------------------------------------------------ *)
(** ** VACUUM and ANALYZE *)

(** The option bits of PostgreSQL's [VacuumOption]. *)
Definition VACOPT_VACUUM : Z := 1.
Definition VACOPT_ANALYZE : Z := 2.
Definition VACOPT_VERBOSE : Z := 4.
Definition VACOPT_FREEZE : Z := 8.
Definition VACOPT_FULL : Z := 16.
Definition VACOPT_NOWAIT : Z := 32.
Definition VACOPT_SKIPTOAST : Z := 64.
Definition VACOPT_DISABLE_PAGE_SKIPPING : Z := 128.

(** [flags & flag] as a C condition. *)
Definition has_flag (flags flag : Z) : bool := negb (Z.land flags flag =? 0).

(** [flags &= ~flag] *)
Definition clear_flag (flags flag : Z) : Z := Z.land flags (Z.lnot flag).

(** [data[len - 1] = c] on a string buffer; on an empty buffer the C code
    writes before the buffer, the model leaves it empty. *)
Fixpoint set_last_char (data : string) (c : ascii) : string :=
  match data with
  | EmptyString => EmptyString
  | String _ EmptyString => String c EmptyString
  | String a rest => String a (set_last_char rest c)
  end.

Definition DeparseVacuumStmtPrefix (vacuumFlags : Z) : string :=
  (* determine actual command and block out its bit *)
  let '(vacuumPrefix, vacuumFlags) :=
    if has_flag vacuumFlags VACOPT_VACUUM
    then ("VACUUM ", clear_flag vacuumFlags VACOPT_VACUUM)
    else
      let vacuumFlags := clear_flag vacuumFlags VACOPT_ANALYZE in
      if has_flag vacuumFlags VACOPT_VERBOSE
      then ("ANALYZE VERBOSE ", clear_flag vacuumFlags VACOPT_VERBOSE)
      else ("ANALYZE ", vacuumFlags) in
  (* if no flags remain, exit early *)
  if vacuumFlags =? 0 then vacuumPrefix
  else
    (* otherwise, handle options *)
    let vacuumPrefix := (vacuumPrefix ++ "(")%string in
    let vacuumPrefix :=
      if has_flag vacuumFlags VACOPT_ANALYZE
      then (vacuumPrefix ++ "ANALYZE,")%string else vacuumPrefix in
    let vacuumPrefix :=
      if has_flag vacuumFlags VACOPT_DISABLE_PAGE_SKIPPING
      then (vacuumPrefix ++ "DISABLE_PAGE_SKIPPING,")%string else vacuumPrefix in
    let vacuumPrefix :=
      if has_flag vacuumFlags VACOPT_FREEZE
      then (vacuumPrefix ++ "FREEZE,")%string else vacuumPrefix in
    let vacuumPrefix :=
      if has_flag vacuumFlags VACOPT_FULL
      then (vacuumPrefix ++ "FULL,")%string else vacuumPrefix in
    let vacuumPrefix :=
      if has_flag vacuumFlags VACOPT_VERBOSE
      then (vacuumPrefix ++ "VERBOSE,")%string else vacuumPrefix in
    let vacuumPrefix := set_last_char vacuumPrefix ")" in
    (vacuumPrefix ++ " ")%string.

Definition DeparseVacuumColumnNames (columnNameList : list string) : string :=
  match columnNameList with
  | [] => ""
  | _ =>
      let columnNames :=
        fold_left (fun columnNames columnName =>
                     (columnNames ++ columnName ++ ",")%string)
          columnNameList " (" in
      set_last_char columnNames ")"
  end.

Section Vacuum.

Variable env : Env.
Variable ext : Externals.

(** The [foreach] of [VacuumTaskList]. The string buffer [vacuumString] is
    shared by the iterations: each one cuts it back to the prefix
    ([vacuumString->len = vacuumPrefixLen]) before it appends. *)
Fixpoint VacuumTaskList_foreach (shardIntervalList : list ShardInterval) (taskId : Z)
    (vacuumString : string) (vacuumPrefixLen : nat)
    (schemaName tableName columnNames : string) : M (list Task) :=
  match shardIntervalList with
  | [] => ret []
  | shardInterval :: rest =>
      let shardId := shardInterval.(shardId) in
      let shardName := AppendShardIdToName ext tableName shardId in
      let shardName := quote_qualified_identifier ext schemaName shardName in
      let vacuumString := substring 0 vacuumPrefixLen vacuumString in
      let vacuumString := (vacuumString ++ shardName)%string in
      let vacuumString := (vacuumString ++ columnNames)%string in
      placements <- FinalizedShardPlacementList env shardId ;;
      let task :=
        {| jobId := INVALID_JOB_ID;
           taskId := taskId;
           taskType := VACUUM_ANALYZE_TASK;
           queryString := vacuumString;
           replicationModel := REPLICATION_MODEL_INVALID;
           anchorShardId := shardId;
           taskPlacementList := placements;
           relationShardList := [] |} in
      tasks <- VacuumTaskList_foreach rest (taskId + 1) vacuumString vacuumPrefixLen
                 schemaName tableName columnNames ;;
      ret (task :: tasks)
  end.

Definition VacuumTaskList (relationId : Oid) (vacuumOptions : Z)
    (vacuumColumnList : list string) : M (list Task) :=
  let vacuumString := DeparseVacuumStmtPrefix vacuumOptions in
  let vacuumPrefixLen := String.length vacuumString in
  let schemaId := get_rel_namespace env relationId in
  let schemaName := get_namespace_name env schemaId in
  let tableName := get_rel_name env relationId in
  let columnNames := DeparseVacuumColumnNames vacuumColumnList in
  LockRelationOid relationId ShareUpdateExclusiveLock ;;;
  let shardIntervalList := LoadShardIntervalList env relationId in
  (* grab shard lock before getting placement list *)
  LockShardListMetadata shardIntervalList ShareLock ;;;
  VacuumTaskList_foreach shardIntervalList 1 vacuumString vacuumPrefixLen
    schemaName tableName columnNames.

Definition vacuum_stmtName (vacuumStmt : VacuumStmt) : string :=
  if has_flag vacuumStmt.(options) VACOPT_VACUUM then "VACUUM" else "ANALYZE".

(** [ereport] was given no [errcode]; the model does not tell apart the
    codes it then falls back to at the different levels. *)
Definition no_errcode : SqlErrCode := ERRCODE_INTERNAL_ERROR.

(** The warning of [IsDistributedVacuumStmt]; its two uses differ in their
    hint only, which a log event does not carry. *)
Definition not_propagating_warning (stmtName : string) : Event :=
  EvWarning no_errcode
    ("not propagating " ++ stmtName ++ " command to worker nodes")%string.

(** The counting [foreach] of [IsDistributedVacuumStmt]. *)
Fixpoint distributedRelationCount (vacuumRelationIdList : list Oid) (count : Z) : Z :=
  match vacuumRelationIdList with
  | [] => count
  | relationId :: rest =>
      if OidIsValid relationId && IsDistributedTable env relationId
      then distributedRelationCount rest (count + 1)
      else distributedRelationCount rest count
  end.

(** [EnableDDLPropagation] is the configuration variable of that name. *)
Definition IsDistributedVacuumStmt (EnableDDLPropagation : bool)
    (vacuumStmt : VacuumStmt) (vacuumRelationIdList : list Oid) : M bool :=
  let stmtName := vacuum_stmtName vacuumStmt in
  let vacuumedRelationCount := Z.of_nat (List.length vacuumRelationIdList) in
  (if vacuumedRelationCount =? 0
   then emit (not_propagating_warning stmtName)
   else ret tt) ;;;
  let distributedRelationCount := distributedRelationCount vacuumRelationIdList 0 in
  if distributedRelationCount =? 0 then ret false
  else if negb EnableDDLPropagation
  then emit (not_propagating_warning stmtName) ;;; ret false
  else ret true.

(** The first [foreach] of [ProcessVacuumStmt]: every target is resolved,
    a missing one raises. *)
Fixpoint ProcessVacuumStmt_lookup (lockMode : LOCKMODE)
    (vacuumRelationList : list RangeVar) (relationIdList : list Oid)
    : M (list Oid) :=
  match vacuumRelationList with
  | [] => ret relationIdList
  | vacuumRelation :: rest =>
      relationId <- RangeVarGetRelid env vacuumRelation lockMode false ;;
      ProcessVacuumStmt_lookup lockMode rest (relationIdList ++ [relationId])
  end.

(** The second [foreach] of [ProcessVacuumStmt]. *)
Fixpoint ProcessVacuumStmt_execute (vacuumStmt : VacuumStmt)
    (relationIdList : list Oid) (relationIndex executedVacuumCount : Z) : M unit :=
  match relationIdList with
  | [] => ret tt
  | relationId :: rest =>
      if IsDistributedTable env relationId
      then
        (if (executedVacuumCount =? 0) && has_flag vacuumStmt.(options) VACOPT_VACUUM
         then
           (* save old commit protocol to restore at xact end *)
           (fun s => (Ok tt, with_commit_protocol s COMMIT_PROTOCOL_BARE
                               s.(MultiShardCommitProtocol)))
         else ret tt) ;;;
        let vacuumColumnList := VacuumColumnList ext vacuumStmt relationIndex in
        taskList <- VacuumTaskList relationId vacuumStmt.(options) vacuumColumnList ;;
        ExecuteModifyTasksWithoutResults env taskList ;;;
        ProcessVacuumStmt_execute vacuumStmt rest (relationIndex + 1)
          (executedVacuumCount + 1)
      else
        ProcessVacuumStmt_execute vacuumStmt rest (relationIndex + 1)
          executedVacuumCount
  end.

Definition ProcessVacuumStmt (EnableDDLPropagation : bool) (vacuumStmt : VacuumStmt)
    : M unit :=
  let vacuumRelationList := ExtractVacuumTargetRels ext vacuumStmt in
  let lockMode :=
    if has_flag vacuumStmt.(options) VACOPT_FULL then AccessExclusiveLock
    else ShareUpdateExclusiveLock in
  relationIdList <- ProcessVacuumStmt_lookup lockMode vacuumRelationList [] ;;
  distributedVacuumStmt <-
    IsDistributedVacuumStmt EnableDDLPropagation vacuumStmt relationIdList ;;
  if negb distributedVacuumStmt then ret tt
  else
    (* execute vacuum on distributed tables *)
    ProcessVacuumStmt_execute vacuumStmt relationIdList 0 0.

End Vacuum.

(* ------------------------------------------------------------------ *)
(** ** RENAME and ALTER ... SET SCHEMA *)

Definition IsAlterTableRenameStmt (renameStmt : RenameStmt) : bool :=
  match renameStmt.(renameType) with
  | RENAME_OBJECT_TABLE => true
  | RENAME_OBJECT_COLUMN =>
      match renameStmt.(relationType) with
      | RENAME_OBJECT_TABLE => true
      | _ => false
      end
  | RENAME_OBJECT_TABCONSTRAINT => true
  | _ => false
  end.

Definition IsIndexRenameStmt (renameStmt : RenameStmt) : bool :=
  match renameStmt.(renameType) with
  | RENAME_OBJECT_INDEX => true
  | _ => false
  end.

Definition is_RENAME_OBJECT_TABCONSTRAINT (t : RenameObjectType) : bool :=
  match t with RENAME_OBJECT_TABCONSTRAINT => true | _ => false end.

Definition ErrorIfUnsupportedRenameStmt (renameStmt : RenameStmt) : M unit :=
  if IsAlterTableRenameStmt renameStmt &&
     is_RENAME_OBJECT_TABCONSTRAINT renameStmt.(renameType)
  then ereport_ERROR
         (unsupported
            "renaming constraints belonging to distributed tables is currently unsupported"
            None)
  else ret tt.

Section Rename.

Variable env : Env.
Variable ext : Externals.

(** The end of [PlanRenameStmt], once the table the object belongs to is
    known. The job is zero-initialised: its sequential flag is unset. *)
Definition PlanRenameStmt_table (renameStmt : RenameStmt) (renameCommand : string)
    (tableRelationId : Oid) : M (list DDLJob) :=
  if negb (IsDistributedTable env tableRelationId) then ret []
  else
    ErrorIfUnsupportedRenameStmt renameStmt ;;;
    tasks <- DDLTaskList env tableRelationId renameCommand ;;
    ret [ {| targetRelationId := tableRelationId;
             concurrentIndexCmd := false;
             executeSequentially := false;
             commandString := renameCommand;
             taskList := tasks |} ].

Definition PlanRenameStmt (renameStmt : RenameStmt) (renameCommand : string)
    : M (list DDLJob) :=
  if negb (IsAlterTableRenameStmt renameStmt) &&
     negb (IsIndexRenameStmt renameStmt) &&
     negb (IsPolicyRenameStmt ext renameStmt)
  then ret []
  else
    objectRelationId <- RangeVarGetRelid env renameStmt.(rn_relation)
                          AccessExclusiveLock renameStmt.(rn_missing_ok) ;;
    if negb (OidIsValid objectRelationId) then ret []
    else
      match renameStmt.(renameType) with
      | RENAME_OBJECT_TABLE | RENAME_OBJECT_COLUMN | RENAME_OBJECT_TABCONSTRAINT
      | RENAME_OBJECT_POLICY =>
          (* the target object is our tableRelationId. *)
          PlanRenameStmt_table renameStmt renameCommand objectRelationId
      | RENAME_OBJECT_INDEX =>
          PlanRenameStmt_table renameStmt renameCommand
            (IndexGetRelation env objectRelationId)
      | _ => ret []
      end.

Definition set_schema_warning : Event :=
  EvWarning no_errcode "not propagating ALTER ... SET SCHEMA commands to worker nodes".

Definition PlanAlterObjectSchemaStmt (alterObjectSchemaStmt : AlterObjectSchemaStmt)
    (alterObjectSchemaCommand : string) : M (list DDLJob) :=
  match alterObjectSchemaStmt.(aos_relation) with
  | None => ret []
  | Some rangeVar =>
      relationId <- RangeVarGetRelid env rangeVar AccessExclusiveLock
                      alterObjectSchemaStmt.(aos_missing_ok) ;;
      (* first check whether a distributed relation is affected *)
      if negb (OidIsValid relationId) || negb (IsDistributedTable env relationId)
      then ret []
      else
        (* emit a warning if a distributed relation is affected *)
        emit set_schema_warning ;;;
        ret []
  end.

End Rename.

(* ------------------------------------------------------------------ *)
(** ** ALTER TABLE while DDL propagation is disabled, and after the local
       command *)

Section AlterTableLocal.

Variable env : Env.

Definition set_skip_validation (constraint : Constraint) : Constraint :=
  {| contype := constraint.(contype);
     conname := constraint.(conname);
     pktable := constraint.(pktable);
     skip_validation := true |}.

(** The [foreach] of [WorkerProcessAlterTableStmt]; the commands come back
    as the loop leaves them in the parse tree. *)
Fixpoint WorkerProcessAlterTableStmt_foreach (commandList : list AlterTableCmd)
    : M (list AlterTableCmd) :=
  match commandList with
  | [] => ret []
  | command :: rest =>
      command' <-
        match command.(subtype) with
        | AT_AddConstraint =>
            constraint <- as_Constraint command.(def) ;;
            if is_CONSTR_FOREIGN constraint.(contype)
            then
              (* foreign constraint validations will be done in shards. *)
              ret {| subtype := command.(subtype);
                     name := command.(name);
                     def := T_Constraint (set_skip_validation constraint) |}
            else ret command
        | _ => ret command
        end ;;
      rest' <- WorkerProcessAlterTableStmt_foreach rest ;;
      ret (command' :: rest')
  end.

Definition WorkerProcessAlterTableStmt (alterTableStatement : AlterTableStmt)
    (alterTableCommand : string) : M AlterTableStmt :=
  match alterTableStatement.(relation) with
  | None => ret alterTableStatement
  | Some _ =>
      let lockmode := AlterTableGetLockLevel env alterTableStatement.(cmds) in
      leftRelationId <- AlterTableLookupRelation env alterTableStatement lockmode ;;
      if negb (OidIsValid leftRelationId) then ret alterTableStatement
      else if negb (IsDistributedTable env leftRelationId) then ret alterTableStatement
      else
        commandList <- WorkerProcessAlterTableStmt_foreach alterTableStatement.(cmds) ;;
        ret {| relation := alterTableStatement.(relation);
               cmds := commandList;
               relkind := alterTableStatement.(relkind);
               missing_ok := alterTableStatement.(missing_ok) |}
  end.

Definition drops_partition_column_error : ErrorData :=
  {| class := UnsupportedCommand; sqlerrcode := no_errcode;
     message := "cannot execute ALTER TABLE command dropping partition column";
     hint := None |}.

Definition is_AT_DropColumn (t : AlterTableType) : bool :=
  match t with AT_DropColumn => true | _ => false end.

Fixpoint ErrorIfAlterDropsPartitionColumn_foreach (alterTableStatement : AlterTableStmt)
    (commandList : list AlterTableCmd) : M unit :=
  match commandList with
  | [] => ret tt
  | command :: rest =>
      (if is_AT_DropColumn command.(subtype)
       then
         involves <- AlterInvolvesPartitionColumn env alterTableStatement command ;;
         if involves then ereport_ERROR drops_partition_column_error else ret tt
       else ret tt) ;;;
      ErrorIfAlterDropsPartitionColumn_foreach alterTableStatement rest
  end.

Definition ErrorIfAlterDropsPartitionColumn (alterTableStatement : AlterTableStmt)
    : M unit :=
  match alterTableStatement.(relation) with
  | None => ret tt
  | Some _ =>
      let lockmode := AlterTableGetLockLevel env alterTableStatement.(cmds) in
      leftRelationId <- AlterTableLookupRelation env alterTableStatement lockmode ;;
      if negb (OidIsValid leftRelationId) then ret tt
      else if negb (IsDistributedTable env leftRelationId) then ret tt
      else
        (* then check if any of subcommands drop partition column.*)
        ErrorIfAlterDropsPartitionColumn_foreach alterTableStatement
          alterTableStatement.(cmds)
  end.

Definition distributed_partition_error (partitionRelationName : string) : ErrorData :=
  {| class := UnsupportedCommand; sqlerrcode := no_errcode;
     message := "non-distributed tables cannot have distributed partitions";
     hint := Some ("Distribute the partitioned table " ++ dquote ++
                   partitionRelationName ++ dquote ++ " instead")%string |}.

Definition is_AT_AttachPartition (t : AlterTableType) : bool :=
  match t with AT_AttachPartition => true | _ => false end.

(** [ProcessAlterTableStmtAttachPartition]: the result is the list of the
    calls of [CreateDistributedTable] it makes, in order. *)
Fixpoint ProcessAlterTableStmtAttachPartition_foreach
    (alterTableStatement : AlterTableStmt) (commandList : list AlterTableCmd)
    (calls : list CreateDistributedTableCall) : M (list CreateDistributedTableCall) :=
  match commandList with
  | [] => ret calls
  | alterTableCommand :: rest =>
      if is_AT_AttachPartition alterTableCommand.(subtype)
      then
        relationId <- AlterTableLookupRelation env alterTableStatement NoLock ;;
        partitionCommand <- as_PartitionCmd alterTableCommand.(def) ;;
        partitionRelationId <- RangeVarGetRelid env partitionCommand.(pc_name) NoLock
                                 false ;;
        if negb (IsDistributedTable env relationId) &&
           IsDistributedTable env partitionRelationId
        then ereport_ERROR
               (distributed_partition_error (get_rel_name env partitionRelationId))
        else
          (* if parent of this table is distributed, distribute this table too *)
          if IsDistributedTable env relationId &&
             negb (IsDistributedTable env partitionRelationId)
          then
            ProcessAlterTableStmtAttachPartition_foreach alterTableStatement rest
              (calls ++
               [ {| cdt_relationId := partitionRelationId;
                    cdt_distributionColumn := DistPartitionKey env relationId;
                    cdt_distributionMethod := DISTRIBUTE_BY_HASH;
                    cdt_colocateWithTableName :=
                      generate_qualified_relation_name env relationId;
                    cdt_viaDeprecatedAPI := false |} ])
          else
            ProcessAlterTableStmtAttachPartition_foreach alterTableStatement rest calls
      else ProcessAlterTableStmtAttachPartition_foreach alterTableStatement rest calls
  end.

Definition ProcessAlterTableStmtAttachPartition (alterTableStatement : AlterTableStmt)
    : M (list CreateDistributedTableCall) :=
  ProcessAlterTableStmtAttachPartition_foreach alterTableStatement
    alterTableStatement.(cmds) [].


End AlterTableLocal.

(* ------------------------------------------------------------------ *)
(** ** TRUNCATE, DROP TABLE and DROP SCHEMA ([tablecmds.c], [schemacmds.c]) *)

Section TruncateAndDrop.

Variable env : Env.
Variable ext : Externals.

Definition is_RELKIND_FOREIGN_TABLE (k : RelKind) : bool :=
  match k with RELKIND_FOREIGN_TABLE => true | _ => false end.

Definition truncate_foreign_table_error : ErrorData :=
  unsupported "truncating distributed foreign tables is currently unsupported"
    (Some "Use master_drop_all_shards to remove foreign table's shards.").

Fixpoint ErrorIfUnsupportedTruncateStmt_foreach (relationList : list RangeVar) : M unit :=
  match relationList with
  | [] => ret tt
  | rangeVar :: rest =>
      relationId <- RangeVarGetRelid env rangeVar NoLock true ;;
      let relationKind := get_rel_relkind env relationId in
      if IsDistributedTable env relationId && is_RELKIND_FOREIGN_TABLE relationKind
      then ereport_ERROR truncate_foreign_table_error
      else ErrorIfUnsupportedTruncateStmt_foreach rest
  end.

Definition ErrorIfUnsupportedTruncateStmt (truncateStatement : TruncateStmt) : M unit :=
  ErrorIfUnsupportedTruncateStmt_foreach truncateStatement.(relations).

(** [heap_openrv] raises for a relation that does not exist. *)
Fixpoint EnsurePartitionTableNotReplicatedForTruncate_foreach
    (relationList : list RangeVar) : M unit :=
  match relationList with
  | [] => ret tt
  | relationRV :: rest =>
      relationId <- RangeVarGetRelid env relationRV NoLock false ;;
      (if negb (IsDistributedTable env relationId) then ret tt
       else EnsurePartitionTableNotReplicated env relationId) ;;;
      EnsurePartitionTableNotReplicatedForTruncate_foreach rest
  end.

Definition EnsurePartitionTableNotReplicatedForTruncate (truncateStatement : TruncateStmt)
    : M unit :=
  EnsurePartitionTableNotReplicatedForTruncate_foreach truncateStatement.(relations).

Definition ProcessTruncateStatement (truncateStatement : TruncateStmt) : M unit :=
  ErrorIfUnsupportedTruncateStmt truncateStatement ;;;
  EnsurePartitionTableNotReplicatedForTruncate truncateStatement ;;;
  ExecuteTruncateStmtSequentialIfNecessary env truncateStatement ;;;
  LockTruncatedRelationMetadataInWorkers env truncateStatement.

(** The inner [foreach] of [ProcessDropTableStmt]. *)
Fixpoint ProcessDropTableStmt_detach (partitionList : list Oid) : M unit :=
  match partitionList with
  | [] => ret tt
  | partitionRelationId :: rest =>
      let detachPartitionCommand := GenerateDetachPartitionCommand ext partitionRelationId in
      SendCommandToWorkers env WORKERS_WITH_METADATA detachPartitionCommand ;;;
      ProcessDropTableStmt_detach rest
  end.

Fixpoint ProcessDropTableStmt_foreach (objects : list RangeVar) : M unit :=
  match objects with
  | [] => ret tt
  | tableRangeVar :: rest =>
      let missingOK := true in
      relationId <- RangeVarGetRelid env tableRangeVar AccessShareLock missingOK ;;
      (* we're not interested in non-valid, non-distributed relations *)
      (if (relationId =? InvalidOid) || negb (IsDistributedTable env relationId)
       then ret tt
       else
         (* invalidate foreign key cache if the table involved in any foreign key *)
         (if TableReferenced env relationId || TableReferencing ext relationId
          then MarkInvalidateForeignKeyGraph else ret tt) ;;;
         (* we're only interested in partitioned and mx tables *)
         if negb (ShouldSyncTableMetadata env relationId) ||
            negb (PartitionedTable ext relationId)
         then ret tt
         else
           EnsureCoordinator env ;;;
           let partitionList := PartitionList ext relationId in
           if (List.length partitionList =? 0)%nat then ret tt
           else
             SendCommandToWorkers env WORKERS_WITH_METADATA (DISABLE_DDL_PROPAGATION env) ;;;
             ProcessDropTableStmt_detach partitionList) ;;;
      ProcessDropTableStmt_foreach rest
  end.

Definition ProcessDropTableStmt (dropTableStatement : DropTableStmt) : M unit :=
  ProcessDropTableStmt_foreach dropTableStatement.(dt_objects).

(** The [while] over the [pg_class] rows of one schema in
    [ProcessDropSchemaStmt]: [Return] when the function returns from inside
    the scan. *)
Fixpoint ProcessDropSchemaStmt_scan (namespaceOid : Oid) (relationNames : list string)
    : M Flow :=
  match relationNames with
  | [] => ret Continue
  | relationName :: rest =>
      let relationId := get_relname_relid env relationName namespaceOid in
      (* we're not interested in non-valid, non-distributed relations *)
      if (relationId =? InvalidOid) || negb (IsDistributedTable env relationId)
      then ProcessDropSchemaStmt_scan namespaceOid rest
      else
        (* invalidate foreign key cache if the table involved in any foreign key *)
        if TableReferenced env relationId || TableReferencing ext relationId
        then MarkInvalidateForeignKeyGraph ;;; ret Return
        else ProcessDropSchemaStmt_scan namespaceOid rest
  end.

Fixpoint ProcessDropSchemaStmt_foreach (objects : list string) : M unit :=
  match objects with
  | [] => ret tt
  | schemaString :: rest =>
      let namespaceOid := get_namespace_oid ext schemaString in
      if namespaceOid =? InvalidOid then ProcessDropSchemaStmt_foreach rest
      else
        heap_open RelationRelationId AccessShareLock ;;;
        flow <- ProcessDropSchemaStmt_scan namespaceOid
                  (pg_class_relnames ext namespaceOid) ;;
        match flow with
        | Return => ret tt
        | Continue => ProcessDropSchemaStmt_foreach rest
        end
  end.

Definition is_DROP_CASCADE (b : DropBehavior) : bool :=
  match b with DROP_CASCADE => true | _ => false end.

Definition ProcessDropSchemaStmt (dropStatement : DropSchemaStmt) : M unit :=
  if negb (is_DROP_CASCADE dropStatement.(behavior)) then ret tt
  else ProcessDropSchemaStmt_foreach dropStatement.(ds_objects).

End TruncateAndDrop.

(* ------------------------------------------------------------------ *)
(** ** GRANT and REVOKE *)

Section Grant.

Variable env : Env.
Variable ext : Externals.

(** [RoleSpecType] has the four role types of the parser, so the [default]
    branch of the [switch], which raises, has no counterpart. *)
Definition RoleSpecString (spec : RoleSpec) : string :=
  match spec.(roletype) with
  | ROLESPEC_CSTRING => quote_identifier env spec.(rolename)
  | ROLESPEC_CURRENT_USER => quote_identifier env (current_user_name ext)
  | ROLESPEC_SESSION_USER => quote_identifier env (session_user_name ext)
  | ROLESPEC_PUBLIC => "PUBLIC"
  end.

Definition is_ACL_TARGET_OBJECT (t : GrantTargetType) : bool :=
  match t with ACL_TARGET_OBJECT => true | _ => false end.

Definition is_ACL_TARGET_ALL_IN_SCHEMA (t : GrantTargetType) : bool :=
  match t with ACL_TARGET_ALL_IN_SCHEMA => true | _ => false end.

Definition is_RELATION_OBJECT_TYPE (t : GrantObjectType) : bool :=
  match t with RELATION_OBJECT_TYPE => true | _ => false end.

(** [get_namespace_oid(nspname, false)] *)
Definition get_namespace_oid_or_error (nspname : string) : M Oid :=
  let namespaceOid := get_namespace_oid ext nspname in
  if OidIsValid namespaceOid then ret namespaceOid
  else ereport_ERROR (undefined_schema_error ext nspname).

(** The unchecked [strVal(lfirst(objectCell))] and [(RangeVar * )]. *)
Definition as_nspname (o : GrantObject) : M string :=
  match o with
  | GrantSchema nspname => ret nspname
  | _ => unchecked_access "object is not a schema name"
  end.

Definition as_relvar (o : GrantObject) : M RangeVar :=
  match o with
  | GrantRelation relvar => ret relvar
  | _ => unchecked_access "object is not a RangeVar"
  end.

Fixpoint CollectGrantTableIdList_namespaces (objects : list GrantObject)
    (namespaceOidList : list Oid) : M (list Oid) :=
  match objects with
  | [] => ret namespaceOidList
  | object :: rest =>
      nspname <- as_nspname object ;;
      namespaceOid <- get_namespace_oid_or_error nspname ;;
      CollectGrantTableIdList_namespaces rest
        (list_append_unique_oid namespaceOidList namespaceOid)
  end.

Fixpoint CollectGrantTableIdList_distributed (distTableOidList namespaceOidList : list Oid)
    (grantTableList : list Oid) : list Oid :=
  match distTableOidList with
  | [] => grantTableList
  | relationId :: rest =>
      let namespaceOid := get_rel_namespace env relationId in
      if list_member_oid namespaceOidList namespaceOid
      then CollectGrantTableIdList_distributed rest namespaceOidList
             (grantTableList ++ [relationId])
      else CollectGrantTableIdList_distributed rest namespaceOidList grantTableList
  end.

Fixpoint CollectGrantTableIdList_tables (objects : list GrantObject)
    (grantTableList : list Oid) : M (list Oid) :=
  match objects with
  | [] => ret grantTableList
  | object :: rest =>
      relvar <- as_relvar object ;;
      relationId <- RangeVarGetRelid env relvar NoLock false ;;
      if IsDistributedTable env relationId
      then CollectGrantTableIdList_tables rest (grantTableList ++ [relationId])
      else CollectGrantTableIdList_tables rest grantTableList
  end.

Definition CollectGrantTableIdList (grantStmt : GrantStmt) : M (list Oid) :=
  let grantOnTableCommand :=
    is_ACL_TARGET_OBJECT grantStmt.(targtype) &&
    is_RELATION_OBJECT_TYPE grantStmt.(objtype) in
  let grantAllTablesOnSchemaCommand :=
    is_ACL_TARGET_ALL_IN_SCHEMA grantStmt.(targtype) &&
    is_RELATION_OBJECT_TYPE grantStmt.(objtype) in
  (* we are only interested in table level grants *)
  if negb grantOnTableCommand && negb grantAllTablesOnSchemaCommand then ret []
  else if grantAllTablesOnSchemaCommand
  then
    let distTableOidList := DistTableOidList ext in
    namespaceOidList <- CollectGrantTableIdList_namespaces grantStmt.(gr_objects) [] ;;
    ret (CollectGrantTableIdList_distributed distTableOidList namespaceOidList [])
  else CollectGrantTableIdList_tables grantStmt.(gr_objects) [].

Definition column_list_grant_error : ErrorData :=
  unsupported "grant/revoke on column list is currently unsupported" None.

(** The three deparsing loops of [PlanGrantStmt], each over the string
    buffer it appends to. *)
Fixpoint PlanGrantStmt_privileges (privilegeList : list AccessPriv) (isFirst : bool)
    (privsString : string) : M string :=
  match privilegeList with
  | [] => ret privsString
  | priv :: rest =>
      let privsString :=
        if negb isFirst then (privsString ++ ", ")%string else privsString in
      match priv.(cols) with
      | _ :: _ => ereport_ERROR column_list_grant_error
      | [] => PlanGrantStmt_privileges rest false (privsString ++ priv.(priv_name))%string
      end
  end.

Fixpoint PlanGrantStmt_grantees (granteeList : list RoleSpec) (isFirst : bool)
    (granteesString : string) : string :=
  match granteeList with
  | [] => granteesString
  | spec :: rest =>
      let granteesString :=
        if negb isFirst then (granteesString ++ ", ")%string else granteesString in
      PlanGrantStmt_grantees rest false (granteesString ++ RoleSpecString spec)%string
  end.

Fixpoint PlanGrantStmt_targets (grantStmt : GrantStmt) (privsString granteesString : string)
    (tableIdList : list Oid) (ddlString : string) : M (list DDLJob) :=
  match tableIdList with
  | [] => ret []
  | relationId :: rest =>
      let targetString := generate_relation_name ext relationId in
      let ddlString :=
        if grantStmt.(is_grant)
        then
          let grantOption :=
            if grantStmt.(grant_option) then " WITH GRANT OPTION" else "" in
          (ddlString ++ "GRANT " ++ privsString ++ " ON " ++ targetString ++ " TO " ++
           granteesString ++ grantOption)%string
        else
          let grantOption :=
            if grantStmt.(grant_option) then "GRANT OPTION FOR " else "" in
          (ddlString ++ "REVOKE " ++ grantOption ++ privsString ++ " ON " ++
           targetString ++ " FROM " ++ granteesString)%string in
      tasks <- DDLTaskList env relationId ddlString ;;
      let ddlJob :=
        {| targetRelationId := relationId;
           concurrentIndexCmd := false;
           executeSequentially := false;
           commandString := ddlString;
           taskList := tasks |} in
      (* resetStringInfo(&ddlString) *)
      ddlJobs <- PlanGrantStmt_targets grantStmt privsString granteesString rest
                   EmptyString ;;
      ret (ddlJob :: ddlJobs)
  end.

Definition PlanGrantStmt (grantStmt : GrantStmt) : M (list DDLJob) :=
  (* So far only table level grants are supported. *)
  if negb (is_RELATION_OBJECT_TYPE grantStmt.(objtype)) then ret []
  else
    tableIdList <- CollectGrantTableIdList grantStmt ;;
    (* nothing to do if there is no distributed table in the grant list *)
    match tableIdList with
    | [] => ret []
    | _ =>
        (* deparse the privileges *)
        privsString <-
          match grantStmt.(privileges) with
          | [] => ret "ALL"
          | privilegeList => PlanGrantStmt_privileges privilegeList true EmptyString
          end ;;
        (* deparse the grantees *)
        let granteesString :=
          PlanGrantStmt_grantees grantStmt.(grantees) true EmptyString in
        PlanGrantStmt_targets grantStmt privsString granteesString tableIdList
          EmptyString
    end.

End Grant.

(* ================================================================== *)
(** * Reference definitions used to state the properties *)
(* ================================================================== *)

(** The task [DDLTaskList] is expected to build for one shard. *)
Definition shard_ddl_task (env : Env) (relationId : Oid) (commandString : string)
    (taskId : Z) (shardInterval : ShardInterval) : Task :=
  {| jobId := INVALID_JOB_ID;
     taskId := taskId;
     taskType := DDL_TASK;
     queryString :=
       WORKER_APPLY_SHARD_DDL_COMMAND env shardInterval.(shardId)
         (quote_literal_cstr env
            (get_namespace_name env (get_rel_namespace env relationId)))
         (quote_literal_cstr env commandString);
     replicationModel := REPLICATION_MODEL_INVALID;
     anchorShardId := shardInterval.(shardId);
     taskPlacementList := shard_placements env shardInterval.(shardId);
     relationShardList := [] |}.

(** The task [InterShardDDLTaskList] is expected to build for a pair of
    shards. *)
Definition inter_shard_ddl_task (env : Env) (leftRelationId rightRelationId : Oid)
    (commandString : string) (taskId : Z)
    (leftShardInterval rightShardInterval : ShardInterval) : Task :=
  {| jobId := INVALID_JOB_ID;
     taskId := taskId;
     taskType := DDL_TASK;
     queryString :=
       WORKER_APPLY_INTER_SHARD_DDL_COMMAND env leftShardInterval.(shardId)
         (quote_literal_cstr env
            (get_namespace_name env (get_rel_namespace env leftRelationId)))
         rightShardInterval.(shardId)
         (quote_literal_cstr env
            (get_namespace_name env (get_rel_namespace env rightRelationId)))
         (quote_literal_cstr env commandString);
     replicationModel := REPLICATION_MODEL_INVALID;
     anchorShardId := leftShardInterval.(shardId);
     taskPlacementList := shard_placements env leftShardInterval.(shardId);
     relationShardList :=
       [ {| rs_relationId := leftRelationId;
            rs_shardId := leftShardInterval.(shardId) |};
         {| rs_relationId := rightRelationId;
            rs_shardId := rightShardInterval.(shardId) |} ] |}.

(** The log a task list builder leaves behind: the metadata lock on all the
    shards, then one placement lookup per task. *)
Definition task_list_effects (shardIntervalList : list ShardInterval) (built : nat)
    : list Event :=
  EvLockShardListMetadata (map shardId shardIntervalList) ShareLock
  :: map (fun si => EvFinalizedShardPlacementList si.(shardId))
       (firstn built shardIntervalList).

(* ------------------------------------------------------------------ *)
(** ** When the specification asks for sequential execution *)

(** A constraint that adds a foreign key whose referenced side exists and
    is a reference table. *)
Definition adds_foreign_key_to_reference_table (env : Env) (constraint : Constraint)
    : bool :=
  is_CONSTR_FOREIGN constraint.(contype) &&
  OidIsValid (relid_of env constraint.(pktable)) &&
  is_reference_table env (relid_of env constraint.(pktable)).

(** The sub-commands of an ALTER TABLE on [relationId] that must run
    sequentially: dropping or type-altering a column that takes part in a
    foreign key to a reference table, adding a foreign key to a reference
    table (as a table constraint or with a new column), dropping a foreign
    key to a reference table. *)
Definition requires_sequential_execution (env : Env) (relationId : Oid)
    (command : AlterTableCmd) : bool :=
  match command.(subtype) with
  | AT_DropColumn | AT_AlterColumnType =>
      ColumnAppearsInForeignKeyToReferenceTable env command.(name) relationId
  | AT_AddConstraint =>
      match command.(def) with
      | T_Constraint constraint => adds_foreign_key_to_reference_table env constraint
      | _ => false
      end
  | AT_AddColumn =>
      match command.(def) with
      | T_ColumnDef column =>
          existsb (adds_foreign_key_to_reference_table env) column.(constraints)
      | _ => false
      end
  | AT_DropConstraint =>
      ConstraintIsAForeignKeyToReferenceTable env command.(name) relationId
  | _ => false
  end.

(** The TRUNCATE targets for which the code switches to sequential mode:
    a reference table that some foreign key references ([TableReferenced]).
    The code does not look at the tables on the referencing side. *)
Definition truncates_referenced_reference_table (env : Env) (rangeVar : RangeVar)
    : bool :=
  is_reference_table env (relid_of env rangeVar) &&
  TableReferenced env (relid_of env rangeVar).

Definition is_hash_distributed_table (env : Env) (relationId : Oid) : bool :=
  IsDistributedTable env relationId &&
  PartitionMethodKind_eqb (PartitionMethod env relationId) DISTRIBUTE_BY_HASH.

(** The condition of the specification for TRUNCATE, in the words of the
    specification and not of the code: the target is a reference table
    referenced by a hash-distributed table, that is, a hash-distributed
    table is among the relations that reference it through foreign keys. *)
Definition spec_truncate_requires_sequential_execution (env : Env)
    (rangeVar : RangeVar) : bool :=
  is_reference_table env (relid_of env rangeVar) &&
  existsb (is_hash_distributed_table env)
    (referencingRelationsViaForeignKey env (relid_of env rangeVar)).

(** The parser's invariant on sub-commands: [def] is of the node type the
    sub-command kind goes with. *)
Definition well_formed_command (command : AlterTableCmd) : bool :=
  match command.(subtype), command.(def) with
  | AT_AddConstraint, T_Constraint _ => true
  | AT_AddConstraint, _ => false
  | AT_AddColumn, T_ColumnDef _ => true
  | AT_AddColumn, _ => false
  | AT_AttachPartition, T_PartitionCmd _ => true
  | AT_AttachPartition, _ => false
  | AT_DetachPartition, T_PartitionCmd _ => true
  | AT_DetachPartition, _ => false
  | _, _ => true
  end.

Definition constraint_target_exists (env : Env) (constraint : Constraint) : bool :=
  negb (is_CONSTR_FOREIGN constraint.(contype)) ||
  OidIsValid (relid_of env constraint.(pktable)).

(** Every table a foreign key of the sub-command references exists. *)
Definition referenced_tables_exist (env : Env) (command : AlterTableCmd) : bool :=
  match command.(subtype), command.(def) with
  | AT_AddConstraint, T_Constraint constraint => constraint_target_exists env constraint
  | AT_AddColumn, T_ColumnDef column =>
      forallb (constraint_target_exists env) column.(constraints)
  | _, _ => true
  end.

(** The guard of [SetupExecutionModeForAlterTable]: the altered relation is
    distributed, is not a reference table, and a parallel command already
    ran in the transaction. *)
Definition parallel_connections_open (env : Env) (relationId : Oid) (s : Session)
    : bool :=
  IsDistributedTable env relationId &&
  negb (PartitionMethodKind_eqb (PartitionMethod env relationId) DISTRIBUTE_BY_NONE) &&
  s.(ParallelQueryExecutedInTransaction).

Definition is_AT_AlterColumnType (t : AlterTableType) : bool :=
  match t with AT_AlterColumnType => true | _ => false end.

(** The session [SetupExecutionModeForAlterTable] leaves behind: only a
    type change, inside a transaction block, of a column that takes part in
    a foreign key to a reference table switches the transaction to
    sequential mode. *)
Definition session_after_setup (env : Env) (relationId : Oid)
    (command : AlterTableCmd) (s : Session) : Session :=
  if is_AT_AlterColumnType command.(subtype) &&
     ColumnAppearsInForeignKeyToReferenceTable env command.(name) relationId &&
     s.(IsTransactionBlock)
  then with_connection_type s SEQUENTIAL_CONNECTION
  else s.

(* ------------------------------------------------------------------ *)
(** ** Which indexes the constraint validation rejects *)

(** The index backs a UNIQUE, PRIMARY KEY or EXCLUDE constraint. *)
Definition constrains_uniqueness (indexInfo : IndexInfo) : bool :=
  indexInfo.(ii_Unique) ||
  match indexInfo.(ii_ExclusionOps) with Some _ => true | None => false end.

(** Key attribute [i] of the index is the distribution column, and the
    index is unique or excludes on it with an equality operator. *)
Definition enforces_on_distribution_column (env : Env) (indexInfo : IndexInfo)
    (distributionColumn : Var) (i : nat) : bool :=
  (distributionColumn.(varattno) =? nth i indexInfo.(ii_KeyAttrNumbers) 0) &&
  (indexInfo.(ii_Unique) ||
   match indexInfo.(ii_ExclusionOps) with
   | Some ops => OperatorImplementsEquality env (nth i ops InvalidOid)
   | None => false
   end).

(** The constraint includes the distribution column (with an equality
    operator for EXCLUDE). *)
Definition includes_distribution_column (env : Env) (indexInfo : IndexInfo)
    (distributionColumn : Var) : bool :=
  existsb (enforces_on_distribution_column env indexInfo distributionColumn)
    (seq 0 (Z.to_nat indexInfo.(ii_NumIndexAttrs))).

(** A UNIQUE, PRIMARY KEY or EXCLUDE index that does not include the
    distribution column. *)
Definition lacks_distribution_column (env : Env) (distributionColumn : Var)
    (indexOid : Oid) : bool :=
  constrains_uniqueness (BuildIndexInfo env indexOid) &&
  negb (includes_distribution_column env (BuildIndexInfo env indexOid)
          distributionColumn).

(** The indexes the validation looks at: all of them up to and including
    the first one it rejects. *)
Fixpoint examined_indexes (env : Env) (distributionColumn : Var)
    (indexOidList : list Oid) : list Oid :=
  match indexOidList with
  | [] => []
  | indexOid :: rest =>
      if lacks_distribution_column env distributionColumn indexOid then [indexOid]
      else indexOid :: examined_indexes env distributionColumn rest
  end.

(** The warnings an append-distributed table gets: one per examined index
    that backs a UNIQUE, PRIMARY KEY or EXCLUDE constraint. *)
Definition append_table_warnings (env : Env) (relationName : string)
    (distributionMethod : PartitionMethodKind) (distributionColumn : Var)
    (indexOidList : list Oid) : list Event :=
  if is_DISTRIBUTE_BY_APPEND distributionMethod
  then map (fun _ => append_table_constraint_warning relationName)
         (filter (fun indexOid => constrains_uniqueness (BuildIndexInfo env indexOid))
            (examined_indexes env distributionColumn indexOidList))
  else [].

Definition is_EvWarning (ev : Event) : bool :=
  match ev with EvWarning _ _ => true | _ => false end.

(** What the validation logs for one index it looks at: the lock
    [index_open] takes on it, then, on an append-distributed table, the
    warning when the index backs a UNIQUE, PRIMARY KEY or EXCLUDE
    constraint. *)
Definition index_check_events (env : Env) (relationName : string)
    (distributionMethod : PartitionMethodKind) (indexOid : Oid) : list Event :=
  EvLockRelationOid indexOid RowExclusiveLock ::
  (if is_DISTRIBUTE_BY_APPEND distributionMethod &&
      constrains_uniqueness (BuildIndexInfo env indexOid)
   then [append_table_constraint_warning relationName]
   else []).

(** The log of the validation: the examined indexes, in order. *)
Definition constraint_check_events (env : Env) (relationName : string)
    (distributionMethod : PartitionMethodKind) (distributionColumn : Var)
    (indexOidList : list Oid) : list Event :=
  flat_map (index_check_events env relationName distributionMethod)
    (examined_indexes env distributionColumn indexOidList).

(* ------------------------------------------------------------------ *)
(** ** Statements the validator is asked about *)

(** The relation an ALTER TABLE names, [InvalidOid] when it names none. *)
Definition target_relid (env : Env) (alterTableStatement : AlterTableStmt) : Oid :=
  match alterTableStatement.(relation) with
  | Some rangeVar => relid_of env rangeVar
  | None => InvalidOid
  end.

Definition targets_existing_relation (env : Env) (alterTableStatement : AlterTableStmt)
    : bool :=
  OidIsValid (target_relid env alterTableStatement).

(** The session once the relation of an ALTER TABLE has been looked up
    with the lock the statement calls for
    ([AlterTableGetLockLevel(alterTableStatement->cmds)]). *)
Definition with_alter_table_lock (env : Env) (alterTableStatement : AlterTableStmt)
    (s : Session) : Session :=
  with_relation_lock s (target_relid env alterTableStatement)
    (AlterTableGetLockLevel env alterTableStatement.(cmds)).

(** The column is the distribution column of the relation. A relation
    without a distribution column (a reference table) has no such column. *)
Definition is_distribution_column (env : Env) (relationId : Oid) (column : string)
    : bool :=
  match SearchSysCacheAttName env relationId column,
        DistPartitionKey env relationId with
  | Some attnum, Some partitionColumn => attnum =? partitionColumn.(varattno)
  | _, _ => false
  end.

(** The sub-command kinds that act on one existing column and are checked
    against the distribution column. *)
Definition alters_column (t : AlterTableType) : bool :=
  match t with
  | AT_DropColumn | AT_ColumnDefault | AT_AlterColumnType | AT_DropNotNull => true
  | _ => false
  end.

(** The sub-commands that must be issued alone. *)
Definition must_be_alone (t : AlterTableType) : bool :=
  match t with
  | AT_AddConstraint | AT_AttachPartition | AT_DetachPartition => true
  | _ => false
  end.

(** An ATTACH PARTITION whose partition does not exist. *)
Definition attaches_missing_partition (env : Env) (command : AlterTableCmd) : bool :=
  match command.(subtype), command.(def) with
  | AT_AttachPartition, T_PartitionCmd partitionCommand =>
      negb (OidIsValid (relid_of env partitionCommand.(pc_name)))
  | _, _ => false
  end.

(** The errors the validator can end with on statements the parser can
    produce: an unsupported-command error, or the lookup error of an
    ATTACH PARTITION whose partition does not exist. *)
Definition validator_error (env : Env) (commands : list AlterTableCmd)
    (e : ErrorData) : Prop :=
  e.(class) = UnsupportedCommand
  \/ (e.(class) = UndefinedTable
      /\ existsb (attaches_missing_partition env) commands = true).

(* ------------------------------------------------------------------ *)
(** ** The right-hand relation of an ALTER TABLE *)

(** The referenced table of the foreign key a sub-command adds: that of
    the constraint of an ADD CONSTRAINT, or of the first foreign key among
    the constraints of the column of an ADD COLUMN. *)
Definition foreign_key_target (command : AlterTableCmd) : option RangeVar :=
  match command.(subtype), command.(def) with
  | AT_AddConstraint, T_Constraint constraint =>
      if is_CONSTR_FOREIGN constraint.(contype) then Some constraint.(pktable)
      else None
  | AT_AddColumn, T_ColumnDef column =>
      option_map pktable
        (find (fun constraint => is_CONSTR_FOREIGN constraint.(contype))
           column.(constraints))
  | _, _ => None
  end.

(** The partition an ATTACH PARTITION or DETACH PARTITION names. *)
Definition partition_target (command : AlterTableCmd) : option RangeVar :=
  match command.(subtype), command.(def) with
  | AT_AttachPartition, T_PartitionCmd partitionCommand
  | AT_DetachPartition, T_PartitionCmd partitionCommand =>
      Some partitionCommand.(pc_name)
  | _, _ => None
  end.

Definition right_relation_target (command : AlterTableCmd) : option RangeVar :=
  match foreign_key_target command with
  | Some rangeVar => Some rangeVar
  | None => partition_target command
  end.

(** The right-hand relation of a list of sub-commands: the relation the
    last sub-command that names one resolves to, and [rightRelationId] if
    none does. *)
Definition right_relation (env : Env) (commands : list AlterTableCmd)
    (rightRelationId : Oid) : Oid :=
  fold_left
    (fun right command =>
       match right_relation_target command with
       | Some rangeVar => relid_of env rangeVar
       | None => right
       end)
    commands rightRelationId.

(** The partition the sub-command names exists. *)
Definition partition_exists (env : Env) (command : AlterTableCmd) : bool :=
  match partition_target command with
  | Some rangeVar => OidIsValid (relid_of env rangeVar)
  | None => true
  end.

(** An ATTACH PARTITION of a relation that is not distributed. *)
Definition attaches_undistributed_partition (env : Env) (command : AlterTableCmd)
    : bool :=
  match command.(subtype), command.(def) with
  | AT_AttachPartition, T_PartitionCmd partitionCommand =>
      negb (IsDistributedTable env (relid_of env partitionCommand.(pc_name)))
  | _, _ => false
  end.

(** The session after one turn of the planning loop: the referenced table
    of a foreign key has been locked in the lock mode of the statement, a
    partition has been looked up without a lock, and the execution mode
    has been set up. *)
Definition session_after_planning_step (env : Env)
    (alterTableStatement : AlterTableStmt) (leftRelationId : Oid) (s : Session)
    (command : AlterTableCmd) : Session :=
  session_after_setup env leftRelationId command
    (match foreign_key_target command with
     | Some rangeVar =>
         with_relation_lock s (relid_of env rangeVar)
           (AlterTableGetLockLevel env alterTableStatement.(cmds))
     | None => s
     end).

Definition session_after_planning_loop (env : Env)
    (alterTableStatement : AlterTableStmt) (leftRelationId : Oid)
    (commands : list AlterTableCmd) (s : Session) : Session :=
  fold_left (session_after_planning_step env alterTableStatement leftRelationId)
    commands s.

(** Some sub-command of the statement requires sequential execution while
    the conflicting-mode guard is closed: the altered relation is a
    distributed table other than a reference table and a parallel command
    already ran in the transaction. *)
Definition conflicts_with_parallel_query (env : Env)
    (alterTableStatement : AlterTableStmt) (s : Session) : bool :=
  existsb (requires_sequential_execution env (target_relid env alterTableStatement))
    alterTableStatement.(cmds) &&
  parallel_connections_open env (target_relid env alterTableStatement) s.

(* ------------------------------------------------------------------ *)
(** ** Concurrent index jobs *)

(** The bare command list broadcast to the metadata workers for a job. *)
Definition metadata_commands (env : Env) (ddlJob : DDLJob) : list string :=
  [DISABLE_DDL_PROPAGATION env]
  ++ match SetSearchPathToCurrentSearchPathCommand env with
     | Some setSearchPathCommand => [setSearchPathCommand]
     | None => []
     end
  ++ [ddlJob.(commandString)].

(** The workers fail the shard-level tasks of the job, or carry them out
    and fail the metadata broadcast. *)
Definition concurrent_job_fails (env : Env) (ddlJob : DDLJob) : bool :=
  match tasks_outcome env ddlJob.(taskList) with
  | Some _ => true
  | None =>
      ShouldSyncTableMetadata env ddlJob.(targetRelationId) &&
      match bare_commands_outcome env WORKERS_WITH_METADATA
              (metadata_commands env ddlJob) with
      | Some _ => true
      | None => false
      end
  end.

(** The requests a failing concurrent job sends: the shard tasks once,
    and the broadcast once if the tasks went through. *)
Definition failing_job_requests (env : Env) (ddlJob : DDLJob) : list Event :=
  EvExecuteModifyTasksSequentiallyWithoutResults ddlJob.(taskList)
  :: match tasks_outcome env ddlJob.(taskList) with
     | Some _ => []
     | None =>
         [EvSendBareCommandListToWorkers WORKERS_WITH_METADATA
            (metadata_commands env ddlJob)]
     end.

(** The index a CREATE INDEX statement creates. *)
Definition created_index (env : Env) (indexStmt : IndexStmt) : Oid :=
  get_relname_relid env indexStmt.(idxname)
    (get_rel_namespace env (relid_of env indexStmt.(ix_relation))).

(** What [PostProcessUtility] logs for a concurrent index on the
    coordinator: the first commit, the locks on the table and on the new
    index in the second transaction, the second commit, and the lock on
    [pg_index] in the third transaction. *)
Definition post_process_events (env : Env) (indexStmt : IndexStmt) : list Event :=
  [ EvCommitTransactionCommand; EvStartTransactionCommand;
    EvLockRelationOid (relid_of env indexStmt.(ix_relation)) ShareUpdateExclusiveLock;
    EvLockRelationOid (created_index env indexStmt) RowExclusiveLock;
    EvCommitTransactionCommand; EvStartTransactionCommand;
    EvLockRelationOid IndexRelationId RowExclusiveLock ].

(** The session [PostProcessUtility] leaves behind for a concurrent index
    on the coordinator: two transactions were committed, the index is
    durably invalid, and its flip to valid is an uncommitted update of the
    third. *)
Definition session_after_post_process (env : Env) (indexStmt : IndexStmt)
    (s : Session) : Session :=
  with_pg_index
    (with_log s (log s ++ post_process_events env indexStmt))
    (fun o => if o =? created_index env indexStmt then false else indisvalid s o)
    [(created_index env indexStmt, true)].

(* ------------------------------------------------------------------ *)
(** ** The lock requests of the distributed lock orderer *)

(** What is done for one relation on one worker node: the lock is taken
    in-process on a node of the local group, and requested with the
    lock-if-exists command on any other node. *)
Definition lock_request (env : Env) (lockMode : LOCKMODE) (relationId : Oid)
    (workerNode : WorkerNode) : Event :=
  if workerNode.(groupId) =? GetLocalGroupId env
  then EvLockRelationOid relationId lockMode
  else EvSendCommandToWorker workerNode.(workerName) workerNode.(workerPort)
         (LOCK_RELATION_IF_EXISTS (generate_qualified_relation_name env relationId)
            (LockModeToLockModeText env lockMode)).

(** The requests in nested order: relation by relation, and for each
    relation with synchronised metadata worker by worker. *)
Definition lock_requests (env : Env) (lockMode : LOCKMODE) (relationIdList : list Oid)
    (workerNodeList : list WorkerNode) : list Event :=
  flat_map
    (fun relationId =>
       if ShouldSyncTableMetadata env relationId
       then map (lock_request env lockMode relationId) workerNodeList
       else [])
    relationIdList.

(* ------------------------------------------------------------------ *)
(** ** A small cluster to run the definitions on

    [orders] is hash-distributed over four shards on [customer_id] and has
    a foreign key from [warehouse_id] to the reference table [warehouses];
    [events] is append-distributed with a unique index that leaves out its
    distribution column; [archive] is hash-distributed but not colocated
    with [orders]; [regions] is a second reference table; [notes] is a
    plain local table. *)

Definition orders : Oid := 16384.
Definition warehouses : Oid := 16390.
Definition events : Oid := 16400.
Definition archive : Oid := 16410.
Definition notes : Oid := 16420.
Definition regions : Oid := 16430.
Definition orders_pkey : Oid := 16500.
Definition events_payload_key : Oid := 16510.

Definition rv (relname : string) : RangeVar :=
  {| schemaname := None; relname := relname |}.

Definition string_of_Z (z : Z) : string := NilZero.string_of_int (Z.to_int z).

Definition sample_relid_of (r : RangeVar) : Oid :=
  if String.eqb r.(relname) "orders" then orders
  else if String.eqb r.(relname) "warehouses" then warehouses
  else if String.eqb r.(relname) "events" then events
  else if String.eqb r.(relname) "archive" then archive
  else if String.eqb r.(relname) "notes" then notes
  else if String.eqb r.(relname) "regions" then regions
  else InvalidOid.

Definition sample_rel_name (o : Oid) : string :=
  if o =? orders then "orders"
  else if o =? warehouses then "warehouses"
  else if o =? events then "events"
  else if o =? archive then "archive"
  else if o =? notes then "notes"
  else if o =? regions then "regions"
  else "".

Definition sample_attnum (o : Oid) (column : string) : option AttrNumber :=
  if o =? orders then
    if String.eqb column "customer_id" then Some 1
    else if String.eqb column "id" then Some 2
    else if String.eqb column "warehouse_id" then Some 3
    else None
  else if o =? warehouses then
    if String.eqb column "id" then Some 1 else None
  else if o =? events then
    if String.eqb column "event_id" then Some 1
    else if String.eqb column "payload" then Some 2
    else None
  else None.

Definition sample_shards (o : Oid) : list ShardInterval :=
  if o =? orders then
    map (mkShardInterval orders) [102008; 102009; 102010; 102011]
  else if o =? warehouses then [mkShardInterval warehouses 102012]
  else if o =? events then map (mkShardInterval events) [102013; 102014]
  else if o =? archive then map (mkShardInterval archive) [102015; 102016]
  else if o =? regions then [mkShardInterval regions 102017]
  else [].

Definition sample_placements (shard : uint64) : list ShardPlacement :=
  [ {| placementId := shard + 1000; sp_shardId := shard;
       sp_nodeName := "worker-a"; sp_nodePort := 5432; sp_groupId := 1 |} ].

Definition sample_workers : list WorkerNode :=
  [ {| groupId := 3; workerName := "worker-c"; workerPort := 5432; hasMetadata := false |};
    {| groupId := 1; workerName := "worker-a"; workerPort := 5432; hasMetadata := true |};
    {| groupId := 2; workerName := "worker-b"; workerPort := 5432; hasMetadata := true |} ].

Definition sample_index_info (index : Oid) : IndexInfo :=
  if index =? orders_pkey then
    {| ii_NumIndexAttrs := 2; ii_KeyAttrNumbers := [1; 2]; ii_Unique := true;
       ii_ExclusionOps := None |}
  else
    {| ii_NumIndexAttrs := 1; ii_KeyAttrNumbers := [2]; ii_Unique := true;
       ii_ExclusionOps := None |}.

Definition worker_error : ErrorData :=
  {| class := WorkerFailure; sqlerrcode := ERRCODE_INTERNAL_ERROR;
     message := "could not connect to worker"; hint := None |}.

(** The sample cluster; [tasksFail] and [broadcastFails] say how the
    workers answer shard tasks and bare command lists. *)
Definition sample_env (tasksFail broadcastFails : bool) : Env :=
  {| relid_of := sample_relid_of;
     get_rel_relkind := fun _ => RELKIND_RELATION;
     get_rel_name := sample_rel_name;
     get_rel_namespace := fun _ => 2200;
     get_namespace_name := fun _ => "public";
     get_relname_relid := fun index _ =>
       if String.eqb index "orders_pkey" then orders_pkey else InvalidOid;
     IndexGetRelation := fun _ => orders;
     SearchSysCacheAttName := sample_attnum;
     RelationGetIndexList := fun o =>
       if o =? orders then [orders_pkey]
       else if o =? events then [events_payload_key] else [];
     BuildIndexInfo := sample_index_info;
     OperatorImplementsEquality := fun _ => false;
     generate_qualified_relation_name := fun o => ("public." ++ sample_rel_name o)%string;
     (* the strongest lock, the one PostgreSQL asks for most sub-commands *)
     AlterTableGetLockLevel := fun _ => AccessExclusiveLock;
     IsDistributedTable := fun o =>
       (o =? orders) || (o =? warehouses) || (o =? events) || (o =? archive) ||
       (o =? regions);
     PartitionMethod := fun o =>
       if (o =? warehouses) || (o =? regions) then DISTRIBUTE_BY_NONE
       else if o =? events then DISTRIBUTE_BY_APPEND
       else DISTRIBUTE_BY_HASH;
     DistPartitionKey := fun o =>
       if (o =? orders) || (o =? events) || (o =? archive)
       then Some {| varattno := 1 |} else None;
     TableColocationId := fun o => if o =? orders then 1 else 2;
     TablesColocated := fun a b => a =? b;
     LoadShardIntervalList := sample_shards;
     shard_placements := sample_placements;
     ShouldSyncTableMetadata := fun o => (o =? orders) || (o =? warehouses);
     PartitionTableReplicated := fun _ => false;
     ActivePrimaryNodeList := sample_workers;
     GetLocalGroupId := 2;
     IsCoordinator := true;
     ClusterHasKnownMetadataWorkers := true;
     ConstraintIsAForeignKey := fun c o =>
       String.eqb c "orders_warehouse_fk" && (o =? orders);
     ConstraintIsAForeignKeyToReferenceTable := fun c o =>
       String.eqb c "orders_warehouse_fk" && (o =? orders);
     ColumnAppearsInForeignKeyToReferenceTable := fun c o =>
       String.eqb c "warehouse_id" && (o =? orders);
     TableReferenced := fun o => o =? warehouses;
     referencingRelationsViaForeignKey := fun o =>
       if o =? warehouses then [orders] else [];
     foreign_constraint_outcome := fun _ _ _ _ => None;
     quote_literal_cstr := fun t => ("'" ++ t ++ "'")%string;
     LockModeToLockModeText := fun _ => "ACCESS EXCLUSIVE";
     WORKER_APPLY_SHARD_DDL_COMMAND := fun shard schema command =>
       ("SELECT worker_apply_shard_ddl_command (" ++ string_of_Z shard ++ ", " ++
        schema ++ ", " ++ command ++ ")")%string;
     WORKER_APPLY_INTER_SHARD_DDL_COMMAND := fun l lschema r rschema command =>
       ("SELECT worker_apply_inter_shard_ddl_command (" ++ string_of_Z l ++ ", " ++
        lschema ++ ", " ++ string_of_Z r ++ ", " ++ rschema ++ ", " ++ command ++ ")")%string;
     quote_identifier := fun t => t;
     DISABLE_DDL_PROPAGATION := "SET citus.enable_ddl_propagation TO 'off'";
     search_path_schema_names := [Some "public"];
     tasks_outcome := fun _ => if tasksFail then Some worker_error else None;
     bare_commands_outcome := fun _ _ =>
       if broadcastFails then Some worker_error else None;
     workers_command_outcome := fun _ _ => None;
     worker_command_outcome := fun _ _ _ => None |}.

(** The sample cluster with one foreign key only, from the reference table
    [warehouses] to the reference table [regions]: no hash-distributed
    table references a reference table. *)
Definition reference_tables_env : Env :=
  let env := sample_env false false in
  {| relid_of := relid_of env;
     get_rel_relkind := get_rel_relkind env;
     get_rel_name := get_rel_name env;
     get_rel_namespace := get_rel_namespace env;
     get_namespace_name := get_namespace_name env;
     get_relname_relid := get_relname_relid env;
     IndexGetRelation := IndexGetRelation env;
     SearchSysCacheAttName := SearchSysCacheAttName env;
     RelationGetIndexList := RelationGetIndexList env;
     BuildIndexInfo := BuildIndexInfo env;
     OperatorImplementsEquality := OperatorImplementsEquality env;
     generate_qualified_relation_name := generate_qualified_relation_name env;
     AlterTableGetLockLevel := AlterTableGetLockLevel env;
     IsDistributedTable := IsDistributedTable env;
     PartitionMethod := PartitionMethod env;
     DistPartitionKey := DistPartitionKey env;
     TableColocationId := TableColocationId env;
     TablesColocated := TablesColocated env;
     LoadShardIntervalList := LoadShardIntervalList env;
     shard_placements := shard_placements env;
     ShouldSyncTableMetadata := ShouldSyncTableMetadata env;
     PartitionTableReplicated := PartitionTableReplicated env;
     ActivePrimaryNodeList := ActivePrimaryNodeList env;
     GetLocalGroupId := GetLocalGroupId env;
     IsCoordinator := IsCoordinator env;
     ClusterHasKnownMetadataWorkers := ClusterHasKnownMetadataWorkers env;
     ConstraintIsAForeignKey := fun c o =>
       String.eqb c "warehouses_region_fk" && (o =? warehouses);
     ConstraintIsAForeignKeyToReferenceTable := fun c o =>
       String.eqb c "warehouses_region_fk" && (o =? warehouses);
     ColumnAppearsInForeignKeyToReferenceTable := fun c o =>
       String.eqb c "region_id" && (o =? warehouses);
     TableReferenced := fun o => o =? regions;
     referencingRelationsViaForeignKey := fun o =>
       if o =? regions then [warehouses] else [];
     foreign_constraint_outcome := foreign_constraint_outcome env;
     quote_literal_cstr := quote_literal_cstr env;
     LockModeToLockModeText := LockModeToLockModeText env;
     WORKER_APPLY_SHARD_DDL_COMMAND := WORKER_APPLY_SHARD_DDL_COMMAND env;
     WORKER_APPLY_INTER_SHARD_DDL_COMMAND := WORKER_APPLY_INTER_SHARD_DDL_COMMAND env;
     quote_identifier := quote_identifier env;
     DISABLE_DDL_PROPAGATION := DISABLE_DDL_PROPAGATION env;
     search_path_schema_names := search_path_schema_names env;
     tasks_outcome := tasks_outcome env;
     bare_commands_outcome := bare_commands_outcome env;
     workers_command_outcome := workers_command_outcome env;
     worker_command_outcome := worker_command_outcome env |}.

Definition fresh_session : Session :=
  {| MultiShardConnectionType := PARALLEL_CONNECTION;
     MultiShardCommitProtocol := COMMIT_PROTOCOL_1PC;
     SavedMultiShardCommitProtocol := COMMIT_PROTOCOL_BARE;
     shouldInvalidateForeignKeyGraph := false;
     IsTransactionBlock := false;
     ParallelQueryExecutedInTransaction := false;
     indisvalid_durable := fun _ => true;
     indisvalid_pending := [];
     log := [] |}.

(** The same session after a parallel multi-shard command ran in the open
    transaction block. *)
Definition session_after_parallel_query : Session :=
  {| MultiShardConnectionType := PARALLEL_CONNECTION;
     MultiShardCommitProtocol := COMMIT_PROTOCOL_1PC;
     SavedMultiShardCommitProtocol := COMMIT_PROTOCOL_BARE;
     shouldInvalidateForeignKeyGraph := false;
     IsTransactionBlock := true;
     ParallelQueryExecutedInTransaction := true;
     indisvalid_durable := fun _ => true;
     indisvalid_pending := [];
     log := [] |}.

(** Sub-commands and statements over the sample cluster. *)

Definition foreign_key (constraintName referenced : string) : Constraint :=
  {| contype := CONSTR_FOREIGN; conname := Some constraintName;
     pktable := rv referenced; skip_validation := false |}.

Definition add_constraint (constraint : Constraint) : AlterTableCmd :=
  {| subtype := AT_AddConstraint; name := ""; def := T_Constraint constraint |}.

Definition attach_partition (partition : string) : AlterTableCmd :=
  {| subtype := AT_AttachPartition; name := "";
     def := T_PartitionCmd {| pc_name := rv partition |} |}.

Definition detach_partition (partition : string) : AlterTableCmd :=
  {| subtype := AT_DetachPartition; name := "";
     def := T_PartitionCmd {| pc_name := rv partition |} |}.

Definition column_command (kind : AlterTableType) (column : string) : AlterTableCmd :=
  {| subtype := kind; name := column; def := T_OtherNode |}.

(** [ADD COLUMN column ... REFERENCES referenced], the foreign key left
    without a name. *)
Definition add_column_references (column referenced : string) : AlterTableCmd :=
  {| subtype := AT_AddColumn; name := "";
     def := T_ColumnDef
              {| colname := column; typeName := None;
                 constraints :=
                   [ {| contype := CONSTR_FOREIGN; conname := None;
                        pktable := rv referenced; skip_validation := false |} ] |} |}.

Definition alter_table (table : string) (commands : list AlterTableCmd) : AlterTableStmt :=
  {| relation := Some (rv table); cmds := commands; relkind := OBJECT_TABLE;
     missing_ok := false |}.

Definition create_index_concurrently : IndexStmt :=
  {| idxname := "orders_pkey"; ix_relation := rv "orders"; concurrent := true |}.

Definition create_index_job : DDLJob :=
  {| targetRelationId := orders;
     concurrentIndexCmd := true;
     executeSequentially := false;
     commandString := "CREATE UNIQUE INDEX CONCURRENTLY orders_pkey ON orders (customer_id, id)";
     taskList := [] |}.

(** The jobs planned for a statement on the sample cluster: the
    sequential flag and, per task, its id, anchor shard and shard pair. *)
Definition planned_jobs (statement : AlterTableStmt) (command : string)
    : list (bool * list (Z * uint64 * list uint64)) :=
  match run (PlanAlterTableStmt (sample_env false false) statement command)
          fresh_session with
  | Ok jobs =>
      map (fun job =>
             (job.(executeSequentially),
              map (fun t => (t.(taskId), t.(anchorShardId),
                             map rs_shardId t.(relationShardList)))
                job.(taskList)))
        jobs
  | Error _ => []
  end.

(** The shard tasks are handed to the parallel executor. *)
Definition is_parallel_execution (ev : Event) : bool :=
  match ev with
  | EvExecuteModifyTasksWithoutResults _ => true
  | _ => false
  end.

(** Whatever the computation adds to the log, it never hands tasks to the
    parallel executor. *)
Definition never_runs_in_parallel {A : Type} (m : M A) : Prop :=
  forall s,
    exists new,
      log (snd (m s)) = log s ++ new
      /\ forallb (fun ev => negb (is_parallel_execution ev)) new = true.

(** The computation leaves the record of parallel commands of the
    transaction as it found it. *)
Definition keeps_parallel_flag {A : Type} (m : M A) : Prop :=
  forall s,
    ParallelQueryExecutedInTransaction (snd (m s))
    = ParallelQueryExecutedInTransaction s.

(* ------------------------------------------------------------------ *)
(** ** VACUUM and ANALYZE statements *)

(** The option bits of a statement: whether the command is VACUUM (else it
    is ANALYZE), and which of the supported options it carries. *)
Definition vacuum_flags (vacuum analyze disablePageSkipping freeze full verbose : bool)
    : Z :=
  Z.lor (if vacuum then VACOPT_VACUUM else 0)
    (Z.lor (if analyze then VACOPT_ANALYZE else 0)
       (Z.lor (if disablePageSkipping then VACOPT_DISABLE_PAGE_SKIPPING else 0)
          (Z.lor (if freeze then VACOPT_FREEZE else 0)
             (Z.lor (if full then VACOPT_FULL else 0)
                (if verbose then VACOPT_VERBOSE else 0))))).

Definition option_if (given : bool) (option : string) : list string :=
  if given then [option] else [].

(** Options in parentheses, comma-separated and followed by one space;
    nothing when there is none. *)
Definition parenthesized_options (optionList : list string) : string :=
  match optionList with
  | [] => EmptyString
  | _ => ("(" ++ String.concat "," optionList ++ ") ")%string
  end.

(** The text every shard command of the statement starts with. ANALYZE
    takes VERBOSE as a keyword, VACUUM as an option. *)
Definition vacuum_prefix (vacuum analyze disablePageSkipping freeze full verbose : bool)
    : string :=
  if vacuum
  then ("VACUUM " ++
        parenthesized_options
          (option_if analyze "ANALYZE" ++
           option_if disablePageSkipping "DISABLE_PAGE_SKIPPING" ++
           option_if freeze "FREEZE" ++
           option_if full "FULL" ++
           option_if verbose "VERBOSE"))%string
  else ((if verbose then "ANALYZE VERBOSE " else "ANALYZE ") ++
        parenthesized_options
          (option_if disablePageSkipping "DISABLE_PAGE_SKIPPING" ++
           option_if freeze "FREEZE" ++
           option_if full "FULL"))%string.

(** The task [VacuumTaskList] is expected to build for one shard. *)
Definition shard_vacuum_task (env : Env) (ext : Externals) (relationId : Oid)
    (vacuumOptions : Z) (vacuumColumnList : list string) (taskId : Z)
    (shardInterval : ShardInterval) : Task :=
  {| jobId := INVALID_JOB_ID;
     taskId := taskId;
     taskType := VACUUM_ANALYZE_TASK;
     queryString :=
       (DeparseVacuumStmtPrefix vacuumOptions ++
        quote_qualified_identifier ext
          (get_namespace_name env (get_rel_namespace env relationId))
          (AppendShardIdToName ext (get_rel_name env relationId)
             shardInterval.(shardId)) ++
        DeparseVacuumColumnNames vacuumColumnList)%string;
     replicationModel := REPLICATION_MODEL_INVALID;
     anchorShardId := shardInterval.(shardId);
     taskPlacementList := shard_placements env shardInterval.(shardId);
     relationShardList := [] |}.

(** Some relation of the list is a distributed table. *)
Definition names_distributed_relation (env : Env) (relationIdList : list Oid) : bool :=
  existsb (fun relationId => OidIsValid relationId && IsDistributedTable env relationId)
    relationIdList.

(** The warning of a statement without target relations. *)
Definition unqualified_vacuum_warning {A : Type} (vacuumStmt : VacuumStmt)
    (targets : list A) : list Event :=
  match targets with
  | [] => [not_propagating_warning (vacuum_stmtName vacuumStmt)]
  | _ => []
  end.

(** A relation that exists and is not distributed. *)
Definition is_local_relation (env : Env) (rangeVar : RangeVar) : bool :=
  OidIsValid (relid_of env rangeVar) &&
  negb (IsDistributedTable env (relid_of env rangeVar)).

(** The two commit-protocol variables of the session. *)
Definition commit_protocols (s : Session) : CommitProtocol * CommitProtocol :=
  (s.(MultiShardCommitProtocol), s.(SavedMultiShardCommitProtocol)).

(** The helpers of other modules on the sample cluster. [orders] is
    partitioned by year. *)
Definition orders_2023 : Oid := 16385.
Definition orders_2024 : Oid := 16386.

Definition undefined_schema (nspname : string) : ErrorData :=
  {| class := UndefinedTable; sqlerrcode := ERRCODE_INTERNAL_ERROR;
     message := ("schema " ++ nspname ++ " does not exist")%string; hint := None |}.

Definition sample_externals : Externals :=
  {| IsPolicyRenameStmt := fun renameStmt =>
       match renameStmt.(renameType) with RENAME_OBJECT_POLICY => true | _ => false end;
     ExtractVacuumTargetRels := fun vacuumStmt => map vr_relation vacuumStmt.(rels);
     VacuumColumnList := fun vacuumStmt relationIndex =>
       match nth_error vacuumStmt.(rels) (Z.to_nat relationIndex) with
       | Some vacuumRelation => vacuumRelation.(va_cols)
       | None => []
       end;
     AppendShardIdToName := fun tableName shard =>
       (tableName ++ "_" ++ string_of_Z shard)%string;
     quote_qualified_identifier := fun schemaName tableName =>
       (schemaName ++ "." ++ tableName)%string;
     TableReferencing := fun o => o =? orders;
     PartitionedTable := fun o => o =? orders;
     PartitionList := fun o => if o =? orders then [orders_2023; orders_2024] else [];
     GenerateDetachPartitionCommand := fun o =>
       ("ALTER TABLE IF EXISTS public.orders DETACH PARTITION public.orders_" ++
        string_of_Z (o - 14362) ++ ";")%string;
     get_namespace_oid := fun nspname =>
       if String.eqb nspname "public" then 2200 else InvalidOid;
     undefined_schema_error := undefined_schema;
     pg_class_relnames := fun namespaceOid =>
       if namespaceOid =? 2200
       then ["notes"; "orders"; "warehouses"; "events"; "archive"; "regions"]
       else [];
     DistTableOidList := [orders; warehouses; events; archive; regions];
     generate_relation_name := sample_rel_name;
     current_user_name := "alice";
     session_user_name := "postgres" |}.

Definition vacuum_statement (flags : Z) (targets : list (string * list string))
    : VacuumStmt :=
  {| options := flags;
     rels := map (fun target => {| vr_relation := rv (fst target);
                                   va_cols := snd target |}) targets |}.


(* ------------------------------------------------------------------ *)
(** ** RENAME and ALTER ... SET SCHEMA statements *)

(** The table a rename is about: the table an index is defined on for an
    index rename, the named relation otherwise. *)
Definition renamed_table (env : Env) (renameStmt : RenameStmt) : Oid :=
  match renameStmt.(renameType) with
  | RENAME_OBJECT_INDEX => IndexGetRelation env (relid_of env renameStmt.(rn_relation))
  | _ => relid_of env renameStmt.(rn_relation)
  end.

(** The job of a command that is sent as it is to the shards of one
    table. *)
Definition shard_ddl_job (tableRelationId : Oid) (command : string) (tasks : list Task)
    : DDLJob :=
  {| targetRelationId := tableRelationId;
     concurrentIndexCmd := false;
     executeSequentially := false;
     commandString := command;
     taskList := tasks |}.

Definition constraint_rename_error : ErrorData :=
  unsupported
    "renaming constraints belonging to distributed tables is currently unsupported"
    None.

(** The statement names a relation that exists and is distributed. *)
Definition moves_distributed_relation (env : Env)
    (alterObjectSchemaStmt : AlterObjectSchemaStmt) : bool :=
  match alterObjectSchemaStmt.(aos_relation) with
  | Some rangeVar =>
      OidIsValid (relid_of env rangeVar) && IsDistributedTable env (relid_of env rangeVar)
  | None => false
  end.

(** The session once the relation of a rename or of an ALTER ... SET SCHEMA
    has been looked up: the relation is locked with an
    [AccessExclusiveLock]. *)
Definition with_exclusive_lock (s : Session) (relationId : Oid) : Session :=
  with_log s (log s ++ [EvLockRelationOid relationId AccessExclusiveLock]).

(** The rename is one [PlanRenameStmt] looks up the relation of (a rename
    of a table, of one of its columns or constraints, of an index or of a
    policy), and that relation exists. *)
Definition renames_existing_relation (env : Env) (ext : Externals)
    (renameStmt : RenameStmt) : bool :=
  (IsAlterTableRenameStmt renameStmt || IsIndexRenameStmt renameStmt ||
   IsPolicyRenameStmt ext renameStmt) &&
  OidIsValid (relid_of env renameStmt.(rn_relation)).

Definition rename_statement (kind : RenameObjectType) (relation : string) : RenameStmt :=
  {| renameType := kind; relationType := RENAME_OBJECT_TABLE;
     rn_relation := rv relation; rn_missing_ok := false |}.

(** The sample catalog with its one index resolvable by name. *)
Definition sample_relid_with_index (r : RangeVar) : Oid :=
  if String.eqb r.(relname) "orders_pkey" then orders_pkey else sample_relid_of r.


(** The sample cluster with a fuller catalog: the index of [orders] and the
    relations of the schema can be looked up by name, and [archive] is a
    foreign table. *)
Definition sample_catalog : Env :=
  let env := sample_env false false in
  {| relid_of := sample_relid_with_index;
     get_rel_relkind := fun o =>
       if o =? orders_pkey then RELKIND_INDEX
       else if o =? archive then RELKIND_FOREIGN_TABLE
       else RELKIND_RELATION;
     get_rel_name := get_rel_name env;
     get_rel_namespace := get_rel_namespace env;
     get_namespace_name := get_namespace_name env;
     get_relname_relid := fun relationName _ => sample_relid_with_index (rv relationName);
     IndexGetRelation := IndexGetRelation env;
     SearchSysCacheAttName := SearchSysCacheAttName env;
     RelationGetIndexList := RelationGetIndexList env;
     BuildIndexInfo := BuildIndexInfo env;
     OperatorImplementsEquality := OperatorImplementsEquality env;
     generate_qualified_relation_name := generate_qualified_relation_name env;
     AlterTableGetLockLevel := AlterTableGetLockLevel env;
     IsDistributedTable := IsDistributedTable env;
     PartitionMethod := PartitionMethod env;
     DistPartitionKey := DistPartitionKey env;
     TableColocationId := TableColocationId env;
     TablesColocated := TablesColocated env;
     LoadShardIntervalList := LoadShardIntervalList env;
     shard_placements := shard_placements env;
     ShouldSyncTableMetadata := ShouldSyncTableMetadata env;
     PartitionTableReplicated := PartitionTableReplicated env;
     ActivePrimaryNodeList := ActivePrimaryNodeList env;
     GetLocalGroupId := GetLocalGroupId env;
     IsCoordinator := IsCoordinator env;
     ClusterHasKnownMetadataWorkers := ClusterHasKnownMetadataWorkers env;
     ConstraintIsAForeignKey := ConstraintIsAForeignKey env;
     ConstraintIsAForeignKeyToReferenceTable :=
       ConstraintIsAForeignKeyToReferenceTable env;
     ColumnAppearsInForeignKeyToReferenceTable :=
       ColumnAppearsInForeignKeyToReferenceTable env;
     TableReferenced := TableReferenced env;
     referencingRelationsViaForeignKey := referencingRelationsViaForeignKey env;
     foreign_constraint_outcome := foreign_constraint_outcome env;
     quote_literal_cstr := quote_literal_cstr env;
     LockModeToLockModeText := LockModeToLockModeText env;
     WORKER_APPLY_SHARD_DDL_COMMAND := WORKER_APPLY_SHARD_DDL_COMMAND env;
     WORKER_APPLY_INTER_SHARD_DDL_COMMAND := WORKER_APPLY_INTER_SHARD_DDL_COMMAND env;
     quote_identifier := quote_identifier env;
     DISABLE_DDL_PROPAGATION := DISABLE_DDL_PROPAGATION env;
     search_path_schema_names := search_path_schema_names env;
     tasks_outcome := tasks_outcome env;
     bare_commands_outcome := bare_commands_outcome env;
     workers_command_outcome := workers_command_outcome env;
     worker_command_outcome := worker_command_outcome env |}.


(* ------------------------------------------------------------------ *)
(** ** ALTER TABLE outside the coordinator's planner *)

(** What [WorkerProcessAlterTableStmt] makes of a sub-command: an ADD
    CONSTRAINT of a foreign key is marked as not to be validated. *)
Definition skips_foreign_key_validation (command : AlterTableCmd) : AlterTableCmd :=
  match command.(subtype), command.(def) with
  | AT_AddConstraint, T_Constraint constraint =>
      if is_CONSTR_FOREIGN constraint.(contype)
      then {| subtype := command.(subtype);
              name := command.(name);
              def := T_Constraint (set_skip_validation constraint) |}
      else command
  | _, _ => command
  end.

Definition with_cmds (alterTableStatement : AlterTableStmt)
    (commandList : list AlterTableCmd) : AlterTableStmt :=
  {| relation := alterTableStatement.(relation);
     cmds := commandList;
     relkind := alterTableStatement.(relkind);
     missing_ok := alterTableStatement.(missing_ok) |}.

(** The DROP COLUMN sub-commands the check looks at: all of them, up to
    and including the first one that drops the distribution column. *)
Fixpoint examined_column_drops (env : Env) (relationId : Oid)
    (commands : list AlterTableCmd) : nat :=
  match commands with
  | [] => 0
  | command :: rest =>
      if is_AT_DropColumn command.(subtype)
      then S (if is_distribution_column env relationId command.(name) then 0
              else examined_column_drops env relationId rest)
      else examined_column_drops env relationId rest
  end.

(** A DROP COLUMN of the distribution column of the relation. *)
Definition drops_distribution_column (env : Env) (relationId : Oid)
    (command : AlterTableCmd) : bool :=
  is_AT_DropColumn command.(subtype) &&
  is_distribution_column env relationId command.(name).

(** The partition an ATTACH PARTITION sub-command attaches. *)
Definition attached_partition (env : Env) (command : AlterTableCmd) : list Oid :=
  match command.(subtype), command.(def) with
  | AT_AttachPartition, T_PartitionCmd partitionCommand =>
      [relid_of env partitionCommand.(pc_name)]
  | _, _ => []
  end.

(** The call that distributes a partition like its parent. *)
Definition distributes_partition (env : Env) (parentRelationId partitionRelationId : Oid)
    : CreateDistributedTableCall :=
  {| cdt_relationId := partitionRelationId;
     cdt_distributionColumn := DistPartitionKey env parentRelationId;
     cdt_distributionMethod := DISTRIBUTE_BY_HASH;
     cdt_colocateWithTableName := generate_qualified_relation_name env parentRelationId;
     cdt_viaDeprecatedAPI := false |}.


(* ------------------------------------------------------------------ *)
(** ** TRUNCATE, DROP TABLE and DROP SCHEMA statements *)

(** A TRUNCATE target that is a distributed foreign table. *)
Definition is_distributed_foreign_table (env : Env) (rangeVar : RangeVar) : bool :=
  IsDistributedTable env (relid_of env rangeVar) &&
  is_RELKIND_FOREIGN_TABLE (get_rel_relkind env (relid_of env rangeVar)).

(** What a TRUNCATE target can bring into the list of relations to lock on
    the workers: itself and the relations that reference it by foreign key,
    if it is distributed. *)
Definition lockable_with (env : Env) (rangeVar : RangeVar) : list Oid :=
  if IsDistributedTable env (relid_of env rangeVar)
  then relid_of env rangeVar
       :: referencingRelationsViaForeignKey env (relid_of env rangeVar)
  else [].

(** A DROP TABLE target that exists and is distributed. *)
Definition drops_distributed_table (env : Env) (rangeVar : RangeVar) : bool :=
  OidIsValid (relid_of env rangeVar) && IsDistributedTable env (relid_of env rangeVar).

(** The relation takes part in a foreign key, on either side. *)
Definition in_foreign_key (env : Env) (ext : Externals) (relationId : Oid) : bool :=
  TableReferenced env relationId || TableReferencing ext relationId.

(** The commands a DROP TABLE target makes the coordinator send to the
    workers with metadata: for a distributed, partitioned table whose
    metadata is synced and that has partitions, the switch that turns DDL
    propagation off, then one DETACH PARTITION per partition. *)
Definition detach_commands (env : Env) (ext : Externals) (rangeVar : RangeVar)
    : list Event :=
  let relationId := relid_of env rangeVar in
  if drops_distributed_table env rangeVar &&
     ShouldSyncTableMetadata env relationId &&
     PartitionedTable ext relationId
  then
    match PartitionList ext relationId with
    | [] => []
    | partitionList =>
        EvSendCommandToWorkers WORKERS_WITH_METADATA (DISABLE_DDL_PROPAGATION env)
        :: map (fun partitionRelationId =>
                  EvSendCommandToWorkers WORKERS_WITH_METADATA
                    (GenerateDetachPartitionCommand ext partitionRelationId))
             partitionList
    end
  else [].

(** The schema exists and holds a distributed table that takes part in a
    foreign key. *)
Definition schema_holds_foreign_key_table (env : Env) (ext : Externals)
    (schemaString : string) : bool :=
  let namespaceOid := get_namespace_oid ext schemaString in
  OidIsValid namespaceOid &&
  existsb (fun relationName =>
             let relationId := get_relname_relid env relationName namespaceOid in
             OidIsValid relationId && IsDistributedTable env relationId &&
             in_foreign_key env ext relationId)
    (pg_class_relnames ext namespaceOid).

(** The schemas whose [pg_class] rows are scanned: those that exist, in
    the order of the statement, up to and including the first one that
    holds a distributed table that takes part in a foreign key. *)
Fixpoint scanned_schemas (env : Env) (ext : Externals) (objects : list string)
    : list string :=
  match objects with
  | [] => []
  | schemaString :: rest =>
      if OidIsValid (get_namespace_oid ext schemaString)
      then schemaString
           :: (if schema_holds_foreign_key_table env ext schemaString then []
               else scanned_schemas env ext rest)
      else scanned_schemas env ext rest
  end.

(** What DROP SCHEMA ... CASCADE logs: [pg_class] is opened, with an
    [AccessShareLock], once for every schema scanned. *)
Definition drop_schema_events (env : Env) (ext : Externals)
    (dropStatement : DropSchemaStmt) : list Event :=
  if is_DROP_CASCADE dropStatement.(behavior)
  then map (fun _ => EvLockRelationOid RelationRelationId AccessShareLock)
         (scanned_schemas env ext dropStatement.(ds_objects))
  else [].

Definition truncate (tables : list string) : TruncateStmt :=
  {| relations := map rv tables |}.


(** What a DROP TABLE target adds to the log: the lock the lookup takes
    on a table that exists, then the commands sent for it. *)
Definition drop_table_events (env : Env) (ext : Externals) (rangeVar : RangeVar)
    : list Event :=
  (if OidIsValid (relid_of env rangeVar)
   then [EvLockRelationOid (relid_of env rangeVar) AccessShareLock]
   else [])
  ++ detach_commands env ext rangeVar.

(** A DROP TABLE target that makes the foreign key graph stale: a
    distributed table that takes part in a foreign key. *)
Definition drops_foreign_key_table (env : Env) (ext : Externals) (rangeVar : RangeVar)
    : bool :=
  drops_distributed_table env rangeVar && in_foreign_key env ext (relid_of env rangeVar).

Definition drop_table (tables : list string) : DropTableStmt :=
  {| dt_objects := map rv tables |}.


(* ------------------------------------------------------------------ *)
(** ** GRANT and REVOKE statements *)

(** The privilege comes with a column list. *)
Definition on_columns (priv : AccessPriv) : bool :=
  match priv.(cols) with
  | [] => false
  | _ :: _ => true
  end.

(** The privileges as they are written into the command for the shards. *)
Definition privileges_text (grantStmt : GrantStmt) : string :=
  match grantStmt.(privileges) with
  | [] => "ALL"
  | privilegeList => String.concat ", " (map priv_name privilegeList)
  end.

Definition grantees_text (env : Env) (ext : Externals) (grantStmt : GrantStmt) : string :=
  String.concat ", " (map (RoleSpecString env ext) grantStmt.(grantees)).

(** The GRANT or REVOKE command for one table. *)
Definition grant_command (env : Env) (ext : Externals) (grantStmt : GrantStmt)
    (relationId : Oid) : string :=
  if grantStmt.(is_grant)
  then ("GRANT " ++ privileges_text grantStmt ++ " ON " ++
        generate_relation_name ext relationId ++ " TO " ++
        grantees_text env ext grantStmt ++
        (if grantStmt.(grant_option) then " WITH GRANT OPTION" else EmptyString))%string
  else ("REVOKE " ++
        (if grantStmt.(grant_option) then "GRANT OPTION FOR " else EmptyString) ++
        privileges_text grantStmt ++ " ON " ++
        generate_relation_name ext relationId ++ " FROM " ++
        grantees_text env ext grantStmt)%string.

(** The distributed tables among the relations a GRANT names. *)
Definition distributed_tables (env : Env) (relvars : list RangeVar) : list Oid :=
  filter (IsDistributedTable env) (map (relid_of env) relvars).

(** The job planned for one table of a GRANT: the command for that table,
    as one task per shard. *)
Definition is_grant_job (env : Env) (ext : Externals) (grantStmt : GrantStmt)
    (relationId : Oid) (ddlJob : DDLJob) : Prop :=
  ddlJob.(targetRelationId) = relationId
  /\ ddlJob.(commandString) = grant_command env ext grantStmt relationId
  /\ ddlJob.(concurrentIndexCmd) = false
  /\ ddlJob.(executeSequentially) = false
  /\ List.length ddlJob.(taskList)
     = List.length (LoadShardIntervalList env relationId)
  /\ forall i shardInterval,
       nth_error (LoadShardIntervalList env relationId) i = Some shardInterval ->
       nth_error ddlJob.(taskList) i
       = Some (shard_ddl_task env relationId
                 (grant_command env ext grantStmt relationId)
                 (1 + Z.of_nat i) shardInterval).

(** The distributed tables of the named schemas, in the order of the list
    of all distributed tables. *)
Definition distributed_tables_in_schemas (env : Env) (ext : Externals)
    (schemaNames : list string) : list Oid :=
  filter (fun relationId =>
            existsb (fun nspname =>
                       get_namespace_oid ext nspname =? get_rel_namespace env relationId)
              schemaNames)
    (DistTableOidList ext).

Definition grant_on_tables (grant : bool) (privilegeList : list AccessPriv)
    (tables : list string) (roles : list RoleSpec) (withGrantOption : bool) : GrantStmt :=
  {| is_grant := grant;
     targtype := ACL_TARGET_OBJECT;
     objtype := RELATION_OBJECT_TYPE;
     gr_objects := map (fun table => GrantRelation (rv table)) tables;
     privileges := privilegeList;
     grantees := roles;
     grant_option := withGrantOption |}.


(* ------------------------------------------------------------------ *)
(** ** Search path, ALTER INDEX, and what planning does to the session *)

(** The schemas of the search path that still exist, quoted. *)
Definition live_schema_names (env : Env) : list string :=
  flat_map (fun schemaName =>
              match schemaName with
              | Some name => [quote_identifier env name]
              | None => []
              end)
    (search_path_schema_names env).

(** The sub-commands of ALTER INDEX that are propagated: SET, RESET and the
    replacement of the storage parameters. *)
Definition is_storage_option (t : AlterTableType) : bool :=
  match t with
  | AT_SetRelOptions | AT_ResetRelOptions | AT_ReplaceRelOptions => true
  | _ => false
  end.

Definition alter_index_error : ErrorData :=
  unsupported "alter index ... set tablespace ... is currently unsupported" None.

(** The commands a job that is not a concurrent index job sends to the
    workers with metadata, one by one. *)
Definition metadata_requests (env : Env) (ddlJob : DDLJob) : list Event :=
  if ShouldSyncTableMetadata env ddlJob.(targetRelationId)
  then map (EvSendCommandToWorkers WORKERS_WITH_METADATA) (metadata_commands env ddlJob)
  else [].


(** A computation respects a relation between sessions when the session it
    ends with, normally or with an error, is related to the one it started
    in. *)
Definition respects {A : Type} (R : Session -> Session -> Prop) (m : M A) : Prop :=
  forall s, R s (snd (m s)).

(** Nothing changed but, possibly, the mark that the foreign key graph is
    stale. *)
Definition marks_graph_at_most (s s' : Session) : Prop :=
  s' = s \/ s' = with_invalidate_flag s true.

(** Nothing changed but this: the relation of the statement was locked,
    any number of times, in the lock mode of the statement, and the foreign
    key graph may have been marked as stale. *)
Definition alter_table_locks_and_mark (env : Env)
    (alterTableStatement : AlterTableStmt) (s s' : Session) : Prop :=
  exists n,
    s' = Nat.iter n (with_alter_table_lock env alterTableStatement) s
    \/ s' = with_invalidate_flag
               (Nat.iter n (with_alter_table_lock env alterTableStatement) s) true.

(** The event hands something to a worker node. *)
Definition is_worker_request (ev : Event) : bool :=
  match ev with
  | EvSendCommandToWorker _ _ _
  | EvSendCommandToWorkers _ _
  | EvSendBareCommandListToWorkers _ _
  | EvExecuteModifyTasksSequentiallyWithoutResults _
  | EvExecuteModifyTasksWithoutResults _ => true
  | _ => false
  end.

(** The log grew by events on this node only, and the commit protocol and
    the catalog are as before. *)
Definition stays_local (s s' : Session) : Prop :=
  (exists new,
      log s' = log s ++ new
      /\ forallb (fun ev => negb (is_worker_request ev)) new = true)
  /\ commit_protocols s' = commit_protocols s
  /\ indisvalid_durable s' = indisvalid_durable s
  /\ indisvalid_pending s' = indisvalid_pending s.

Definition alter_index (index : string) (commands : list AlterTableCmd) : AlterTableStmt :=
  {| relation := Some (rv index); cmds := commands; relkind := OBJECT_INDEX;
     missing_ok := false |}.


(* ------------------------------------------------------------------ *)
(** ** Distributed VACUUM, partitions, and the foreign key graph *)

(** The tasks of a VACUUM or ANALYZE of one relation: one per shard, with
    task ids from 1. *)
Definition vacuum_tasks (env : Env) (ext : Externals) (relationId : Oid)
    (vacuumOptions : Z) (vacuumColumnList : list string) : list Task :=
  map (fun numbered =>
         shard_vacuum_task env ext relationId vacuumOptions vacuumColumnList
           (1 + Z.of_nat (fst numbered)) (snd numbered))
    (combine (seq 0 (List.length (LoadShardIntervalList env relationId)))
       (LoadShardIntervalList env relationId)).

(** What the statement does for its target at position [relationIndex], if
    that is a distributed table: the lock on the relation, the shard
    metadata lock and the placement lookups, and the hand-over of the tasks
    to the parallel executor. The column list is the one given at that
    position of the statement. *)
(** The lock mode of the statement: VACUUM FULL locks its targets
    exclusively. *)
Definition vacuum_lock_mode (vacuumStmt : VacuumStmt) : LOCKMODE :=
  if has_flag vacuumStmt.(options) VACOPT_FULL then AccessExclusiveLock
  else ShareUpdateExclusiveLock.

(** The locks the lookup of the targets takes: one per target, in the
    order of the statement. *)
Definition vacuum_target_locks (env : Env) (vacuumStmt : VacuumStmt)
    (targets : list RangeVar) : list Event :=
  map (fun rangeVar =>
         EvLockRelationOid (relid_of env rangeVar) (vacuum_lock_mode vacuumStmt))
    targets.

Definition vacuum_requests (env : Env) (ext : Externals) (vacuumStmt : VacuumStmt)
    (target : nat * Oid) : list Event :=
  let relationId := snd target in
  let shards := LoadShardIntervalList env relationId in
  if IsDistributedTable env relationId
  then EvLockRelationOid relationId ShareUpdateExclusiveLock
       :: task_list_effects shards (List.length shards)
       ++ [EvExecuteModifyTasksWithoutResults
             (vacuum_tasks env ext relationId vacuumStmt.(options)
                (VacuumColumnList ext vacuumStmt (Z.of_nat (fst target))))]
  else [].


(* ================================================================== *)
(** * Properties *)
(* ================================================================== *)

(** ** Session bookkeeping *)

Lemma log_with_log : forall s l, log (with_log s l) = l.
Proof. reflexivity. Qed.

Lemma with_log_with_log : forall s l1 l2, with_log (with_log s l1) l2 = with_log s l2.
Proof. reflexivity. Qed.

Lemma with_log_same : forall s, with_log s (log s) = s.
Proof. intros []; reflexivity. Qed.

Lemma emit_run : forall ev s, emit ev s = (Ok tt, with_log s (log s ++ [ev])).
Proof. reflexivity. Qed.

(** ** Task list builder *)

Lemma DDLTaskList_foreach_run :
  forall env relationId commandString shards taskId0 s,
    exists tasks,
      DDLTaskList_foreach env shards taskId0
        (quote_literal_cstr env
           (get_namespace_name env (get_rel_namespace env relationId)))
        (quote_literal_cstr env commandString) s
      = (Ok tasks,
         with_log s
           (log s ++ map (fun si => EvFinalizedShardPlacementList si.(shardId)) shards))
      /\ List.length tasks = List.length shards
      /\ forall i shardInterval,
           nth_error shards i = Some shardInterval ->
           nth_error tasks i
           = Some (shard_ddl_task env relationId commandString
                     (taskId0 + Z.of_nat i) shardInterval).
Proof.
  intros env relationId commandString shards.
  induction shards as [|si rest IH]; intros taskId0 s.
  - exists []. simpl. unfold ret. rewrite app_nil_r, with_log_same.
    split; [reflexivity|]. split; [reflexivity|].
    intros [|i] x H; discriminate H.
  - destruct (IH (taskId0 + 1) (with_log s (log s ++ [EvFinalizedShardPlacementList (shardId si)])))
      as (tasks & Hrun & Hlen & Hnth).
    eexists. split.
    + cbn [DDLTaskList_foreach]. unfold FinalizedShardPlacementList, bind at 1 2.
      rewrite emit_run. unfold ret at 1. unfold bind at 1.
      rewrite Hrun. unfold ret. rewrite with_log_with_log, log_with_log.
      simpl map. rewrite <- app_assoc. reflexivity.
    + split; [simpl; now rewrite Hlen|].
      intros [|i] x H.
      * simpl in H. injection H as <-. simpl. unfold shard_ddl_task.
        now rewrite Z.add_0_r.
      * simpl in H. simpl. rewrite (Hnth i x H).
        f_equal. f_equal. lia.
Qed.

(** C1. For every relation, whatever the number N of its shards,
    [DDLTaskList] returns (it never raises) exactly N tasks; the i-th task
    is the one for the i-th shard interval: its command string is the
    shard-apply wrapper over the quoted schema name and the quoted original
    command with that shard's id, its anchor is that shard, it carries that
    shard's finalized placement list, and task ids count from 1. The log
    shows the shared shard metadata lock on all the shards first and only
    then the placement lookups, one per shard in shard-interval order. *)
Theorem DDLTaskList_one_task_per_shard :
  forall env relationId commandString s,
    let shards := LoadShardIntervalList env relationId in
    exists tasks,
      DDLTaskList env relationId commandString s
      = (Ok tasks,
         with_log s (log s ++ task_list_effects shards (List.length shards)))
      /\ List.length tasks = List.length shards
      /\ (forall i shardInterval,
            nth_error shards i = Some shardInterval ->
            nth_error tasks i
            = Some (shard_ddl_task env relationId commandString
                      (1 + Z.of_nat i) shardInterval))
      /\ (forall task, In task tasks ->
            exists shardInterval,
              In shardInterval shards
              /\ task.(anchorShardId) = shardInterval.(shardId)
              /\ task.(taskPlacementList) = shard_placements env shardInterval.(shardId)
              /\ task.(queryString)
                 = WORKER_APPLY_SHARD_DDL_COMMAND env shardInterval.(shardId)
                     (quote_literal_cstr env
                        (get_namespace_name env (get_rel_namespace env relationId)))
                     (quote_literal_cstr env commandString)).
Proof.
  intros env relationId commandString s shards.
  destruct (DDLTaskList_foreach_run env relationId commandString shards 1
              (with_log s (log s ++ [EvLockShardListMetadata (map shardId shards) ShareLock])))
    as (tasks & Hrun & Hlen & Hnth).
  exists tasks. split; [|split; [exact Hlen|split; [exact Hnth|]]].
  - unfold DDLTaskList, LockShardListMetadata. fold shards.
    unfold bind. rewrite emit_run. rewrite Hrun.
    rewrite with_log_with_log, log_with_log.
    unfold task_list_effects. rewrite firstn_all. rewrite <- app_assoc. reflexivity.
  - intros task Hin.
    destruct (In_nth_error _ _ Hin) as [i Hi].
    assert (Hlt : (i < List.length shards)%nat).
    { rewrite <- Hlen. apply nth_error_Some. now rewrite Hi. }
    destruct (nth_error shards i) as [si|] eqn:Hsi.
    + exists si. split; [eapply nth_error_In; eauto|].
      rewrite (Hnth i si Hsi) in Hi. injection Hi as <-.
      simpl. repeat split; reflexivity.
    + apply nth_error_None in Hsi. lia.
Qed.

Lemma InterShardDDLTaskList_forboth_broadcast :
  forall env leftRelationId rightRelationId commandString rightShard
         leftShards rightShards taskId0 s,
    (forall x, In x rightShards -> x = rightShard) ->
    (List.length leftShards <= List.length rightShards)%nat ->
    exists tasks,
      InterShardDDLTaskList_forboth env leftRelationId rightRelationId
        leftShards rightShards taskId0
        (quote_literal_cstr env
           (get_namespace_name env (get_rel_namespace env leftRelationId)))
        (quote_literal_cstr env
           (get_namespace_name env (get_rel_namespace env rightRelationId)))
        (quote_literal_cstr env commandString) s
      = (Ok tasks,
         with_log s
           (log s ++ map (fun si => EvFinalizedShardPlacementList si.(shardId))
                       leftShards))
      /\ List.length tasks = List.length leftShards
      /\ forall i leftShard,
           nth_error leftShards i = Some leftShard ->
           nth_error tasks i
           = Some (inter_shard_ddl_task env leftRelationId rightRelationId
                     commandString (taskId0 + Z.of_nat i) leftShard rightShard).
Proof.
  intros env leftRelationId rightRelationId commandString rightShard leftShards.
  induction leftShards as [|ls rest IH]; intros rightShards taskId0 s Hall Hlen.
  - exists []. simpl. unfold ret. rewrite app_nil_r, with_log_same.
    split; [reflexivity|]. split; [reflexivity|].
    intros [|i] x H; discriminate H.
  - destruct rightShards as [|rs rights]; [simpl in Hlen; lia|].
    assert (Hrs : rs = rightShard) by (apply Hall; now left).
    subst rs.
    destruct (IH rights (taskId0 + 1)
                (with_log s (log s ++ [EvFinalizedShardPlacementList (shardId ls)])))
      as (tasks & Hrun & Hl & Hnth).
    { intros x Hx. apply Hall. now right. }
    { simpl in Hlen. lia. }
    eexists. split.
    + cbn [InterShardDDLTaskList_forboth].
      unfold FinalizedShardPlacementList, bind at 1 2.
      rewrite emit_run. unfold ret at 1. unfold bind at 1.
      rewrite Hrun. unfold ret. rewrite with_log_with_log, log_with_log.
      simpl map. rewrite <- app_assoc. reflexivity.
    + split; [simpl; now rewrite Hl|].
      intros [|i] x H.
      * simpl in H. injection H as <-. simpl. unfold inter_shard_ddl_task.
        now rewrite Z.add_0_r.
      * simpl in H. simpl. rewrite (Hnth i x H).
        f_equal. f_equal. lia.
Qed.

(** C2. When the right relation of an inter-shard task list is a reference
    table (distribution method none, exactly one shard),
    [InterShardDDLTaskList] returns as many tasks as the left relation has
    shards; the i-th task is the one pairing the i-th left shard with the
    reference table's single shard, so every task's right-side shard id is
    that one id, and every task carries the descriptor pair
    (left relation, left shard), (right relation, reference shard). *)
Theorem InterShardDDLTaskList_reference_table :
  forall env leftRelationId rightRelationId commandString referenceShard s,
    PartitionMethod env rightRelationId = DISTRIBUTE_BY_NONE ->
    LoadShardIntervalList env rightRelationId = [referenceShard] ->
    let leftShards := LoadShardIntervalList env leftRelationId in
    exists tasks,
      InterShardDDLTaskList env leftRelationId rightRelationId commandString s
      = (Ok tasks,
         with_log s (log s ++ task_list_effects leftShards (List.length leftShards)))
      /\ List.length tasks = List.length leftShards
      /\ (forall i leftShard,
            nth_error leftShards i = Some leftShard ->
            nth_error tasks i
            = Some (inter_shard_ddl_task env leftRelationId rightRelationId
                      commandString (1 + Z.of_nat i) leftShard referenceShard))
      /\ (forall task, In task tasks ->
            exists leftShard,
              In leftShard leftShards
              /\ task.(relationShardList)
                 = [ {| rs_relationId := leftRelationId;
                        rs_shardId := leftShard.(shardId) |};
                     {| rs_relationId := rightRelationId;
                        rs_shardId := referenceShard.(shardId) |} ]).
Proof.
  intros env leftRelationId rightRelationId commandString referenceShard s
         Hmethod Hright leftShards.
  set (rights := [referenceShard]
                   ++ repeat referenceShard (List.length leftShards - 1)%nat).
  destruct (InterShardDDLTaskList_forboth_broadcast env leftRelationId
              rightRelationId commandString referenceShard leftShards rights 1
              (with_log s (log s ++ [EvLockShardListMetadata (map shardId leftShards) ShareLock])))
    as (tasks & Hrun & Hlen & Hnth).
  { intros x Hx. unfold rights in Hx. apply in_app_or in Hx.
    destruct Hx as [[Hx|[]]|Hx]; [now symmetry|].
    now apply repeat_spec in Hx. }
  { unfold rights. rewrite length_app, repeat_length. simpl. lia. }
  exists tasks. split; [|split; [exact Hlen|split; [exact Hnth|]]].
  - unfold InterShardDDLTaskList. rewrite Hmethod, Hright. fold leftShards.
    cbn [PartitionMethodKind_eqb broadcast_reference_shard List.length].
    unfold bind at 1. unfold ret at 1.
    unfold LockShardListMetadata. unfold bind at 1. rewrite emit_run.
    fold rights. rewrite Hrun.
    rewrite with_log_with_log, log_with_log.
    unfold task_list_effects. rewrite firstn_all. rewrite <- app_assoc. reflexivity.
  - intros task Hin.
    destruct (In_nth_error _ _ Hin) as [i Hi].
    assert (Hlt : (i < List.length leftShards)%nat).
    { rewrite <- Hlen. apply nth_error_Some. now rewrite Hi. }
    destruct (nth_error leftShards i) as [ls|] eqn:Hls.
    + exists ls. split; [eapply nth_error_In; eauto|].
      rewrite (Hnth i ls Hls) in Hi. injection Hi as <-. reflexivity.
    + apply nth_error_None in Hls. lia.
Qed.

Example InterShardDDLTaskList_sample :
  map (fun t => (t.(taskId), t.(anchorShardId), map rs_shardId t.(relationShardList)))
      (match run (InterShardDDLTaskList (sample_env false false) orders warehouses
                    "ALTER TABLE orders ADD CONSTRAINT fk1 FOREIGN KEY (warehouse_id) REFERENCES warehouses (id)")
                 fresh_session with
       | Ok tasks => tasks
       | Error _ => []
       end)
  = [ (1, 102008, [102008; 102012]); (2, 102009, [102009; 102012]);
      (3, 102010, [102010; 102012]); (4, 102011, [102011; 102012]) ].
Proof. vm_compute. reflexivity. Qed.

Lemma InterShardDDLTaskList_reference_table_witness :
  exists tasks,
    InterShardDDLTaskList (sample_env false false) orders warehouses "ALTER TABLE orders VALIDATE"
      fresh_session
    = (Ok tasks,
       with_log fresh_session
         (log fresh_session
          ++ task_list_effects (sample_shards orders) 4))
    /\ List.length tasks = 4%nat.
Proof.
  destruct (InterShardDDLTaskList_reference_table (sample_env false false) orders
              warehouses "ALTER TABLE orders VALIDATE"
              (mkShardInterval warehouses 102012) fresh_session
              eq_refl eq_refl) as (tasks & Hrun & Hlen & _).
  exists tasks. split; [exact Hrun | exact Hlen].
Defined.

(** ** Execution mode *)

Ltac unfold_m :=
  unfold bind, ret, get_session, ereport_ERROR, unchecked_access,
    SetLocalMultiShardModifyModeToSequential, MarkInvalidateForeignKeyGraph in *.

(** A lookup that succeeds has locked the relation it found, in the mode
    it was asked for, and has done nothing else. *)
Lemma RangeVarGetRelid_locked_Ok :
  forall env rangeVar lockmode missingOK s relationId s',
    RangeVarGetRelid env rangeVar lockmode missingOK s = (Ok relationId, s') ->
    (OidIsValid (relid_of env rangeVar) = true /\ relationId = relid_of env rangeVar
     /\ s' = with_relation_lock s relationId lockmode)
    \/ (OidIsValid (relid_of env rangeVar) = false /\ missingOK = true
        /\ relationId = InvalidOid /\ s' = s).
Proof.
  intros env rangeVar lockmode missingOK s relationId s' H.
  unfold RangeVarGetRelid in H. unfold_m. unfold lock_relation in H.
  destruct (OidIsValid (relid_of env rangeVar)) eqn:E.
  - injection H as <- <-. auto.
  - destruct missingOK; [|discriminate H].
    injection H as <- <-. right. auto.
Qed.

Lemma RangeVarGetRelid_locks :
  forall env rangeVar lockmode missingOK s,
    OidIsValid (relid_of env rangeVar) = true ->
    RangeVarGetRelid env rangeVar lockmode missingOK s
    = (Ok (relid_of env rangeVar),
       with_relation_lock s (relid_of env rangeVar) lockmode).
Proof.
  intros env rangeVar lockmode missingOK s H. unfold RangeVarGetRelid.
  now rewrite H.
Qed.

(** With [NoLock] the lookup leaves the session as it is. *)
Lemma RangeVarGetRelid_Ok :
  forall env rangeVar missingOK s relationId s',
    RangeVarGetRelid env rangeVar NoLock missingOK s = (Ok relationId, s') ->
    s' = s /\
    ((OidIsValid (relid_of env rangeVar) = true /\ relationId = relid_of env rangeVar)
     \/ (OidIsValid (relid_of env rangeVar) = false /\ missingOK = true
         /\ relationId = InvalidOid)).
Proof.
  intros env rangeVar missingOK s relationId s' H.
  apply RangeVarGetRelid_locked_Ok in H.
  destruct H as [(Hvalid & -> & ->)|(Hvalid & -> & -> & ->)]; auto.
Qed.

Lemma RangeVarGetRelid_exists :
  forall env rangeVar missingOK s,
    OidIsValid (relid_of env rangeVar) = true ->
    RangeVarGetRelid env rangeVar NoLock missingOK s = (Ok (relid_of env rangeVar), s).
Proof.
  intros env rangeVar missingOK s H. unfold RangeVarGetRelid. now rewrite H.
Qed.

Lemma SetupExecutionMode_column_constraints_Ok :
  forall env columnConstraints b0 s b s',
    SetupExecutionMode_column_constraints env columnConstraints b0 s = (Ok b, s') ->
    s' = s /\
    b = b0 || existsb (adds_foreign_key_to_reference_table env) columnConstraints.
Proof.
  intros env columnConstraints.
  induction columnConstraints as [|c rest IH]; intros b0 s b s' H.
  - cbn in H. injection H as <- <-. now rewrite orb_false_r.
  - cbn [SetupExecutionMode_column_constraints] in H.
    cbn [existsb]. unfold adds_foreign_key_to_reference_table at 1.
    destruct (is_CONSTR_FOREIGN (contype c)) eqn:Efk.
    + unfold bind in H.
      destruct (RangeVarGetRelid env (pktable c) NoLock false s) as [[relid|e] s1] eqn:Elook;
        [|discriminate H].
      apply RangeVarGetRelid_Ok in Elook.
      destruct Elook as [-> [[Hv ->]|[_ [Hm _]]]]; [|discriminate Hm].
      apply IH in H. destruct H as [-> ->]. split; [reflexivity|].
      rewrite Hv. cbn [andb].
      destruct (is_reference_table env (relid_of env (pktable c)));
        destruct b0; reflexivity.
    + apply IH in H. destruct H as [-> ->]. now split.
Qed.

Lemma SetupExecutionMode_column_constraints_total :
  forall env columnConstraints b0 s,
    forallb (constraint_target_exists env) columnConstraints = true ->
    SetupExecutionMode_column_constraints env columnConstraints b0 s
    = (Ok (b0 || existsb (adds_foreign_key_to_reference_table env) columnConstraints), s).
Proof.
  intros env columnConstraints.
  induction columnConstraints as [|c rest IH]; intros b0 s H.
  - cbn. now rewrite orb_false_r.
  - cbn [forallb] in H. apply andb_true_iff in H. destruct H as [Hc Hrest].
    cbn [SetupExecutionMode_column_constraints existsb].
    unfold adds_foreign_key_to_reference_table at 1.
    unfold constraint_target_exists in Hc.
    destruct (is_CONSTR_FOREIGN (contype c)) eqn:Efk.
    + cbn in Hc. unfold bind. rewrite (RangeVarGetRelid_exists _ _ _ _ Hc).
      rewrite IH by exact Hrest. rewrite Hc. cbn [andb].
      destruct (is_reference_table env (relid_of env (pktable c)));
        destruct b0; reflexivity.
    + rewrite IH by exact Hrest. reflexivity.
Qed.

(** The flag [SetupExecutionModeForAlterTable] returns, whenever it returns
    one, is the specification's condition; a flag that is set is only
    returned while the guard is closed. *)
Lemma SetupExecutionModeForAlterTable_Ok :
  forall env relationId command s b s',
    SetupExecutionModeForAlterTable env relationId command s = (Ok b, s') ->
    b = requires_sequential_execution env relationId command
    /\ ParallelQueryExecutedInTransaction s' = ParallelQueryExecutedInTransaction s
    /\ b && parallel_connections_open env relationId s = false.
Proof.
  intros env relationId command s b s' H.
  unfold SetupExecutionModeForAlterTable in H.
  unfold bind at 1 in H.
  match type of H with
  | context [match ?m s with _ => _ end] =>
      destruct (m s) as [[flag|e] s1] eqn:Eflag; [|discriminate H]
  end.
  assert (Hflag : flag = requires_sequential_execution env relationId command
                  /\ ParallelQueryExecutedInTransaction s1
                     = ParallelQueryExecutedInTransaction s).
  { unfold requires_sequential_execution.
    destruct (subtype command) eqn:Esub;
      try (unfold_m; injection Eflag as <- <-; split; reflexivity).
    - (* AT_AddColumn *)
      unfold bind, as_ColumnDef in Eflag.
      destruct (def command); unfold_m; try discriminate Eflag.
      apply SetupExecutionMode_column_constraints_Ok in Eflag.
      destruct Eflag as [-> ->]. now split.
    - (* AT_DropColumn *)
      destruct (ColumnAppearsInForeignKeyToReferenceTable env (name command) relationId);
        unfold_m; cbn in Eflag.
      + rewrite andb_false_r in Eflag. injection Eflag as <- <-. now split.
      + injection Eflag as <- <-. now split.
    - (* AT_AlterColumnType *)
      destruct (ColumnAppearsInForeignKeyToReferenceTable env (name command) relationId);
        unfold_m; cbn in Eflag.
      + destruct (IsTransactionBlock s); cbn in Eflag;
          injection Eflag as <- <-; now split.
      + injection Eflag as <- <-. now split.
    - (* AT_AddConstraint *)
      unfold bind, as_Constraint in Eflag.
      destruct (def command) as [|c| |]; unfold_m; try discriminate Eflag.
      unfold adds_foreign_key_to_reference_table.
      destruct (is_CONSTR_FOREIGN (contype c)).
      + destruct (RangeVarGetRelid env (pktable c) NoLock false s) as [[relid|e] s2] eqn:Elook;
          [|discriminate Eflag].
        apply RangeVarGetRelid_Ok in Elook.
        destruct Elook as [-> [[Hv ->]|[_ [Hm _]]]]; [|discriminate Hm].
        injection Eflag as <- <-. now rewrite Hv.
      + injection Eflag as <- <-. now split. }
  destruct Hflag as [-> Hp]. clear Eflag. unfold_m.
  unfold parallel_connections_open. rewrite <- Hp. rewrite !andb_assoc.
  match type of H with
  | (if ?c then _ else _) _ = _ => destruct c eqn:Eguard; [discriminate H|]
  end.
  injection H as <- <-. repeat split. exact Eguard.
Qed.

(** What [SetupExecutionModeForAlterTable] does on a sub-command the parser
    can produce whose referenced tables exist: it raises the
    conflicting-mode error when the condition holds and the guard is open,
    and returns the condition otherwise. *)
Lemma SetupExecutionModeForAlterTable_run :
  forall env relationId command s,
    well_formed_command command = true ->
    referenced_tables_exist env command = true ->
    SetupExecutionModeForAlterTable env relationId command s
    = (if requires_sequential_execution env relationId command &&
          parallel_connections_open env relationId s
       then Error (conflicting_execution_mode_error (get_rel_name env relationId))
       else Ok (requires_sequential_execution env relationId command),
       session_after_setup env relationId command s).
Proof.
  intros env relationId command s Hwf Href.
  assert (Hflag :
    (match subtype command with
     | AT_DropConstraint =>
         ret (ConstraintIsAForeignKeyToReferenceTable env (name command) relationId)
     | AT_AddColumn =>
         bind (as_ColumnDef (def command))
           (fun columnDefinition =>
              SetupExecutionMode_column_constraints env
                (constraints columnDefinition) false)
     | AT_DropColumn | AT_AlterColumnType =>
         if ColumnAppearsInForeignKeyToReferenceTable env (name command) relationId
         then
           bind get_session (fun s0 =>
             bind (if IsTransactionBlock s0 &&
                      match subtype command with
                      | AT_AlterColumnType => true
                      | _ => false
                      end
                   then SetLocalMultiShardModifyModeToSequential
                   else ret tt)
               (fun _ => ret true))
         else ret false
     | AT_AddConstraint =>
         bind (as_Constraint (def command))
           (fun constraint =>
              if is_CONSTR_FOREIGN (contype constraint)
              then bind (RangeVarGetRelid env (pktable constraint) NoLock false)
                     (fun rightRelationId => ret (is_reference_table env rightRelationId))
              else ret false)
     | _ => ret false
     end) s
    = (Ok (requires_sequential_execution env relationId command),
       session_after_setup env relationId command s)).
  { unfold requires_sequential_execution, session_after_setup,
      well_formed_command, referenced_tables_exist in *.
    destruct (subtype command) eqn:Esub; cbn [is_AT_AlterColumnType andb];
      try reflexivity.
    - destruct (def command); try discriminate Hwf. cbn.
      unfold bind, ret.
      now rewrite (SetupExecutionMode_column_constraints_total _ _ _ _ Href).
    - destruct (ColumnAppearsInForeignKeyToReferenceTable env (name command) relationId);
        unfold_m; cbn; [|reflexivity].
      now rewrite andb_false_r.
    - destruct (ColumnAppearsInForeignKeyToReferenceTable env (name command) relationId);
        unfold_m; cbn; [|reflexivity].
      now destruct (IsTransactionBlock s).
    - destruct (def command) as [|c| |]; try discriminate Hwf. cbn.
      unfold adds_foreign_key_to_reference_table, constraint_target_exists in *.
      destruct (is_CONSTR_FOREIGN (contype c)); [|reflexivity].
      cbn in Href. unfold bind, ret.
      rewrite (RangeVarGetRelid_exists _ _ _ _ Href). now rewrite Href. }
  unfold SetupExecutionModeForAlterTable. unfold bind at 1.
  rewrite Hflag. unfold bind, get_session, ret, ereport_ERROR.
  unfold parallel_connections_open.
  assert (Hp : ParallelQueryExecutedInTransaction
                 (session_after_setup env relationId command s)
               = ParallelQueryExecutedInTransaction s).
  { unfold session_after_setup.
    match goal with |- context [if ?c then _ else _] => destruct c end; reflexivity. }
  rewrite Hp. rewrite !andb_assoc.
  match goal with |- context [if ?c then _ else _] => destruct c end; reflexivity.
Qed.

Lemma PlanAlterTableStmt_foreach_flag :
  forall env alterTableStatement leftRelationId commands right0 b0 s right b s',
    PlanAlterTableStmt_foreach env alterTableStatement leftRelationId commands
      right0 b0 s = (Ok (Some (right, b)), s') ->
    b = b0 || existsb (requires_sequential_execution env leftRelationId) commands.
Proof.
  intros env alterTableStatement leftRelationId commands.
  induction commands as [|command rest IH]; intros right0 b0 s right b s' H.
  - cbn in H. injection H as _ <- _. now rewrite orb_false_r.
  - cbn [PlanAlterTableStmt_foreach] in H. unfold bind at 1 in H.
    match type of H with
    | context [match ?m s with _ => _ end] =>
        destruct (m s) as [[[relid|]|e] s1] eqn:Eright; try discriminate H
    end.
    unfold bind at 1 in H.
    destruct (SetupExecutionModeForAlterTable env leftRelationId command s1)
      as [[flag|e] s2] eqn:Esetup; [|discriminate H].
    apply SetupExecutionModeForAlterTable_Ok in Esetup.
    destruct Esetup as [-> _].
    apply IH in H. subst b. cbn [existsb]. now rewrite orb_assoc.
Qed.

(** Every job [PlanAlterTableStmt] returns carries, as its sequential flag,
    whether some sub-command meets the specification's condition. *)
Lemma PlanAlterTableStmt_flag :
  forall env alterTableStatement alterTableCommand s jobs s',
    PlanAlterTableStmt env alterTableStatement alterTableCommand s = (Ok jobs, s') ->
    forall job, In job jobs ->
      job.(executeSequentially)
      = existsb (requires_sequential_execution env job.(targetRelationId))
          alterTableStatement.(cmds).
Proof.
  intros env stmt command s jobs s' H job Hin.
  unfold PlanAlterTableStmt in H.
  destruct (relation stmt) as [r|]; [|cbv beta delta [ret] in H; injection H as <- _; destruct Hin].
  unfold bind at 1 in H.
  destruct (AlterTableLookupRelation env stmt _ s) as [[left|e] s1]; [|discriminate H].
  destruct (negb (OidIsValid left)); [cbv beta delta [ret] in H; injection H as <- _; destruct Hin|].
  match type of H with
  | context [IsDistributedTable env ?l] =>
      set (leftRelationId := l) in *;
      destruct (IsDistributedTable env leftRelationId)
  end; cbn [negb] in H; [|cbv beta delta [ret] in H; injection H as <- _; destruct Hin].
  unfold bind at 1 in H.
  match type of H with
  | context [match ?m s1 with _ => _ end] =>
      destruct (m s1) as [[[]|e] s2]; [|discriminate H]
  end.
  unfold bind at 1 in H.
  destruct (PlanAlterTableStmt_foreach env stmt leftRelationId (cmds stmt) InvalidOid
              false s2) as [[[[right flag]|]|e] s3] eqn:Eloop;
    [| cbv beta delta [ret] in H; injection H as <- _; destruct Hin | discriminate H].
  apply PlanAlterTableStmt_foreach_flag in Eloop. cbn [orb] in Eloop.
  unfold bind at 1 in H.
  match type of H with
  | context [match ?m s3 with _ => _ end] =>
      destruct (m s3) as [[tasks|e] s4]; [|discriminate H]
  end.
  cbv beta delta [ret] in H. injection H as <- _.
  destruct Hin as [<-|[]]. cbn. exact Eloop.
Qed.

Lemma ExecuteTruncateStmtSequentialIfNecessary_foreach_run :
  forall env relationList s,
    forallb (fun rangeVar => OidIsValid (relid_of env rangeVar)) relationList = true ->
    ExecuteTruncateStmtSequentialIfNecessary_foreach env relationList s
    = (Ok tt,
       if existsb (truncates_referenced_reference_table env) relationList
       then with_connection_type
              (with_log s (log s ++ [EvDebug1 sequential_truncate_debug_message]))
              SEQUENTIAL_CONNECTION
       else s).
Proof.
  intros env relationList s.
  induction relationList as [|rangeVar rest IH]; intros Hall.
  - reflexivity.
  - cbn [forallb] in Hall. apply andb_true_iff in Hall. destruct Hall as [Hv Hrest].
    cbn [ExecuteTruncateStmtSequentialIfNecessary_foreach existsb].
    unfold bind at 1. rewrite (RangeVarGetRelid_exists _ _ _ _ Hv).
    unfold truncates_referenced_reference_table at 1, is_reference_table.
    destruct (IsDistributedTable env (relid_of env rangeVar) &&
              PartitionMethodKind_eqb (PartitionMethod env (relid_of env rangeVar))
                DISTRIBUTE_BY_NONE &&
              TableReferenced env (relid_of env rangeVar)); cbn [orb].
    + reflexivity.
    + apply IH. exact Hrest.
Qed.

(** A job flagged sequential is never handed to the parallel executor. *)
Lemma never_parallel_ret : forall (A : Type) (a : A), never_runs_in_parallel (ret a).
Proof. intros A a s. exists []. cbn. now rewrite app_nil_r. Qed.

Lemma never_parallel_ereport_ERROR :
  forall (A : Type) (e : ErrorData), never_runs_in_parallel (@ereport_ERROR A e).
Proof. intros A e s. exists []. cbn. now rewrite app_nil_r. Qed.

Lemma never_parallel_emit :
  forall ev, is_parallel_execution ev = false -> never_runs_in_parallel (emit ev).
Proof. intros ev H s. exists [ev]. cbn. now rewrite H. Qed.

Lemma never_parallel_bind :
  forall (A B : Type) (m : M A) (k : A -> M B),
    never_runs_in_parallel m ->
    (forall a, never_runs_in_parallel (k a)) ->
    never_runs_in_parallel (bind m k).
Proof.
  intros A B m k Hm Hk s. unfold bind.
  destruct (Hm s) as (new1 & Hlog1 & Hall1).
  destruct (m s) as [[a|e] s1]; cbn [snd] in *.
  - destruct (Hk a s1) as (new2 & Hlog2 & Hall2).
    exists (new1 ++ new2). rewrite Hlog2, Hlog1, app_assoc. split; [reflexivity|].
    rewrite forallb_app. now rewrite Hall1, Hall2.
  - exists new1. now split.
Qed.

Lemma never_parallel_request :
  forall ev outcome,
    is_parallel_execution ev = false -> never_runs_in_parallel (request ev outcome).
Proof.
  intros ev outcome H. unfold request. apply never_parallel_bind.
  - now apply never_parallel_emit.
  - intros _. destruct outcome;
      [apply never_parallel_ereport_ERROR | apply never_parallel_ret].
Qed.

Lemma never_parallel_PG_TRY :
  forall (A : Type) (body : M A) (handler : ErrorData -> M A),
    never_runs_in_parallel body ->
    (forall e, never_runs_in_parallel (handler e)) ->
    never_runs_in_parallel (PG_TRY body handler).
Proof.
  intros A body handler Hb Hh s. unfold PG_TRY.
  destruct (Hb s) as (new1 & Hlog1 & Hall1).
  destruct (body s) as [[a|e] s1]; cbn [snd] in *.
  - exists new1. now split.
  - destruct (Hh e s1) as (new2 & Hlog2 & Hall2).
    exists (new1 ++ new2). rewrite Hlog2, Hlog1, app_assoc. split; [reflexivity|].
    rewrite forallb_app. now rewrite Hall1, Hall2.
Qed.

Lemma ExecuteDistributedDDLJob_sequential :
  forall env ddlJob,
    ddlJob.(executeSequentially) = true ->
    never_runs_in_parallel (ExecuteDistributedDDLJob env ddlJob).
Proof.
  intros env ddlJob Hseq. unfold ExecuteDistributedDDLJob.
  apply never_parallel_bind.
  { unfold EnsureCoordinator. destruct (IsCoordinator env);
      [apply never_parallel_ret | apply never_parallel_ereport_ERROR]. }
  intros _. apply never_parallel_bind.
  { unfold EnsurePartitionTableNotReplicated.
    destruct (PartitionTableReplicated env (targetRelationId ddlJob));
      [apply never_parallel_ereport_ERROR | apply never_parallel_ret]. }
  intros _. destruct (concurrentIndexCmd ddlJob); cbn [negb].
  - apply never_parallel_bind.
    { intros s. exists []. cbn. now rewrite app_nil_r. }
    intros _. apply never_parallel_PG_TRY.
    + apply never_parallel_bind.
      * now apply never_parallel_request.
      * intros _. destruct (ShouldSyncTableMetadata env (targetRelationId ddlJob));
          [now apply never_parallel_request | apply never_parallel_ret].
    + intros e. apply never_parallel_ereport_ERROR.
  - apply never_parallel_bind.
    { destruct (ShouldSyncTableMetadata env (targetRelationId ddlJob));
        [|apply never_parallel_ret].
      apply never_parallel_bind; [now apply never_parallel_request|].
      intros _. apply never_parallel_bind.
      - destruct (SetSearchPathToCurrentSearchPathCommand env);
          [now apply never_parallel_request | apply never_parallel_ret].
      - intros _. now apply never_parallel_request. }
    intros _. apply never_parallel_bind.
    { intros s. exists []. cbn. now rewrite app_nil_r. }
    intros s0. rewrite Hseq, orb_true_r.
    now apply never_parallel_request.
Qed.

(** A job that reaches the executor while the session is in sequential
    mode, or with its sequential flag set, hands its shard tasks to the
    sequential executor, once, after the commands for the workers with
    metadata. *)
Lemma ExecuteDistributedDDLJob_hands_over_sequentially :
  forall env ddlJob s,
    ddlJob.(concurrentIndexCmd) = false ->
    IsCoordinator env = true ->
    PartitionTableReplicated env ddlJob.(targetRelationId) = false ->
    (forall command,
        workers_command_outcome env WORKERS_WITH_METADATA command = None) ->
    is_SEQUENTIAL_CONNECTION s.(MultiShardConnectionType) ||
      ddlJob.(executeSequentially) = true ->
    effects (ExecuteDistributedDDLJob env ddlJob) s
    = log s ++ metadata_requests env ddlJob
            ++ [EvExecuteModifyTasksSequentiallyWithoutResults ddlJob.(taskList)].
Proof.
  intros env ddlJob s Hconcurrent Hcoordinator Hreplicated Hworkers Hsequential.
  unfold effects, ExecuteDistributedDDLJob, EnsureCoordinator,
    EnsurePartitionTableNotReplicated.
  rewrite Hconcurrent, Hcoordinator, Hreplicated. cbn [negb].
  unfold bind at 1. unfold ret at 1. unfold bind at 1. unfold ret at 1.
  unfold bind at 1.
  assert (Hmetadata :
    (if ShouldSyncTableMetadata env (targetRelationId ddlJob)
     then
       SendCommandToWorkers env WORKERS_WITH_METADATA (DISABLE_DDL_PROPAGATION env) ;;;
       match SetSearchPathToCurrentSearchPathCommand env with
       | Some setSearchPathCommand =>
           SendCommandToWorkers env WORKERS_WITH_METADATA setSearchPathCommand
       | None => ret tt
       end ;;;
       SendCommandToWorkers env WORKERS_WITH_METADATA (commandString ddlJob)
     else ret tt) s
    = (Ok tt, with_log s (log s ++ metadata_requests env ddlJob))).
  { unfold metadata_requests, metadata_commands.
    destruct (ShouldSyncTableMetadata env (targetRelationId ddlJob)).
    - unfold SendCommandToWorkers, request, bind.
      destruct (SetSearchPathToCurrentSearchPathCommand env) as [path|];
        unfold ret;
        repeat first [rewrite emit_run | rewrite Hworkers | progress cbv beta iota];
        rewrite ?with_log_with_log, ?log_with_log, <- ?app_assoc; reflexivity.
    - unfold ret. now rewrite app_nil_r, with_log_same. }
  rewrite Hmetadata. unfold bind, get_session.
  cbn [MultiShardConnectionType with_log]. rewrite Hsequential.
  unfold ExecuteModifyTasksSequentiallyWithoutResults, request, bind.
  rewrite emit_run. rewrite with_log_with_log, log_with_log, <- app_assoc.
  destruct (tasks_outcome env (taskList ddlJob)); reflexivity.
Qed.

(** C3, as stated, fails for TRUNCATE. In a cluster whose one foreign key
    goes from the reference table [warehouses] to the reference table
    [regions], no hash-distributed table references [regions], so the
    specification does not ask for sequential execution; TRUNCATE of
    [regions] switches the transaction to sequential mode all the same,
    because the code tests [TableReferenced] and never looks at the
    referencing table. *)
Lemma truncate_sequential_without_hash_referrer :
  is_reference_table reference_tables_env regions = true
  /\ referencingRelationsViaForeignKey reference_tables_env regions = [warehouses]
  /\ is_hash_distributed_table reference_tables_env warehouses = false
  /\ spec_truncate_requires_sequential_execution reference_tables_env (rv "regions")
     = false
  /\ ExecuteTruncateStmtSequentialIfNecessary reference_tables_env
       {| relations := [rv "regions"] |} fresh_session
     = (Ok tt,
        with_connection_type
          (with_log fresh_session [EvDebug1 sequential_truncate_debug_message])
          SEQUENTIAL_CONNECTION).
Proof. repeat split; vm_compute; reflexivity. Qed.

(** C3, amended. The sequential-execution flag is set exactly when the
    code's condition holds; for TRUNCATE that condition is wider than the
    one of the specification.
    (1) Whenever [SetupExecutionModeForAlterTable] returns a flag for a
    sub-command, the flag says whether the sub-command drops or
    type-alters a column that takes part in a foreign key to a reference
    table, or adds or drops a foreign key whose referenced side is a
    reference table; every other sub-command kind gets [false]. It does
    return that flag for each sub-command the parser can produce whose
    referenced tables exist, unless the conflicting-mode guard fires.
    (2) Every job [PlanAlterTableStmt] returns has its flag set exactly
    when some sub-command of the statement meets that condition.
    (3) [ExecuteTruncateStmtSequentialIfNecessary], on relations that
    exist, switches the transaction to sequential mode exactly when one of
    them is a reference table that some foreign key references, whatever
    the distribution method of the referencing table, and leaves the
    session untouched otherwise.
    (4) A job whose flag is set is never handed to the parallel executor.
    (5) A job that reaches the executor with its flag set, or in a
    transaction that was switched to sequential mode, hands its shard
    tasks to the sequential executor, once, after the commands for the
    workers with metadata.
    (6) The TRUNCATE targets the specification names, reference tables
    referenced by a hash-distributed table, are among those of (3)
    wherever [TableReferenced] holds of a table that has referencing
    relations. *)
Theorem sequential_flag_set_exactly_when_required :
  forall env,
    (forall relationId command s,
        (forall b s',
            SetupExecutionModeForAlterTable env relationId command s = (Ok b, s') ->
            b = requires_sequential_execution env relationId command)
        /\ (well_formed_command command = true ->
            referenced_tables_exist env command = true ->
            requires_sequential_execution env relationId command &&
              parallel_connections_open env relationId s = false ->
            run (SetupExecutionModeForAlterTable env relationId command) s
            = Ok (requires_sequential_execution env relationId command)))
    /\ (forall alterTableStatement alterTableCommand s jobs s',
           PlanAlterTableStmt env alterTableStatement alterTableCommand s
           = (Ok jobs, s') ->
           forall job, In job jobs ->
             job.(executeSequentially)
             = existsb (requires_sequential_execution env job.(targetRelationId))
                 alterTableStatement.(cmds))
    /\ (forall command s,
           forallb (fun rangeVar => OidIsValid (relid_of env rangeVar))
             command.(relations) = true ->
           ExecuteTruncateStmtSequentialIfNecessary env command s
           = (Ok tt,
              if existsb (truncates_referenced_reference_table env)
                   command.(relations)
              then with_connection_type
                     (with_log s (log s ++ [EvDebug1 sequential_truncate_debug_message]))
                     SEQUENTIAL_CONNECTION
              else s))
    /\ (forall ddlJob,
           ddlJob.(executeSequentially) = true ->
           never_runs_in_parallel (ExecuteDistributedDDLJob env ddlJob))
    /\ (forall ddlJob s,
           ddlJob.(concurrentIndexCmd) = false ->
           IsCoordinator env = true ->
           PartitionTableReplicated env ddlJob.(targetRelationId) = false ->
           (forall command,
               workers_command_outcome env WORKERS_WITH_METADATA command = None) ->
           is_SEQUENTIAL_CONNECTION s.(MultiShardConnectionType) ||
             ddlJob.(executeSequentially) = true ->
           effects (ExecuteDistributedDDLJob env ddlJob) s
           = log s ++ metadata_requests env ddlJob
                   ++ [EvExecuteModifyTasksSequentiallyWithoutResults
                         ddlJob.(taskList)])
    /\ (forall rangeVar,
           (referencingRelationsViaForeignKey env (relid_of env rangeVar) <> [] ->
            TableReferenced env (relid_of env rangeVar) = true) ->
           spec_truncate_requires_sequential_execution env rangeVar = true ->
           truncates_referenced_reference_table env rangeVar = true).
Proof.
  intros env. split; [|split; [|split; [|split; [|split]]]].
  - intros relationId command s. split.
    + intros b s' H. now apply SetupExecutionModeForAlterTable_Ok in H.
    + intros Hwf Href Hguard. unfold run.
      rewrite (SetupExecutionModeForAlterTable_run _ _ _ _ Hwf Href).
      now rewrite Hguard.
  - apply PlanAlterTableStmt_flag.
  - intros command s Hall.
    now apply ExecuteTruncateStmtSequentialIfNecessary_foreach_run.
  - apply ExecuteDistributedDDLJob_sequential.
  - apply ExecuteDistributedDDLJob_hands_over_sequentially.
  - intros rangeVar Hconsistent Hspec.
    unfold spec_truncate_requires_sequential_execution in Hspec.
    unfold truncates_referenced_reference_table.
    apply andb_true_iff in Hspec. destruct Hspec as [Hreference Hreferrer].
    rewrite Hreference. cbn [andb]. apply Hconsistent.
    intros Hnone. rewrite Hnone in Hreferrer. discriminate Hreferrer.
Qed.

(** ** What planning leaves untouched

    Planning reads whether a parallel command already ran in the
    transaction; nothing in it changes that fact. *)

Lemma keeps_ret : forall (A : Type) (a : A), keeps_parallel_flag (ret a).
Proof. intros A a s. reflexivity. Qed.

Lemma keeps_ereport_ERROR :
  forall (A : Type) (e : ErrorData), keeps_parallel_flag (@ereport_ERROR A e).
Proof. intros A e s. reflexivity. Qed.

Lemma keeps_emit : forall ev, keeps_parallel_flag (emit ev).
Proof. intros ev s. reflexivity. Qed.

Lemma keeps_get_session : keeps_parallel_flag get_session.
Proof. intros s. reflexivity. Qed.

Lemma keeps_bind :
  forall (A B : Type) (m : M A) (k : A -> M B),
    keeps_parallel_flag m ->
    (forall a, keeps_parallel_flag (k a)) ->
    keeps_parallel_flag (bind m k).
Proof.
  intros A B m k Hm Hk s. unfold bind.
  specialize (Hm s). destruct (m s) as [[a|e] s1]; cbn in *.
  - now rewrite Hk.
  - exact Hm.
Qed.

Lemma keeps_MarkInvalidateForeignKeyGraph :
  keeps_parallel_flag MarkInvalidateForeignKeyGraph.
Proof. intros s. reflexivity. Qed.

Lemma keeps_SetLocalMultiShardModifyModeToSequential :
  keeps_parallel_flag SetLocalMultiShardModifyModeToSequential.
Proof. intros s. reflexivity. Qed.

Ltac keeps_step :=
  first
    [ apply keeps_ret
    | apply keeps_ereport_ERROR
    | apply keeps_emit
    | apply keeps_get_session
    | apply keeps_MarkInvalidateForeignKeyGraph
    | apply keeps_SetLocalMultiShardModifyModeToSequential
    | assumption
    | apply keeps_bind; [|intros ?]
    | match goal with
      | |- keeps_parallel_flag (match ?x with _ => _ end) => destruct x
      | |- keeps_parallel_flag (if ?x then _ else _) => destruct x
      | |- keeps_parallel_flag (let _ := _ in _) => cbv zeta
      end ].

Ltac keeps := repeat keeps_step.

Ltac keeps_with tac := repeat first [keeps_step | tac].

Lemma keeps_lock_relation :
  forall relationId lockmode,
    keeps_parallel_flag (lock_relation relationId lockmode).
Proof. intros relationId lockmode s. now destruct lockmode. Qed.

Lemma keeps_RangeVarGetRelid :
  forall env rangeVar lockmode missingOK,
    keeps_parallel_flag (RangeVarGetRelid env rangeVar lockmode missingOK).
Proof.
  intros. unfold RangeVarGetRelid. keeps_with ltac:(apply keeps_lock_relation).
Qed.

Lemma keeps_AlterTableLookupRelation :
  forall env alterTableStatement lockmode,
    keeps_parallel_flag (AlterTableLookupRelation env alterTableStatement lockmode).
Proof.
  intros. unfold AlterTableLookupRelation, unchecked_access. keeps.
  apply keeps_RangeVarGetRelid.
Qed.

Lemma keeps_ErrorIfUnsupportedAlterTableStmt :
  forall env alterTableStatement,
    keeps_parallel_flag (ErrorIfUnsupportedAlterTableStmt env alterTableStatement).
Proof.
  intros env stmt. unfold ErrorIfUnsupportedAlterTableStmt.
  induction (cmds stmt) as [|command rest IH]; cbn [ErrorIfUnsupportedAlterTableStmt_foreach].
  - keeps.
  - apply keeps_bind; [|intros []; [exact IH|keeps]].
    unfold ErrorIfUnsupportedAlterTableStmt_switch, AlterInvolvesPartitionColumn,
      as_Constraint, as_PartitionCmd, unchecked_access.
    keeps_with ltac:(first [ apply keeps_AlterTableLookupRelation
                           | apply keeps_RangeVarGetRelid ]).
Qed.

Lemma keeps_ErrorIfUnsupportedAlterIndexStmt :
  forall alterTableStatement,
    keeps_parallel_flag (ErrorIfUnsupportedAlterIndexStmt alterTableStatement).
Proof.
  intros stmt. unfold ErrorIfUnsupportedAlterIndexStmt.
  induction (cmds stmt) as [|command rest IH];
    cbn [ErrorIfUnsupportedAlterIndexStmt_foreach]; keeps.
Qed.

(** While the guard is open, the loop of [PlanAlterTableStmt] never ends
    with the sequential flag newly set. *)
Lemma PlanAlterTableStmt_foreach_guard :
  forall env alterTableStatement leftRelationId commands right0 b0 s right s',
    PlanAlterTableStmt_foreach env alterTableStatement leftRelationId commands
      right0 b0 s = (Ok (Some (right, true)), s') ->
    b0 = true \/ parallel_connections_open env leftRelationId s = false.
Proof.
  intros env stmt left commands.
  induction commands as [|command rest IH]; intros right0 b0 s right s' H.
  - cbn in H. injection H as _ -> _. now left.
  - cbn [PlanAlterTableStmt_foreach] in H. unfold bind at 1 in H.
    match type of H with
    | context [match ?m s with _ => _ end] =>
        assert (Hkeep : keeps_parallel_flag m);
        [| specialize (Hkeep s);
           destruct (m s) as [[[relid|]|e] s1] eqn:Eright; try discriminate H ]
    end.
    { unfold as_Constraint, as_ColumnDef, as_PartitionCmd, unchecked_access.
      assert (Hcols : forall k m l r,
                 keeps_parallel_flag
                   (PlanAlterTableStmt_column_constraints env k m l r)).
      { intros k m l r. induction l as [|c l IHl];
          cbn [PlanAlterTableStmt_column_constraints];
          keeps_with ltac:(apply keeps_RangeVarGetRelid). }
      keeps_with ltac:(first [apply keeps_RangeVarGetRelid | apply Hcols]). }
    cbn [snd] in Hkeep.
    unfold bind at 1 in H.
    destruct (SetupExecutionModeForAlterTable env left command s1)
      as [[flag|e] s2] eqn:Esetup; [|discriminate H].
    apply SetupExecutionModeForAlterTable_Ok in Esetup.
    destruct Esetup as (_ & Hp & Hguard).
    apply IH in H.
    assert (Hopen : forall t,
               ParallelQueryExecutedInTransaction t
               = ParallelQueryExecutedInTransaction s ->
               parallel_connections_open env left t
               = parallel_connections_open env left s).
    { intros t Ht. unfold parallel_connections_open. now rewrite Ht. }
    destruct H as [H|H].
    + destruct b0; [now left|]. cbn [orb] in H. subst flag.
      cbn [andb] in Hguard. right. rewrite <- Hguard. symmetry. now apply Hopen.
    + right. rewrite <- H. symmetry. apply Hopen. congruence.
Qed.

Lemma sequential_flag_set_exactly_when_required_witness :
  run (SetupExecutionModeForAlterTable (sample_env false false) orders
         (add_constraint (foreign_key "orders_warehouse_fk" "warehouses")))
      fresh_session = Ok true
  /\ run (SetupExecutionModeForAlterTable (sample_env false false) orders
            (column_command AT_DropColumn "id"))
         fresh_session = Ok false
  /\ MultiShardConnectionType
       (snd (ExecuteTruncateStmtSequentialIfNecessary (sample_env false false)
               {| relations := [rv "orders"; rv "warehouses"] |} fresh_session))
     = SEQUENTIAL_CONNECTION
  /\ effects (ExecuteDistributedDDLJob (sample_env false false)
                {| targetRelationId := events;
                   concurrentIndexCmd := false;
                   executeSequentially := true;
                   commandString := "ALTER TABLE events DROP COLUMN payload";
                   taskList := [] |})
       fresh_session
     = [EvExecuteModifyTasksSequentiallyWithoutResults []].
Proof.
  destruct (sequential_flag_set_exactly_when_required (sample_env false false))
    as (Hsetup & _ & Htruncate & _ & Hexecute & _).
  split; [|split; [|split]].
  - exact (proj2 (Hsetup orders
                    (add_constraint (foreign_key "orders_warehouse_fk" "warehouses"))
                    fresh_session) eq_refl eq_refl eq_refl).
  - exact (proj2 (Hsetup orders (column_command AT_DropColumn "id") fresh_session)
             eq_refl eq_refl eq_refl).
  - rewrite (Htruncate {| relations := [rv "orders"; rv "warehouses"] |} fresh_session
               eq_refl).
    reflexivity.
  - exact (Hexecute
             {| targetRelationId := events;
                concurrentIndexCmd := false;
                executeSequentially := true;
                commandString := "ALTER TABLE events DROP COLUMN payload";
                taskList := [] |}
             fresh_session eq_refl eq_refl eq_refl (fun _ => eq_refl) eq_refl).
Defined.


(** C4, as stated, fails on a reference table: adding to [warehouses] a
    foreign key to the reference table [regions] calls for sequential
    mode, a parallel command already ran in the transaction, and yet
    [SetupExecutionModeForAlterTable] returns the flag without raising. *)
Lemma conflicting_mode_not_raised_on_reference_table :
  requires_sequential_execution (sample_env false false) warehouses
    (add_constraint (foreign_key "warehouses_region_fk" "regions")) = true
  /\ ParallelQueryExecutedInTransaction session_after_parallel_query = true
  /\ SetupExecutionModeForAlterTable (sample_env false false) warehouses
       (add_constraint (foreign_key "warehouses_region_fk" "regions"))
       session_after_parallel_query
     = (Ok true, session_after_parallel_query).
Proof. repeat split; vm_compute; reflexivity. Qed.

(** C4, amended. If a sub-command calls for sequential mode, the altered
    relation is distributed and is not a reference table, and a parallel
    command already ran in the transaction, then
    [SetupExecutionModeForAlterTable] raises the conflicting-execution-mode
    error, whose hint tells the caller to set the sequential mode; so
    [PlanAlterTableStmt] never returns a job flagged sequential for such a
    relation in such a transaction. When the altered relation is itself a
    reference table the guard does not apply and the flag is returned. *)
Theorem conflicting_execution_mode_raised :
  forall env,
    (forall relationId command s,
        well_formed_command command = true ->
        referenced_tables_exist env command = true ->
        requires_sequential_execution env relationId command = true ->
        IsDistributedTable env relationId = true ->
        PartitionMethod env relationId <> DISTRIBUTE_BY_NONE ->
        ParallelQueryExecutedInTransaction s = true ->
        exists e,
          run (SetupExecutionModeForAlterTable env relationId command) s = Error e
          /\ e.(class) = ConflictingExecutionMode
          /\ e.(hint)
             = Some ("Try re-running the transaction with " ++ dquote ++
                     "SET LOCAL citus.multi_shard_modify_mode TO 'sequential';" ++
                     dquote)%string)
    /\ (forall alterTableStatement alterTableCommand s jobs s',
           PlanAlterTableStmt env alterTableStatement alterTableCommand s
           = (Ok jobs, s') ->
           forall job, In job jobs ->
             job.(executeSequentially) = true ->
             parallel_connections_open env job.(targetRelationId) s = false)
    /\ (forall relationId command s,
           well_formed_command command = true ->
           referenced_tables_exist env command = true ->
           PartitionMethod env relationId = DISTRIBUTE_BY_NONE ->
           run (SetupExecutionModeForAlterTable env relationId command) s
           = Ok (requires_sequential_execution env relationId command)).
Proof.
  intros env. split; [|split].
  - intros relationId command s Hwf Href Hreq Hdist Hmethod Hpar.
    eexists. unfold run.
    rewrite (SetupExecutionModeForAlterTable_run _ _ _ _ Hwf Href).
    unfold parallel_connections_open. rewrite Hreq, Hdist, Hpar.
    destruct (PartitionMethod env relationId); try contradiction; cbn;
      repeat split; reflexivity.
  - intros stmt command s jobs s' H job Hin Hseq.
    unfold PlanAlterTableStmt in H.
    destruct (relation stmt) as [r|];
      [|cbv beta delta [ret] in H; injection H as <- _; destruct Hin].
    unfold bind at 1 in H.
    pose proof (keeps_AlterTableLookupRelation env stmt (AlterTableGetLockLevel env (cmds stmt)) s) as Hk1.
    destruct (AlterTableLookupRelation env stmt _ s) as [[left|e] s1]; [|discriminate H].
    cbn [snd] in Hk1.
    destruct (negb (OidIsValid left));
      [cbv beta delta [ret] in H; injection H as <- _; destruct Hin|].
    match type of H with
    | context [IsDistributedTable env ?l] =>
        set (leftRelationId := l) in *;
        destruct (IsDistributedTable env leftRelationId)
    end; cbn [negb] in H;
      [|cbv beta delta [ret] in H; injection H as <- _; destruct Hin].
    unfold bind at 1 in H.
    match type of H with
    | context [match ?m s1 with _ => _ end] =>
        assert (Hk2 : keeps_parallel_flag m);
        [| specialize (Hk2 s1); destruct (m s1) as [[[]|e] s2]; [|discriminate H] ]
    end.
    { destruct (is_RELKIND_INDEX (get_rel_relkind env left)).
      - apply keeps_ErrorIfUnsupportedAlterIndexStmt.
      - apply keeps_ErrorIfUnsupportedAlterTableStmt. }
    cbn [snd] in Hk2.
    unfold bind at 1 in H.
    destruct (PlanAlterTableStmt_foreach env stmt leftRelationId (cmds stmt) InvalidOid
                false s2) as [[[[right flag]|]|e] s3] eqn:Eloop;
      [| cbv beta delta [ret] in H; injection H as <- _; destruct Hin | discriminate H].
    unfold bind at 1 in H.
    match type of H with
    | context [match ?m s3 with _ => _ end] =>
        destruct (m s3) as [[tasks|e] s4]; [|discriminate H]
    end.
    cbv beta delta [ret] in H. injection H as <- _.
    destruct Hin as [<-|[]]. cbn in Hseq |- *. subst flag.
    apply PlanAlterTableStmt_foreach_guard in Eloop.
    destruct Eloop as [Hf|Hopen]; [discriminate Hf|].
    rewrite <- Hopen. unfold parallel_connections_open. congruence.
  - intros relationId command s Hwf Href Hmethod. unfold run.
    rewrite (SetupExecutionModeForAlterTable_run _ _ _ _ Hwf Href).
    unfold parallel_connections_open. rewrite Hmethod. cbn.
    now rewrite andb_false_r, andb_false_r.
Qed.

Lemma conflicting_execution_mode_raised_witness :
  exists e,
    run (SetupExecutionModeForAlterTable (sample_env false false) orders
           (add_constraint (foreign_key "orders_warehouse_fk" "warehouses")))
        session_after_parallel_query = Error e
    /\ e.(class) = ConflictingExecutionMode.
Proof.
  destruct (proj1 (conflicting_execution_mode_raised (sample_env false false))
              orders
              (add_constraint (foreign_key "orders_warehouse_fk" "warehouses"))
              session_after_parallel_query
              eq_refl eq_refl eq_refl eq_refl
              (fun H => ltac:(discriminate H)) eq_refl)
    as (e & Hrun & Hclass & _).
  exists e. split; assumption.
Defined.

(** ** Constraint validation *)

Lemma index_has_distribution_column_spec :
  forall env indexInfo distributionColumn remaining attributeIndex,
    index_has_distribution_column env indexInfo distributionColumn attributeIndex
      remaining
    = existsb (enforces_on_distribution_column env indexInfo distributionColumn)
        (seq attributeIndex remaining).
Proof.
  intros env indexInfo distributionColumn remaining.
  induction remaining as [|n IH]; intros attributeIndex.
  - reflexivity.
  - cbn [index_has_distribution_column seq existsb].
    unfold enforces_on_distribution_column at 1.
    destruct (varattno distributionColumn
              =? nth attributeIndex (ii_KeyAttrNumbers indexInfo) 0); cbn [negb andb].
    + destruct (ii_Unique indexInfo ||
                match ii_ExclusionOps indexInfo with
                | Some ops => OperatorImplementsEquality env (nth attributeIndex ops InvalidOid)
                | None => false
                end); cbn [orb]; [reflexivity|apply IH].
    + cbn [orb]. apply IH.
Qed.

Lemma ErrorIfUnsupportedConstraint_foreach_run :
  forall env relationName distributionMethod distributionColumn indexOidList s,
    ErrorIfUnsupportedConstraint_foreach env relationName distributionMethod
      (Some distributionColumn) indexOidList s
    = (if existsb (lacks_distribution_column env distributionColumn) indexOidList
       then Error (constraint_without_partition_column_error relationName)
       else Ok tt,
       with_log s
         (log s ++ constraint_check_events env relationName distributionMethod
                     distributionColumn indexOidList)).
Proof.
  intros env relationName distributionMethod distributionColumn indexOidList.
  unfold constraint_check_events.
  induction indexOidList as [|indexOid rest IH]; intros s.
  - cbn. now rewrite app_nil_r, with_log_same.
  - cbn [ErrorIfUnsupportedConstraint_foreach existsb examined_indexes].
    unfold bind at 1. unfold index_open, lock_relation.
    cbn [with_relation_lock].
    set (s0 := with_log s (log s ++ [EvLockRelationOid indexOid RowExclusiveLock])).
    unfold lacks_distribution_column at 1 3, includes_distribution_column.
    rewrite <- index_has_distribution_column_spec.
    set (indexInfo := BuildIndexInfo env indexOid).
    assert (Hskip :
              negb (ii_Unique indexInfo) &&
              match ii_ExclusionOps indexInfo with None => true | Some _ => false end
              = negb (constrains_uniqueness indexInfo)).
    { unfold constrains_uniqueness.
      destruct (ii_Unique indexInfo), (ii_ExclusionOps indexInfo); reflexivity. }
    rewrite Hskip.
    destruct (constrains_uniqueness indexInfo) eqn:Eu; cbn [negb andb].
    + unfold bind at 1.
      assert (Hwarn :
                (if is_DISTRIBUTE_BY_APPEND distributionMethod
                 then emit (append_table_constraint_warning relationName)
                 else ret tt) s0
                = (Ok tt,
                   with_log s
                     (log s ++ index_check_events env relationName distributionMethod
                                 indexOid))).
      { unfold index_check_events. fold indexInfo. rewrite Eu, andb_true_r.
        destruct (is_DISTRIBUTE_BY_APPEND distributionMethod);
          [rewrite emit_run | unfold ret]; subst s0;
          rewrite ?with_log_with_log, ?log_with_log, <- ?app_assoc; reflexivity. }
      rewrite Hwarn. unfold bind at 1. unfold ret at 1.
      destruct (index_has_distribution_column env indexInfo distributionColumn 0
                  (Z.to_nat (ii_NumIndexAttrs indexInfo))); cbn [negb].
      * rewrite IH. cbn [flat_map].
        now rewrite with_log_with_log, log_with_log, <- app_assoc.
      * unfold ereport_ERROR. cbn [flat_map]. now rewrite app_nil_r.
    + rewrite IH. cbn [flat_map]. unfold index_check_events at 2.
      fold indexInfo. rewrite Eu, andb_false_r. subst s0.
      now rewrite with_log_with_log, log_with_log, <- app_assoc.
Qed.

(** C5, as stated, fails on an append-distributed table: [events] is
    append-distributed on attribute 1 and has a unique index on attribute 2
    only; the validation opens the index, logs the warning and then still
    raises the unsupported-command error. *)
Lemma append_table_constraint_is_rejected :
  PartitionMethod (sample_env false false) events = DISTRIBUTE_BY_APPEND
  /\ lacks_distribution_column (sample_env false false) {| varattno := 1 |}
       events_payload_key = true
  /\ ErrorIfUnsupportedConstraint (sample_env false false) events DISTRIBUTE_BY_APPEND
       (Some {| varattno := 1 |}) 2 fresh_session
     = (Error (constraint_without_partition_column_error "events"),
        with_log fresh_session
          [ EvLockRelationOid events_payload_key RowExclusiveLock;
            append_table_constraint_warning "events" ])
  /\ (constraint_without_partition_column_error "events").(class) = UnsupportedCommand.
Proof. repeat split; vm_compute; reflexivity. Qed.

(** C5, amended. Once the foreign-key checks pass, constraint validation
    of a relation with distribution column [distributionColumn]:
    - returns at once for a reference table (distribution method none):
      no index is looked at, nothing is logged;
    - for every other method, append included, raises the
      unsupported-command error exactly when some UNIQUE, PRIMARY KEY or
      EXCLUDE index does not include the distribution column (with an
      equality operator for EXCLUDE); the indexes are opened one after
      the other, each with a [RowExclusiveLock], up to the first one that
      is rejected;
    - on an append-distributed table it also logs one warning for each
      such index it looks at, whether or not the index includes the
      distribution column: the warning comes on top of the error, not in
      its place. On the other methods no warning is logged: the log holds
      the index locks only. *)
Theorem ErrorIfUnsupportedConstraint_rejects :
  forall env relation colocationId s,
    (forall distributionColumn,
        foreign_constraint_outcome env relation DISTRIBUTE_BY_NONE
          distributionColumn colocationId = None ->
        ErrorIfUnsupportedConstraint env relation DISTRIBUTE_BY_NONE
          distributionColumn colocationId s = (Ok tt, s))
    /\ (forall distributionMethod distributionColumn,
           distributionMethod <> DISTRIBUTE_BY_NONE ->
           foreign_constraint_outcome env relation distributionMethod
             (Some distributionColumn) colocationId = None ->
           ErrorIfUnsupportedConstraint env relation distributionMethod
             (Some distributionColumn) colocationId s
           = (if existsb (lacks_distribution_column env distributionColumn)
                   (RelationGetIndexList env relation)
              then Error (constraint_without_partition_column_error
                            (get_rel_name env relation))
              else Ok tt,
              with_log s
                (log s ++ constraint_check_events env (get_rel_name env relation)
                            distributionMethod distributionColumn
                            (RelationGetIndexList env relation))))
    /\ (constraint_without_partition_column_error (get_rel_name env relation)).(class)
       = UnsupportedCommand
    /\ (forall distributionMethod distributionColumn,
           filter is_EvWarning
             (constraint_check_events env (get_rel_name env relation)
                distributionMethod distributionColumn
                (RelationGetIndexList env relation))
           = append_table_warnings env (get_rel_name env relation) distributionMethod
               distributionColumn (RelationGetIndexList env relation))
    /\ (forall distributionMethod distributionColumn,
           distributionMethod <> DISTRIBUTE_BY_APPEND ->
           append_table_warnings env (get_rel_name env relation) distributionMethod
             distributionColumn (RelationGetIndexList env relation) = []
           /\ constraint_check_events env (get_rel_name env relation)
                distributionMethod distributionColumn
                (RelationGetIndexList env relation)
              = map (fun indexOid => EvLockRelationOid indexOid RowExclusiveLock)
                  (examined_indexes env distributionColumn
                     (RelationGetIndexList env relation))).
Proof.
  intros env relation colocationId s.
  split; [|split; [|split; [|split]]].
  - intros distributionColumn Hfk.
    unfold ErrorIfUnsupportedConstraint, ErrorIfUnsupportedForeignConstraint.
    rewrite Hfk. reflexivity.
  - intros distributionMethod distributionColumn Hmethod Hfk.
    unfold ErrorIfUnsupportedConstraint, ErrorIfUnsupportedForeignConstraint.
    rewrite Hfk. unfold bind at 1. unfold ret at 1.
    destruct distributionMethod; try contradiction; cbn [is_DISTRIBUTE_BY_NONE
      PartitionMethodKind_eqb]; apply ErrorIfUnsupportedConstraint_foreach_run.
  - reflexivity.
  - intros distributionMethod distributionColumn.
    unfold constraint_check_events, append_table_warnings.
    induction (examined_indexes env distributionColumn
                 (RelationGetIndexList env relation)) as [|indexOid rest IH].
    + now destruct (is_DISTRIBUTE_BY_APPEND distributionMethod).
    + cbn [flat_map filter map]. unfold index_check_events at 1.
      cbn [app filter is_EvWarning].
      destruct (is_DISTRIBUTE_BY_APPEND distributionMethod);
        destruct (constrains_uniqueness (BuildIndexInfo env indexOid));
        cbn [andb app filter is_EvWarning append_table_constraint_warning map];
        rewrite IH; reflexivity.
  - intros distributionMethod distributionColumn Hmethod.
    unfold append_table_warnings, constraint_check_events.
    split; [destruct distributionMethod; try contradiction; reflexivity|].
    induction (examined_indexes env distributionColumn
                 (RelationGetIndexList env relation)) as [|indexOid rest IH];
      [reflexivity|].
    cbn [flat_map map]. rewrite IH. unfold index_check_events.
    destruct distributionMethod; try contradiction; reflexivity.
Qed.

Lemma ErrorIfUnsupportedConstraint_rejects_witness :
  ErrorIfUnsupportedConstraint (sample_env false false) orders DISTRIBUTE_BY_HASH
    (Some {| varattno := 1 |}) 1 fresh_session
  = (Ok tt, with_log fresh_session [EvLockRelationOid orders_pkey RowExclusiveLock])
  /\ ErrorIfUnsupportedConstraint (sample_env false false) warehouses DISTRIBUTE_BY_NONE
       None 2 fresh_session = (Ok tt, fresh_session).
Proof.
  destruct (ErrorIfUnsupportedConstraint_rejects (sample_env false false) orders 1
              fresh_session) as (_ & Hhash & _).
  destruct (ErrorIfUnsupportedConstraint_rejects (sample_env false false) warehouses 2
              fresh_session) as (Hnone & _).
  split.
  - exact (Hhash DISTRIBUTE_BY_HASH {| varattno := 1 |}
             (fun H => ltac:(discriminate H)) eq_refl).
  - exact (Hnone None eq_refl).
Defined.

(** ** Support validator *)

Lemma AlterTableLookupRelation_locks :
  forall env alterTableStatement lockmode s,
    targets_existing_relation env alterTableStatement = true ->
    AlterTableLookupRelation env alterTableStatement lockmode s
    = (Ok (target_relid env alterTableStatement),
       with_relation_lock s (target_relid env alterTableStatement) lockmode).
Proof.
  intros env stmt lockmode s H. unfold targets_existing_relation, target_relid in *.
  unfold AlterTableLookupRelation.
  destruct (relation stmt) as [rangeVar|]; [|discriminate H].
  now apply RangeVarGetRelid_locks.
Qed.

Lemma AlterTableLookupRelation_exists :
  forall env alterTableStatement s,
    targets_existing_relation env alterTableStatement = true ->
    AlterTableLookupRelation env alterTableStatement NoLock s
    = (Ok (target_relid env alterTableStatement), s).
Proof.
  intros env stmt s H. now rewrite AlterTableLookupRelation_locks.
Qed.

Lemma AlterTableLookupRelation_alter_table_lock :
  forall env alterTableStatement s,
    targets_existing_relation env alterTableStatement = true ->
    AlterTableLookupRelation env alterTableStatement
      (AlterTableGetLockLevel env alterTableStatement.(cmds)) s
    = (Ok (target_relid env alterTableStatement),
       with_alter_table_lock env alterTableStatement s).
Proof. intros. now apply AlterTableLookupRelation_locks. Qed.

Lemma AlterInvolvesPartitionColumn_run :
  forall env alterTableStatement command s,
    targets_existing_relation env alterTableStatement = true ->
    AlterInvolvesPartitionColumn env alterTableStatement command s
    = (Ok (is_distribution_column env (target_relid env alterTableStatement)
             command.(name)),
       with_alter_table_lock env alterTableStatement s).
Proof.
  intros env stmt command s Hrel.
  unfold AlterInvolvesPartitionColumn, is_distribution_column. unfold bind.
  cbv zeta. rewrite (AlterTableLookupRelation_alter_table_lock _ _ _ Hrel).
  unfold targets_existing_relation in Hrel. rewrite Hrel. cbn [negb].
  destruct (SearchSysCacheAttName env (target_relid env stmt) (name command));
    [destruct (DistPartitionKey env (target_relid env stmt))|]; reflexivity.
Qed.

Ltac validator_leaf H :=
  cbv beta iota delta [ret ereport_ERROR unchecked_access bind
                         MarkInvalidateForeignKeyGraph lock_relation
                         with_relation_lock] in H;
  injection H as <- <-; cbn; auto.

(** One iteration of the validator on a statement whose relation exists
    never ends the loop early, and raises nothing but validator errors. *)
Lemma ErrorIfUnsupportedAlterTableStmt_switch_outcome :
  forall env alterTableStatement command s r s',
    targets_existing_relation env alterTableStatement = true ->
    well_formed_command command = true ->
    ErrorIfUnsupportedAlterTableStmt_switch env alterTableStatement command s = (r, s') ->
    match r with
    | Ok Continue => True
    | Ok Return => False
    | Error e => validator_error env [command] e
    end.
Proof.
  intros env stmt command s r s' Hrel Hwf H.
  unfold ErrorIfUnsupportedAlterTableStmt_switch in H.
  unfold validator_error, attaches_missing_partition. cbn [existsb].
  unfold well_formed_command in Hwf.
  pose proof Hrel as Hvalid. unfold targets_existing_relation in Hvalid.
  destruct (subtype command) eqn:Esub.
  - (* AT_AddColumn *)
    destruct (def command) as [column| | |]; try discriminate Hwf.
    destruct (typeName column) as [tn|]; [|validator_leaf H].
    destruct (names tn) as [|n [|n' l]]; try validator_leaf H.
    destruct (negb (pct_type tn) && is_serial_pseudotype n); validator_leaf H.
  - unfold bind in H. rewrite (AlterInvolvesPartitionColumn_run _ _ _ _ Hrel) in H.
    destruct (is_distribution_column env (target_relid env stmt) (name command));
      validator_leaf H.
  - unfold bind in H. rewrite (AlterInvolvesPartitionColumn_run _ _ _ _ Hrel) in H.
    destruct (is_distribution_column env (target_relid env stmt) (name command));
      validator_leaf H.
  - unfold bind in H. rewrite (AlterInvolvesPartitionColumn_run _ _ _ _ Hrel) in H.
    destruct (is_distribution_column env (target_relid env stmt) (name command));
      validator_leaf H.
  - unfold bind in H. rewrite (AlterInvolvesPartitionColumn_run _ _ _ _ Hrel) in H.
    destruct (is_distribution_column env (target_relid env stmt) (name command));
      validator_leaf H.
  - validator_leaf H.
  - (* AT_AddConstraint *)
    destruct (1 <? Z.of_nat (List.length (cmds stmt))); [validator_leaf H|].
    destruct (def command) as [|c| |]; try discriminate Hwf.
    unfold bind, as_Constraint, ret in H.
    destruct (conname c); validator_leaf H.
  - (* AT_DropConstraint *)
    unfold bind in H. cbv zeta in H.
    rewrite (AlterTableLookupRelation_alter_table_lock _ _ _ Hrel) in H.
    rewrite Hvalid in H. cbn [negb] in H.
    destruct (ConstraintIsAForeignKey env (name command) (target_relid env stmt));
      validator_leaf H.
  - (* AT_AttachPartition *)
    destruct (def command) as [| |partitionCommand|]; try discriminate Hwf.
    unfold bind in H. rewrite (AlterTableLookupRelation_exists _ _ _ Hrel) in H.
    unfold as_PartitionCmd, ret, RangeVarGetRelid in H.
    destruct (OidIsValid (relid_of env (pc_name partitionCommand))) eqn:Ep;
      [|validator_leaf H].
    cbv beta iota delta [ret bind lock_relation with_relation_lock] in H.
    destruct (1 <? Z.of_nat (List.length (cmds stmt))); [validator_leaf H|].
    match type of H with
    | (if ?c then _ else _) _ = _ => destruct c
    end; validator_leaf H.
  - (* AT_DetachPartition *)
    destruct (1 <? Z.of_nat (List.length (cmds stmt))); validator_leaf H.
  - validator_leaf H.
  - validator_leaf H.
  - validator_leaf H.
  - validator_leaf H.
  - validator_leaf H.
  - validator_leaf H.
  - validator_leaf H.
  - validator_leaf H.
Qed.

Lemma validator_error_cons :
  forall env command rest e,
    validator_error env [command] e \/ validator_error env rest e ->
    validator_error env (command :: rest) e.
Proof.
  unfold validator_error. intros env command rest e [[H|[H1 H2]]|[H|[H1 H2]]];
    auto; right; split; auto; cbn [existsb] in *.
  - rewrite orb_false_r in H2. now rewrite H2.
  - rewrite H2. apply orb_true_r.
Qed.

(** A sub-command that must be issued alone is rejected as soon as the
    statement has a second sub-command. *)
Lemma ErrorIfUnsupportedAlterTableStmt_switch_alone :
  forall env alterTableStatement command s,
    targets_existing_relation env alterTableStatement = true ->
    well_formed_command command = true ->
    must_be_alone command.(subtype) = true ->
    (1 < List.length alterTableStatement.(cmds))%nat ->
    exists e,
      ErrorIfUnsupportedAlterTableStmt_switch env alterTableStatement command s
      = (Error e, s)
      /\ validator_error env [command] e.
Proof.
  intros env stmt command s Hrel Hwf Halone Hlen.
  assert (Hlt : (1 <? Z.of_nat (List.length (cmds stmt))) = true)
    by (apply Z.ltb_lt; lia).
  unfold ErrorIfUnsupportedAlterTableStmt_switch.
  unfold validator_error, attaches_missing_partition. cbn [existsb].
  unfold well_formed_command in Hwf.
  destruct (subtype command) eqn:Esub; try discriminate Halone.
  - rewrite Hlt. eexists. split; [reflexivity|]. now left.
  - destruct (def command) as [| |partitionCommand|]; try discriminate Hwf.
    unfold bind. rewrite (AlterTableLookupRelation_exists _ _ _ Hrel).
    unfold as_PartitionCmd, ret, RangeVarGetRelid.
    destruct (OidIsValid (relid_of env (pc_name partitionCommand))) eqn:Ep.
    + rewrite Hlt. eexists. split; [reflexivity|]. now left.
    + eexists. split; [reflexivity|]. right. now split.
  - rewrite Hlt. eexists. split; [reflexivity|]. now left.
Qed.

Lemma ErrorIfUnsupportedAlterTableStmt_foreach_alone :
  forall env alterTableStatement,
    targets_existing_relation env alterTableStatement = true ->
    (1 < List.length alterTableStatement.(cmds))%nat ->
    forall commands s,
      forallb well_formed_command commands = true ->
      existsb (fun command => must_be_alone command.(subtype)) commands = true ->
      exists e s',
        ErrorIfUnsupportedAlterTableStmt_foreach env alterTableStatement commands s
        = (Error e, s')
        /\ validator_error env commands e.
Proof.
  intros env stmt Hrel Hlen commands.
  induction commands as [|command rest IH]; intros s Hwf Hex.
  - discriminate Hex.
  - cbn [forallb] in Hwf. apply andb_true_iff in Hwf. destruct Hwf as [Hwf Hwfs].
    cbn [existsb] in Hex.
    cbn [ErrorIfUnsupportedAlterTableStmt_foreach]. unfold bind at 1.
    destruct (ErrorIfUnsupportedAlterTableStmt_switch env stmt command s)
      as [[[]|e] s1] eqn:Eswitch.
    + destruct (must_be_alone (subtype command)) eqn:Ealone.
      * destruct (ErrorIfUnsupportedAlterTableStmt_switch_alone env stmt command s
                    Hrel Hwf Ealone Hlen) as (e & He & _).
        rewrite He in Eswitch. discriminate Eswitch.
      * cbn [orb] in Hex. destruct (IH s1 Hwfs Hex) as (e & s' & Hrun & Herr).
        exists e, s'. split; [exact Hrun|]. apply validator_error_cons. now right.
    + now apply (ErrorIfUnsupportedAlterTableStmt_switch_outcome _ _ _ _ _ _ Hrel Hwf)
        in Eswitch.
    + exists e, s1. split; [reflexivity|]. apply validator_error_cons. left.
      now apply (ErrorIfUnsupportedAlterTableStmt_switch_outcome _ _ _ _ _ _ Hrel Hwf)
        in Eswitch.
Qed.

(** C6, as stated, fails twice. A sole ATTACH PARTITION is rejected when
    the partition is a distributed table that is not colocated with the
    parent; and an ATTACH PARTITION of a relation that does not exist,
    issued with another sub-command, fails with the relation lookup error,
    not with an unsupported-command error. *)
Lemma sole_attach_partition_is_rejected :
  ErrorIfUnsupportedAlterTableStmt (sample_env false false)
    (alter_table "orders" [attach_partition "archive"]) fresh_session
  = (Error (unsupported
              "distributed tables cannot have non-colocated distributed tables as a partition "
              None),
     fresh_session)
  /\ exists e,
       ErrorIfUnsupportedAlterTableStmt (sample_env false false)
         (alter_table "orders"
            [attach_partition "orders_2019"; column_command AT_SetNotNull "id"])
         fresh_session
       = (Error e, fresh_session)
       /\ e.(class) = UndefinedTable.
Proof.
  split; [vm_compute; reflexivity|].
  eexists. split; vm_compute; reflexivity.
Qed.

(** C6, amended. On a statement whose relation exists and whose
    sub-commands are well-formed:
    - with ADD CONSTRAINT, ATTACH PARTITION or DETACH PARTITION among two
      or more sub-commands the validator always fails, with an
      unsupported-command error or, when an ATTACH PARTITION names a
      relation that does not exist, with that lookup error;
    - a sole ADD CONSTRAINT with an explicit name is accepted, and so is a
      sole DETACH PARTITION;
    - a sole ATTACH PARTITION is accepted when the partition exists and is
      not a distributed table outside the parent's colocation group;
    - after the local command, the constraint check of the statement passes
      when the foreign-key checks pass and every UNIQUE, PRIMARY KEY or
      EXCLUDE index of the relation includes the distribution column. *)
Theorem standalone_subcommands_validated :
  forall env alterTableStatement s,
    targets_existing_relation env alterTableStatement = true ->
    (forallb well_formed_command alterTableStatement.(cmds) = true ->
     existsb (fun command => must_be_alone command.(subtype))
       alterTableStatement.(cmds) = true ->
     (1 < List.length alterTableStatement.(cmds))%nat ->
     exists e s',
       ErrorIfUnsupportedAlterTableStmt env alterTableStatement s = (Error e, s')
       /\ validator_error env alterTableStatement.(cmds) e)
    /\ (forall constraint constraintName,
           alterTableStatement.(cmds) = [add_constraint constraint] ->
           constraint.(conname) = Some constraintName ->
           ErrorIfUnsupportedAlterTableStmt env alterTableStatement s = (Ok tt, s))
    /\ (forall partition,
           alterTableStatement.(cmds) = [detach_partition partition] ->
           ErrorIfUnsupportedAlterTableStmt env alterTableStatement s = (Ok tt, s))
    /\ (forall partition,
           alterTableStatement.(cmds) = [attach_partition partition] ->
           OidIsValid (relid_of env (rv partition)) = true ->
           IsDistributedTable env (relid_of env (rv partition)) &&
             negb (TablesColocated env (target_relid env alterTableStatement)
                     (relid_of env (rv partition))) = false ->
           ErrorIfUnsupportedAlterTableStmt env alterTableStatement s = (Ok tt, s))
    /\ (forall distributionColumn,
           let relationId := target_relid env alterTableStatement in
           DistPartitionKey env relationId = Some distributionColumn ->
           PartitionMethod env relationId <> DISTRIBUTE_BY_NONE ->
           foreign_constraint_outcome env relationId (PartitionMethod env relationId)
             (Some distributionColumn) (TableColocationId env relationId) = None ->
           existsb (lacks_distribution_column env distributionColumn)
             (RelationGetIndexList env relationId) = false ->
           run (ErrorIfUnsupportedAlterAddConstraintStmt env alterTableStatement) s
           = Ok tt).
Proof.
  intros env stmt s Hrel. split; [|split; [|split; [|split]]].
  - intros Hwf Hex Hlen. unfold ErrorIfUnsupportedAlterTableStmt.
    now apply ErrorIfUnsupportedAlterTableStmt_foreach_alone.
  - intros constraint constraintName Hcmds Hname.
    unfold ErrorIfUnsupportedAlterTableStmt. rewrite Hcmds.
    cbn [ErrorIfUnsupportedAlterTableStmt_foreach].
    unfold ErrorIfUnsupportedAlterTableStmt_switch. rewrite Hcmds. cbn.
    unfold bind. cbn. now rewrite Hname.
  - intros partition Hcmds.
    unfold ErrorIfUnsupportedAlterTableStmt. rewrite Hcmds.
    cbn [ErrorIfUnsupportedAlterTableStmt_foreach].
    unfold ErrorIfUnsupportedAlterTableStmt_switch. rewrite Hcmds. reflexivity.
  - intros partition Hcmds Hexists Hcolocated.
    unfold ErrorIfUnsupportedAlterTableStmt. rewrite Hcmds.
    cbn [ErrorIfUnsupportedAlterTableStmt_foreach].
    unfold ErrorIfUnsupportedAlterTableStmt_switch. rewrite Hcmds.
    cbn [subtype def attach_partition List.length Z.of_nat].
    unfold bind. rewrite (AlterTableLookupRelation_exists _ _ _ Hrel).
    cbn [as_PartitionCmd ret pc_name].
    rewrite (RangeVarGetRelid_exists _ _ _ _ Hexists).
    cbn. now rewrite Hcolocated.
  - intros distributionColumn relationId Hkey Hmethod Hfk Hindexes.
    unfold run, ErrorIfUnsupportedAlterAddConstraintStmt. cbv zeta.
    unfold bind at 1.
    rewrite (AlterTableLookupRelation_alter_table_lock _ _ _ Hrel). fold relationId.
    rewrite Hkey. unfold bind at 1. unfold relation_open, lock_relation.
    unfold ErrorIfUnsupportedConstraint, ErrorIfUnsupportedForeignConstraint.
    rewrite Hfk. unfold bind at 1. unfold ret at 1.
    destruct (PartitionMethod env relationId); try contradiction;
      cbn [is_DISTRIBUTE_BY_NONE PartitionMethodKind_eqb];
      rewrite ErrorIfUnsupportedConstraint_foreach_run, Hindexes; reflexivity.
Qed.

Lemma standalone_subcommands_validated_witness :
  ErrorIfUnsupportedAlterTableStmt (sample_env false false)
    (alter_table "orders" [add_constraint (foreign_key "fk1" "warehouses")])
    fresh_session = (Ok tt, fresh_session)
  /\ ErrorIfUnsupportedAlterTableStmt (sample_env false false)
       (alter_table "orders" [attach_partition "notes"])
       fresh_session = (Ok tt, fresh_session)
  /\ exists e s',
       ErrorIfUnsupportedAlterTableStmt (sample_env false false)
         (alter_table "orders"
            [column_command AT_SetNotNull "id";
             add_constraint (foreign_key "fk1" "warehouses")])
         fresh_session = (Error e, s').
Proof.
  split; [|split].
  - destruct (standalone_subcommands_validated (sample_env false false)
                (alter_table "orders" [add_constraint (foreign_key "fk1" "warehouses")])
                fresh_session eq_refl) as (_ & Hadd & _).
    exact (Hadd (foreign_key "fk1" "warehouses") "fk1" eq_refl eq_refl).
  - destruct (standalone_subcommands_validated (sample_env false false)
                (alter_table "orders" [attach_partition "notes"])
                fresh_session eq_refl) as (_ & _ & _ & Hattach & _).
    exact (Hattach "notes" eq_refl eq_refl eq_refl).
  - destruct (standalone_subcommands_validated (sample_env false false)
                (alter_table "orders"
                   [column_command AT_SetNotNull "id";
                    add_constraint (foreign_key "fk1" "warehouses")])
                fresh_session eq_refl) as (Hmany & _).
    destruct (Hmany eq_refl eq_refl ltac:(cbn; lia)) as (e & s' & Hrun & _).
    exists e, s'. exact Hrun.
Defined.

(** C7. On a statement whose relation exists, a DROP COLUMN, ALTER COLUMN
    TYPE, ALTER COLUMN DROP NOT NULL or column default change that names the
    distribution column is rejected by its check with the error "cannot
    execute ALTER TABLE command involving partition column", an
    unsupported-command error, and a statement that contains such a
    sub-command always fails in the validator (with that class of error
    unless an ATTACH PARTITION of a missing relation fails first). On a
    relation without a distribution column, a reference table,
    [AlterInvolvesPartitionColumn] answers no and the same sub-command
    passes the check. Either way the one effect of the check is the lock
    its lookup of the relation takes, in the lock mode of the statement. *)
Theorem distribution_column_alteration_rejected :
  forall env alterTableStatement s,
    targets_existing_relation env alterTableStatement = true ->
    let relationId := target_relid env alterTableStatement in
    (forall command,
        alters_column command.(subtype) = true ->
        is_distribution_column env relationId command.(name) = true ->
        ErrorIfUnsupportedAlterTableStmt_switch env alterTableStatement command s
        = (Error involves_partition_column_error,
           with_alter_table_lock env alterTableStatement s)
        /\ involves_partition_column_error.(class) = UnsupportedCommand)
    /\ (forallb well_formed_command alterTableStatement.(cmds) = true ->
        existsb (fun command =>
                   alters_column command.(subtype) &&
                   is_distribution_column env relationId command.(name))
          alterTableStatement.(cmds) = true ->
        exists e s',
          ErrorIfUnsupportedAlterTableStmt env alterTableStatement s = (Error e, s')
          /\ validator_error env alterTableStatement.(cmds) e)
    /\ (DistPartitionKey env relationId = None ->
        forall command,
          alters_column command.(subtype) = true ->
          AlterInvolvesPartitionColumn env alterTableStatement command s
          = (Ok false, with_alter_table_lock env alterTableStatement s)
          /\ ErrorIfUnsupportedAlterTableStmt_switch env alterTableStatement command s
             = (Ok Continue, with_alter_table_lock env alterTableStatement s)).
Proof.
  intros env stmt s Hrel relationId.
  assert (Hswitch : forall command t,
             alters_column (subtype command) = true ->
             ErrorIfUnsupportedAlterTableStmt_switch env stmt command t
             = (if is_distribution_column env relationId (name command)
                then Error involves_partition_column_error
                else Ok Continue, with_alter_table_lock env stmt t)).
  { intros command t Hkind. unfold ErrorIfUnsupportedAlterTableStmt_switch.
    destruct (subtype command); try discriminate Hkind;
      unfold bind; rewrite (AlterInvolvesPartitionColumn_run _ _ _ _ Hrel);
      fold relationId;
      destruct (is_distribution_column env relationId (name command)); reflexivity. }
  split; [|split].
  - intros command Hkind Hcol. rewrite (Hswitch _ _ Hkind), Hcol. now split.
  - intros Hwf Hex. unfold ErrorIfUnsupportedAlterTableStmt.
    revert s Hwf Hex.
    induction (cmds stmt) as [|command rest IH]; intros s Hwf Hex.
    + discriminate Hex.
    + cbn [forallb] in Hwf. apply andb_true_iff in Hwf. destruct Hwf as [Hwf Hwfs].
      cbn [existsb] in Hex.
      cbn [ErrorIfUnsupportedAlterTableStmt_foreach]. unfold bind at 1.
      destruct (ErrorIfUnsupportedAlterTableStmt_switch env stmt command s)
        as [[[]|e] s1] eqn:Eswitch.
      * destruct (alters_column (subtype command)) eqn:Ekind.
        -- rewrite (Hswitch _ _ Ekind) in Eswitch.
           destruct (is_distribution_column env relationId (name command));
             [discriminate Eswitch|].
           cbn [andb orb] in Hex.
           destruct (IH s1 Hwfs Hex) as (e & s' & Hrun & Herr).
           exists e, s'. split; [exact Hrun|]. apply validator_error_cons. now right.
        -- cbn [andb orb] in Hex.
           destruct (IH s1 Hwfs Hex) as (e & s' & Hrun & Herr).
           exists e, s'. split; [exact Hrun|]. apply validator_error_cons. now right.
      * now apply (ErrorIfUnsupportedAlterTableStmt_switch_outcome _ _ _ _ _ _ Hrel Hwf)
          in Eswitch.
      * exists e, s1. split; [reflexivity|]. apply validator_error_cons. left.
        now apply (ErrorIfUnsupportedAlterTableStmt_switch_outcome _ _ _ _ _ _ Hrel Hwf)
          in Eswitch.
  - intros Hkey command Hkind.
    assert (Hno : is_distribution_column env relationId (name command) = false).
    { unfold is_distribution_column. rewrite Hkey.
      now destruct (SearchSysCacheAttName env relationId (name command)). }
    split.
    + rewrite (AlterInvolvesPartitionColumn_run _ _ _ _ Hrel). fold relationId.
      now rewrite Hno.
    + now rewrite (Hswitch _ _ Hkind), Hno.
Qed.

Lemma distribution_column_alteration_rejected_witness :
  ErrorIfUnsupportedAlterTableStmt_switch (sample_env false false)
    (alter_table "orders" [column_command AT_DropColumn "customer_id"])
    (column_command AT_DropColumn "customer_id") fresh_session
  = (Error involves_partition_column_error,
     with_log fresh_session [EvLockRelationOid orders AccessExclusiveLock])
  /\ ErrorIfUnsupportedAlterTableStmt_switch (sample_env false false)
       (alter_table "warehouses" [column_command AT_AlterColumnType "id"])
       (column_command AT_AlterColumnType "id") fresh_session
     = (Ok Continue,
        with_log fresh_session [EvLockRelationOid warehouses AccessExclusiveLock]).
Proof.
  split.
  - destruct (distribution_column_alteration_rejected (sample_env false false)
                (alter_table "orders" [column_command AT_DropColumn "customer_id"])
                fresh_session eq_refl) as (Hreject & _).
    exact (proj1 (Hreject (column_command AT_DropColumn "customer_id")
                    eq_refl eq_refl)).
  - destruct (distribution_column_alteration_rejected (sample_env false false)
                (alter_table "warehouses" [column_command AT_AlterColumnType "id"])
                fresh_session eq_refl) as (_ & _ & Hreference).
    exact (proj2 (Hreference eq_refl (column_command AT_AlterColumnType "id") eq_refl)).
Defined.

(** ** Concurrent index builds *)

Lemma PostProcessUtility_run :
  forall env indexStmt s,
    indexStmt.(concurrent) = true ->
    IsCoordinator env = true ->
    OidIsValid (relid_of env indexStmt.(ix_relation)) = true ->
    PostProcessUtility env (T_IndexStmt indexStmt) s
    = (Ok tt, session_after_post_process env indexStmt s).
Proof.
  intros env indexStmt s Hconc Hcoord Hrel.
  unfold PostProcessUtility. rewrite Hconc, Hcoord. cbn [negb].
  unfold CommitTransactionCommand, StartTransactionCommand,
    index_set_state_flags_INDEX_DROP_CLEAR_VALID, CatalogTupleUpdate_indisvalid.
  unfold heap_openrv, heap_open, index_open, lock_relation.
  unfold bind. rewrite !emit_run. cbn [log with_log with_pg_index].
  rewrite (RangeVarGetRelid_locks _ _ _ _ _ Hrel).
  cbn [with_relation_lock]. rewrite !emit_run. cbn.
  unfold session_after_post_process, post_process_events, created_index. cbn.
  rewrite <- !app_assoc. reflexivity.
Qed.

Lemma ExecuteDistributedDDLJob_concurrent_failure :
  forall env ddlJob s,
    ddlJob.(concurrentIndexCmd) = true ->
    IsCoordinator env = true ->
    PartitionTableReplicated env ddlJob.(targetRelationId) = false ->
    concurrent_job_fails env ddlJob = true ->
    ExecuteDistributedDDLJob env ddlJob s
    = (Error partial_index_failure_error,
       with_log
         (with_commit_protocol s COMMIT_PROTOCOL_BARE s.(MultiShardCommitProtocol))
         (log s ++ failing_job_requests env ddlJob)).
Proof.
  intros env ddlJob s Hconc Hcoord Hrepl Hfail.
  unfold ExecuteDistributedDDLJob, EnsureCoordinator, EnsurePartitionTableNotReplicated.
  rewrite Hconc, Hcoord, Hrepl. cbn [negb].
  unfold concurrent_job_fails in Hfail. unfold failing_job_requests.
  unfold PG_TRY, ExecuteModifyTasksSequentiallyWithoutResults,
    SendBareCommandListToWorkers, request.
  unfold bind at 1. unfold ret at 1. unfold bind at 1. unfold ret at 1.
  unfold bind at 1. unfold bind at 1. unfold bind at 1. rewrite emit_run.
  cbn [log with_commit_protocol with_log].
  destruct (tasks_outcome env (taskList ddlJob)) as [e|].
  - reflexivity.
  - unfold ret at 1.
    destruct (ShouldSyncTableMetadata env (targetRelationId ddlJob));
      [|discriminate Hfail].
    cbn [andb] in Hfail.
    fold (metadata_commands env ddlJob) in *.
    assert (Hcmds :
      (match SetSearchPathToCurrentSearchPathCommand env with
       | Some setSearchPathCommand =>
           [DISABLE_DDL_PROPAGATION env] ++ [setSearchPathCommand]
       | None => [DISABLE_DDL_PROPAGATION env]
       end ++ [commandString ddlJob]) = metadata_commands env ddlJob).
    { unfold metadata_commands.
      destruct (SetSearchPathToCurrentSearchPathCommand env); reflexivity. }
    rewrite Hcmds. unfold bind at 1. rewrite emit_run.
    cbn [log with_log].
    destruct (bare_commands_outcome env WORKERS_WITH_METADATA
                (metadata_commands env ddlJob)); [|discriminate Hfail].
    unfold ereport_ERROR. rewrite <- app_assoc. reflexivity.
Qed.

(** C8. For a job flagged as a concurrent index command, on the
    coordinator: if the workers fail the shard-level tasks, or carry them
    out and fail the metadata broadcast, [ExecuteDistributedDDLJob] raises
    the partial-failure error whose hint tells the operator to drop the
    invalid index and retry; the log shows the shard tasks sent once, and
    the broadcast sent once only if the tasks went through: nothing is
    retried. For the CREATE INDEX CONCURRENTLY statement the job comes
    from, [PostProcessUtility] has by then committed twice (locking the
    table and the index in the second transaction and [pg_index] in the
    third) and cleared the validity flag of the index in place, so the
    flag is durably false when the error is raised, and false once the
    error has rolled the open transaction back. *)
Theorem concurrent_index_failure_is_fatal :
  forall env ddlJob s,
    ddlJob.(concurrentIndexCmd) = true ->
    IsCoordinator env = true ->
    PartitionTableReplicated env ddlJob.(targetRelationId) = false ->
    concurrent_job_fails env ddlJob = true ->
    (exists s',
        ExecuteDistributedDDLJob env ddlJob s = (Error partial_index_failure_error, s')
        /\ log s' = log s ++ failing_job_requests env ddlJob)
    /\ partial_index_failure_error.(class) = PartialIndexFailure
    /\ partial_index_failure_error.(hint)
       = Some "Use DROP INDEX CONCURRENTLY IF EXISTS to remove the invalid index, then retry the original command."
    /\ (forall indexStmt,
           indexStmt.(concurrent) = true ->
           OidIsValid (relid_of env indexStmt.(ix_relation)) = true ->
           exists s',
             multi_ProcessUtility_after_local_IndexStmt env indexStmt [ddlJob] s
             = (Error partial_index_failure_error, s')
             /\ log s'
                = log s
                  ++ post_process_events env indexStmt
                  ++ (if s.(shouldInvalidateForeignKeyGraph)
                      then [EvInvalidateForeignKeyGraph] else [])
                  ++ failing_job_requests env ddlJob
             /\ indisvalid_durable s' (created_index env indexStmt) = false
             /\ indisvalid (AbortCurrentTransaction s') (created_index env indexStmt)
                = false).
Proof.
  intros env ddlJob s Hconc Hcoord Hrepl Hfail.
  split; [|split; [reflexivity|split; [reflexivity|]]].
  - eexists. split.
    + apply ExecuteDistributedDDLJob_concurrent_failure; assumption.
    + reflexivity.
  - intros indexStmt Hstmt Hrel.
    unfold multi_ProcessUtility_after_local_IndexStmt.
    unfold bind at 1. rewrite (PostProcessUtility_run _ _ _ Hstmt Hcoord Hrel).
    unfold bind at 1. unfold InvalidateForeignKeyGraphForDDL.
    unfold bind at 1. unfold get_session.
    cbn [shouldInvalidateForeignKeyGraph session_after_post_process with_pg_index
         with_log].
    destruct (shouldInvalidateForeignKeyGraph s) eqn:Eflag.
    + unfold bind at 1. rewrite emit_run.
      cbn [ExecuteDistributedDDLJobs]. unfold bind at 1.
      rewrite (ExecuteDistributedDDLJob_concurrent_failure _ _ _ Hconc Hcoord Hrepl Hfail).
      eexists. split; [reflexivity|]. cbn.
      split; [now rewrite <- !app_assoc|].
      rewrite Z.eqb_refl. now split.
    + unfold ret at 1.
      cbn [ExecuteDistributedDDLJobs]. unfold bind at 1.
      rewrite (ExecuteDistributedDDLJob_concurrent_failure _ _ _ Hconc Hcoord Hrepl Hfail).
      eexists. split; [reflexivity|]. cbn.
      split; [now rewrite <- !app_assoc|].
      rewrite Z.eqb_refl. now split.
Qed.

Lemma concurrent_index_failure_is_fatal_witness :
  exists s',
    multi_ProcessUtility_after_local_IndexStmt (sample_env true false)
      create_index_concurrently [create_index_job] fresh_session
    = (Error partial_index_failure_error, s')
    /\ indisvalid (AbortCurrentTransaction s') orders_pkey = false.
Proof.
  destruct (concurrent_index_failure_is_fatal (sample_env true false) create_index_job
              fresh_session eq_refl eq_refl eq_refl eq_refl)
    as (_ & _ & _ & Hstatement).
  destruct (Hstatement create_index_concurrently eq_refl eq_refl)
    as (s' & Hrun & _ & _ & Hinvalid).
  exists s'. split; [exact Hrun | exact Hinvalid].
Defined.

Example concurrent_index_broadcast_failure :
  fst (multi_ProcessUtility_after_local_IndexStmt (sample_env false true)
         create_index_concurrently [create_index_job] fresh_session)
  = Error partial_index_failure_error.
Proof. vm_compute. reflexivity. Qed.

Example concurrent_index_success :
  let s' := snd (multi_ProcessUtility_after_local_IndexStmt (sample_env false false)
                   create_index_concurrently [create_index_job] fresh_session) in
  fst (multi_ProcessUtility_after_local_IndexStmt (sample_env false false)
         create_index_concurrently [create_index_job] fresh_session) = Ok tt
  /\ indisvalid s' orders_pkey = true
  /\ indisvalid_durable s' orders_pkey = false.
Proof. vm_compute. repeat split. Qed.

(** ** Distributed lock orderer *)

Section Sorting.

Context {A : Type} (compare : A -> A -> Z).

Lemma SortList_insert_Permutation :
  forall x l, Permutation (SortList_insert compare x l) (x :: l).
Proof.
  intros x l. induction l as [|y l IH]; cbn.
  - constructor. constructor.
  - destruct (compare x y <=? 0).
    + apply Permutation_refl.
    + eapply perm_trans; [apply perm_skip, IH|apply perm_swap].
Qed.

Lemma SortList_Permutation : forall l, Permutation (SortList l compare) l.
Proof.
  intros l. unfold SortList. induction l as [|x l IH]; cbn.
  - constructor.
  - eapply perm_trans; [apply SortList_insert_Permutation|].
    now apply perm_skip.
Qed.

Hypothesis compare_total : forall x y, 0 < compare x y -> compare y x <= 0.

Lemma SortList_insert_Sorted :
  forall x l,
    Sorted (fun a b => compare a b <= 0) l ->
    Sorted (fun a b => compare a b <= 0) (SortList_insert compare x l).
Proof.
  intros x l Hl. induction Hl as [|y l Hl IH Hhd]; cbn.
  - repeat constructor.
  - destruct (Z.leb_spec (compare x y) 0) as [Hle|Hgt].
    + constructor; [constructor; assumption|]. constructor. exact Hle.
    + constructor; [exact IH|].
      destruct Hhd as [|z l Hz]; cbn.
      * constructor. now apply compare_total.
      * destruct (compare x z <=? 0); constructor;
          [now apply compare_total | exact Hz].
Qed.

Lemma SortList_Sorted :
  forall l, Sorted (fun a b => compare a b <= 0) (SortList l compare).
Proof.
  intros l. unfold SortList. induction l as [|x l IH]; cbn.
  - constructor.
  - now apply SortList_insert_Sorted.
Qed.

End Sorting.

Lemma CompareOids_le : forall x y, (CompareOids x y <=? 0) = (x <=? y).
Proof.
  intros x y. unfold CompareOids.
  destruct (Z.ltb_spec x y); [|destruct (Z.ltb_spec y x)];
    destruct (Z.leb_spec x y); cbn; try reflexivity; lia.
Qed.

Lemma CompareOids_total : forall x y, 0 < CompareOids x y -> CompareOids y x <= 0.
Proof.
  intros x y. unfold CompareOids.
  destruct (Z.ltb_spec x y); destruct (Z.ltb_spec y x); lia.
Qed.

Lemma comparison_to_int_CompOpp :
  forall c, comparison_to_int (CompOpp c) = - comparison_to_int c.
Proof. intros []; reflexivity. Qed.

Lemma CompareWorkerNodes_antisym :
  forall x y, CompareWorkerNodes y x = - CompareWorkerNodes x y.
Proof.
  intros x y. unfold CompareWorkerNodes.
  rewrite (Z.compare_antisym (groupId x) (groupId y)).
  rewrite (String.compare_antisym (workerName y) (workerName x)).
  rewrite (Z.compare_antisym (workerPort x) (workerPort y)).
  destruct (groupId x ?= groupId y); cbn; try reflexivity.
  destruct (String.compare (workerName x) (workerName y)); cbn; try reflexivity.
  apply comparison_to_int_CompOpp.
Qed.

Lemma CompareWorkerNodes_total :
  forall x y, 0 < CompareWorkerNodes x y -> CompareWorkerNodes y x <= 0.
Proof. intros x y H. rewrite CompareWorkerNodes_antisym. lia. Qed.

Lemma SortList_insert_CompareOids_comm :
  forall x y l,
    SortList_insert CompareOids x (SortList_insert CompareOids y l)
    = SortList_insert CompareOids y (SortList_insert CompareOids x l).
Proof.
  intros x y l. induction l as [|z l IH]; cbn; rewrite ?CompareOids_le.
  - destruct (Z.leb_spec x y); destruct (Z.leb_spec y x); try reflexivity; try lia.
    now replace y with x by lia.
  - destruct (Z.leb_spec x z); destruct (Z.leb_spec y z); cbn;
      rewrite ?CompareOids_le;
      destruct (Z.leb_spec x y); destruct (Z.leb_spec y x);
      destruct (Z.leb_spec x z); destruct (Z.leb_spec y z);
      try lia; try reflexivity.
    + now replace y with x by lia.
    + now rewrite IH.
    + now rewrite IH.
    + now rewrite IH.
Qed.

Lemma SortList_CompareOids_Permutation :
  forall l l', Permutation l l' -> SortList l CompareOids = SortList l' CompareOids.
Proof.
  intros l l' H. unfold SortList. induction H; cbn.
  - reflexivity.
  - now rewrite IHPermutation.
  - apply SortList_insert_CompareOids_comm.
  - congruence.
Qed.

(** The inner loop sends the requests for one relation in worker order,
    and stops at the first worker that fails the command. *)
Lemma AcquireDistributedLock_workers_run :
  forall env relationId lockMode workerNodeList s,
    exists res sent rest,
      AcquireDistributedLock_workers env relationId lockMode
        (LOCK_RELATION_IF_EXISTS (generate_qualified_relation_name env relationId)
           (LockModeToLockModeText env lockMode))
        workerNodeList s
      = (res, with_log s (log s ++ sent))
      /\ map (lock_request env lockMode relationId) workerNodeList = sent ++ rest
      /\ (res = Ok tt -> rest = [])
      /\ ((forall n p c, worker_command_outcome env n p c = None) -> res = Ok tt).
Proof.
  intros env relationId lockMode workerNodeList.
  induction workerNodeList as [|w ws IH]; intros s.
  - exists (Ok tt), [], []. cbn. unfold ret. rewrite app_nil_r, with_log_same. auto.
  - cbn [AcquireDistributedLock_workers map]. unfold lock_request at 1.
    unfold bind at 1.
    destruct (groupId w =? GetLocalGroupId env).
    + unfold LockRelationOid. rewrite emit_run.
      destruct (IH (with_log s (log s ++ [EvLockRelationOid relationId lockMode])))
        as (res & sent & rest & Hrun & Hmap & Hok & Hall).
      rewrite Hrun.
      exists res, (EvLockRelationOid relationId lockMode :: sent), rest.
      rewrite with_log_with_log, log_with_log, <- app_assoc. cbn.
      rewrite Hmap. auto.
    + unfold SendCommandToWorker, request. unfold bind at 1. rewrite emit_run.
      match goal with
      | |- context [EvSendCommandToWorker ?n ?p ?c] =>
          set (ev := EvSendCommandToWorker n p c);
          destruct (worker_command_outcome env n p c) as [e|] eqn:Eout
      end.
      * exists (Error e), [ev], (map (lock_request env lockMode relationId) ws).
        unfold ereport_ERROR. cbn. repeat split.
        -- discriminate.
        -- intros Hall. rewrite Hall in Eout. discriminate Eout.
      * unfold ret at 1.
        destruct (IH (with_log s (log s ++ [ev])))
          as (res & sent & rest & Hrun & Hmap & Hok & Hall).
        rewrite Hrun. exists res, (ev :: sent), rest.
        rewrite with_log_with_log, log_with_log, <- app_assoc. cbn.
        rewrite Hmap. auto.
Qed.

(** The outer loop goes through the relations in list order. *)
Lemma AcquireDistributedLock_relations_run :
  forall env lockMode workerNodeList relationIdList s,
    exists res sent rest,
      AcquireDistributedLock_relations env lockMode workerNodeList relationIdList s
      = (res, with_log s (log s ++ sent))
      /\ lock_requests env lockMode relationIdList workerNodeList = sent ++ rest
      /\ (res = Ok tt -> rest = [])
      /\ ((forall n p c, worker_command_outcome env n p c = None) -> res = Ok tt).
Proof.
  intros env lockMode workerNodeList relationIdList.
  induction relationIdList as [|r rs IH]; intros s.
  - exists (Ok tt), [], []. cbn. unfold ret. rewrite app_nil_r, with_log_same. auto.
  - cbn [AcquireDistributedLock_relations]. unfold lock_requests. cbn [flat_map].
    fold (lock_requests env lockMode rs workerNodeList).
    unfold bind at 1.
    destruct (ShouldSyncTableMetadata env r).
    + destruct (AcquireDistributedLock_workers_run env r lockMode workerNodeList s)
        as (res1 & sent1 & rest1 & Hrun1 & Hmap1 & Hok1 & Hall1).
      rewrite Hrun1. destruct res1 as [[]|e].
      * rewrite (Hok1 eq_refl), app_nil_r in Hmap1.
        destruct (IH (with_log s (log s ++ sent1)))
          as (res & sent & rest & Hrun & Hmap & Hok & Hall).
        rewrite Hrun. exists res, (sent1 ++ sent), rest.
        rewrite with_log_with_log, log_with_log, <- !app_assoc.
        rewrite Hmap1, Hmap. auto.
      * exists (Error e), sent1,
          (rest1 ++ lock_requests env lockMode rs workerNodeList).
        rewrite Hmap1, <- app_assoc. repeat split.
        -- discriminate.
        -- intros H. specialize (Hall1 H). discriminate Hall1.
    + unfold ret at 1. cbn [app].
      destruct (IH s) as (res & sent & rest & Hrun & Hmap & Hok & Hall).
      rewrite Hrun. exists res, sent, rest. auto.
Qed.

(** C9. [AcquireDistributedLockOnRelations] works on the relation ids
    sorted in ascending order and on the active primary nodes sorted by the
    node order (both sorted lists are rearrangements of the given ones); it
    issues the requests in nested order, relation by relation and, for each
    relation with synchronised metadata, node by node: when the workers
    accept them the log is exactly that sequence, and otherwise a prefix of
    it that stops at the first failure. For a node of the local group the
    lock is taken in-process and no command is sent; any other node gets
    the lock-if-exists command. The outcome is a function of the set of
    relation ids: listing them in another order changes nothing. *)
Theorem AcquireDistributedLockOnRelations_deterministic :
  forall env relationIdList lockMode s,
    let relations := SortList relationIdList CompareOids in
    let workers := SortList (ActivePrimaryNodeList env) CompareWorkerNodes in
    Permutation relations relationIdList
    /\ Sorted (fun a b => CompareOids a b <= 0) relations
    /\ Permutation workers (ActivePrimaryNodeList env)
    /\ Sorted (fun a b => CompareWorkerNodes a b <= 0) workers
    /\ (exists res sent rest,
           AcquireDistributedLockOnRelations env relationIdList lockMode s
           = (res,
              with_log s (log s ++ EvBeginOrContinueCoordinatedTransaction :: sent))
           /\ lock_requests env lockMode relations workers = sent ++ rest
           /\ (res = Ok tt -> rest = [])
           /\ ((forall n p c, worker_command_outcome env n p c = None) ->
               res = Ok tt))
    /\ (forall relationId workerNode,
           (workerNode.(groupId) = GetLocalGroupId env ->
            lock_request env lockMode relationId workerNode
            = EvLockRelationOid relationId lockMode)
           /\ (workerNode.(groupId) <> GetLocalGroupId env ->
               lock_request env lockMode relationId workerNode
               = EvSendCommandToWorker workerNode.(workerName) workerNode.(workerPort)
                   (LOCK_RELATION_IF_EXISTS
                      (generate_qualified_relation_name env relationId)
                      (LockModeToLockModeText env lockMode))))
    /\ (forall relationIdList',
           Permutation relationIdList relationIdList' ->
           AcquireDistributedLockOnRelations env relationIdList' lockMode s
           = AcquireDistributedLockOnRelations env relationIdList lockMode s).
Proof.
  intros env relationIdList lockMode s relations workers.
  split; [apply SortList_Permutation|].
  split; [apply SortList_Sorted, CompareOids_total|].
  split; [apply SortList_Permutation|].
  split; [apply SortList_Sorted, CompareWorkerNodes_total|].
  split; [|split].
  - unfold AcquireDistributedLockOnRelations. fold relations workers.
    unfold bind at 1. rewrite emit_run.
    destruct (AcquireDistributedLock_relations_run env lockMode workers relations
                (with_log s (log s ++ [EvBeginOrContinueCoordinatedTransaction])))
      as (res & sent & rest & Hrun & Hmap & Hok & Hall).
    rewrite Hrun. exists res, sent, rest.
    rewrite with_log_with_log, log_with_log, <- app_assoc. auto.
  - intros relationId workerNode. unfold lock_request. split.
    + intros ->. now rewrite Z.eqb_refl.
    + intros Hne. apply Z.eqb_neq in Hne. now rewrite Hne.
  - intros relationIdList' Hperm. unfold AcquireDistributedLockOnRelations.
    now rewrite (SortList_CompareOids_Permutation _ _ Hperm).
Qed.

Example AcquireDistributedLockOnRelations_sample :
  effects (AcquireDistributedLockOnRelations (sample_env false false)
             [warehouses; orders] AccessExclusiveLock) fresh_session
  = [ EvBeginOrContinueCoordinatedTransaction;
      EvSendCommandToWorker "worker-a" 5432
        "SELECT lock_relation_if_exists('public.orders', 'ACCESS EXCLUSIVE');";
      EvLockRelationOid orders AccessExclusiveLock;
      EvSendCommandToWorker "worker-c" 5432
        "SELECT lock_relation_if_exists('public.orders', 'ACCESS EXCLUSIVE');";
      EvSendCommandToWorker "worker-a" 5432
        "SELECT lock_relation_if_exists('public.warehouses', 'ACCESS EXCLUSIVE');";
      EvLockRelationOid warehouses AccessExclusiveLock;
      EvSendCommandToWorker "worker-c" 5432
        "SELECT lock_relation_if_exists('public.warehouses', 'ACCESS EXCLUSIVE');" ].
Proof. vm_compute. reflexivity. Qed.

Lemma AcquireDistributedLockOnRelations_deterministic_witness :
  AcquireDistributedLockOnRelations (sample_env false false) [orders; warehouses]
    AccessExclusiveLock fresh_session
  = AcquireDistributedLockOnRelations (sample_env false false) [warehouses; orders]
      AccessExclusiveLock fresh_session.
Proof.
  destruct (AcquireDistributedLockOnRelations_deterministic (sample_env false false)
              [warehouses; orders] AccessExclusiveLock fresh_session)
    as (_ & _ & _ & _ & _ & _ & Hperm).
  exact (Hperm [orders; warehouses] (perm_swap orders warehouses [])).
Defined.

(** ** Planner: right-hand relations that are not distributed *)

(** [PlanAlterTableStmt] on a distributed table that is not reached through
    an index: the relation is locked in the lock mode of the statement,
    the statement is validated, the loop over the sub-commands runs, and
    one job is built. *)
Lemma PlanAlterTableStmt_prelude :
  forall env alterTableStatement alterTableCommand s,
    targets_existing_relation env alterTableStatement = true ->
    is_RELKIND_INDEX (get_rel_relkind env (target_relid env alterTableStatement)) = false ->
    IsDistributedTable env (target_relid env alterTableStatement) = true ->
    PlanAlterTableStmt env alterTableStatement alterTableCommand s
    = bind (ErrorIfUnsupportedAlterTableStmt env alterTableStatement)
        (fun _ =>
           bind (PlanAlterTableStmt_foreach env alterTableStatement
                   (target_relid env alterTableStatement)
                   alterTableStatement.(cmds) InvalidOid false)
             (fun planned =>
                match planned with
                | None => ret []
                | Some (rightRelationId, executeSequentially) =>
                    bind
                      (if OidIsValid rightRelationId
                       then
                         if negb (IsDistributedTable env rightRelationId) then ret []
                         else InterShardDDLTaskList env
                                (target_relid env alterTableStatement)
                                rightRelationId alterTableCommand
                       else DDLTaskList env (target_relid env alterTableStatement)
                              alterTableCommand)
                      (fun tasks =>
                         ret [ {| targetRelationId := target_relid env alterTableStatement;
                                  concurrentIndexCmd := false;
                                  executeSequentially := executeSequentially;
                                  commandString := alterTableCommand;
                                  taskList := tasks |} ])
                end))
        (with_alter_table_lock env alterTableStatement s).
Proof.
  intros env stmt command s Hrel Hkind Hdist.
  unfold PlanAlterTableStmt.
  pose proof Hrel as Hvalid. unfold targets_existing_relation in Hvalid.
  destruct (relation stmt) as [rangeVar|] eqn:Erel;
    [|unfold target_relid in Hvalid; rewrite Erel in Hvalid; discriminate Hvalid].
  cbv zeta. unfold bind at 1.
  rewrite (AlterTableLookupRelation_alter_table_lock _ _ _ Hrel).
  rewrite Hvalid, Hkind, Hdist. reflexivity.
Qed.

Lemma with_relation_lock_parallel_flag :
  forall s relationId lockmode,
    ParallelQueryExecutedInTransaction (with_relation_lock s relationId lockmode)
    = ParallelQueryExecutedInTransaction s.
Proof. intros s relationId lockmode. now destruct lockmode. Qed.

Lemma session_after_setup_parallel_flag :
  forall env relationId command s,
    ParallelQueryExecutedInTransaction (session_after_setup env relationId command s)
    = ParallelQueryExecutedInTransaction s.
Proof.
  intros env relationId command s. unfold session_after_setup.
  match goal with |- context [if ?c then _ else _] => destruct c end; reflexivity.
Qed.

Lemma session_after_planning_step_guard :
  forall env alterTableStatement leftRelationId s command,
    parallel_connections_open env leftRelationId
      (session_after_planning_step env alterTableStatement leftRelationId s command)
    = parallel_connections_open env leftRelationId s.
Proof.
  intros env stmt left s command.
  unfold parallel_connections_open, session_after_planning_step.
  rewrite session_after_setup_parallel_flag.
  destruct (foreign_key_target command);
    now rewrite ?with_relation_lock_parallel_flag.
Qed.

(** The lookups of an ADD COLUMN in the planning loop: the referenced table
    of the first foreign key is locked and becomes the right-hand
    relation. *)
Lemma PlanAlterTableStmt_column_constraints_run :
  forall env lockmode missingOK columnConstraints rightRelationId s,
    forallb (constraint_target_exists env) columnConstraints = true ->
    PlanAlterTableStmt_column_constraints env lockmode missingOK columnConstraints
      rightRelationId s
    = match find (fun constraint => is_CONSTR_FOREIGN constraint.(contype))
              columnConstraints with
      | Some constraint =>
          (Ok (relid_of env constraint.(pktable)),
           with_relation_lock s (relid_of env constraint.(pktable)) lockmode)
      | None => (Ok rightRelationId, s)
      end.
Proof.
  intros env lockmode missingOK columnConstraints rightRelationId s.
  induction columnConstraints as [|constraint rest IH]; intros Hexist;
    [reflexivity|].
  cbn [forallb] in Hexist. apply andb_true_iff in Hexist.
  destruct Hexist as [Hconstraint Hrest].
  cbn [PlanAlterTableStmt_column_constraints find].
  unfold constraint_target_exists in Hconstraint.
  destruct (is_CONSTR_FOREIGN (contype constraint)).
  - cbn [negb orb] in Hconstraint. now apply RangeVarGetRelid_locks.
  - now apply IH.
Qed.

(** One turn of the planning loop, on a sub-command that is well-formed
    and names relations that exist. *)
Lemma PlanAlterTableStmt_foreach_step :
  forall env alterTableStatement leftRelationId command rest right0 b0 s,
    well_formed_command command = true ->
    referenced_tables_exist env command = true ->
    partition_exists env command = true ->
    attaches_undistributed_partition env command = false ->
    PlanAlterTableStmt_foreach env alterTableStatement leftRelationId
      (command :: rest) right0 b0 s
    = if requires_sequential_execution env leftRelationId command &&
         parallel_connections_open env leftRelationId s
      then (Error (conflicting_execution_mode_error (get_rel_name env leftRelationId)),
            session_after_planning_step env alterTableStatement leftRelationId s
              command)
      else PlanAlterTableStmt_foreach env alterTableStatement leftRelationId rest
             (right_relation env [command] right0)
             (b0 || requires_sequential_execution env leftRelationId command)
             (session_after_planning_step env alterTableStatement leftRelationId s
                command).
Proof.
  intros env stmt left command rest right0 b0 s Hwf Href Hpart Hattach.
  cbn [PlanAlterTableStmt_foreach]. cbv zeta. unfold bind at 1.
  set (locked :=
         match foreign_key_target command with
         | Some rangeVar =>
             with_relation_lock s (relid_of env rangeVar)
               (AlterTableGetLockLevel env (cmds stmt))
         | None => s
         end).
  match goal with
  | |- context [match ?m s with _ => _ end] =>
      assert (Hright : m s = (Ok (Some (right_relation env [command] right0)), locked))
  end.
  { subst locked.
    unfold right_relation, right_relation_target, partition_exists,
      attaches_undistributed_partition, well_formed_command,
      referenced_tables_exist in *.
    unfold foreign_key_target, partition_target in *.
    cbn [fold_left].
    destruct (subtype command) eqn:Esub; try reflexivity.
    - (* AT_AddColumn *)
      destruct (def command) as [column| | |]; try discriminate Hwf.
      unfold as_ColumnDef, bind, ret.
      rewrite (PlanAlterTableStmt_column_constraints_run _ _ _ _ _ _ Href).
      now destruct (find _ (constraints column)).
    - (* AT_AddConstraint *)
      destruct (def command) as [|constraint| |]; try discriminate Hwf.
      unfold as_Constraint, bind, ret. unfold constraint_target_exists in Href.
      destruct (is_CONSTR_FOREIGN (contype constraint)); [|reflexivity].
      cbn [negb orb] in Href. now rewrite (RangeVarGetRelid_locks _ _ _ _ _ Href).
    - (* AT_AttachPartition *)
      destruct (def command) as [| |partitionCommand|]; try discriminate Hwf.
      unfold as_PartitionCmd, bind, ret.
      rewrite (RangeVarGetRelid_exists _ _ _ _ Hpart).
      apply negb_false_iff in Hattach. now rewrite Hattach.
    - (* AT_DetachPartition *)
      destruct (def command) as [| |partitionCommand|]; try discriminate Hwf.
      unfold as_PartitionCmd, bind, ret.
      now rewrite (RangeVarGetRelid_exists _ _ _ _ Hpart). }
  rewrite Hright. unfold bind at 1.
  rewrite (SetupExecutionModeForAlterTable_run _ _ _ _ Hwf Href).
  assert (Hopen : parallel_connections_open env left locked
                  = parallel_connections_open env left s).
  { subst locked. unfold parallel_connections_open.
    destruct (foreign_key_target command);
      now rewrite ?with_relation_lock_parallel_flag. }
  rewrite Hopen. fold (session_after_planning_step env stmt left s command).
  destruct (requires_sequential_execution env left command &&
            parallel_connections_open env left s); reflexivity.
Qed.

(** The planning loop while the conflicting-mode guard stays open: it
    ends with the right-hand relation of the statement and with the
    sequential flag of its sub-commands. *)
Lemma PlanAlterTableStmt_foreach_run :
  forall env alterTableStatement leftRelationId commands right0 b0 s,
    forallb well_formed_command commands = true ->
    forallb (referenced_tables_exist env) commands = true ->
    forallb (partition_exists env) commands = true ->
    existsb (attaches_undistributed_partition env) commands = false ->
    existsb (requires_sequential_execution env leftRelationId) commands &&
      parallel_connections_open env leftRelationId s = false ->
    PlanAlterTableStmt_foreach env alterTableStatement leftRelationId commands
      right0 b0 s
    = (Ok (Some (right_relation env commands right0,
                 b0 || existsb (requires_sequential_execution env leftRelationId)
                         commands)),
       session_after_planning_loop env alterTableStatement leftRelationId
         commands s).
Proof.
  intros env stmt left commands.
  induction commands as [|command rest IH];
    intros right0 b0 s Hwf Href Hpart Hattach Hguard.
  - cbn. now rewrite orb_false_r.
  - cbn [forallb existsb] in *.
    apply andb_true_iff in Hwf. destruct Hwf as [Hwf Hwfs].
    apply andb_true_iff in Href. destruct Href as [Href Hrefs].
    apply andb_true_iff in Hpart. destruct Hpart as [Hpart Hparts].
    apply orb_false_iff in Hattach. destruct Hattach as [Hattach Hattachs].
    rewrite (PlanAlterTableStmt_foreach_step _ _ _ _ _ _ _ _ Hwf Href Hpart Hattach).
    destruct (parallel_connections_open env left s) eqn:Hopen.
    + rewrite andb_true_r in Hguard. apply orb_false_iff in Hguard.
      destruct Hguard as [Hcommand Hrest]. rewrite Hcommand. cbn [andb orb].
      rewrite IH; try assumption.
      * rewrite Hrest, !orb_false_r. reflexivity.
      * now rewrite Hrest.
    + rewrite andb_false_r.
      rewrite IH; try assumption.
      * now rewrite orb_assoc.
      * now rewrite session_after_planning_step_guard, Hopen, andb_false_r.
Qed.

(** The planning loop once the guard is closed: the first sub-command that
    requires sequential execution raises the conflicting-mode error. *)
Lemma PlanAlterTableStmt_foreach_conflict :
  forall env alterTableStatement leftRelationId commands right0 b0 s,
    forallb well_formed_command commands = true ->
    forallb (referenced_tables_exist env) commands = true ->
    forallb (partition_exists env) commands = true ->
    existsb (attaches_undistributed_partition env) commands = false ->
    existsb (requires_sequential_execution env leftRelationId) commands = true ->
    parallel_connections_open env leftRelationId s = true ->
    exists s',
      PlanAlterTableStmt_foreach env alterTableStatement leftRelationId commands
        right0 b0 s
      = (Error (conflicting_execution_mode_error (get_rel_name env leftRelationId)),
         s').
Proof.
  intros env stmt left commands.
  induction commands as [|command rest IH];
    intros right0 b0 s Hwf Href Hpart Hattach Hsequential Hopen.
  - discriminate Hsequential.
  - cbn [forallb existsb] in *.
    apply andb_true_iff in Hwf. destruct Hwf as [Hwf Hwfs].
    apply andb_true_iff in Href. destruct Href as [Href Hrefs].
    apply andb_true_iff in Hpart. destruct Hpart as [Hpart Hparts].
    apply orb_false_iff in Hattach. destruct Hattach as [Hattach Hattachs].
    rewrite (PlanAlterTableStmt_foreach_step _ _ _ _ _ _ _ _ Hwf Href Hpart Hattach).
    rewrite Hopen, andb_true_r.
    destruct (requires_sequential_execution env left command).
    + eexists. reflexivity.
    + cbn [orb] in Hsequential. apply IH; try assumption.
      now rewrite session_after_planning_step_guard.
Qed.

(** C10, as stated, fails for ATTACH PARTITION: [notes] exists and is not
    distributed, and planning the attachment of [notes] to the distributed
    table [orders] returns no job at all. It also fails for a statement the
    validator rejects: a foreign key to [notes] without a constraint name
    raises an error at planning time. In both runs the one effect of
    planning is the lock on [orders]. *)
Lemma attach_local_partition_plans_no_job :
  OidIsValid (relid_of (sample_env false false) (rv "notes")) = true
  /\ IsDistributedTable (sample_env false false)
       (relid_of (sample_env false false) (rv "notes")) = false
  /\ PlanAlterTableStmt (sample_env false false)
       (alter_table "orders" [attach_partition "notes"])
       "ALTER TABLE orders ATTACH PARTITION notes FOR VALUES FROM (1) TO (10)"
       fresh_session
     = (Ok [], with_log fresh_session [EvLockRelationOid orders AccessExclusiveLock])
  /\ PlanAlterTableStmt (sample_env false false)
       (alter_table "orders"
          [add_constraint {| contype := CONSTR_FOREIGN; conname := None;
                             pktable := rv "notes"; skip_validation := false |}])
       "ALTER TABLE orders ADD FOREIGN KEY (id) REFERENCES notes (id)"
       fresh_session
     = (Error (unsupported
                 "cannot create constraint without a name on a distributed table" None),
        with_log fresh_session [EvLockRelationOid orders AccessExclusiveLock]).
Proof. repeat split; vm_compute; reflexivity. Qed.

(** C10, amended. For an ALTER TABLE on a distributed table (not reached
    through an index) that passes validation, whose sub-commands are
    well-formed, and in which every referenced table of a foreign key and
    every named partition exists:
    - when the statement has no ATTACH PARTITION and its right-hand
      relation (the referenced table of a foreign key, or a detached
      partition) is not distributed, planning returns exactly one job, with
      an empty task list and the sequential flag of the sub-commands, and
      raises nothing, unless some sub-command requires sequential execution
      after a parallel command ran in the transaction on a table that is
      not a reference table: then planning raises the conflicting-mode
      error and returns no job;
    - that is what happens for a sole ADD CONSTRAINT of a named foreign key
      whose referenced table exists and is not distributed, and for a sole
      DETACH PARTITION of such a partition: one job, no task, sequential
      flag unset, whatever ran before in the transaction; the session
      changes by the locks on the altered table and on the referenced
      table only;
    - for a sole ATTACH PARTITION of an existing relation that is not
      distributed, planning raises nothing and returns no job. *)
Theorem PlanAlterTableStmt_undistributed_right_relation :
  forall env alterTableStatement alterTableCommand s,
    targets_existing_relation env alterTableStatement = true ->
    is_RELKIND_INDEX (get_rel_relkind env (target_relid env alterTableStatement)) = false ->
    IsDistributedTable env (target_relid env alterTableStatement) = true ->
    let leftRelationId := target_relid env alterTableStatement in
    let locked := with_alter_table_lock env alterTableStatement s in
    let empty_job sequential :=
      {| targetRelationId := leftRelationId;
         concurrentIndexCmd := false;
         executeSequentially := sequential;
         commandString := alterTableCommand;
         taskList := [] |} in
    (forall validated,
        ErrorIfUnsupportedAlterTableStmt env alterTableStatement locked
        = (Ok tt, validated) ->
        forallb well_formed_command alterTableStatement.(cmds) = true ->
        forallb (referenced_tables_exist env) alterTableStatement.(cmds) = true ->
        forallb (partition_exists env) alterTableStatement.(cmds) = true ->
        existsb (fun command => is_AT_AttachPartition command.(subtype))
          alterTableStatement.(cmds) = false ->
        let rightRelationId := right_relation env alterTableStatement.(cmds) InvalidOid in
        OidIsValid rightRelationId = true ->
        IsDistributedTable env rightRelationId = false ->
        if conflicts_with_parallel_query env alterTableStatement s
        then exists s',
               PlanAlterTableStmt env alterTableStatement alterTableCommand s
               = (Error (conflicting_execution_mode_error
                           (get_rel_name env leftRelationId)), s')
        else PlanAlterTableStmt env alterTableStatement alterTableCommand s
             = (Ok [empty_job
                      (existsb (requires_sequential_execution env leftRelationId)
                         alterTableStatement.(cmds))],
                session_after_planning_loop env alterTableStatement leftRelationId
                  alterTableStatement.(cmds) validated))
    /\ (forall constraint constraintName,
           alterTableStatement.(cmds) = [add_constraint constraint] ->
           constraint.(contype) = CONSTR_FOREIGN ->
           constraint.(conname) = Some constraintName ->
           OidIsValid (relid_of env constraint.(pktable)) = true ->
           IsDistributedTable env (relid_of env constraint.(pktable)) = false ->
           PlanAlterTableStmt env alterTableStatement alterTableCommand s
           = (Ok [empty_job false],
              with_relation_lock locked (relid_of env constraint.(pktable))
                (AlterTableGetLockLevel env alterTableStatement.(cmds))))
    /\ (forall partition,
           alterTableStatement.(cmds) = [detach_partition partition] ->
           OidIsValid (relid_of env (rv partition)) = true ->
           IsDistributedTable env (relid_of env (rv partition)) = false ->
           PlanAlterTableStmt env alterTableStatement alterTableCommand s
           = (Ok [empty_job false], locked))
    /\ (forall partition,
           alterTableStatement.(cmds) = [attach_partition partition] ->
           OidIsValid (relid_of env (rv partition)) = true ->
           IsDistributedTable env (relid_of env (rv partition)) = false ->
           PlanAlterTableStmt env alterTableStatement alterTableCommand s
           = (Ok [], locked)).
Proof.
  intros env stmt command s Hrel Hkind Hdist left locked empty_job.
  pose proof (PlanAlterTableStmt_prelude env stmt command s Hrel Hkind Hdist) as Hplan.
  fold locked in Hplan. fold left in Hplan.
  split; [|split; [|split]].
  - intros validated Hvalidate Hwf Href Hpart Hattach right Hvalid Hright.
    assert (Hnone : existsb (attaches_undistributed_partition env) (cmds stmt) = false).
    { clear -Hattach. induction (cmds stmt) as [|c rest IH]; [reflexivity|].
      cbn [existsb] in *. apply orb_false_iff in Hattach.
      destruct Hattach as [Hc Hrest]. rewrite (IH Hrest), orb_false_r.
      unfold attaches_undistributed_partition.
      destruct (subtype c); try reflexivity. discriminate Hc. }
    assert (Hopen : parallel_connections_open env left validated
                    = parallel_connections_open env left s).
    { unfold parallel_connections_open.
      pose proof (keeps_ErrorIfUnsupportedAlterTableStmt env stmt locked) as Hkeep.
      rewrite Hvalidate in Hkeep. cbn [snd] in Hkeep. rewrite Hkeep.
      subst locked. unfold with_alter_table_lock.
      now rewrite with_relation_lock_parallel_flag. }
    unfold conflicts_with_parallel_query. fold left.
    destruct (existsb (requires_sequential_execution env left) (cmds stmt)
              && parallel_connections_open env left s) eqn:Hguard;
      rewrite Hplan; unfold bind at 1; rewrite Hvalidate; unfold bind at 1.
    + apply andb_true_iff in Hguard. destruct Hguard as [Hsequential Hparallel].
      rewrite <- Hopen in Hparallel.
      destruct (PlanAlterTableStmt_foreach_conflict env stmt left (cmds stmt)
                  InvalidOid false validated Hwf Href Hpart Hnone Hsequential
                  Hparallel) as (s' & Hloop).
      rewrite Hloop. now exists s'.
    + rewrite <- Hopen in Hguard.
      rewrite (PlanAlterTableStmt_foreach_run env stmt left (cmds stmt) InvalidOid
                 false validated Hwf Href Hpart Hnone Hguard).
      fold right. rewrite Hvalid, Hright. reflexivity.
  - intros constraint constraintName Hcmds Hfk Hname Hexists Hright.
    rewrite Hplan. unfold ErrorIfUnsupportedAlterTableStmt. rewrite Hcmds.
    cbn [ErrorIfUnsupportedAlterTableStmt_foreach PlanAlterTableStmt_foreach].
    unfold ErrorIfUnsupportedAlterTableStmt_switch, SetupExecutionModeForAlterTable,
      RangeVarGetRelid, is_reference_table, lock_relation.
    rewrite Hcmds. unfold_m. cbn. rewrite Hname, Hfk. cbn.
    rewrite Hexists, Hright. cbn. rewrite Hexists, Hright. reflexivity.
  - intros partition Hcmds Hexists Hright.
    rewrite Hplan. unfold ErrorIfUnsupportedAlterTableStmt. rewrite Hcmds.
    cbn [ErrorIfUnsupportedAlterTableStmt_foreach PlanAlterTableStmt_foreach].
    unfold ErrorIfUnsupportedAlterTableStmt_switch, SetupExecutionModeForAlterTable,
      RangeVarGetRelid, lock_relation.
    rewrite Hcmds. unfold_m. cbn.
    rewrite Hexists. cbn. rewrite Hexists, Hright. reflexivity.
  - intros partition Hcmds Hexists Hright.
    rewrite Hplan. unfold ErrorIfUnsupportedAlterTableStmt. rewrite Hcmds.
    cbn [ErrorIfUnsupportedAlterTableStmt_foreach PlanAlterTableStmt_foreach].
    unfold ErrorIfUnsupportedAlterTableStmt_switch.
    rewrite Hcmds. cbn [subtype def attach_partition].
    unfold bind at 1. unfold bind at 1. unfold bind at 1.
    rewrite (AlterTableLookupRelation_exists _ _ _ Hrel).
    unfold RangeVarGetRelid, lock_relation. unfold_m. cbn.
    rewrite Hexists. cbn. rewrite Hright. reflexivity.
Qed.

Lemma PlanAlterTableStmt_undistributed_right_relation_witness :
  PlanAlterTableStmt (sample_env false false)
    (alter_table "orders"
       [add_column_references "note_id" "notes";
        column_command AT_DropColumn "warehouse_id"])
    "ALTER TABLE orders ADD COLUMN note_id int REFERENCES notes, DROP COLUMN warehouse_id"
    fresh_session
  = (Ok [ {| targetRelationId := orders;
             concurrentIndexCmd := false;
             executeSequentially := true;
             commandString :=
               "ALTER TABLE orders ADD COLUMN note_id int REFERENCES notes, DROP COLUMN warehouse_id";
             taskList := [] |} ],
     with_log fresh_session
       [ EvLockRelationOid orders AccessExclusiveLock;
         EvLockRelationOid orders AccessExclusiveLock;
         EvLockRelationOid notes AccessExclusiveLock ])
  /\ (exists s',
         PlanAlterTableStmt (sample_env false false)
           (alter_table "orders"
              [add_column_references "note_id" "notes";
               column_command AT_DropColumn "warehouse_id"])
           "ALTER TABLE orders ADD COLUMN note_id int REFERENCES notes, DROP COLUMN warehouse_id"
           session_after_parallel_query
         = (Error (conflicting_execution_mode_error "orders"), s'))
  /\ PlanAlterTableStmt (sample_env false false)
       (alter_table "orders" [add_constraint (foreign_key "orders_notes_fk" "notes")])
       "ALTER TABLE orders ADD CONSTRAINT orders_notes_fk FOREIGN KEY (id) REFERENCES notes (id)"
       fresh_session
     = (Ok [ {| targetRelationId := orders;
                concurrentIndexCmd := false;
                executeSequentially := false;
                commandString :=
                  "ALTER TABLE orders ADD CONSTRAINT orders_notes_fk FOREIGN KEY (id) REFERENCES notes (id)";
                taskList := [] |} ],
        with_log fresh_session
          [ EvLockRelationOid orders AccessExclusiveLock;
            EvLockRelationOid notes AccessExclusiveLock ])
  /\ PlanAlterTableStmt (sample_env false false)
       (alter_table "orders" [detach_partition "notes"])
       "ALTER TABLE orders DETACH PARTITION notes" fresh_session
     = (Ok [ {| targetRelationId := orders;
                concurrentIndexCmd := false;
                executeSequentially := false;
                commandString := "ALTER TABLE orders DETACH PARTITION notes";
                taskList := [] |} ],
        with_log fresh_session [EvLockRelationOid orders AccessExclusiveLock]).
Proof.
  split; [|split; [|split]].
  - destruct (PlanAlterTableStmt_undistributed_right_relation (sample_env false false)
                (alter_table "orders"
                   [add_column_references "note_id" "notes";
                    column_command AT_DropColumn "warehouse_id"])
                "ALTER TABLE orders ADD COLUMN note_id int REFERENCES notes, DROP COLUMN warehouse_id"
                fresh_session eq_refl eq_refl eq_refl) as (Hany & _).
    exact (Hany _ eq_refl eq_refl eq_refl eq_refl eq_refl eq_refl eq_refl).
  - destruct (PlanAlterTableStmt_undistributed_right_relation (sample_env false false)
                (alter_table "orders"
                   [add_column_references "note_id" "notes";
                    column_command AT_DropColumn "warehouse_id"])
                "ALTER TABLE orders ADD COLUMN note_id int REFERENCES notes, DROP COLUMN warehouse_id"
                session_after_parallel_query eq_refl eq_refl eq_refl) as (Hany & _).
    exact (Hany _ eq_refl eq_refl eq_refl eq_refl eq_refl eq_refl eq_refl).
  - destruct (PlanAlterTableStmt_undistributed_right_relation (sample_env false false)
                (alter_table "orders"
                   [add_constraint (foreign_key "orders_notes_fk" "notes")])
                "ALTER TABLE orders ADD CONSTRAINT orders_notes_fk FOREIGN KEY (id) REFERENCES notes (id)"
                fresh_session eq_refl eq_refl eq_refl) as (_ & Hfk & _).
    exact (Hfk (foreign_key "orders_notes_fk" "notes") "orders_notes_fk"
             eq_refl eq_refl eq_refl eq_refl eq_refl).
  - destruct (PlanAlterTableStmt_undistributed_right_relation (sample_env false false)
                (alter_table "orders" [detach_partition "notes"])
                "ALTER TABLE orders DETACH PARTITION notes"
                fresh_session eq_refl eq_refl eq_refl) as (_ & _ & Hdetach & _).
    exact (Hdetach "notes" eq_refl eq_refl eq_refl).
Defined.

(** ** The scenarios of the specification on the sample cluster *)

Example primary_key_scenario :
  planned_jobs
    (alter_table "orders"
       [add_constraint {| contype := CONSTR_PRIMARY; conname := Some "orders_pkey";
                          pktable := rv ""; skip_validation := false |}])
    "ALTER TABLE orders ADD CONSTRAINT orders_pkey PRIMARY KEY (customer_id, id)"
  = [ (false, [ (1, 102008, []); (2, 102009, []); (3, 102010, []); (4, 102011, []) ]) ].
Proof. vm_compute. reflexivity. Qed.

Example foreign_key_scenario :
  planned_jobs
    (alter_table "orders" [add_constraint (foreign_key "fk1" "warehouses")])
    "ALTER TABLE orders ADD CONSTRAINT fk1 FOREIGN KEY (warehouse_id) REFERENCES warehouses (id)"
  = [ (true, [ (1, 102008, [102008; 102012]); (2, 102009, [102009; 102012]);
               (3, 102010, [102010; 102012]); (4, 102011, [102011; 102012]) ]) ].
Proof. vm_compute. reflexivity. Qed.

Example DDLTaskList_sample_command :
  match run (DDLTaskList (sample_env false false) warehouses
               "ALTER TABLE warehouses ADD COLUMN city text") fresh_session with
  | Ok [task] =>
      task.(queryString)
      = "SELECT worker_apply_shard_ddl_command (102012, 'public', 'ALTER TABLE warehouses ADD COLUMN city text')"
  | _ => False
  end.
Proof. vm_compute. reflexivity. Qed.

(* ================================================================== *)
(** * Properties of the other commands *)
(* ================================================================== *)

(** ** Strings *)

Lemma string_app_assoc :
  forall a b c : string, ((a ++ b) ++ c = a ++ (b ++ c))%string.
Proof.
  induction a as [|x a IH]; intros b c; simpl; [reflexivity|now rewrite IH].
Qed.

Lemma string_app_nil_r : forall a : string, (a ++ EmptyString)%string = a.
Proof. induction a as [|x a IH]; simpl; [reflexivity|now rewrite IH]. Qed.

Lemma substring_prefix :
  forall prefix rest : string,
    substring 0 (String.length prefix) (prefix ++ rest) = prefix.
Proof.
  induction prefix as [|x prefix IH]; intros rest; simpl.
  - destruct rest; reflexivity.
  - now rewrite IH.
Qed.

Lemma set_last_char_app :
  forall (data : string) (old new : ascii),
    set_last_char (data ++ String old EmptyString) new
    = (data ++ String new EmptyString)%string.
Proof.
  induction data as [|x data IH]; intros old new; [reflexivity|].
  simpl. rewrite IH.
  destruct data; reflexivity.
Qed.

(** ** VACUUM and ANALYZE *)

(** X1. For every combination of the command (VACUUM or ANALYZE) with the
    supported options, [DeparseVacuumStmtPrefix] gives the command keyword,
    then the options that are set, in the fixed order ANALYZE,
    DISABLE_PAGE_SKIPPING, FREEZE, FULL, VERBOSE, comma-separated in one
    pair of parentheses, then a space; without options there are no
    parentheses. For ANALYZE, VERBOSE is a keyword after the command and
    not an option. *)
Theorem DeparseVacuumStmtPrefix_text :
  forall vacuum analyze disablePageSkipping freeze full verbose,
    DeparseVacuumStmtPrefix
      (vacuum_flags vacuum analyze disablePageSkipping freeze full verbose)
    = vacuum_prefix vacuum analyze disablePageSkipping freeze full verbose.
Proof.
  intros [] [] [] [] [] []; vm_compute; reflexivity.
Qed.

Lemma DeparseVacuumColumnNames_fold :
  forall columnNameList columnName columnNames,
    set_last_char
      (fold_left (fun columnNames columnName =>
                    (columnNames ++ columnName ++ ",")%string)
         (columnName :: columnNameList) columnNames) ")"
    = (columnNames ++ String.concat "," (columnName :: columnNameList) ++ ")")%string.
Proof.
  induction columnNameList as [|next rest IH]; intros columnName columnNames.
  - cbn [fold_left String.concat].
    rewrite <- string_app_assoc. rewrite set_last_char_app.
    now rewrite string_app_assoc.
  - cbn [fold_left]. cbn [fold_left] in IH. rewrite IH.
    change (String.concat "," (columnName :: next :: rest))
      with (columnName ++ "," ++ String.concat "," (next :: rest))%string.
    now rewrite !string_app_assoc.
Qed.

(** X2. [DeparseVacuumColumnNames] gives the empty string for an empty
    column list, and otherwise a space and the names joined with commas in
    one pair of parentheses: the trailing comma of the loop is always
    replaced by the closing parenthesis. *)
Theorem DeparseVacuumColumnNames_joins :
  forall columnNameList,
    DeparseVacuumColumnNames columnNameList
    = match columnNameList with
      | [] => EmptyString
      | _ => (" (" ++ String.concat "," columnNameList ++ ")")%string
      end.
Proof.
  intros [|columnName rest]; [reflexivity|].
  unfold DeparseVacuumColumnNames. apply DeparseVacuumColumnNames_fold.
Qed.

Lemma VacuumTaskList_foreach_run :
  forall env ext relationId vacuumOptions vacuumColumnList shards taskId0 tail s,
    exists tasks,
      VacuumTaskList_foreach env ext shards taskId0
        (DeparseVacuumStmtPrefix vacuumOptions ++ tail)
        (String.length (DeparseVacuumStmtPrefix vacuumOptions))
        (get_namespace_name env (get_rel_namespace env relationId))
        (get_rel_name env relationId)
        (DeparseVacuumColumnNames vacuumColumnList) s
      = (Ok tasks,
         with_log s
           (log s ++ map (fun si => EvFinalizedShardPlacementList si.(shardId)) shards))
      /\ List.length tasks = List.length shards
      /\ forall i shardInterval,
           nth_error shards i = Some shardInterval ->
           nth_error tasks i
           = Some (shard_vacuum_task env ext relationId vacuumOptions vacuumColumnList
                     (taskId0 + Z.of_nat i) shardInterval).
Proof.
  intros env ext relationId vacuumOptions vacuumColumnList shards.
  induction shards as [|si rest IH]; intros taskId0 tail s.
  - exists []. simpl. unfold ret. rewrite app_nil_r, with_log_same.
    split; [reflexivity|]. split; [reflexivity|].
    intros [|i] x H; discriminate H.
  - cbn [VacuumTaskList_foreach]. rewrite substring_prefix.
    rewrite string_app_assoc.
    destruct (IH (taskId0 + 1)
                (quote_qualified_identifier ext
                   (get_namespace_name env (get_rel_namespace env relationId))
                   (AppendShardIdToName ext (get_rel_name env relationId) (shardId si))
                 ++ DeparseVacuumColumnNames vacuumColumnList)%string
                (with_log s (log s ++ [EvFinalizedShardPlacementList (shardId si)])))
      as (tasks & Hrun & Hlen & Hnth).
    eexists. split.
    + unfold FinalizedShardPlacementList, bind at 1 2.
      rewrite emit_run. unfold ret at 1. unfold bind at 1.
      rewrite Hrun. unfold ret. rewrite with_log_with_log, log_with_log.
      simpl map. rewrite <- app_assoc. reflexivity.
    + split; [simpl; now rewrite Hlen|].
      intros [|i] x H.
      * simpl in H. injection H as <-. simpl. unfold shard_vacuum_task.
        now rewrite Z.add_0_r.
      * simpl in H. simpl. rewrite (Hnth i x H).
        f_equal. f_equal. lia.
Qed.

Lemma VacuumTaskList_run :
  forall env ext relationId vacuumOptions vacuumColumnList s,
    exists tasks,
      VacuumTaskList env ext relationId vacuumOptions vacuumColumnList s
      = (Ok tasks,
         with_log s
           (log s ++ EvLockRelationOid relationId ShareUpdateExclusiveLock
                     :: task_list_effects (LoadShardIntervalList env relationId)
                          (List.length (LoadShardIntervalList env relationId))))
      /\ List.length tasks = List.length (LoadShardIntervalList env relationId)
      /\ forall i shardInterval,
           nth_error (LoadShardIntervalList env relationId) i = Some shardInterval ->
           nth_error tasks i
           = Some (shard_vacuum_task env ext relationId vacuumOptions vacuumColumnList
                     (1 + Z.of_nat i) shardInterval).
Proof.
  intros env ext relationId vacuumOptions vacuumColumnList s.
  set (shards := LoadShardIntervalList env relationId).
  pose proof (VacuumTaskList_foreach_run env ext relationId vacuumOptions
                vacuumColumnList shards 1 EmptyString
                (with_log s
                   (log s ++ [EvLockRelationOid relationId ShareUpdateExclusiveLock;
                              EvLockShardListMetadata (map shardId shards) ShareLock])))
    as (tasks & Hrun & Hlen & Hnth).
  rewrite string_app_nil_r in Hrun.
  exists tasks. split; [|split; [exact Hlen|exact Hnth]].
  unfold VacuumTaskList, LockRelationOid, LockShardListMetadata. fold shards.
  unfold bind. rewrite !emit_run. rewrite with_log_with_log, log_with_log.
  rewrite <- app_assoc. cbn [app].
  rewrite Hrun. rewrite with_log_with_log, log_with_log.
  unfold task_list_effects. rewrite firstn_all. rewrite <- app_assoc. reflexivity.
Qed.

(** X3. [VacuumTaskList] never raises and builds one VACUUM/ANALYZE task
    per shard of the relation, in shard order with task ids from 1. The
    command of each task is the statement prefix, the schema-qualified shard
    name and the column list, and nothing of the command of an earlier
    shard: the shared string buffer is cut back to the prefix every time.
    The relation lock is taken first, then the metadata lock on all shards,
    and only then the placements are looked up, shard by shard. *)
Theorem VacuumTaskList_one_task_per_shard :
  forall env ext relationId vacuumOptions vacuumColumnList s,
    let shards := LoadShardIntervalList env relationId in
    exists tasks,
      VacuumTaskList env ext relationId vacuumOptions vacuumColumnList s
      = (Ok tasks,
         with_log s
           (log s ++ EvLockRelationOid relationId ShareUpdateExclusiveLock
                     :: task_list_effects shards (List.length shards)))
      /\ List.length tasks = List.length shards
      /\ (forall i shardInterval,
            nth_error shards i = Some shardInterval ->
            nth_error tasks i
            = Some (shard_vacuum_task env ext relationId vacuumOptions
                      vacuumColumnList (1 + Z.of_nat i) shardInterval))
      /\ (forall task, In task tasks ->
            exists shardInterval,
              In shardInterval shards
              /\ task.(taskType) = VACUUM_ANALYZE_TASK
              /\ task.(anchorShardId) = shardInterval.(shardId)
              /\ task.(queryString)
                 = (DeparseVacuumStmtPrefix vacuumOptions ++
                    quote_qualified_identifier ext
                      (get_namespace_name env (get_rel_namespace env relationId))
                      (AppendShardIdToName ext (get_rel_name env relationId)
                         shardInterval.(shardId)) ++
                    DeparseVacuumColumnNames vacuumColumnList)%string).
Proof.
  intros env ext relationId vacuumOptions vacuumColumnList s shards.
  destruct (VacuumTaskList_run env ext relationId vacuumOptions vacuumColumnList s)
    as (tasks & Hrun & Hlen & Hnth).
  fold shards in Hrun, Hlen, Hnth.
  exists tasks. split; [exact Hrun|split; [exact Hlen|split; [exact Hnth|]]].
  intros task Hin.
  destruct (In_nth_error _ _ Hin) as [i Hi].
  assert (Hlt : (i < List.length shards)%nat).
  { rewrite <- Hlen. apply nth_error_Some. now rewrite Hi. }
  destruct (nth_error shards i) as [si|] eqn:Hsi.
  - exists si. split; [eapply nth_error_In; eauto|].
    rewrite (Hnth i si Hsi) in Hi. injection Hi as <-.
    simpl. repeat split; reflexivity.
  - apply nth_error_None in Hsi. lia.
Qed.

Lemma distributedRelationCount_spec :
  forall env relationIdList count,
    0 <= count ->
    (distributedRelationCount env relationIdList count =? 0)
    = (count =? 0) && negb (names_distributed_relation env relationIdList).
Proof.
  intros env relationIdList.
  induction relationIdList as [|relationId rest IH]; intros count Hcount.
  - cbn. now rewrite andb_true_r.
  - cbn [distributedRelationCount names_distributed_relation existsb].
    fold (names_distributed_relation env rest).
    destruct (OidIsValid relationId && IsDistributedTable env relationId).
    + rewrite IH by lia. cbn.
      replace (count + 1 =? 0) with false by (symmetry; apply Z.eqb_neq; lia).
      now rewrite andb_false_r.
    + now rewrite IH by lia.
Qed.

Lemma IsDistributedVacuumStmt_run :
  forall env EnableDDLPropagation vacuumStmt relationIdList s,
    IsDistributedVacuumStmt env EnableDDLPropagation vacuumStmt relationIdList s
    = (Ok (EnableDDLPropagation && names_distributed_relation env relationIdList),
       with_log s
         (log s ++ unqualified_vacuum_warning vacuumStmt relationIdList
                ++ (if names_distributed_relation env relationIdList &&
                       negb EnableDDLPropagation
                    then [not_propagating_warning (vacuum_stmtName vacuumStmt)]
                    else []))).
Proof.
  intros env enable vacuumStmt relationIdList s.
  unfold IsDistributedVacuumStmt.
  rewrite distributedRelationCount_spec by lia. cbn [Z.eqb andb].
  destruct relationIdList as [|relationId rest].
  - rewrite andb_false_r. cbn. reflexivity.
  - cbn [List.length unqualified_vacuum_warning app].
    replace (Z.of_nat (S (List.length rest)) =? 0) with false
      by (symmetry; apply Z.eqb_neq; lia).
    unfold bind, ret.
    destruct (names_distributed_relation env (relationId :: rest)); cbn [negb andb].
    + destruct enable; cbn [negb andb].
      * now rewrite app_nil_r, with_log_same.
      * now rewrite emit_run.
    + now rewrite andb_false_r, app_nil_r, with_log_same.
Qed.

(** X4. [IsDistributedVacuumStmt] never raises. It answers that the
    statement is to be distributed exactly when DDL propagation is enabled
    and some relation of the list is a valid distributed table. It logs the
    not-propagating warning once for a statement without relations, once
    for a statement on a distributed table while propagation is disabled,
    and nothing else. *)
Theorem IsDistributedVacuumStmt_decides :
  forall env EnableDDLPropagation vacuumStmt relationIdList s,
    run (IsDistributedVacuumStmt env EnableDDLPropagation vacuumStmt relationIdList) s
    = Ok (EnableDDLPropagation && names_distributed_relation env relationIdList)
    /\ snd (IsDistributedVacuumStmt env EnableDDLPropagation vacuumStmt
              relationIdList s)
       = with_log s
           (log s ++ unqualified_vacuum_warning vacuumStmt relationIdList
                  ++ (if names_distributed_relation env relationIdList &&
                         negb EnableDDLPropagation
                      then [not_propagating_warning (vacuum_stmtName vacuumStmt)]
                      else [])).
Proof.
  intros. unfold run. rewrite IsDistributedVacuumStmt_run. split; reflexivity.
Qed.

Lemma with_relation_lock_log :
  forall s relationId lockmode,
    lockmode <> NoLock ->
    with_relation_lock s relationId lockmode
    = with_log s (log s ++ [EvLockRelationOid relationId lockmode]).
Proof.
  intros s relationId lockmode H.
  destruct lockmode; [contradiction|reflexivity..].
Qed.

Lemma vacuum_lock_mode_locks :
  forall vacuumStmt, vacuum_lock_mode vacuumStmt <> NoLock.
Proof.
  intros vacuumStmt. unfold vacuum_lock_mode.
  destruct (has_flag (options vacuumStmt) VACOPT_FULL); discriminate.
Qed.

(** The lookup of the targets locks them one after the other, and stops at
    the first one that does not exist. *)
Lemma ProcessVacuumStmt_lookup_run :
  forall env lockMode vacuumRelationList relationIdList s,
    lockMode <> NoLock ->
    if forallb (fun rangeVar => OidIsValid (relid_of env rangeVar)) vacuumRelationList
    then ProcessVacuumStmt_lookup env lockMode vacuumRelationList relationIdList s
         = (Ok (relationIdList ++ map (relid_of env) vacuumRelationList),
            with_log s
              (log s ++ map (fun rangeVar =>
                               EvLockRelationOid (relid_of env rangeVar) lockMode)
                          vacuumRelationList))
    else exists e events,
           ProcessVacuumStmt_lookup env lockMode vacuumRelationList relationIdList s
           = (Error e, with_log s (log s ++ events)).
Proof.
  intros env lockMode vacuumRelationList.
  induction vacuumRelationList as [|rangeVar rest IH];
    intros relationIdList s HlockMode.
  - cbn. unfold ret. now rewrite !app_nil_r, with_log_same.
  - cbn [forallb ProcessVacuumStmt_lookup map]. unfold bind.
    destruct (OidIsValid (relid_of env rangeVar)) eqn:Hvalid; cbn [andb].
    + rewrite (RangeVarGetRelid_locks _ _ _ _ _ Hvalid).
      rewrite (with_relation_lock_log _ _ _ HlockMode). cbv beta iota.
      specialize (IH (relationIdList ++ [relid_of env rangeVar])
                    (with_log s (log s ++ [EvLockRelationOid (relid_of env rangeVar)
                                             lockMode]))
                    HlockMode).
      destruct (forallb _ rest).
      * rewrite IH. now rewrite with_log_with_log, log_with_log, <- !app_assoc.
      * destruct IH as (e & events & IH). rewrite IH.
        exists e, (EvLockRelationOid (relid_of env rangeVar) lockMode :: events).
        now rewrite with_log_with_log, log_with_log, <- !app_assoc.
    + unfold RangeVarGetRelid. rewrite Hvalid. exists
        {| class := UndefinedTable; sqlerrcode := ERRCODE_UNDEFINED_TABLE;
           message := "relation does not exist"; hint := None |}, [].
      unfold ereport_ERROR. now rewrite app_nil_r, with_log_same.
Qed.

Lemma is_local_relation_exists :
  forall env rangeVars,
    forallb (is_local_relation env) rangeVars = true ->
    forallb (fun rangeVar => OidIsValid (relid_of env rangeVar)) rangeVars = true
    /\ names_distributed_relation env (map (relid_of env) rangeVars) = false.
Proof.
  intros env rangeVars. unfold names_distributed_relation.
  induction rangeVars as [|rangeVar rest IH]; intros H; [split; reflexivity|].
  cbn in H |- *. apply andb_prop in H as [Hlocal Hrest].
  destruct (IH Hrest) as [IH1 IH2]. rewrite IH1, IH2.
  unfold is_local_relation in Hlocal. apply andb_prop in Hlocal as [Hvalid Hnot].
  rewrite Hvalid. apply negb_true_iff in Hnot. rewrite Hnot. split; reflexivity.
Qed.

(** X5. A VACUUM or ANALYZE whose targets all exist and are not distributed
    (an unqualified statement among them) is left to PostgreSQL:
    [ProcessVacuumStmt] locks each target as it resolves it, in the order
    of the statement, with an [AccessExclusiveLock] for VACUUM FULL and a
    [ShareUpdateExclusiveLock] otherwise, and returns without building a
    task or contacting a worker; the commit protocol is left alone. The
    only other trace is the not-propagating warning of an unqualified
    statement. *)
Theorem ProcessVacuumStmt_local_tables :
  forall env ext EnableDDLPropagation vacuumStmt s,
    forallb (is_local_relation env) (ExtractVacuumTargetRels ext vacuumStmt) = true ->
    ProcessVacuumStmt env ext EnableDDLPropagation vacuumStmt s
    = (Ok tt,
       with_log s
         (log s ++ vacuum_target_locks env vacuumStmt
                     (ExtractVacuumTargetRels ext vacuumStmt)
                ++ unqualified_vacuum_warning vacuumStmt
                     (ExtractVacuumTargetRels ext vacuumStmt))).
Proof.
  intros env ext enable vacuumStmt s Hlocal.
  destruct (is_local_relation_exists _ _ Hlocal) as [Hexist Hnone].
  unfold ProcessVacuumStmt. cbv zeta. unfold bind at 1.
  pose proof (ProcessVacuumStmt_lookup_run env (vacuum_lock_mode vacuumStmt)
                (ExtractVacuumTargetRels ext vacuumStmt) [] s
                (vacuum_lock_mode_locks vacuumStmt)) as Hlookup.
  rewrite Hexist in Hlookup. unfold vacuum_lock_mode in Hlookup at 1.
  rewrite Hlookup. cbn [app].
  unfold bind. rewrite IsDistributedVacuumStmt_run. rewrite Hnone.
  rewrite andb_false_r. cbn [negb andb]. unfold ret. rewrite app_nil_r.
  rewrite with_log_with_log, log_with_log, <- app_assoc.
  unfold vacuum_target_locks.
  destruct (ExtractVacuumTargetRels ext vacuumStmt); reflexivity.
Qed.

Lemma ProcessVacuumStmt_local_tables_witness :
  forallb (is_local_relation (sample_env false false))
    (ExtractVacuumTargetRels sample_externals
       (vacuum_statement VACOPT_VACUUM [("notes", [])])) = true
  /\ ProcessVacuumStmt (sample_env false false) sample_externals true
       (vacuum_statement VACOPT_VACUUM [("notes", [])]) fresh_session
     = (Ok tt,
        with_log fresh_session [EvLockRelationOid notes ShareUpdateExclusiveLock]).
Proof.
  split; [reflexivity|].
  rewrite (ProcessVacuumStmt_local_tables (sample_env false false) sample_externals
             true (vacuum_statement VACOPT_VACUUM [("notes", [])]) fresh_session);
    reflexivity.
Defined.

Lemma request_session :
  forall ev outcome s, snd (request ev outcome s) = with_log s (log s ++ [ev]).
Proof.
  intros ev outcome s. unfold request, bind. rewrite emit_run.
  destruct outcome; reflexivity.
Qed.

Lemma ProcessVacuumStmt_execute_protocols :
  forall env ext vacuumStmt relationIdList relationIndex executedVacuumCount s,
    0 <= executedVacuumCount ->
    commit_protocols
      (snd (ProcessVacuumStmt_execute env ext vacuumStmt relationIdList relationIndex
              executedVacuumCount s))
    = if (executedVacuumCount =? 0) &&
         has_flag vacuumStmt.(options) VACOPT_VACUUM &&
         existsb (IsDistributedTable env) relationIdList
      then (COMMIT_PROTOCOL_BARE, s.(MultiShardCommitProtocol))
      else commit_protocols s.
Proof.
  intros env ext vacuumStmt relationIdList.
  induction relationIdList as [|relationId rest IH];
    intros relationIndex executedVacuumCount s Hcount.
  - cbn. now rewrite andb_false_r.
  - cbn [ProcessVacuumStmt_execute existsb].
    destruct (IsDistributedTable env relationId) eqn:Hdist; cbn [orb].
    + rewrite andb_true_r.
      assert (Hrest :
        forall s1,
          commit_protocols
            (snd ((taskList <- VacuumTaskList env ext relationId (options vacuumStmt)
                                 (VacuumColumnList ext vacuumStmt relationIndex) ;;
                   ExecuteModifyTasksWithoutResults env taskList ;;;
                   ProcessVacuumStmt_execute env ext vacuumStmt rest (relationIndex + 1)
                     (executedVacuumCount + 1)) s1))
          = commit_protocols s1).
      { intros s1. unfold bind at 1.
        destruct (VacuumTaskList_run env ext relationId (options vacuumStmt)
                    (VacuumColumnList ext vacuumStmt relationIndex) s1)
          as (tasks & Hrun & _).
        rewrite Hrun. unfold bind at 1.
        pose proof (request_session (EvExecuteModifyTasksWithoutResults tasks)
                      (tasks_outcome env tasks)) as Hreq.
        unfold ExecuteModifyTasksWithoutResults.
        match goal with
        | |- context [request ?ev ?o ?st] =>
            specialize (Hreq st); destruct (request ev o st) as [[[]|e] s2] eqn:Hexec
        end; cbn [snd] in Hreq; subst s2.
        - rewrite IH by lia.
          replace (executedVacuumCount + 1 =? 0) with false
            by (symmetry; apply Z.eqb_neq; lia).
          reflexivity.
        - reflexivity. }
      unfold bind at 1.
      destruct ((executedVacuumCount =? 0) && has_flag (options vacuumStmt) VACOPT_VACUUM).
      * rewrite Hrest. reflexivity.
      * unfold ret at 1. rewrite Hrest. reflexivity.
    + now apply IH.
Qed.

(** X6. The commit protocol after [ProcessVacuumStmt], whatever the workers
    answer: the statement switches to the bare protocol, and saves the
    protocol that was in force before it, exactly when it is a VACUUM, DDL
    propagation is enabled, every target exists and one of them is a
    distributed table. The protocol is saved once, also when several
    distributed tables are vacuumed. An ANALYZE never changes the
    protocol. *)
Theorem ProcessVacuumStmt_commit_protocol :
  forall env ext EnableDDLPropagation vacuumStmt s,
    let targets := ExtractVacuumTargetRels ext vacuumStmt in
    commit_protocols (snd (ProcessVacuumStmt env ext EnableDDLPropagation vacuumStmt s))
    = if has_flag vacuumStmt.(options) VACOPT_VACUUM &&
         EnableDDLPropagation &&
         forallb (fun rangeVar => OidIsValid (relid_of env rangeVar)) targets &&
         names_distributed_relation env (map (relid_of env) targets)
      then (COMMIT_PROTOCOL_BARE, s.(MultiShardCommitProtocol))
      else commit_protocols s.
Proof.
  intros env ext enable vacuumStmt s targets.
  unfold ProcessVacuumStmt. fold targets. cbv zeta. unfold bind at 1.
  pose proof (ProcessVacuumStmt_lookup_run env (vacuum_lock_mode vacuumStmt)
                targets [] s (vacuum_lock_mode_locks vacuumStmt)) as Hlookup.
  unfold vacuum_lock_mode in Hlookup at 1 3.
  destruct (forallb _ targets).
  - rewrite Hlookup. cbn [app]. unfold bind.
    rewrite IsDistributedVacuumStmt_run.
    destruct (names_distributed_relation env (map (relid_of env) targets)) eqn:Hnames.
    + destruct enable; cbn [andb negb].
      * rewrite ProcessVacuumStmt_execute_protocols by lia.
        cbn [Z.eqb andb].
        assert (Hex : existsb (IsDistributedTable env) (map (relid_of env) targets) = true).
        { unfold names_distributed_relation in Hnames.
          apply existsb_exists in Hnames as (relationId & Hin & Hrel).
          apply existsb_exists. exists relationId. split; [exact Hin|].
          now apply andb_prop in Hrel. }
        rewrite Hex. rewrite !andb_true_r.
        destruct (has_flag (options vacuumStmt) VACOPT_VACUUM); reflexivity.
      * rewrite andb_false_r. reflexivity.
    + rewrite !andb_false_r. reflexivity.
  - destruct Hlookup as (e & events & Hlookup). rewrite Hlookup.
    rewrite andb_false_r. reflexivity.
Qed.


(** ** RENAME and ALTER ... SET SCHEMA *)

Lemma DDLTaskList_run :
  forall env relationId commandString s,
    exists tasks,
      DDLTaskList env relationId commandString s
      = (Ok tasks,
         with_log s
           (log s ++ task_list_effects (LoadShardIntervalList env relationId)
                       (List.length (LoadShardIntervalList env relationId))))
      /\ List.length tasks = List.length (LoadShardIntervalList env relationId)
      /\ forall i shardInterval,
           nth_error (LoadShardIntervalList env relationId) i = Some shardInterval ->
           nth_error tasks i
           = Some (shard_ddl_task env relationId commandString
                     (1 + Z.of_nat i) shardInterval).
Proof.
  intros env relationId commandString s.
  set (shards := LoadShardIntervalList env relationId).
  destruct (DDLTaskList_foreach_run env relationId commandString shards 1
              (with_log s (log s ++ [EvLockShardListMetadata (map shardId shards) ShareLock])))
    as (tasks & Hrun & Hlen & Hnth).
  exists tasks. split; [|split; [exact Hlen|exact Hnth]].
  unfold DDLTaskList, LockShardListMetadata. fold shards.
  unfold bind. rewrite emit_run. rewrite Hrun.
  rewrite with_log_with_log, log_with_log.
  unfold task_list_effects. rewrite firstn_all. rewrite <- app_assoc. reflexivity.
Qed.

Lemma PlanRenameStmt_table_run :
  forall env renameStmt renameCommand tableRelationId s,
    IsDistributedTable env tableRelationId = true ->
    PlanRenameStmt_table env renameStmt renameCommand tableRelationId s
    = if is_RENAME_OBJECT_TABCONSTRAINT renameStmt.(renameType)
      then (Error constraint_rename_error, s)
      else
        match DDLTaskList env tableRelationId renameCommand s with
        | (Ok tasks, s') => (Ok [shard_ddl_job tableRelationId renameCommand tasks], s')
        | (Error e, s') => (Error e, s')
        end.
Proof.
  intros env renameStmt renameCommand tableRelationId s Hdist.
  unfold PlanRenameStmt_table, ErrorIfUnsupportedRenameStmt, IsAlterTableRenameStmt.
  rewrite Hdist. cbn [negb].
  destruct (renameType renameStmt) eqn:Htype; cbn [is_RENAME_OBJECT_TABCONSTRAINT andb];
    try reflexivity;
    try (destruct (relationType renameStmt); reflexivity).
  all: rewrite andb_false_r; reflexivity.
Qed.

(** X7. Renaming a constraint of a table that exists: [PlanRenameStmt]
    locks the table with an [AccessExclusiveLock] as it resolves it; then,
    on a distributed table, it raises the unsupported-command error without
    building a task, and on a table that is not distributed it plans
    nothing and leaves the statement to PostgreSQL. The lock is the one
    effect in both cases. *)
Theorem PlanRenameStmt_constraint :
  forall env ext renameStmt renameCommand s,
    renameStmt.(renameType) = RENAME_OBJECT_TABCONSTRAINT ->
    OidIsValid (relid_of env renameStmt.(rn_relation)) = true ->
    PlanRenameStmt env ext renameStmt renameCommand s
    = (if IsDistributedTable env (relid_of env renameStmt.(rn_relation))
       then Error constraint_rename_error
       else Ok [],
       with_exclusive_lock s (relid_of env renameStmt.(rn_relation))).
Proof.
  intros env ext renameStmt renameCommand s Htype Hvalid.
  unfold PlanRenameStmt, IsAlterTableRenameStmt. rewrite Htype. cbn [negb andb].
  unfold bind. rewrite (RangeVarGetRelid_locks _ _ _ _ _ Hvalid).
  cbn [with_relation_lock]. fold (with_exclusive_lock s (relid_of env (rn_relation renameStmt))).
  rewrite Hvalid. cbn [negb].
  destruct (IsDistributedTable env (relid_of env (rn_relation renameStmt))) eqn:Hdist.
  - rewrite PlanRenameStmt_table_run by exact Hdist. now rewrite Htype.
  - unfold PlanRenameStmt_table. now rewrite Hdist.
Qed.

Lemma PlanRenameStmt_constraint_witness :
  PlanRenameStmt (sample_env false false) sample_externals
    (rename_statement RENAME_OBJECT_TABCONSTRAINT "orders")
    "ALTER TABLE orders RENAME CONSTRAINT orders_pkey TO orders_key" fresh_session
  = (Error constraint_rename_error,
     with_log fresh_session [EvLockRelationOid orders AccessExclusiveLock])
  /\ PlanRenameStmt (sample_env false false) sample_externals
       (rename_statement RENAME_OBJECT_TABCONSTRAINT "notes")
       "ALTER TABLE notes RENAME CONSTRAINT notes_pkey TO notes_key" fresh_session
     = (Ok [], with_log fresh_session [EvLockRelationOid notes AccessExclusiveLock]).
Proof.
  split.
  - exact (PlanRenameStmt_constraint (sample_env false false) sample_externals
             (rename_statement RENAME_OBJECT_TABCONSTRAINT "orders")
             "ALTER TABLE orders RENAME CONSTRAINT orders_pkey TO orders_key"
             fresh_session eq_refl eq_refl).
  - exact (PlanRenameStmt_constraint (sample_env false false) sample_externals
             (rename_statement RENAME_OBJECT_TABCONSTRAINT "notes")
             "ALTER TABLE notes RENAME CONSTRAINT notes_pkey TO notes_key"
             fresh_session eq_refl eq_refl).
Defined.

(** X8. Renaming an index that exists and whose table is distributed:
    [PlanRenameStmt] locks the index with an [AccessExclusiveLock] and
    plans exactly one job, on the table the index is defined on and not on
    the index, to be run in the session's execution mode, with one task per
    shard of that table carrying the rename command as given. *)
Theorem PlanRenameStmt_index :
  forall env ext renameStmt renameCommand s,
    renameStmt.(renameType) = RENAME_OBJECT_INDEX ->
    OidIsValid (relid_of env renameStmt.(rn_relation)) = true ->
    IsDistributedTable env (IndexGetRelation env (relid_of env renameStmt.(rn_relation)))
    = true ->
    let table := IndexGetRelation env (relid_of env renameStmt.(rn_relation)) in
    let shards := LoadShardIntervalList env table in
    exists tasks,
      PlanRenameStmt env ext renameStmt renameCommand s
      = (Ok [shard_ddl_job table renameCommand tasks],
         with_log s
           (log s ++ EvLockRelationOid (relid_of env renameStmt.(rn_relation))
                       AccessExclusiveLock
                  :: task_list_effects shards (List.length shards)))
      /\ List.length tasks = List.length shards
      /\ forall i shardInterval,
           nth_error shards i = Some shardInterval ->
           nth_error tasks i
           = Some (shard_ddl_task env table renameCommand (1 + Z.of_nat i) shardInterval).
Proof.
  intros env ext renameStmt renameCommand s Htype Hvalid Hdist table shards.
  destruct (DDLTaskList_run env table renameCommand
              (with_exclusive_lock s (relid_of env (rn_relation renameStmt))))
    as (tasks & Hrun & Hlen & Hnth).
  exists tasks. split; [|split; [exact Hlen|exact Hnth]].
  unfold PlanRenameStmt, IsIndexRenameStmt. rewrite Htype.
  cbn [negb andb]. rewrite andb_false_r. cbn [andb].
  unfold bind. rewrite (RangeVarGetRelid_locks _ _ _ _ _ Hvalid).
  cbn [with_relation_lock].
  fold (with_exclusive_lock s (relid_of env (rn_relation renameStmt))).
  rewrite Hvalid. cbn [negb]. fold table.
  rewrite PlanRenameStmt_table_run by exact Hdist.
  rewrite Htype. cbn [is_RENAME_OBJECT_TABCONSTRAINT].
  rewrite Hrun. unfold with_exclusive_lock.
  now rewrite with_log_with_log, log_with_log, <- app_assoc.
Qed.

Lemma PlanRenameStmt_index_witness :
  exists tasks,
    PlanRenameStmt sample_catalog sample_externals
      (rename_statement RENAME_OBJECT_INDEX "orders_pkey")
      "ALTER INDEX orders_pkey RENAME TO orders_key" fresh_session
    = (Ok [shard_ddl_job orders "ALTER INDEX orders_pkey RENAME TO orders_key" tasks],
       with_log fresh_session
         (EvLockRelationOid orders_pkey AccessExclusiveLock
          :: task_list_effects (sample_shards orders) 4))
    /\ List.length tasks = 4%nat.
Proof.
  destruct (PlanRenameStmt_index sample_catalog sample_externals
              (rename_statement RENAME_OBJECT_INDEX "orders_pkey")
              "ALTER INDEX orders_pkey RENAME TO orders_key" fresh_session
              eq_refl eq_refl eq_refl) as (tasks & Hrun & Hlen & _).
  exists tasks. split; [exact Hrun | exact Hlen].
Defined.

(** X9. Whatever the rename statement, [PlanRenameStmt] plans at most one
    job, and its lookup locks the relation with an [AccessExclusiveLock]
    when the rename is of a kind it handles and the relation exists; it
    takes no lock otherwise. When it plans no job the lock is all that
    changed in the session. When it plans one, the job is for the table
    the rename is about (the table of the index for an index rename), that
    table is distributed, the job carries the command as given, is not a
    concurrent-index job, does not force sequential execution, and its
    tasks are those of [DDLTaskList] for that table, built once the lock
    is held. *)
Theorem PlanRenameStmt_jobs :
  forall env ext renameStmt renameCommand s jobs s',
    PlanRenameStmt env ext renameStmt renameCommand s = (Ok jobs, s') ->
    let looked_up :=
      if renames_existing_relation env ext renameStmt
      then with_exclusive_lock s (relid_of env renameStmt.(rn_relation))
      else s in
    (jobs = [] /\ s' = looked_up)
    \/ (exists tasks,
           jobs = [shard_ddl_job (renamed_table env renameStmt) renameCommand tasks]
           /\ renames_existing_relation env ext renameStmt = true
           /\ IsDistributedTable env (renamed_table env renameStmt) = true
           /\ DDLTaskList env (renamed_table env renameStmt) renameCommand looked_up
              = (Ok tasks, s')).
Proof.
  intros env ext renameStmt renameCommand s jobs s' H looked_up. subst looked_up.
  unfold PlanRenameStmt in H. unfold renames_existing_relation.
  rewrite <- !negb_orb in H.
  destruct (IsAlterTableRenameStmt renameStmt || IsIndexRenameStmt renameStmt ||
            IsPolicyRenameStmt ext renameStmt) eqn:Hkind;
    cbn [negb andb] in H |- *.
  2: { unfold ret in H. injection H as <- <-. left. split; reflexivity. }
  unfold bind in H.
  destruct (RangeVarGetRelid env (rn_relation renameStmt) AccessExclusiveLock
              (rn_missing_ok renameStmt) s)
    as [[objectRelationId|e] s1] eqn:Hlookup; [|discriminate H].
  apply RangeVarGetRelid_locked_Ok in Hlookup.
  destruct Hlookup as [(Hvalid & -> & ->) | (Hinvalid & _ & -> & ->)].
  2: { rewrite Hinvalid. cbn in H. unfold ret in H. injection H as <- <-.
       left. split; reflexivity. }
  rewrite Hvalid in H |- *. cbn [negb with_relation_lock] in H.
  fold (with_exclusive_lock s (relid_of env (rn_relation renameStmt))) in H.
  set (locked := with_exclusive_lock s (relid_of env (rn_relation renameStmt))) in *.
  assert (Htable :
    forall tableRelationId,
      tableRelationId = renamed_table env renameStmt ->
      PlanRenameStmt_table env renameStmt renameCommand tableRelationId locked
      = (Ok jobs, s') ->
      (jobs = [] /\ s' = locked)
      \/ (exists tasks,
             jobs = [shard_ddl_job (renamed_table env renameStmt) renameCommand tasks]
             /\ true = true
             /\ IsDistributedTable env (renamed_table env renameStmt) = true
             /\ DDLTaskList env (renamed_table env renameStmt) renameCommand locked
                = (Ok tasks, s'))).
  { intros tableRelationId -> Htable.
    destruct (IsDistributedTable env (renamed_table env renameStmt)) eqn:Hdist.
    - rewrite PlanRenameStmt_table_run in Htable by exact Hdist.
      destruct (is_RENAME_OBJECT_TABCONSTRAINT (renameType renameStmt));
        [discriminate Htable|].
      destruct (DDLTaskList env (renamed_table env renameStmt) renameCommand locked)
        as [[tasks|e] s2]; [|discriminate Htable].
      injection Htable as <- <-. right. exists tasks. repeat split; reflexivity.
    - unfold PlanRenameStmt_table in Htable. rewrite Hdist in Htable.
      cbn in Htable. unfold ret in Htable. injection Htable as <- <-.
      left. split; reflexivity. }
  revert H.
  destruct (renameType renameStmt) eqn:Htype; intros H;
    try (eapply Htable; [|exact H]; unfold renamed_table; rewrite Htype; reflexivity);
    unfold ret in H; injection H as <- <-; left; split; reflexivity.
Qed.

Lemma PlanRenameStmt_jobs_witness :
  exists tasks,
    DDLTaskList (sample_env false false) orders
      "ALTER TABLE orders RENAME COLUMN id TO order_id"
      (with_log fresh_session [EvLockRelationOid orders AccessExclusiveLock])
    = (Ok tasks,
       snd (PlanRenameStmt (sample_env false false) sample_externals
              (rename_statement RENAME_OBJECT_COLUMN "orders")
              "ALTER TABLE orders RENAME COLUMN id TO order_id" fresh_session)).
Proof.
  destruct (PlanRenameStmt_jobs (sample_env false false) sample_externals
              (rename_statement RENAME_OBJECT_COLUMN "orders")
              "ALTER TABLE orders RENAME COLUMN id TO order_id" fresh_session
              _ _ eq_refl) as [[Hnone _] | (tasks & _ & _ & _ & Hrun)].
  - discriminate Hnone.
  - exists tasks. exact Hrun.
Defined.

(** X10. An ALTER ... SET SCHEMA is never propagated: [PlanAlterObjectSchemaStmt]
    plans no job for any statement. It ends in an error only through the
    lookup of a relation that does not exist. A relation that exists is
    locked by the lookup with an [AccessExclusiveLock], distributed or
    not; after that the not-propagating warning is logged exactly when the
    relation is distributed. Nothing else changes in the session. *)
Theorem PlanAlterObjectSchemaStmt_never_plans :
  forall env alterObjectSchemaStmt alterObjectSchemaCommand s,
    (run (PlanAlterObjectSchemaStmt env alterObjectSchemaStmt alterObjectSchemaCommand) s
     = Ok []
     \/ (exists e rangeVar,
            run (PlanAlterObjectSchemaStmt env alterObjectSchemaStmt
                   alterObjectSchemaCommand) s = Error e
            /\ e.(class) = UndefinedTable
            /\ alterObjectSchemaStmt.(aos_relation) = Some rangeVar
            /\ OidIsValid (relid_of env rangeVar) = false
            /\ alterObjectSchemaStmt.(aos_missing_ok) = false))
    /\ snd (PlanAlterObjectSchemaStmt env alterObjectSchemaStmt
              alterObjectSchemaCommand s)
       = with_log s
           (log s
            ++ match alterObjectSchemaStmt.(aos_relation) with
               | Some rangeVar =>
                   if OidIsValid (relid_of env rangeVar)
                   then [EvLockRelationOid (relid_of env rangeVar) AccessExclusiveLock]
                   else []
               | None => []
               end
            ++ if moves_distributed_relation env alterObjectSchemaStmt
               then [set_schema_warning] else []).
Proof.
  intros env stmt command s.
  unfold PlanAlterObjectSchemaStmt, moves_distributed_relation, run.
  destruct (aos_relation stmt) as [rangeVar|].
  2: { cbn. rewrite app_nil_r, with_log_same. split; [left|]; reflexivity. }
  unfold RangeVarGetRelid, lock_relation. unfold bind, ret, emit, ereport_ERROR.
  destruct (OidIsValid (relid_of env rangeVar)) eqn:Hvalid.
  - rewrite Hvalid. cbn [negb orb andb with_relation_lock].
    destruct (IsDistributedTable env (relid_of env rangeVar)); cbn [negb fst snd].
    + rewrite with_log_with_log, log_with_log, <- app_assoc.
      split; [left|]; reflexivity.
    + rewrite app_nil_r. split; [left|]; reflexivity.
  - cbn [andb app]. rewrite app_nil_r, with_log_same.
    destruct (aos_missing_ok stmt) eqn:Hmissing.
    + cbn. split; [left|]; reflexivity.
    + cbn. split; [right|reflexivity].
      eexists. exists rangeVar. repeat split; try reflexivity. exact Hvalid.
Qed.


(** ** ALTER TABLE outside the coordinator's planner *)

Lemma WorkerProcessAlterTableStmt_foreach_run :
  forall commandList s,
    forallb well_formed_command commandList = true ->
    WorkerProcessAlterTableStmt_foreach commandList s
    = (Ok (map skips_foreign_key_validation commandList), s).
Proof.
  induction commandList as [|command rest IH]; intros s Hwf; [reflexivity|].
  cbn in Hwf. apply andb_prop in Hwf as [Hcommand Hrest].
  cbn [WorkerProcessAlterTableStmt_foreach map]. unfold bind at 1.
  assert (Hstep :
    match subtype command with
    | AT_AddConstraint =>
        constraint <- as_Constraint (def command) ;;
        (if is_CONSTR_FOREIGN (contype constraint)
         then ret {| subtype := subtype command; name := name command;
                     def := T_Constraint (set_skip_validation constraint) |}
         else ret command)
    | _ => ret command
    end s = (Ok (skips_foreign_key_validation command), s)).
  { unfold skips_foreign_key_validation, well_formed_command in *.
    destruct (subtype command); try reflexivity.
    destruct (def command) as [| constraint | |]; try discriminate Hcommand.
    cbn. unfold bind, ret. cbn.
    destruct (is_CONSTR_FOREIGN (contype constraint)); reflexivity. }
  rewrite Hstep. unfold bind. rewrite (IH s Hrest). reflexivity.
Qed.

Lemma skips_foreign_key_validation_idempotent :
  forall command,
    skips_foreign_key_validation (skips_foreign_key_validation command)
    = skips_foreign_key_validation command.
Proof.
  intros command. unfold skips_foreign_key_validation.
  destruct (subtype command) eqn:Hsubtype; rewrite ?Hsubtype; try reflexivity.
  destruct (def command) as [| constraint | |] eqn:Hdef; rewrite ?Hsubtype, ?Hdef;
    try reflexivity.
  destruct (is_CONSTR_FOREIGN (contype constraint)) eqn:Hfk.
  - cbn. rewrite ?Hsubtype. cbn. rewrite ?Hfk. reflexivity.
  - rewrite ?Hsubtype, ?Hdef, ?Hfk. reflexivity.
Qed.

Lemma skips_foreign_key_validation_well_formed :
  forall command,
    well_formed_command (skips_foreign_key_validation command)
    = well_formed_command command.
Proof.
  intros command. unfold skips_foreign_key_validation, well_formed_command.
  destruct (subtype command) eqn:Hsubtype; rewrite ?Hsubtype; try reflexivity.
  destruct (def command) as [| constraint | |] eqn:Hdef; rewrite ?Hsubtype, ?Hdef;
    try reflexivity.
  destruct (is_CONSTR_FOREIGN (contype constraint)).
  - cbn. rewrite ?Hsubtype. reflexivity.
  - rewrite ?Hsubtype, ?Hdef. reflexivity.
Qed.

(** X11. On an ALTER TABLE whose relation exists and whose sub-commands are
    as the parser builds them, [WorkerProcessAlterTableStmt] never raises,
    and its one effect on the session is the lock its lookup takes on the
    relation, in the lock mode of the statement. For a distributed table
    it returns the statement with every ADD CONSTRAINT of a foreign key
    marked as not to be validated and nothing else changed; for any other
    table it returns the statement as it is. Processing its result again
    returns that result unchanged. *)
Theorem WorkerProcessAlterTableStmt_skips_validation :
  forall env alterTableStatement alterTableCommand s,
    targets_existing_relation env alterTableStatement = true ->
    forallb well_formed_command alterTableStatement.(cmds) = true ->
    let processed :=
      if IsDistributedTable env (target_relid env alterTableStatement)
      then with_cmds alterTableStatement
             (map skips_foreign_key_validation alterTableStatement.(cmds))
      else alterTableStatement in
    WorkerProcessAlterTableStmt env alterTableStatement alterTableCommand s
    = (Ok processed, with_alter_table_lock env alterTableStatement s)
    /\ WorkerProcessAlterTableStmt env processed alterTableCommand s
       = (Ok processed, with_alter_table_lock env processed s).
Proof.
  intros env stmt command s Hexists Hwf processed.
  assert (Hrun :
    forall stmt0,
      targets_existing_relation env stmt0 = true ->
      forallb well_formed_command (cmds stmt0) = true ->
      WorkerProcessAlterTableStmt env stmt0 command s
      = (Ok (if IsDistributedTable env (target_relid env stmt0)
             then with_cmds stmt0 (map skips_foreign_key_validation (cmds stmt0))
             else stmt0), with_alter_table_lock env stmt0 s)).
  { intros stmt0 Hexists0 Hwf0. unfold WorkerProcessAlterTableStmt. cbv zeta.
    pose proof (AlterTableLookupRelation_alter_table_lock _ _ s Hexists0) as Hlookup.
    unfold targets_existing_relation in Hexists0.
    destruct (relation stmt0) as [rangeVar|] eqn:Hrelation.
    2: { unfold target_relid in Hexists0. rewrite Hrelation in Hexists0.
         discriminate Hexists0. }
    unfold bind at 1. rewrite Hlookup. rewrite Hexists0. cbn [negb].
    destruct (IsDistributedTable env (target_relid env stmt0)); cbn [negb];
      [|reflexivity].
    unfold bind. rewrite (WorkerProcessAlterTableStmt_foreach_run _ _ Hwf0).
    unfold ret, with_cmds. now rewrite Hrelation. }
  split; [exact (Hrun stmt Hexists Hwf)|].
  subst processed.
  destruct (IsDistributedTable env (target_relid env stmt)) eqn:Hdist.
  - rewrite Hrun.
    + unfold target_relid at 1. cbn [with_cmds relation cmds].
      fold (target_relid env stmt). rewrite Hdist.
      unfold with_cmds at 1. cbn [relation cmds relkind missing_ok with_cmds].
      rewrite map_map.
      rewrite (map_ext _ _ skips_foreign_key_validation_idempotent).
      reflexivity.
    + exact Hexists.
    + cbn [with_cmds cmds]. clear - Hwf.
      induction (cmds stmt) as [|c rest IH]; [reflexivity|].
      cbn in Hwf |- *. apply andb_prop in Hwf as [Hc Hrest].
      rewrite skips_foreign_key_validation_well_formed, Hc. now apply IH.
  - rewrite Hrun by assumption. now rewrite Hdist.
Qed.

Lemma WorkerProcessAlterTableStmt_skips_validation_witness :
  WorkerProcessAlterTableStmt (sample_env false false)
    (alter_table "orders" [add_constraint (foreign_key "orders_warehouse_fk" "warehouses");
                           column_command AT_DropColumn "id"])
    "ALTER TABLE orders ADD CONSTRAINT orders_warehouse_fk FOREIGN KEY (warehouse_id) REFERENCES warehouses (id), DROP COLUMN id"
    fresh_session
  = (Ok (alter_table "orders"
           [add_constraint
              {| contype := CONSTR_FOREIGN; conname := Some "orders_warehouse_fk";
                 pktable := rv "warehouses"; skip_validation := true |};
            column_command AT_DropColumn "id"]),
     with_log fresh_session [EvLockRelationOid orders AccessExclusiveLock]).
Proof.
  exact (proj1 (WorkerProcessAlterTableStmt_skips_validation (sample_env false false)
                  (alter_table "orders"
                     [add_constraint (foreign_key "orders_warehouse_fk" "warehouses");
                      column_command AT_DropColumn "id"])
                  "ALTER TABLE orders ADD CONSTRAINT orders_warehouse_fk FOREIGN KEY (warehouse_id) REFERENCES warehouses (id), DROP COLUMN id"
                  fresh_session eq_refl eq_refl)).
Defined.

Lemma ErrorIfAlterDropsPartitionColumn_foreach_run :
  forall env alterTableStatement commandList s,
    targets_existing_relation env alterTableStatement = true ->
    ErrorIfAlterDropsPartitionColumn_foreach env alterTableStatement commandList s
    = (if existsb (drops_distribution_column env (target_relid env alterTableStatement))
            commandList
       then Error drops_partition_column_error
       else Ok tt,
       Nat.iter
         (examined_column_drops env (target_relid env alterTableStatement) commandList)
         (with_alter_table_lock env alterTableStatement) s).
Proof.
  intros env stmt commandList s Hexists. revert s.
  induction commandList as [|command rest IH]; intros s; [reflexivity|].
  cbn [ErrorIfAlterDropsPartitionColumn_foreach existsb examined_column_drops].
  unfold drops_distribution_column at 1. unfold bind at 1.
  destruct (is_AT_DropColumn (subtype command)); cbn [andb].
  - unfold bind at 1. rewrite (AlterInvolvesPartitionColumn_run _ _ _ _ Hexists).
    destruct (is_distribution_column env (target_relid env stmt) (name command));
      cbn [orb].
    + reflexivity.
    + unfold ret at 1. rewrite IH. now rewrite Nat.iter_succ_r.
  - unfold ret at 1. apply IH.
Qed.

(** X12. [ErrorIfAlterDropsPartitionColumn], the check of an ALTER TABLE
    while DDL propagation is disabled, on a relation that exists: the
    statement is rejected exactly when the relation is distributed and one
    of the sub-commands is a DROP COLUMN of its distribution column. Any
    other sub-command on the distribution column, a type change among
    them, passes. The session changes by locks only: the relation is
    locked, in the lock mode of the statement, once by the first lookup
    and, on a distributed table, once more for every DROP COLUMN the check
    looks at, up to the one it rejects. *)
Theorem ErrorIfAlterDropsPartitionColumn_rejects :
  forall env alterTableStatement s,
    targets_existing_relation env alterTableStatement = true ->
    let relationId := target_relid env alterTableStatement in
    ErrorIfAlterDropsPartitionColumn env alterTableStatement s
    = (if IsDistributedTable env relationId &&
          existsb (drops_distribution_column env relationId) alterTableStatement.(cmds)
       then Error drops_partition_column_error
       else Ok tt,
       Nat.iter
         (1 + if IsDistributedTable env relationId
              then examined_column_drops env relationId alterTableStatement.(cmds)
              else 0)
         (with_alter_table_lock env alterTableStatement) s).
Proof.
  intros env stmt s Hexists relationId. subst relationId.
  unfold ErrorIfAlterDropsPartitionColumn. cbv zeta.
  pose proof (AlterTableLookupRelation_alter_table_lock _ _ s Hexists) as Hlookup.
  pose proof Hexists as Hvalid. unfold targets_existing_relation in Hvalid.
  destruct (relation stmt) as [rangeVar|] eqn:Hrelation.
  2: { unfold target_relid in Hvalid. rewrite Hrelation in Hvalid. discriminate Hvalid. }
  unfold bind at 1. rewrite Hlookup. rewrite Hvalid. cbn [negb].
  destruct (IsDistributedTable env (target_relid env stmt)); cbn [negb andb].
  - rewrite (ErrorIfAlterDropsPartitionColumn_foreach_run _ _ _ _ Hexists).
    now rewrite Nat.add_1_l, Nat.iter_succ_r.
  - reflexivity.
Qed.

Lemma ErrorIfAlterDropsPartitionColumn_rejects_witness :
  ErrorIfAlterDropsPartitionColumn (sample_env false false)
    (alter_table "orders" [column_command AT_DropColumn "customer_id"]) fresh_session
  = (Error drops_partition_column_error,
     with_log fresh_session
       [ EvLockRelationOid orders AccessExclusiveLock;
         EvLockRelationOid orders AccessExclusiveLock ])
  /\ ErrorIfAlterDropsPartitionColumn (sample_env false false)
       (alter_table "orders" [column_command AT_AlterColumnType "customer_id"])
       fresh_session
     = (Ok tt, with_log fresh_session [EvLockRelationOid orders AccessExclusiveLock]).
Proof.
  split.
  - exact (ErrorIfAlterDropsPartitionColumn_rejects (sample_env false false)
             (alter_table "orders" [column_command AT_DropColumn "customer_id"])
             fresh_session eq_refl).
  - exact (ErrorIfAlterDropsPartitionColumn_rejects (sample_env false false)
             (alter_table "orders" [column_command AT_AlterColumnType "customer_id"])
             fresh_session eq_refl).
Defined.

Lemma ProcessAlterTableStmtAttachPartition_foreach_run :
  forall env alterTableStatement commandList calls s,
    targets_existing_relation env alterTableStatement = true ->
    forallb well_formed_command commandList = true ->
    existsb (attaches_missing_partition env) commandList = false ->
    let parent := target_relid env alterTableStatement in
    ProcessAlterTableStmtAttachPartition_foreach env alterTableStatement commandList
      calls s
    = (if IsDistributedTable env parent
       then Ok (calls ++
                map (distributes_partition env parent)
                  (filter (fun partition => negb (IsDistributedTable env partition))
                     (flat_map (attached_partition env) commandList)))
       else match filter (IsDistributedTable env)
                    (flat_map (attached_partition env) commandList) with
            | partition :: _ =>
                Error (distributed_partition_error (get_rel_name env partition))
            | [] => Ok calls
            end, s).
Proof.
  intros env stmt commandList calls s Hexists Hwf Hpartitions parent.
  revert calls.
  induction commandList as [|command rest IH]; intros calls.
  - cbn. rewrite app_nil_r. destruct (IsDistributedTable env parent); reflexivity.
  - cbn in Hwf, Hpartitions. apply andb_prop in Hwf as [Hcommand Hrest].
    apply orb_false_elim in Hpartitions as [Hpartition Hmissing].
    specialize (IH Hrest Hmissing).
    cbn [ProcessAlterTableStmtAttachPartition_foreach flat_map].
    unfold attached_partition at 1 3.
    unfold well_formed_command in Hcommand.
    unfold attaches_missing_partition in Hpartition.
    destruct (subtype command); cbn [is_AT_AttachPartition app]; try apply IH.
    destruct (def command) as [| | partitionCommand |]; try discriminate Hcommand.
    apply negb_false_iff in Hpartition.
    unfold bind at 1. rewrite (AlterTableLookupRelation_exists _ _ _ Hexists).
    fold parent. unfold bind at 1. cbn [as_PartitionCmd]. unfold ret at 1.
    unfold bind at 1. rewrite (RangeVarGetRelid_exists _ _ _ _ Hpartition).
    cbn [app filter].
    destruct (IsDistributedTable env parent) eqn:Hparent;
      destruct (IsDistributedTable env (relid_of env (pc_name partitionCommand)));
      cbn [negb andb].
    + rewrite IH. reflexivity.
    + rewrite IH. cbn [map]. rewrite <- app_assoc. reflexivity.
    + reflexivity.
    + rewrite IH. reflexivity.
Qed.

(** X13. After a local ALTER TABLE whose relation and attached partitions
    exist, [ProcessAlterTableStmtAttachPartition] goes by the four cases of
    parent and partition. Under a distributed parent it distributes exactly
    the attached partitions that are not distributed yet, in the order of
    the sub-commands, each by hash on the parent's distribution column and
    colocated with the parent. Under a parent that is not distributed it
    raises for the first attached partition that is distributed, and does
    nothing when there is none. The session is never changed. *)
Theorem ProcessAlterTableStmtAttachPartition_cases :
  forall env alterTableStatement s,
    targets_existing_relation env alterTableStatement = true ->
    forallb well_formed_command alterTableStatement.(cmds) = true ->
    existsb (attaches_missing_partition env) alterTableStatement.(cmds) = false ->
    let parent := target_relid env alterTableStatement in
    let partitions := flat_map (attached_partition env) alterTableStatement.(cmds) in
    ProcessAlterTableStmtAttachPartition env alterTableStatement s
    = (if IsDistributedTable env parent
       then Ok (map (distributes_partition env parent)
                  (filter (fun partition => negb (IsDistributedTable env partition))
                     partitions))
       else match filter (IsDistributedTable env) partitions with
            | partition :: _ =>
                Error (distributed_partition_error (get_rel_name env partition))
            | [] => Ok []
            end, s).
Proof.
  intros env stmt s Hexists Hwf Hpartitions parent partitions.
  unfold ProcessAlterTableStmtAttachPartition.
  now rewrite ProcessAlterTableStmtAttachPartition_foreach_run.
Qed.

Lemma ProcessAlterTableStmtAttachPartition_cases_witness :
  ProcessAlterTableStmtAttachPartition (sample_env false false)
    (alter_table "orders" [attach_partition "notes"]) fresh_session
  = (Ok [ {| cdt_relationId := notes;
             cdt_distributionColumn := Some {| varattno := 1 |};
             cdt_distributionMethod := DISTRIBUTE_BY_HASH;
             cdt_colocateWithTableName := "public.orders";
             cdt_viaDeprecatedAPI := false |} ], fresh_session)
  /\ ProcessAlterTableStmtAttachPartition (sample_env false false)
       (alter_table "orders" [attach_partition "archive"]) fresh_session
     = (Ok [], fresh_session)
  /\ ProcessAlterTableStmtAttachPartition (sample_env false false)
       (alter_table "notes" [attach_partition "archive"]) fresh_session
     = (Error (distributed_partition_error "archive"), fresh_session).
Proof.
  split; [|split].
  - exact (ProcessAlterTableStmtAttachPartition_cases (sample_env false false)
             (alter_table "orders" [attach_partition "notes"]) fresh_session
             eq_refl eq_refl eq_refl).
  - exact (ProcessAlterTableStmtAttachPartition_cases (sample_env false false)
             (alter_table "orders" [attach_partition "archive"]) fresh_session
             eq_refl eq_refl eq_refl).
  - exact (ProcessAlterTableStmtAttachPartition_cases (sample_env false false)
             (alter_table "notes" [attach_partition "archive"]) fresh_session
             eq_refl eq_refl eq_refl).
Defined.


(** ** TRUNCATE, DROP TABLE and DROP SCHEMA *)

(** A lookup that tolerates a missing relation never raises; it locks the
    relation when there is one. *)
Lemma RangeVarGetRelid_missing_ok_locks :
  forall env rangeVar lockmode s,
    RangeVarGetRelid env rangeVar lockmode true s
    = (Ok (relid_of env rangeVar),
       if OidIsValid (relid_of env rangeVar)
       then with_relation_lock s (relid_of env rangeVar) lockmode
       else s).
Proof.
  intros env rangeVar lockmode s. unfold RangeVarGetRelid, OidIsValid.
  destruct (relid_of env rangeVar =? InvalidOid) eqn:Hinvalid; cbn [negb].
  - apply Z.eqb_eq in Hinvalid. now rewrite Hinvalid.
  - reflexivity.
Qed.

Lemma RangeVarGetRelid_missing_ok :
  forall env rangeVar s,
    RangeVarGetRelid env rangeVar NoLock true s = (Ok (relid_of env rangeVar), s).
Proof.
  intros env rangeVar s. rewrite RangeVarGetRelid_missing_ok_locks.
  now destruct (OidIsValid (relid_of env rangeVar)).
Qed.

Lemma ErrorIfUnsupportedTruncateStmt_run :
  forall env truncateStatement s,
    ErrorIfUnsupportedTruncateStmt env truncateStatement s
    = (if existsb (is_distributed_foreign_table env) truncateStatement.(relations)
       then Error truncate_foreign_table_error
       else Ok tt, s).
Proof.
  intros env [relationList] s. unfold ErrorIfUnsupportedTruncateStmt. cbn [relations].
  induction relationList as [|rangeVar rest IH]; [reflexivity|].
  cbn [ErrorIfUnsupportedTruncateStmt_foreach existsb].
  unfold bind. rewrite RangeVarGetRelid_missing_ok.
  unfold is_distributed_foreign_table at 1.
  destruct (IsDistributedTable env (relid_of env rangeVar) &&
            is_RELKIND_FOREIGN_TABLE (get_rel_relkind env (relid_of env rangeVar)));
    cbn [orb]; [reflexivity|exact IH].
Qed.

(** X14. A TRUNCATE that names a distributed foreign table is rejected
    before anything else is done: [ProcessTruncateStatement] raises the
    unsupported-command error with the hint to use master_drop_all_shards,
    and the session is as before: no execution mode was changed, no lock
    was taken and no worker was contacted. This holds whatever else the
    statement names, relations that do not exist among them. *)
Theorem ProcessTruncateStatement_foreign_table :
  forall env truncateStatement s,
    existsb (is_distributed_foreign_table env) truncateStatement.(relations) = true ->
    ProcessTruncateStatement env truncateStatement s
    = (Error truncate_foreign_table_error, s)
    /\ truncate_foreign_table_error.(class) = UnsupportedCommand
    /\ truncate_foreign_table_error.(hint)
       = Some "Use master_drop_all_shards to remove foreign table's shards.".
Proof.
  intros env truncateStatement s Hforeign.
  split; [|split; reflexivity].
  unfold ProcessTruncateStatement. unfold bind at 1.
  rewrite ErrorIfUnsupportedTruncateStmt_run. now rewrite Hforeign.
Qed.

Lemma ProcessTruncateStatement_foreign_table_witness :
  ProcessTruncateStatement sample_catalog (truncate ["no_such_table"; "orders"; "archive"])
    fresh_session
  = (Error truncate_foreign_table_error, fresh_session).
Proof.
  exact (proj1 (ProcessTruncateStatement_foreign_table sample_catalog
                  (truncate ["no_such_table"; "orders"; "archive"]) fresh_session
                  eq_refl)).
Defined.






Lemma list_member_oid_In :
  forall l o, list_member_oid l o = true <-> In o l.
Proof.
  intros l o. unfold list_member_oid. rewrite existsb_exists. split.
  - intros (x & Hin & Heq). apply Z.eqb_eq in Heq. now subst.
  - intros Hin. exists o. split; [exact Hin|apply Z.eqb_refl].
Qed.

Lemma list_append_unique_oid_NoDup :
  forall l o, NoDup l -> NoDup (list_append_unique_oid l o).
Proof.
  intros l o Hl. unfold list_append_unique_oid.
  destruct (list_member_oid l o) eqn:Hmember; [exact Hl|].
  apply NoDup_app; [exact Hl|repeat constructor; intros []|].
  intros x Hx [->|[]]. apply list_member_oid_In in Hx. congruence.
Qed.

Lemma list_append_unique_oid_In :
  forall l o x, In x (list_append_unique_oid l o) <-> In x l \/ x = o.
Proof.
  intros l o x. unfold list_append_unique_oid.
  destruct (list_member_oid l o) eqn:Hmember.
  - apply list_member_oid_In in Hmember. split; [auto|].
    intros [H| ->]; assumption.
  - rewrite in_app_iff. cbn. split; intros [H|H]; auto.
    + destruct H as [<-|[]]. auto.
Qed.

Lemma fold_list_append_unique_oid :
  forall referencing l,
    NoDup l ->
    NoDup (fold_left list_append_unique_oid referencing l)
    /\ forall x, In x (fold_left list_append_unique_oid referencing l)
                 <-> In x l \/ In x referencing.
Proof.
  induction referencing as [|o rest IH]; intros l Hl.
  - cbn. split; [exact Hl|]. intros x. tauto.
  - cbn [fold_left].
    destruct (IH _ (list_append_unique_oid_NoDup l o Hl)) as [Hnodup Hin].
    split; [exact Hnodup|].
    intros x. rewrite Hin, list_append_unique_oid_In. cbn. intuition auto.
Qed.

Lemma LockTruncatedRelationMetadataInWorkers_foreach_run :
  forall env relationList distributedRelationList s,
    forallb (fun rangeVar => OidIsValid (relid_of env rangeVar)) relationList = true ->
    NoDup distributedRelationList ->
    exists locked,
      LockTruncatedRelationMetadataInWorkers_foreach env relationList
        distributedRelationList s = (Ok locked, s)
      /\ NoDup locked
      /\ (forall relationId, In relationId distributedRelationList ->
                             In relationId locked)
      /\ (forall rangeVar,
             In rangeVar relationList ->
             IsDistributedTable env (relid_of env rangeVar) = true ->
             In (relid_of env rangeVar) locked)
      /\ (forall relationId,
             In relationId locked ->
             In relationId distributedRelationList
             \/ In relationId (flat_map (lockable_with env) relationList)).
Proof.
  intros env relationList.
  induction relationList as [|rangeVar rest IH]; intros acc s Hexist Hacc.
  - exists acc. cbn. repeat split; auto. intros ? [].
  - cbn in Hexist. apply andb_prop in Hexist as [Hvalid Hrest].
    cbn [LockTruncatedRelationMetadataInWorkers_foreach flat_map].
    unfold bind. rewrite (RangeVarGetRelid_exists _ _ _ _ Hvalid).
    unfold lockable_with at 1.
    destruct (IsDistributedTable env (relid_of env rangeVar)) eqn:Hdist; cbn [negb].
    + destruct (list_member_oid acc (relid_of env rangeVar)) eqn:Hmember.
      * destruct (IH acc s Hrest Hacc) as (locked & Hrun & Hnodup & Hkeep & Htargets & Hfrom).
        exists locked. split; [exact Hrun|]. split; [exact Hnodup|].
        split; [exact Hkeep|]. split.
        -- intros rangeVar' [<-|Hin] Hd.
           ++ apply Hkeep. now apply list_member_oid_In.
           ++ now apply Htargets.
        -- intros relationId Hin. destruct (Hfrom _ Hin) as [H|H]; [now left|].
           right. apply in_or_app. now right.
      * assert (Hnew : NoDup (acc ++ [relid_of env rangeVar])).
        { apply NoDup_app; [exact Hacc|repeat constructor; intros []|].
          intros x Hx [<-|[]]. apply list_member_oid_In in Hx. congruence. }
        destruct (fold_list_append_unique_oid
                    (referencingRelationsViaForeignKey env (relid_of env rangeVar))
                    _ Hnew) as [Hnodup' Hin'].
        destruct (IH _ s Hrest Hnodup')
          as (locked & Hrun & Hnodup & Hkeep & Htargets & Hfrom).
        exists locked. split; [exact Hrun|]. split; [exact Hnodup|].
        split; [|split].
        -- intros relationId Hin. apply Hkeep, Hin'. left.
           apply in_or_app. now left.
        -- intros rangeVar' [<-|Hin] Hd.
           ++ apply Hkeep, Hin'. left. apply in_or_app. right. now left.
           ++ now apply Htargets.
        -- intros relationId Hin. destruct (Hfrom _ Hin) as [H|H].
           ++ apply Hin' in H. destruct H as [H|H].
              ** apply in_app_or in H as [H|[<-|[]]]; [now left|].
                 right. apply in_or_app. left. now left.
              ** right. apply in_or_app. left. now right.
           ++ right. apply in_or_app. now right.
    + destruct (IH acc s Hrest Hacc) as (locked & Hrun & Hnodup & Hkeep & Htargets & Hfrom).
      exists locked. split; [exact Hrun|]. split; [exact Hnodup|].
      split; [exact Hkeep|]. split.
      * intros rangeVar' [<-|Hin] Hd; [congruence|now apply Htargets].
      * intros relationId Hin. destruct (Hfrom _ Hin) as [H|H]; [now left|].
        right. exact H.
Qed.

(** X16. The list of relations a TRUNCATE locks on the workers, when all
    its targets exist: the loop of [LockTruncatedRelationMetadataInWorkers]
    raises nothing, changes nothing in the session, and ends with a list
    without duplicates, also when a table is named twice or referenced by
    several targets. The list holds every distributed target, and nothing
    but distributed targets and relations that reference one by foreign
    key. *)
Theorem LockTruncatedRelationMetadataInWorkers_lock_list :
  forall env relationList s,
    forallb (fun rangeVar => OidIsValid (relid_of env rangeVar)) relationList = true ->
    exists locked,
      LockTruncatedRelationMetadataInWorkers_foreach env relationList [] s
      = (Ok locked, s)
      /\ NoDup locked
      /\ (forall rangeVar,
             In rangeVar relationList ->
             IsDistributedTable env (relid_of env rangeVar) = true ->
             In (relid_of env rangeVar) locked)
      /\ (forall relationId,
             In relationId locked ->
             In relationId (flat_map (lockable_with env) relationList)).
Proof.
  intros env relationList s Hexist.
  destruct (LockTruncatedRelationMetadataInWorkers_foreach_run env relationList [] s
              Hexist (NoDup_nil _))
    as (locked & Hrun & Hnodup & _ & Htargets & Hfrom).
  exists locked. split; [exact Hrun|]. split; [exact Hnodup|].
  split; [exact Htargets|].
  intros relationId Hin. destruct (Hfrom _ Hin) as [[]|H]. exact H.
Qed.

Lemma LockTruncatedRelationMetadataInWorkers_lock_list_witness :
  exists locked,
    LockTruncatedRelationMetadataInWorkers_foreach (sample_env false false)
      (map rv ["orders"; "warehouses"; "notes"; "orders"]) [] fresh_session
    = (Ok locked, fresh_session)
    /\ NoDup locked.
Proof.
  destruct (LockTruncatedRelationMetadataInWorkers_lock_list (sample_env false false)
              (map rv ["orders"; "warehouses"; "notes"; "orders"]) fresh_session
              eq_refl) as (locked & Hrun & Hnodup & _).
  exists locked. split; [exact Hrun | exact Hnodup].
Defined.

Lemma ProcessDropTableStmt_detach_run :
  forall env ext partitionList s,
    (forall target command, workers_command_outcome env target command = None) ->
    ProcessDropTableStmt_detach env ext partitionList s
    = (Ok tt,
       with_log s
         (log s ++ map (fun partitionRelationId =>
                          EvSendCommandToWorkers WORKERS_WITH_METADATA
                            (GenerateDetachPartitionCommand ext partitionRelationId))
                     partitionList)).
Proof.
  intros env ext partitionList s Hworkers. revert s.
  induction partitionList as [|partition rest IH]; intros s.
  - cbn. unfold ret. now rewrite app_nil_r, with_log_same.
  - cbn [ProcessDropTableStmt_detach map]. unfold bind, SendCommandToWorkers, request.
    rewrite Hworkers. unfold bind. rewrite emit_run. unfold ret at 1.
    rewrite IH. rewrite with_log_with_log, log_with_log, <- app_assoc. reflexivity.
Qed.

(** X17. DROP TABLE on the coordinator, with workers that accept the
    commands: [ProcessDropTableStmt] raises nothing, also for tables that do
    not exist. It goes through the targets in turn; a target that exists is
    locked with an [AccessShareLock] as it is resolved. For every target
    that is a distributed, partitioned table with synced metadata and at
    least one partition, it then sends to the workers with metadata the
    command that turns DDL propagation off and one DETACH PARTITION command
    per partition; for no other target it sends anything. The foreign key
    graph is marked for invalidation exactly when some target is a
    distributed table that takes part in a foreign key (or it was marked
    before). *)
Theorem ProcessDropTableStmt_detaches_partitions :
  forall env ext dropTableStatement s,
    IsCoordinator env = true ->
    (forall target command, workers_command_outcome env target command = None) ->
    ProcessDropTableStmt env ext dropTableStatement s
    = (Ok tt,
       with_log
         (if existsb (drops_foreign_key_table env ext) dropTableStatement.(dt_objects)
          then with_invalidate_flag s true
          else s)
         (log s ++ flat_map (drop_table_events env ext) dropTableStatement.(dt_objects))).
Proof.
  intros env ext [objects] s Hcoordinator Hworkers.
  unfold ProcessDropTableStmt. cbn [dt_objects]. revert s.
  induction objects as [|rangeVar rest IH]; intros s0.
  - cbn. unfold ret. now rewrite app_nil_r, with_log_same.
  - cbn [ProcessDropTableStmt_foreach existsb flat_map].
    unfold bind at 1. rewrite RangeVarGetRelid_missing_ok_locks.
    unfold drop_table_events at 1.
    unfold drops_foreign_key_table at 1, detach_commands at 1,
      drops_distributed_table, in_foreign_key, OidIsValid.
    unfold bind at 1.
    destruct (relid_of env rangeVar =? InvalidOid); cbn [negb orb andb].
    { unfold ret at 1. rewrite IH. cbn [app]. reflexivity. }
    cbn [with_relation_lock].
    set (s := with_log s0
                (log s0 ++ [EvLockRelationOid (relid_of env rangeVar) AccessShareLock])).
    match goal with
    | |- _ = (Ok tt, with_log (if ?C then _ else _) (log s0 ++ ([_] ++ ?D) ++ ?R)) =>
        transitivity
          (@Ok unit tt,
           with_log (if C then with_invalidate_flag s true else s) (log s ++ D ++ R));
        [| subst s; rewrite log_with_log; destruct C; cbn;
           rewrite <- ?app_assoc; reflexivity ]
    end.
    clearbody s. clear s0.
    destruct (IsDistributedTable env (relid_of env rangeVar)); cbn [negb orb andb].
    2: { unfold ret at 1. rewrite IH. cbn [app]. reflexivity. }
    unfold bind at 1.
    assert (Hmark :
      (if TableReferenced env (relid_of env rangeVar)
          || TableReferencing ext (relid_of env rangeVar)
       then MarkInvalidateForeignKeyGraph else ret tt) s
      = (Ok tt,
         if TableReferenced env (relid_of env rangeVar)
            || TableReferencing ext (relid_of env rangeVar)
         then with_invalidate_flag s true else s)).
    { destruct (_ || _); reflexivity. }
    rewrite Hmark. clear Hmark.
    set (marked := TableReferenced env (relid_of env rangeVar)
                   || TableReferencing ext (relid_of env rangeVar)).
    set (s1 := if marked then with_invalidate_flag s true else s).
    assert (Hlog : log s1 = log s) by (unfold s1; destruct marked; reflexivity).
    assert (Hfinish :
      forall events s2,
        s2 = with_log s1 (log s ++ events) ->
        with_log
          (if existsb (drops_foreign_key_table env ext) rest
           then with_invalidate_flag s2 true else s2)
          (log s2 ++ flat_map (drop_table_events env ext) rest)
        = with_log
            (if marked || existsb (drops_foreign_key_table env ext) rest
             then with_invalidate_flag s true else s)
            (log s ++ events ++ flat_map (drop_table_events env ext) rest)).
    { intros events s2 ->. unfold s1. rewrite log_with_log, <- app_assoc.
      destruct marked, (existsb (drops_foreign_key_table env ext) rest);
        reflexivity. }
    destruct (ShouldSyncTableMetadata env (relid_of env rangeVar)); cbn [negb orb andb].
    2: { unfold ret at 1. rewrite IH. rewrite <- (Hfinish [] s1).
         - reflexivity.
         - now rewrite app_nil_r, <- Hlog, with_log_same. }
    destruct (PartitionedTable ext (relid_of env rangeVar)); cbn [negb orb andb].
    2: { unfold ret at 1. rewrite IH. rewrite <- (Hfinish [] s1).
         - reflexivity.
         - now rewrite app_nil_r, <- Hlog, with_log_same. }
    unfold bind at 1. unfold EnsureCoordinator. rewrite Hcoordinator.
    unfold ret at 1.
    destruct (PartitionList ext (relid_of env rangeVar)) as [|partition partitions]
      eqn:Hpartitions.
    { cbn [List.length Nat.eqb]. unfold ret at 1. rewrite IH.
      rewrite <- (Hfinish [] s1).
      - reflexivity.
      - now rewrite app_nil_r, <- Hlog, with_log_same. }
    cbn [List.length Nat.eqb].
    unfold bind at 1. unfold SendCommandToWorkers at 1, request.
    rewrite Hworkers. unfold bind at 1. rewrite emit_run. unfold ret at 1.
    rewrite ProcessDropTableStmt_detach_run by exact Hworkers.
    rewrite IH. rewrite with_log_with_log, log_with_log.
    erewrite <- Hfinish; [reflexivity|].
    rewrite Hlog, <- app_assoc. reflexivity.
Qed.

Lemma ProcessDropTableStmt_detaches_partitions_witness :
  ProcessDropTableStmt (sample_env false false) sample_externals
    (drop_table ["no_such_table"; "orders"; "notes"]) fresh_session
  = (Ok tt,
     with_log (with_invalidate_flag fresh_session true)
       [ EvLockRelationOid orders AccessShareLock;
         EvSendCommandToWorkers WORKERS_WITH_METADATA
           "SET citus.enable_ddl_propagation TO 'off'";
         EvSendCommandToWorkers WORKERS_WITH_METADATA
           "ALTER TABLE IF EXISTS public.orders DETACH PARTITION public.orders_2023;";
         EvSendCommandToWorkers WORKERS_WITH_METADATA
           "ALTER TABLE IF EXISTS public.orders DETACH PARTITION public.orders_2024;";
         EvLockRelationOid notes AccessShareLock ]).
Proof.
  exact (ProcessDropTableStmt_detaches_partitions (sample_env false false)
           sample_externals (drop_table ["no_such_table"; "orders"; "notes"])
           fresh_session eq_refl (fun _ _ => eq_refl)).
Defined.

Lemma ProcessDropSchemaStmt_scan_run :
  forall env ext namespaceOid relationNames s,
    let found :=
      existsb (fun relationName =>
                 let relationId := get_relname_relid env relationName namespaceOid in
                 OidIsValid relationId && IsDistributedTable env relationId &&
                 in_foreign_key env ext relationId)
        relationNames in
    ProcessDropSchemaStmt_scan env ext namespaceOid relationNames s
    = (Ok (if found then Return else Continue),
       if found then with_invalidate_flag s true else s).
Proof.
  intros env ext namespaceOid relationNames s.
  induction relationNames as [|relationName rest IH]; [reflexivity|].
  cbn [ProcessDropSchemaStmt_scan existsb]. cbv zeta in IH |- *.
  unfold OidIsValid, in_foreign_key in IH |- *.
  destruct (get_relname_relid env relationName namespaceOid =? InvalidOid);
    cbn [negb orb andb]; [exact IH|].
  destruct (IsDistributedTable env (get_relname_relid env relationName namespaceOid));
    cbn [negb orb andb]; [|exact IH].
  destruct (TableReferenced env (get_relname_relid env relationName namespaceOid)
            || TableReferencing ext (get_relname_relid env relationName namespaceOid));
    cbn [orb]; [reflexivity|exact IH].
Qed.

Lemma ProcessDropSchemaStmt_foreach_run :
  forall env ext objects s,
    ProcessDropSchemaStmt_foreach env ext objects s
    = (Ok tt,
       with_log
         (if existsb (schema_holds_foreign_key_table env ext) objects
          then with_invalidate_flag s true
          else s)
         (log s ++ map (fun _ => EvLockRelationOid RelationRelationId AccessShareLock)
                     (scanned_schemas env ext objects))).
Proof.
  intros env ext objects.
  induction objects as [|schemaString rest IH]; intros s.
  - cbn. unfold ret. now rewrite app_nil_r, with_log_same.
  - cbn [ProcessDropSchemaStmt_foreach existsb scanned_schemas].
    unfold schema_holds_foreign_key_table at 1 3. cbv zeta.
    destruct (get_namespace_oid ext schemaString =? InvalidOid) eqn:Hschema;
      unfold OidIsValid at 1 3 4; rewrite Hschema; cbn [negb orb andb];
      [apply IH|].
    unfold bind at 1. unfold heap_open, lock_relation. cbn [with_relation_lock].
    unfold bind at 1. rewrite ProcessDropSchemaStmt_scan_run. cbv zeta.
    destruct (existsb _ (pg_class_relnames ext (get_namespace_oid ext schemaString)));
      cbn [orb map].
    + reflexivity.
    + rewrite IH. rewrite log_with_log, <- app_assoc.
      destruct (existsb (schema_holds_foreign_key_table env ext) rest); reflexivity.
Qed.

(** X18. [ProcessDropSchemaStmt] never raises and sends nothing. Without
    CASCADE, and for schemas that do not exist, it does nothing. With
    CASCADE it scans the schemas that exist in turn, opening [pg_class]
    with an [AccessShareLock] for each, and stops at the first one that
    holds a distributed table that takes part in a foreign key: it marks
    the foreign key graph for invalidation exactly when there is such a
    schema. The locks and the mark are its only effects. *)
Theorem ProcessDropSchemaStmt_marks_graph :
  forall env ext dropStatement s,
    ProcessDropSchemaStmt env ext dropStatement s
    = (Ok tt,
       with_log
         (if is_DROP_CASCADE dropStatement.(behavior) &&
             existsb (schema_holds_foreign_key_table env ext) dropStatement.(ds_objects)
          then with_invalidate_flag s true
          else s)
         (log s ++ drop_schema_events env ext dropStatement)).
Proof.
  intros env ext [objects dropBehavior] s.
  unfold ProcessDropSchemaStmt, drop_schema_events. cbn [behavior ds_objects].
  destruct (is_DROP_CASCADE dropBehavior); cbn [negb andb].
  - apply ProcessDropSchemaStmt_foreach_run.
  - unfold ret. now rewrite app_nil_r, with_log_same.
Qed.


(** ** GRANT and REVOKE *)

Lemma PlanGrantStmt_grantees_join :
  forall env ext granteeList first granteesString,
    PlanGrantStmt_grantees env ext granteeList false (granteesString ++ first)
    = (granteesString
       ++ String.concat ", " (first :: map (RoleSpecString env ext) granteeList))%string.
Proof.
  intros env ext granteeList.
  induction granteeList as [|spec rest IH]; intros first granteesString.
  - reflexivity.
  - cbn [PlanGrantStmt_grantees negb map]. rewrite IH.
    change (String.concat ", " (first :: RoleSpecString env ext spec
                                       :: map (RoleSpecString env ext) rest))
      with (first ++ ", " ++
            String.concat ", " (RoleSpecString env ext spec
                                :: map (RoleSpecString env ext) rest))%string.
    now rewrite !string_app_assoc.
Qed.

Lemma PlanGrantStmt_grantees_text :
  forall env ext grantStmt,
    PlanGrantStmt_grantees env ext grantStmt.(grantees) true EmptyString
    = grantees_text env ext grantStmt.
Proof.
  intros env ext grantStmt. unfold grantees_text.
  destruct (grantees grantStmt) as [|spec rest]; [reflexivity|].
  cbn [PlanGrantStmt_grantees negb map].
  exact (PlanGrantStmt_grantees_join env ext rest (RoleSpecString env ext spec)
           EmptyString).
Qed.

Lemma PlanGrantStmt_privileges_join :
  forall privilegeList first privsString s,
    PlanGrantStmt_privileges privilegeList false (privsString ++ first) s
    = (if existsb on_columns privilegeList
       then Error column_list_grant_error
       else Ok (privsString
                ++ String.concat ", " (first :: map priv_name privilegeList))%string,
       s).
Proof.
  induction privilegeList as [|priv rest IH]; intros first privsString s.
  - reflexivity.
  - cbn [PlanGrantStmt_privileges negb map existsb]. unfold on_columns at 1.
    destruct (cols priv); cbn [orb]; [|reflexivity].
    rewrite IH.
    change (String.concat ", " (first :: priv_name priv :: map priv_name rest))
      with (first ++ ", " ++ String.concat ", " (priv_name priv :: map priv_name rest))%string.
    now rewrite !string_app_assoc.
Qed.

Lemma PlanGrantStmt_privileges_text :
  forall grantStmt s,
    match grantStmt.(privileges) with
    | [] => ret "ALL"
    | privilegeList => PlanGrantStmt_privileges privilegeList true EmptyString
    end s
    = (if existsb on_columns grantStmt.(privileges)
       then Error column_list_grant_error
       else Ok (privileges_text grantStmt), s).
Proof.
  intros grantStmt s. unfold privileges_text.
  destruct (privileges grantStmt) as [|priv rest]; [reflexivity|].
  cbn [PlanGrantStmt_privileges negb map existsb]. unfold on_columns at 1.
  destruct (cols priv); cbn [orb]; [|reflexivity].
  exact (PlanGrantStmt_privileges_join rest (priv_name priv) EmptyString s).
Qed.

Lemma CollectGrantTableIdList_tables_run :
  forall env relvars grantTableList s,
    forallb (fun relvar => OidIsValid (relid_of env relvar)) relvars = true ->
    CollectGrantTableIdList_tables env (map GrantRelation relvars) grantTableList s
    = (Ok (grantTableList ++ distributed_tables env relvars), s).
Proof.
  intros env relvars. unfold distributed_tables.
  induction relvars as [|relvar rest IH]; intros grantTableList s Hexist.
  - cbn. unfold ret. now rewrite app_nil_r.
  - cbn in Hexist. apply andb_prop in Hexist as [Hvalid Hrest].
    cbn [map CollectGrantTableIdList_tables as_relvar filter].
    unfold bind. unfold ret at 1.
    rewrite (RangeVarGetRelid_exists _ _ _ _ Hvalid).
    destruct (IsDistributedTable env (relid_of env relvar)).
    + rewrite IH by exact Hrest. now rewrite <- app_assoc.
    + now apply IH.
Qed.

(** X19. GRANT or REVOKE on tables that all exist. When none of the tables
    is distributed, [PlanGrantStmt] plans nothing and raises nothing, also
    for a grant on a column list. When some table is distributed and a
    privilege comes with a column list, it raises the unsupported-command
    error; nothing was locked or looked up on the shards before. *)
Theorem PlanGrantStmt_column_list :
  forall env ext grantStmt relvars s,
    grantStmt.(targtype) = ACL_TARGET_OBJECT ->
    grantStmt.(objtype) = RELATION_OBJECT_TYPE ->
    grantStmt.(gr_objects) = map GrantRelation relvars ->
    forallb (fun relvar => OidIsValid (relid_of env relvar)) relvars = true ->
    (distributed_tables env relvars = [] ->
     PlanGrantStmt env ext grantStmt s = (Ok [], s))
    /\ (distributed_tables env relvars <> [] ->
        existsb on_columns grantStmt.(privileges) = true ->
        PlanGrantStmt env ext grantStmt s = (Error column_list_grant_error, s)).
Proof.
  intros env ext grantStmt relvars s Htarget Hobject Hobjects Hexist.
  assert (Hrun :
    PlanGrantStmt env ext grantStmt s
    = match distributed_tables env relvars with
      | [] => (Ok [], s)
      | tableIdList =>
          (privsString <-
             match grantStmt.(privileges) with
             | [] => ret "ALL"
             | privilegeList => PlanGrantStmt_privileges privilegeList true EmptyString
             end ;;
           PlanGrantStmt_targets env ext grantStmt privsString
             (PlanGrantStmt_grantees env ext grantStmt.(grantees) true EmptyString)
             tableIdList EmptyString) s
      end).
  { unfold PlanGrantStmt, CollectGrantTableIdList.
    rewrite Htarget, Hobject, Hobjects. cbn [is_RELATION_OBJECT_TYPE
      is_ACL_TARGET_OBJECT is_ACL_TARGET_ALL_IN_SCHEMA negb andb].
    unfold bind at 1.
    rewrite (CollectGrantTableIdList_tables_run _ _ _ _ Hexist). cbn [app].
    destruct (distributed_tables env relvars); reflexivity. }
  split.
  - intros Hnone. rewrite Hrun, Hnone. reflexivity.
  - intros Hsome Hcolumns. rewrite Hrun.
    destruct (distributed_tables env relvars) as [|relationId rest];
      [now contradiction Hsome|].
    unfold bind. rewrite PlanGrantStmt_privileges_text. now rewrite Hcolumns.
Qed.

Lemma PlanGrantStmt_column_list_witness :
  PlanGrantStmt (sample_env false false) sample_externals
    (grant_on_tables true [ {| priv_name := "select"; cols := ["body"] |} ] ["notes"]
       [ {| roletype := ROLESPEC_PUBLIC; rolename := EmptyString |} ] false)
    fresh_session
  = (Ok [], fresh_session)
  /\ PlanGrantStmt (sample_env false false) sample_externals
       (grant_on_tables true [ {| priv_name := "select"; cols := ["id"] |} ]
          ["notes"; "orders"]
          [ {| roletype := ROLESPEC_PUBLIC; rolename := EmptyString |} ] false)
       fresh_session
     = (Error column_list_grant_error, fresh_session).
Proof.
  split.
  - refine (proj1 (PlanGrantStmt_column_list (sample_env false false) sample_externals
                     (grant_on_tables true [ {| priv_name := "select"; cols := ["body"] |} ]
                        ["notes"]
                        [ {| roletype := ROLESPEC_PUBLIC; rolename := EmptyString |} ]
                        false)
                     [rv "notes"] fresh_session eq_refl eq_refl eq_refl eq_refl) eq_refl).
  - refine (proj2 (PlanGrantStmt_column_list (sample_env false false) sample_externals
                     (grant_on_tables true [ {| priv_name := "select"; cols := ["id"] |} ]
                        ["notes"; "orders"]
                        [ {| roletype := ROLESPEC_PUBLIC; rolename := EmptyString |} ]
                        false)
                     [rv "notes"; rv "orders"] fresh_session
                     eq_refl eq_refl eq_refl eq_refl) _ eq_refl).
    discriminate.
Defined.

Lemma PlanGrantStmt_targets_run :
  forall env ext grantStmt tableIdList s,
    exists jobs,
      PlanGrantStmt_targets env ext grantStmt (privileges_text grantStmt)
        (grantees_text env ext grantStmt) tableIdList EmptyString s
      = (Ok jobs,
         with_log s
           (log s ++ flat_map
                       (fun relationId =>
                          task_list_effects (LoadShardIntervalList env relationId)
                            (List.length (LoadShardIntervalList env relationId)))
                       tableIdList))
      /\ Forall2 (is_grant_job env ext grantStmt) tableIdList jobs.
Proof.
  intros env ext grantStmt tableIdList.
  induction tableIdList as [|relationId rest IH]; intros s.
  - exists []. cbn. unfold ret. rewrite app_nil_r, with_log_same.
    split; [reflexivity|constructor].
  - cbn [PlanGrantStmt_targets flat_map].
    assert (Hcommand :
      (if is_grant grantStmt
       then (EmptyString ++ "GRANT " ++ privileges_text grantStmt ++ " ON " ++
             generate_relation_name ext relationId ++ " TO " ++
             grantees_text env ext grantStmt ++
             (if grant_option grantStmt then " WITH GRANT OPTION" else ""))%string
       else (EmptyString ++ "REVOKE " ++
             (if grant_option grantStmt then "GRANT OPTION FOR " else "") ++
             privileges_text grantStmt ++ " ON " ++
             generate_relation_name ext relationId ++ " FROM " ++
             grantees_text env ext grantStmt)%string)
      = grant_command env ext grantStmt relationId).
    { unfold grant_command. destruct (is_grant grantStmt); reflexivity. }
    rewrite Hcommand.
    destruct (DDLTaskList_run env relationId (grant_command env ext grantStmt relationId) s)
      as (tasks & Hrun & Hlen & Hnth).
    unfold bind at 1. rewrite Hrun.
    match goal with
    | |- context [with_log s ?l] =>
        destruct (IH (with_log s l)) as (jobs & Hrest & Hjobs)
    end.
    unfold bind. rewrite Hrest. unfold ret.
    eexists. split.
    + rewrite with_log_with_log, log_with_log, <- app_assoc. reflexivity.
    + constructor; [|exact Hjobs].
      unfold is_grant_job. cbn. repeat split; auto.
Qed.

(** X20. GRANT or REVOKE on tables that all exist, without column lists:
    [PlanGrantStmt] raises nothing and plans one job per distributed table
    of the statement, in the order of the statement, and none for the other
    tables. The command of each job names that one table only: GRANT
    privileges ON table TO grantees, with WITH GRANT OPTION at the end if
    given, or REVOKE privileges ON table FROM grantees, with GRANT OPTION
    FOR before the privileges if given; the privileges are ALL when the
    statement lists none, and lists are joined with a comma and a space.
    Each job has one task per shard of its table for that command. *)
Theorem PlanGrantStmt_one_job_per_table :
  forall env ext grantStmt relvars s,
    grantStmt.(targtype) = ACL_TARGET_OBJECT ->
    grantStmt.(objtype) = RELATION_OBJECT_TYPE ->
    grantStmt.(gr_objects) = map GrantRelation relvars ->
    forallb (fun relvar => OidIsValid (relid_of env relvar)) relvars = true ->
    existsb on_columns grantStmt.(privileges) = false ->
    exists jobs,
      PlanGrantStmt env ext grantStmt s
      = (Ok jobs,
         with_log s
           (log s ++ flat_map
                       (fun relationId =>
                          task_list_effects (LoadShardIntervalList env relationId)
                            (List.length (LoadShardIntervalList env relationId)))
                       (distributed_tables env relvars)))
      /\ Forall2 (is_grant_job env ext grantStmt) (distributed_tables env relvars) jobs.
Proof.
  intros env ext grantStmt relvars s Htarget Hobject Hobjects Hexist Hcolumns.
  unfold PlanGrantStmt, CollectGrantTableIdList.
  rewrite Htarget, Hobject, Hobjects. cbn [is_RELATION_OBJECT_TYPE
    is_ACL_TARGET_OBJECT is_ACL_TARGET_ALL_IN_SCHEMA negb andb].
  unfold bind at 1.
  rewrite (CollectGrantTableIdList_tables_run _ _ _ _ Hexist). cbn [app].
  destruct (distributed_tables env relvars) as [|relationId rest] eqn:Htables.
  - exists []. cbn. unfold ret. rewrite app_nil_r, with_log_same.
    split; [reflexivity|constructor].
  - unfold bind at 1. rewrite PlanGrantStmt_privileges_text, Hcolumns.
    rewrite PlanGrantStmt_grantees_text.
    apply PlanGrantStmt_targets_run.
Qed.

Lemma PlanGrantStmt_one_job_per_table_witness :
  exists jobs,
    run (PlanGrantStmt (sample_env false false) sample_externals
           (grant_on_tables false
              [ {| priv_name := "select"; cols := [] |};
                {| priv_name := "update"; cols := [] |} ]
              ["notes"; "orders"; "events"]
              [ {| roletype := ROLESPEC_CSTRING; rolename := "bob" |};
                {| roletype := ROLESPEC_CURRENT_USER; rolename := EmptyString |} ]
              true))
      fresh_session
    = Ok jobs
    /\ map commandString jobs
       = [ "REVOKE GRANT OPTION FOR select, update ON orders FROM bob, alice";
           "REVOKE GRANT OPTION FOR select, update ON events FROM bob, alice" ].
Proof.
  destruct (PlanGrantStmt_one_job_per_table (sample_env false false) sample_externals
              (grant_on_tables false
                 [ {| priv_name := "select"; cols := [] |};
                   {| priv_name := "update"; cols := [] |} ]
                 ["notes"; "orders"; "events"]
                 [ {| roletype := ROLESPEC_CSTRING; rolename := "bob" |};
                   {| roletype := ROLESPEC_CURRENT_USER; rolename := EmptyString |} ]
                 true)
              [rv "notes"; rv "orders"; rv "events"] fresh_session
              eq_refl eq_refl eq_refl eq_refl eq_refl) as (jobs & Hrun & Hjobs).
  exists jobs. split.
  - unfold run. now rewrite Hrun.
  - change (distributed_tables (sample_env false false)
              [rv "notes"; rv "orders"; rv "events"]) with [orders; events] in Hjobs.
    inversion Hjobs as [|? job1 ? jobs1 Hjob1 Hrest]; subst.
    inversion Hrest as [|? job2 ? jobs2 Hjob2 Hnil]; subst.
    inversion Hnil; subst.
    destruct Hjob1 as (_ & Hcommand1 & _). destruct Hjob2 as (_ & Hcommand2 & _).
    cbn [map]. rewrite Hcommand1, Hcommand2. reflexivity.
Defined.

Lemma CollectGrantTableIdList_namespaces_run :
  forall ext schemaNames namespaceOidList s,
    forallb (fun nspname => OidIsValid (get_namespace_oid ext nspname)) schemaNames
    = true ->
    exists collected,
      CollectGrantTableIdList_namespaces ext (map GrantSchema schemaNames)
        namespaceOidList s
      = (Ok collected, s)
      /\ forall namespaceOid,
           In namespaceOid collected
           <-> In namespaceOid namespaceOidList
               \/ In namespaceOid (map (get_namespace_oid ext) schemaNames).
Proof.
  intros ext schemaNames.
  induction schemaNames as [|nspname rest IH]; intros namespaceOidList s Hexist.
  - exists namespaceOidList. split; [reflexivity|]. cbn. intros; tauto.
  - cbn in Hexist. apply andb_prop in Hexist as [Hvalid Hrest].
    cbn [map CollectGrantTableIdList_namespaces as_nspname].
    unfold bind, get_namespace_oid_or_error. unfold ret at 1.
    rewrite Hvalid. unfold ret at 1.
    destruct (IH (list_append_unique_oid namespaceOidList (get_namespace_oid ext nspname))
                s Hrest) as (collected & Hrun & Hin).
    exists collected. split; [exact Hrun|].
    intros namespaceOid. rewrite Hin, list_append_unique_oid_In. cbn.
    intuition auto.
Qed.

Lemma CollectGrantTableIdList_distributed_run :
  forall env distTableOidList namespaceOidList grantTableList,
    CollectGrantTableIdList_distributed env distTableOidList namespaceOidList
      grantTableList
    = grantTableList
      ++ filter (fun relationId =>
                   list_member_oid namespaceOidList (get_rel_namespace env relationId))
           distTableOidList.
Proof.
  intros env distTableOidList namespaceOidList.
  induction distTableOidList as [|relationId rest IH]; intros grantTableList.
  - cbn. now rewrite app_nil_r.
  - cbn [CollectGrantTableIdList_distributed filter].
    destruct (list_member_oid namespaceOidList (get_rel_namespace env relationId)).
    + rewrite IH. now rewrite <- app_assoc.
    + apply IH.
Qed.

(** X21. GRANT or REVOKE on all tables of schemas that all exist:
    [CollectGrantTableIdList] returns exactly the distributed tables that
    lie in one of the named schemas, each once and in the order of the list
    of distributed tables, whatever the order of the schema names and
    however often a schema is named. The session is not changed. *)
Theorem CollectGrantTableIdList_all_in_schema :
  forall env ext grantStmt schemaNames s,
    grantStmt.(targtype) = ACL_TARGET_ALL_IN_SCHEMA ->
    grantStmt.(objtype) = RELATION_OBJECT_TYPE ->
    grantStmt.(gr_objects) = map GrantSchema schemaNames ->
    forallb (fun nspname => OidIsValid (get_namespace_oid ext nspname)) schemaNames
    = true ->
    CollectGrantTableIdList env ext grantStmt s
    = (Ok (distributed_tables_in_schemas env ext schemaNames), s).
Proof.
  intros env ext grantStmt schemaNames s Htarget Hobject Hobjects Hexist.
  unfold CollectGrantTableIdList.
  rewrite Htarget, Hobject, Hobjects. cbn [is_RELATION_OBJECT_TYPE
    is_ACL_TARGET_OBJECT is_ACL_TARGET_ALL_IN_SCHEMA negb andb].
  destruct (CollectGrantTableIdList_namespaces_run ext schemaNames [] s Hexist)
    as (collected & Hrun & Hin).
  unfold bind. rewrite Hrun. unfold ret.
  rewrite CollectGrantTableIdList_distributed_run. cbn [app].
  unfold distributed_tables_in_schemas. f_equal. f_equal.
  apply filter_ext. intros relationId.
  apply eq_true_iff_eq. rewrite list_member_oid_In, Hin, existsb_exists.
  rewrite in_map_iff. split.
  - intros [[]|(nspname & Heq & Hnsp)]. exists nspname. split; [exact Hnsp|].
    now apply Z.eqb_eq.
  - intros (nspname & Hnsp & Heq). right. exists nspname.
    split; [now apply Z.eqb_eq|exact Hnsp].
Qed.

Lemma CollectGrantTableIdList_all_in_schema_witness :
  CollectGrantTableIdList (sample_env false false) sample_externals
    {| is_grant := true; targtype := ACL_TARGET_ALL_IN_SCHEMA;
       objtype := RELATION_OBJECT_TYPE;
       gr_objects := [GrantSchema "public"; GrantSchema "public"];
       privileges := []; grantees := []; grant_option := false |}
    fresh_session
  = (Ok [orders; warehouses; events; archive; regions], fresh_session).
Proof.
  exact (CollectGrantTableIdList_all_in_schema (sample_env false false) sample_externals
           {| is_grant := true; targtype := ACL_TARGET_ALL_IN_SCHEMA;
              objtype := RELATION_OBJECT_TYPE;
              gr_objects := [GrantSchema "public"; GrantSchema "public"];
              privileges := []; grantees := []; grant_option := false |}
           ["public"; "public"] fresh_session eq_refl eq_refl eq_refl eq_refl).
Defined.


(** ** Pairs of shards, execution of a job, and the search path *)

Lemma InterShardDDLTaskList_forboth_run :
  forall env leftRelationId rightRelationId commandString leftShards rightShards
         taskId0 s,
    exists tasks,
      InterShardDDLTaskList_forboth env leftRelationId rightRelationId
        leftShards rightShards taskId0
        (quote_literal_cstr env
           (get_namespace_name env (get_rel_namespace env leftRelationId)))
        (quote_literal_cstr env
           (get_namespace_name env (get_rel_namespace env rightRelationId)))
        (quote_literal_cstr env commandString) s
      = (Ok tasks,
         with_log s
           (log s ++ map (fun si => EvFinalizedShardPlacementList si.(shardId))
                       (firstn (List.length rightShards) leftShards)))
      /\ List.length tasks = Nat.min (List.length leftShards) (List.length rightShards)
      /\ forall i leftShard rightShard,
           nth_error leftShards i = Some leftShard ->
           nth_error rightShards i = Some rightShard ->
           nth_error tasks i
           = Some (inter_shard_ddl_task env leftRelationId rightRelationId
                     commandString (taskId0 + Z.of_nat i) leftShard rightShard).
Proof.
  intros env leftRelationId rightRelationId commandString leftShards.
  induction leftShards as [|ls rest IH]; intros rightShards taskId0 s.
  - exists []. cbn [InterShardDDLTaskList_forboth]. unfold ret.
    rewrite firstn_nil. cbn. rewrite app_nil_r, with_log_same.
    split; [reflexivity|]. split; [reflexivity|].
    intros [|i] x y H; discriminate H.
  - destruct rightShards as [|rs rights].
    + exists []. cbn. unfold ret. rewrite app_nil_r, with_log_same.
      split; [reflexivity|]. split; [reflexivity|].
      intros [|i] x y _ H; discriminate H.
    + destruct (IH rights (taskId0 + 1)
                  (with_log s (log s ++ [EvFinalizedShardPlacementList (shardId ls)])))
        as (tasks & Hrun & Hl & Hnth).
      eexists. split.
      * cbn [InterShardDDLTaskList_forboth].
        unfold FinalizedShardPlacementList, bind at 1 2.
        rewrite emit_run. unfold ret at 1. unfold bind at 1.
        rewrite Hrun. unfold ret. rewrite with_log_with_log, log_with_log.
        cbn [List.length firstn map]. rewrite <- app_assoc. reflexivity.
      * split; [simpl; now rewrite Hl|].
        intros [|i] x y Hx Hy.
        -- simpl in Hx, Hy. injection Hx as <-. injection Hy as <-.
           simpl. unfold inter_shard_ddl_task. now rewrite Z.add_0_r.
        -- simpl in Hx, Hy. simpl. rewrite (Hnth i x y Hx Hy).
           f_equal. f_equal. lia.
Qed.

(** X22. For a right relation that is not a reference table,
    [InterShardDDLTaskList] never raises and pairs the shards of the two
    relations by position: task i, with task id i, is the inter-shard
    command for the i-th left shard and the i-th right shard. There are as
    many tasks as the shorter of the two shard lists has shards; shards
    beyond that get no task, although the metadata lock is taken on all the
    shards of the left relation. *)
Theorem InterShardDDLTaskList_pairs_by_position :
  forall env leftRelationId rightRelationId commandString s,
    PartitionMethodKind_eqb (PartitionMethod env rightRelationId) DISTRIBUTE_BY_NONE
    = false ->
    let leftShards := LoadShardIntervalList env leftRelationId in
    let rightShards := LoadShardIntervalList env rightRelationId in
    exists tasks,
      InterShardDDLTaskList env leftRelationId rightRelationId commandString s
      = (Ok tasks,
         with_log s
           (log s ++ task_list_effects leftShards (List.length rightShards)))
      /\ List.length tasks = Nat.min (List.length leftShards) (List.length rightShards)
      /\ forall i leftShard rightShard,
           nth_error leftShards i = Some leftShard ->
           nth_error rightShards i = Some rightShard ->
           nth_error tasks i
           = Some (inter_shard_ddl_task env leftRelationId rightRelationId
                     commandString (1 + Z.of_nat i) leftShard rightShard).
Proof.
  intros env leftRelationId rightRelationId commandString s Hmethod leftShards
    rightShards.
  destruct (InterShardDDLTaskList_forboth_run env leftRelationId rightRelationId
              commandString leftShards rightShards 1
              (with_log s
                 (log s ++ [EvLockShardListMetadata (map shardId leftShards) ShareLock])))
    as (tasks & Hrun & Hlen & Hnth).
  exists tasks. split; [|split; [exact Hlen|exact Hnth]].
  unfold InterShardDDLTaskList. rewrite Hmethod.
  fold leftShards rightShards. unfold bind at 1. unfold ret at 1.
  unfold LockShardListMetadata. unfold bind. rewrite emit_run.
  rewrite Hrun. rewrite with_log_with_log, log_with_log.
  unfold task_list_effects. rewrite <- app_assoc. reflexivity.
Qed.

Lemma InterShardDDLTaskList_pairs_by_position_witness :
  exists tasks,
    run (InterShardDDLTaskList (sample_env false false) orders archive
           "ALTER TABLE orders ADD CONSTRAINT orders_archive_fk FOREIGN KEY (id) REFERENCES archive (id)")
      fresh_session
    = Ok tasks
    /\ List.length tasks = 2%nat.
Proof.
  destruct (InterShardDDLTaskList_pairs_by_position (sample_env false false) orders
              archive
              "ALTER TABLE orders ADD CONSTRAINT orders_archive_fk FOREIGN KEY (id) REFERENCES archive (id)"
              fresh_session eq_refl) as (tasks & Hrun & Hlen & _).
  exists tasks. split; [|exact Hlen].
  unfold run. now rewrite Hrun.
Defined.



Lemma CurrentSearchPath_foreach_join :
  forall env schemaNames first currentSearchPath,
    CurrentSearchPath_foreach env schemaNames (currentSearchPath ++ first) true
    = (currentSearchPath
       ++ String.concat ","
            (first :: flat_map (fun schemaName =>
                                  match schemaName with
                                  | Some name => [quote_identifier env name]
                                  | None => []
                                  end) schemaNames))%string.
Proof.
  intros env schemaNames.
  induction schemaNames as [|[name|] rest IH]; intros first currentSearchPath.
  - reflexivity.
  - cbn [CurrentSearchPath_foreach flat_map app]. rewrite IH.
    match goal with
    | |- context [String.concat "," (first :: ?x :: ?l)] =>
        change (String.concat "," (first :: x :: l))
          with (first ++ "," ++ String.concat "," (x :: l))%string
    end.
    now rewrite !string_app_assoc.
  - cbn [CurrentSearchPath_foreach flat_map app]. apply IH.
Qed.

(** X24. [CurrentSearchPath] is the comma-separated list of the quoted
    names of the schemas of the search path, in search-path order, with the
    schemas that were dropped left out: there is no comma at either end and
    none is doubled. It is no path at all when that text is empty, and
    [SetSearchPathToCurrentSearchPathCommand] is then no command. *)
Theorem CurrentSearchPath_joins :
  forall env,
    let text := String.concat "," (live_schema_names env) in
    CurrentSearchPath env
    = (if (0 <? String.length text)%nat then Some text else None)
    /\ SetSearchPathToCurrentSearchPathCommand env
       = (if (0 <? String.length text)%nat
          then Some ("SET search_path TO " ++ text ++ ";")%string
          else None).
Proof.
  intros env text.
  assert (Hloop : CurrentSearchPath_foreach env (search_path_schema_names env)
                    EmptyString false = text).
  { unfold text, live_schema_names.
    induction (search_path_schema_names env) as [|[name|] rest IH].
    - reflexivity.
    - cbn [CurrentSearchPath_foreach flat_map app].
      exact (CurrentSearchPath_foreach_join env rest (quote_identifier env name)
               EmptyString).
    - exact IH. }
  assert (Hpath : CurrentSearchPath env
                  = if (0 <? String.length text)%nat then Some text else None).
  { unfold CurrentSearchPath. now rewrite Hloop. }
  split; [exact Hpath|].
  unfold SetSearchPathToCurrentSearchPathCommand. rewrite Hpath.
  destruct (0 <? String.length text)%nat; reflexivity.
Qed.

(** ** ALTER INDEX *)

Lemma ErrorIfUnsupportedAlterIndexStmt_run :
  forall alterTableStatement s,
    ErrorIfUnsupportedAlterIndexStmt alterTableStatement s
    = (if forallb (fun command => is_storage_option command.(subtype))
            alterTableStatement.(cmds)
       then Ok tt else Error alter_index_error, s).
Proof.
  intros stmt s. unfold ErrorIfUnsupportedAlterIndexStmt.
  induction (cmds stmt) as [|command rest IH]; [reflexivity|].
  cbn [ErrorIfUnsupportedAlterIndexStmt_foreach forallb].
  destruct (subtype command); cbn [is_storage_option andb];
    first [exact IH | reflexivity].
Qed.

Lemma PlanAlterTableStmt_foreach_storage_options :
  forall env alterTableStatement leftRelationId commands rightRelationId
         executeSequentially s,
    forallb (fun command => is_storage_option command.(subtype)) commands = true ->
    PlanAlterTableStmt_foreach env alterTableStatement leftRelationId commands
      rightRelationId executeSequentially s
    = (Ok (Some (rightRelationId, executeSequentially)), s).
Proof.
  intros env stmt leftRelationId commands rightRelationId.
  induction commands as [|command rest IH]; intros executeSequentially s Hoptions;
    [reflexivity|].
  cbn in Hoptions. apply andb_prop in Hoptions as [Hcommand Hrest].
  cbn [PlanAlterTableStmt_foreach]. unfold SetupExecutionModeForAlterTable.
  destruct (subtype command); try discriminate Hcommand;
    unfold bind, ret, get_session; cbn [andb];
    rewrite (IH _ _ Hrest); now rewrite orb_false_r.
Qed.

(** X25. ALTER INDEX on an existing index of a distributed table:
    [PlanAlterTableStmt] locks the index, in the lock mode of the
    statement, as it resolves it, and plans for the table the index is
    defined on. If every sub-command sets, resets or replaces storage
    parameters, it plans exactly one job on that table, not forced to run
    sequentially, with one task per shard of the table for the command as
    given; after the lock on the index the session only shows the shard
    metadata lock and the placement lookups. If there is any other
    sub-command, it raises the unsupported-command error of ALTER INDEX,
    and the lock on the index is all that happened. *)
Theorem PlanAlterTableStmt_index :
  forall env alterTableStatement alterTableCommand s,
    targets_existing_relation env alterTableStatement = true ->
    is_RELKIND_INDEX (get_rel_relkind env (target_relid env alterTableStatement)) = true ->
    IsDistributedTable env (IndexGetRelation env (target_relid env alterTableStatement))
    = true ->
    let table := IndexGetRelation env (target_relid env alterTableStatement) in
    let shards := LoadShardIntervalList env table in
    let locked := with_alter_table_lock env alterTableStatement s in
    if forallb (fun command => is_storage_option command.(subtype))
         alterTableStatement.(cmds)
    then
      exists tasks,
        PlanAlterTableStmt env alterTableStatement alterTableCommand s
        = (Ok [shard_ddl_job table alterTableCommand tasks],
           with_log locked
             (log locked ++ task_list_effects shards (List.length shards)))
        /\ List.length tasks = List.length shards
        /\ forall i shardInterval,
             nth_error shards i = Some shardInterval ->
             nth_error tasks i
             = Some (shard_ddl_task env table alterTableCommand (1 + Z.of_nat i)
                       shardInterval)
    else
      PlanAlterTableStmt env alterTableStatement alterTableCommand s
      = (Error alter_index_error, locked).
Proof.
  intros env stmt command s Hexists Hindex Hdist table shards locked.
  assert (Hplan :
    PlanAlterTableStmt env stmt command s
    = (ErrorIfUnsupportedAlterIndexStmt stmt ;;;
       planned <- PlanAlterTableStmt_foreach env stmt table (cmds stmt) InvalidOid false ;;
       match planned with
       | None => ret []
       | Some (rightRelationId, executeSequentially) =>
           tasks <-
             (if OidIsValid rightRelationId
              then
                if negb (IsDistributedTable env rightRelationId) then ret []
                else InterShardDDLTaskList env table rightRelationId command
              else DDLTaskList env table command) ;;
           ret [ {| targetRelationId := table;
                    concurrentIndexCmd := false;
                    executeSequentially := executeSequentially;
                    commandString := command;
                    taskList := tasks |} ]
       end) locked).
  { unfold PlanAlterTableStmt. cbv zeta.
    pose proof (AlterTableLookupRelation_alter_table_lock _ _ s Hexists) as Hlookup.
    pose proof Hexists as Hvalid. unfold targets_existing_relation in Hvalid.
    destruct (relation stmt) as [rangeVar|] eqn:Hrelation.
    2: { unfold target_relid in Hvalid. rewrite Hrelation in Hvalid.
         discriminate Hvalid. }
    unfold bind at 1. rewrite Hlookup. rewrite Hvalid. cbn [negb]. cbv zeta.
    rewrite Hindex. rewrite Hdist. cbn [negb]. reflexivity. }
  destruct (forallb (fun c => is_storage_option (subtype c)) (cmds stmt)) eqn:Hoptions.
  2: { rewrite Hplan. unfold bind at 1. rewrite ErrorIfUnsupportedAlterIndexStmt_run.
       now rewrite Hoptions. }
  destruct (DDLTaskList_run env table command locked) as (tasks & Hrun & Hlen & Hnth).
  exists tasks. split; [|split; [exact Hlen|exact Hnth]].
  rewrite Hplan. unfold bind at 1. rewrite ErrorIfUnsupportedAlterIndexStmt_run.
  rewrite Hoptions. unfold bind at 1.
  rewrite (PlanAlterTableStmt_foreach_storage_options _ _ _ _ _ _ _ Hoptions).
  cbn [OidIsValid InvalidOid Z.eqb negb]. unfold bind. rewrite Hrun. reflexivity.
Qed.

Lemma PlanAlterTableStmt_index_witness :
  (exists tasks,
      PlanAlterTableStmt sample_catalog
        (alter_index "orders_pkey" [column_command AT_SetRelOptions EmptyString])
        "ALTER INDEX orders_pkey SET (fillfactor = 80)" fresh_session
      = (Ok [shard_ddl_job orders "ALTER INDEX orders_pkey SET (fillfactor = 80)" tasks],
         with_log fresh_session
           (EvLockRelationOid orders_pkey AccessExclusiveLock
            :: task_list_effects (sample_shards orders) 4)))
  /\ PlanAlterTableStmt sample_catalog
       (alter_index "orders_pkey" [column_command AT_SetTableSpace EmptyString])
       "ALTER INDEX orders_pkey SET TABLESPACE fast" fresh_session
     = (Error alter_index_error,
        with_log fresh_session [EvLockRelationOid orders_pkey AccessExclusiveLock]).
Proof.
  split.
  - destruct (PlanAlterTableStmt_index sample_catalog
                (alter_index "orders_pkey" [column_command AT_SetRelOptions EmptyString])
                "ALTER INDEX orders_pkey SET (fillfactor = 80)" fresh_session
                eq_refl eq_refl eq_refl) as (tasks & Hrun & _).
    exists tasks. exact Hrun.
  - exact (PlanAlterTableStmt_index sample_catalog
             (alter_index "orders_pkey" [column_command AT_SetTableSpace EmptyString])
             "ALTER INDEX orders_pkey SET TABLESPACE fast" fresh_session
             eq_refl eq_refl eq_refl).
Defined.

(** ** What validation and planning do to the session *)

Section Respects.

Variable R : Session -> Session -> Prop.
Hypothesis R_refl : forall s, R s s.
Hypothesis R_trans : forall s1 s2 s3, R s1 s2 -> R s2 s3 -> R s1 s3.

Lemma respects_ret : forall (A : Type) (a : A), respects R (ret a).
Proof. intros A a s. apply R_refl. Qed.

Lemma respects_ereport_ERROR :
  forall (A : Type) (e : ErrorData), respects R (@ereport_ERROR A e).
Proof. intros A e s. apply R_refl. Qed.

Lemma respects_get_session : respects R get_session.
Proof. intros s. apply R_refl. Qed.

Lemma respects_bind :
  forall (A B : Type) (m : M A) (k : A -> M B),
    respects R m ->
    (forall a, respects R (k a)) ->
    respects R (bind m k).
Proof.
  intros A B m k Hm Hk s. unfold bind.
  specialize (Hm s). destruct (m s) as [[a|e] s1]; cbn in *.
  - eapply R_trans; [exact Hm|apply Hk].
  - exact Hm.
Qed.

End Respects.

Ltac respects_step refl trans :=
  first
    [ apply (respects_ret _ refl)
    | apply (respects_ereport_ERROR _ refl)
    | apply (respects_get_session _ refl)
    | assumption
    | apply (respects_bind _ trans); [|intros ?]
    | match goal with
      | |- respects _ (match ?x with _ => _ end) => destruct x
      | |- respects _ (if ?x then _ else _) => destruct x
      | |- respects _ (let _ := _ in _) => cbv zeta
      end ].

Ltac respects_with refl trans tac := repeat first [tac | respects_step refl trans].

Lemma marks_graph_at_most_refl : forall s, marks_graph_at_most s s.
Proof. intros s. now left. Qed.

Lemma marks_graph_at_most_trans :
  forall s1 s2 s3,
    marks_graph_at_most s1 s2 -> marks_graph_at_most s2 s3 -> marks_graph_at_most s1 s3.
Proof.
  intros s1 s2 s3 [->| ->] [->| ->]; unfold marks_graph_at_most; auto.
Qed.

Lemma marks_MarkInvalidateForeignKeyGraph :
  respects marks_graph_at_most MarkInvalidateForeignKeyGraph.
Proof. intros s. now right. Qed.

Ltac marks tac :=
  respects_with marks_graph_at_most_refl marks_graph_at_most_trans
    ltac:(first [apply marks_MarkInvalidateForeignKeyGraph | tac]).

Lemma with_relation_lock_invalidate_flag :
  forall s relationId lockmode b,
    with_relation_lock (with_invalidate_flag s b) relationId lockmode
    = with_invalidate_flag (with_relation_lock s relationId lockmode) b.
Proof. intros s relationId lockmode b. now destruct lockmode. Qed.

Lemma alter_table_locks_invalidate_flag :
  forall env alterTableStatement n s b,
    Nat.iter n (with_alter_table_lock env alterTableStatement) (with_invalidate_flag s b)
    = with_invalidate_flag
        (Nat.iter n (with_alter_table_lock env alterTableStatement) s) b.
Proof.
  intros env stmt n s b. induction n as [|n IH]; [reflexivity|].
  rewrite !Nat.iter_succ, IH. unfold with_alter_table_lock.
  apply with_relation_lock_invalidate_flag.
Qed.

Lemma alter_table_locks_and_mark_refl :
  forall env alterTableStatement s,
    alter_table_locks_and_mark env alterTableStatement s s.
Proof. intros env stmt s. exists 0%nat. now left. Qed.

Lemma alter_table_locks_and_mark_trans :
  forall env alterTableStatement s1 s2 s3,
    alter_table_locks_and_mark env alterTableStatement s1 s2 ->
    alter_table_locks_and_mark env alterTableStatement s2 s3 ->
    alter_table_locks_and_mark env alterTableStatement s1 s3.
Proof.
  intros env stmt s1 s2 s3 [n1 H1] [n2 H2]. exists (n2 + n1)%nat.
  rewrite Nat.iter_add.
  destruct H1 as [-> | ->], H2 as [-> | ->];
    rewrite ?alter_table_locks_invalidate_flag; auto.
Qed.

Lemma locks_MarkInvalidateForeignKeyGraph :
  forall env alterTableStatement,
    respects (alter_table_locks_and_mark env alterTableStatement)
      MarkInvalidateForeignKeyGraph.
Proof. intros env stmt s. exists 0%nat. now right. Qed.

(** A lookup without a lock leaves the session as it is. *)
Lemma locks_RangeVarGetRelid_NoLock :
  forall env alterTableStatement rangeVar missingOK,
    respects (alter_table_locks_and_mark env alterTableStatement)
      (RangeVarGetRelid env rangeVar NoLock missingOK).
Proof.
  intros env stmt rangeVar missingOK s. exists 0%nat. left.
  unfold RangeVarGetRelid.
  destruct (OidIsValid (relid_of env rangeVar)); [reflexivity|].
  now destruct missingOK.
Qed.

Lemma locks_AlterTableLookupRelation_NoLock :
  forall env alterTableStatement,
    respects (alter_table_locks_and_mark env alterTableStatement)
      (AlterTableLookupRelation env alterTableStatement NoLock).
Proof.
  intros env stmt. unfold AlterTableLookupRelation.
  destruct (relation stmt); [apply locks_RangeVarGetRelid_NoLock|].
  intros s. exists 0%nat. now left.
Qed.

(** The lookup of the relation of the statement, in the lock mode of the
    statement, locks that relation once if it exists. *)
Lemma locks_AlterTableLookupRelation :
  forall env alterTableStatement,
    respects (alter_table_locks_and_mark env alterTableStatement)
      (AlterTableLookupRelation env alterTableStatement
         (AlterTableGetLockLevel env alterTableStatement.(cmds))).
Proof.
  intros env stmt s. unfold AlterTableLookupRelation.
  destruct (relation stmt) as [rangeVar|] eqn:Hrelation;
    [|exists 0%nat; now left].
  unfold RangeVarGetRelid.
  destruct (OidIsValid (relid_of env rangeVar)).
  - exists 1%nat. left. unfold Nat.iter, nat_rect, with_alter_table_lock, target_relid.
    now rewrite Hrelation.
  - exists 0%nat. left. now destruct (missing_ok stmt).
Qed.

Ltac locks env stmt tac :=
  respects_with (alter_table_locks_and_mark_refl env stmt)
    (alter_table_locks_and_mark_trans env stmt)
    ltac:(first [ apply locks_MarkInvalidateForeignKeyGraph
                | apply locks_AlterTableLookupRelation
                | apply locks_AlterTableLookupRelation_NoLock
                | apply locks_RangeVarGetRelid_NoLock
                | tac ]).

Lemma locks_AlterInvolvesPartitionColumn :
  forall env alterTableStatement command,
    respects (alter_table_locks_and_mark env alterTableStatement)
      (AlterInvolvesPartitionColumn env alterTableStatement command).
Proof.
  intros env stmt command. unfold AlterInvolvesPartitionColumn. cbv zeta.
  locks env stmt fail.
Qed.

Lemma locks_ErrorIfUnsupportedAlterTableStmt :
  forall env alterTableStatement,
    respects (alter_table_locks_and_mark env alterTableStatement)
      (ErrorIfUnsupportedAlterTableStmt env alterTableStatement).
Proof.
  intros env stmt. unfold ErrorIfUnsupportedAlterTableStmt.
  induction (cmds stmt) as [|command rest IH];
    cbn [ErrorIfUnsupportedAlterTableStmt_foreach].
  - locks env stmt fail.
  - apply (respects_bind _ (alter_table_locks_and_mark_trans env stmt));
      [|intros []; [exact IH|locks env stmt fail]].
    unfold ErrorIfUnsupportedAlterTableStmt_switch, as_Constraint, as_PartitionCmd,
      unchecked_access. cbv zeta.
    locks env stmt ltac:(apply locks_AlterInvolvesPartitionColumn).
Qed.

Lemma marks_ErrorIfUnsupportedAlterIndexStmt :
  forall alterTableStatement,
    respects marks_graph_at_most (ErrorIfUnsupportedAlterIndexStmt alterTableStatement).
Proof.
  intros stmt. unfold ErrorIfUnsupportedAlterIndexStmt.
  induction (cmds stmt) as [|command rest IH];
    cbn [ErrorIfUnsupportedAlterIndexStmt_foreach]; marks fail.
Qed.

Lemma locks_ErrorIfAlterDropsPartitionColumn :
  forall env alterTableStatement,
    respects (alter_table_locks_and_mark env alterTableStatement)
      (ErrorIfAlterDropsPartitionColumn env alterTableStatement).
Proof.
  intros env stmt. unfold ErrorIfAlterDropsPartitionColumn.
  assert (Hloop : forall commandList,
             respects (alter_table_locks_and_mark env stmt)
               (ErrorIfAlterDropsPartitionColumn_foreach env stmt commandList)).
  { induction commandList as [|command rest IH];
      cbn [ErrorIfAlterDropsPartitionColumn_foreach];
      locks env stmt ltac:(apply locks_AlterInvolvesPartitionColumn). }
  cbv zeta. locks env stmt ltac:(apply Hloop).
Qed.

(** X26. The validators of ALTER TABLE have two effects at most: locks on
    the relation of the statement, each in the lock mode of the statement
    (one per lookup of that relation), and the mark that the foreign key
    graph is stale. Whatever the statement, and whether they accept it or
    raise, [ErrorIfUnsupportedAlterTableStmt] and
    [ErrorIfAlterDropsPartitionColumn] end in the session they started in
    with such locks logged, or in that session with the mark set as well;
    [ErrorIfUnsupportedAlterIndexStmt], which looks nothing up, ends in the
    session it started in. They log nothing else, lock no other relation,
    contact no worker and leave the execution mode and the commit protocol
    alone. *)
Theorem validators_mark_graph_at_most :
  forall env alterTableStatement s,
    alter_table_locks_and_mark env alterTableStatement s
      (snd (ErrorIfUnsupportedAlterTableStmt env alterTableStatement s))
    /\ snd (ErrorIfUnsupportedAlterIndexStmt alterTableStatement s) = s
    /\ alter_table_locks_and_mark env alterTableStatement s
         (snd (ErrorIfAlterDropsPartitionColumn env alterTableStatement s)).
Proof.
  intros env stmt s. split; [|split].
  - apply locks_ErrorIfUnsupportedAlterTableStmt.
  - now rewrite ErrorIfUnsupportedAlterIndexStmt_run.
  - apply locks_ErrorIfAlterDropsPartitionColumn.
Qed.

Lemma stays_local_refl : forall s, stays_local s s.
Proof.
  intros s. split; [|repeat split].
  exists []. now rewrite app_nil_r.
Qed.

Lemma stays_local_trans :
  forall s1 s2 s3, stays_local s1 s2 -> stays_local s2 s3 -> stays_local s1 s3.
Proof.
  intros s1 s2 s3 ((new1 & Hlog1 & Hnew1) & Hp1 & Hd1 & Hq1)
    ((new2 & Hlog2 & Hnew2) & Hp2 & Hd2 & Hq2).
  split; [|repeat split; congruence].
  exists (new1 ++ new2). split.
  - rewrite Hlog2, Hlog1. now rewrite app_assoc.
  - rewrite forallb_app. now rewrite Hnew1, Hnew2.
Qed.

Lemma marks_graph_at_most_stays_local :
  forall (A : Type) (m : M A), respects marks_graph_at_most m -> respects stays_local m.
Proof.
  intros A m Hm s. destruct (Hm s) as [-> | ->].
  - apply stays_local_refl.
  - split; [|repeat split]. exists []. cbn. now rewrite app_nil_r.
Qed.

Lemma local_emit :
  forall ev, is_worker_request ev = false -> respects stays_local (emit ev).
Proof.
  intros ev Hev s. split; [|repeat split].
  exists [ev]. split; [reflexivity|]. cbn. now rewrite Hev.
Qed.

Lemma local_SetLocalMultiShardModifyModeToSequential :
  respects stays_local SetLocalMultiShardModifyModeToSequential.
Proof.
  intros s. split; [|repeat split]. exists []. cbn. now rewrite app_nil_r.
Qed.

(** Taking a lock on a relation is an event on this node. *)
Lemma local_lock_relation :
  forall relationId lockmode, respects stays_local (lock_relation relationId lockmode).
Proof.
  intros relationId lockmode s. unfold lock_relation. cbn [snd].
  destruct lockmode; try apply stays_local_refl;
    (split; [|repeat split]); eexists; (split; [reflexivity|reflexivity]).
Qed.

Lemma local_RangeVarGetRelid :
  forall env rangeVar lockmode missingOK,
    respects stays_local (RangeVarGetRelid env rangeVar lockmode missingOK).
Proof.
  intros. unfold RangeVarGetRelid.
  respects_with stays_local_refl stays_local_trans ltac:(apply local_lock_relation).
Qed.

Lemma local_AlterTableLookupRelation :
  forall env alterTableStatement lockmode,
    respects stays_local (AlterTableLookupRelation env alterTableStatement lockmode).
Proof.
  intros. unfold AlterTableLookupRelation, unchecked_access.
  respects_with stays_local_refl stays_local_trans ltac:(apply local_RangeVarGetRelid).
Qed.

Lemma local_ErrorIfUnsupportedAlterTableStmt :
  forall env alterTableStatement,
    respects stays_local (ErrorIfUnsupportedAlterTableStmt env alterTableStatement).
Proof.
  intros env stmt. unfold ErrorIfUnsupportedAlterTableStmt.
  induction (cmds stmt) as [|command rest IH];
    cbn [ErrorIfUnsupportedAlterTableStmt_foreach].
  - apply (respects_ret _ stays_local_refl).
  - apply (respects_bind _ stays_local_trans);
      [|intros []; [exact IH|apply (respects_ret _ stays_local_refl)]].
    unfold ErrorIfUnsupportedAlterTableStmt_switch, AlterInvolvesPartitionColumn,
      as_Constraint, as_PartitionCmd, unchecked_access. cbv zeta.
    respects_with stays_local_refl stays_local_trans
      ltac:(first [ apply local_AlterTableLookupRelation
                  | apply local_RangeVarGetRelid
                  | apply marks_graph_at_most_stays_local;
                    apply marks_MarkInvalidateForeignKeyGraph ]).
Qed.

Ltac local tac :=
  respects_with stays_local_refl stays_local_trans
    ltac:(first [ apply local_SetLocalMultiShardModifyModeToSequential
                | apply local_emit; reflexivity
                | apply local_RangeVarGetRelid
                | apply local_AlterTableLookupRelation
                | apply local_ErrorIfUnsupportedAlterTableStmt
                | apply marks_graph_at_most_stays_local;
                  apply marks_ErrorIfUnsupportedAlterIndexStmt
                | tac ]).

Lemma local_DDLTaskList_foreach :
  forall env shardIntervalList taskId escapedSchemaName escapedCommandString,
    respects stays_local
      (DDLTaskList_foreach env shardIntervalList taskId escapedSchemaName
         escapedCommandString).
Proof.
  intros env shardIntervalList.
  induction shardIntervalList as [|shardInterval rest IH]; intros;
    cbn [DDLTaskList_foreach]; unfold FinalizedShardPlacementList;
    local ltac:(apply IH).
Qed.

Lemma local_DDLTaskList :
  forall env relationId commandString,
    respects stays_local (DDLTaskList env relationId commandString).
Proof.
  intros. unfold DDLTaskList, LockShardListMetadata.
  local ltac:(apply local_DDLTaskList_foreach).
Qed.

Lemma local_InterShardDDLTaskList_forboth :
  forall env leftRelationId rightRelationId leftShardList rightShardList taskId
         escapedLeftSchemaName escapedRightSchemaName escapedCommandString,
    respects stays_local
      (InterShardDDLTaskList_forboth env leftRelationId rightRelationId leftShardList
         rightShardList taskId escapedLeftSchemaName escapedRightSchemaName
         escapedCommandString).
Proof.
  intros env leftRelationId rightRelationId leftShardList.
  induction leftShardList as [|leftShardInterval leftRest IH];
    intros [|rightShardInterval rightRest]; intros;
    cbn [InterShardDDLTaskList_forboth]; unfold FinalizedShardPlacementList;
    local ltac:(apply IH).
Qed.

Lemma local_InterShardDDLTaskList :
  forall env leftRelationId rightRelationId commandString,
    respects stays_local
      (InterShardDDLTaskList env leftRelationId rightRelationId commandString).
Proof.
  intros. unfold InterShardDDLTaskList, LockShardListMetadata, broadcast_reference_shard.
  local ltac:(apply local_InterShardDDLTaskList_forboth).
Qed.

Lemma local_SetupExecutionMode_column_constraints :
  forall env columnConstraints executeSequentially,
    respects stays_local
      (SetupExecutionMode_column_constraints env columnConstraints executeSequentially).
Proof.
  intros env columnConstraints.
  induction columnConstraints as [|constraint rest IH]; intros;
    cbn [SetupExecutionMode_column_constraints]; local ltac:(apply IH).
Qed.

Lemma local_SetupExecutionModeForAlterTable :
  forall env relationId command,
    respects stays_local (SetupExecutionModeForAlterTable env relationId command).
Proof.
  intros. unfold SetupExecutionModeForAlterTable, as_ColumnDef, as_Constraint,
    unchecked_access.
  local ltac:(apply local_SetupExecutionMode_column_constraints).
Qed.

Lemma local_PlanAlterTableStmt_column_constraints :
  forall env lockmode missingOK columnConstraints rightRelationId,
    respects stays_local
      (PlanAlterTableStmt_column_constraints env lockmode missingOK columnConstraints
         rightRelationId).
Proof.
  intros env lockmode missingOK columnConstraints.
  induction columnConstraints as [|constraint rest IH]; intros;
    cbn [PlanAlterTableStmt_column_constraints]; local ltac:(apply IH).
Qed.

Lemma local_PlanAlterTableStmt_foreach :
  forall env alterTableStatement leftRelationId commands rightRelationId
         executeSequentially,
    respects stays_local
      (PlanAlterTableStmt_foreach env alterTableStatement leftRelationId commands
         rightRelationId executeSequentially).
Proof.
  intros env stmt leftRelationId commands.
  induction commands as [|command rest IH]; intros;
    cbn [PlanAlterTableStmt_foreach];
    unfold as_ColumnDef, as_Constraint, as_PartitionCmd, unchecked_access;
    local ltac:(first [ apply IH
                      | apply local_SetupExecutionModeForAlterTable
                      | apply local_PlanAlterTableStmt_column_constraints ]).
Qed.

Lemma local_PlanAlterTableStmt :
  forall env alterTableStatement alterTableCommand,
    respects stays_local (PlanAlterTableStmt env alterTableStatement alterTableCommand).
Proof.
  intros. unfold PlanAlterTableStmt.
  local ltac:(first [ apply local_PlanAlterTableStmt_foreach
                    | apply local_DDLTaskList
                    | apply local_InterShardDDLTaskList ]).
Qed.

Lemma local_PlanRenameStmt :
  forall env ext renameStmt renameCommand,
    respects stays_local (PlanRenameStmt env ext renameStmt renameCommand).
Proof.
  intros. unfold PlanRenameStmt, PlanRenameStmt_table, ErrorIfUnsupportedRenameStmt.
  local ltac:(apply local_DDLTaskList).
Qed.

Lemma local_PlanAlterObjectSchemaStmt :
  forall env alterObjectSchemaStmt alterObjectSchemaCommand,
    respects stays_local
      (PlanAlterObjectSchemaStmt env alterObjectSchemaStmt alterObjectSchemaCommand).
Proof.
  intros. unfold PlanAlterObjectSchemaStmt. local fail.
Qed.

Lemma local_PlanGrantStmt :
  forall env ext grantStmt, respects stays_local (PlanGrantStmt env ext grantStmt).
Proof.
  intros env ext grantStmt.
  assert (Hnamespaces : forall objects namespaceOidList,
             respects stays_local
               (CollectGrantTableIdList_namespaces ext objects namespaceOidList)).
  { induction objects as [|object rest IH]; intros;
      cbn [CollectGrantTableIdList_namespaces];
      unfold as_nspname, get_namespace_oid_or_error, unchecked_access;
      local ltac:(apply IH). }
  assert (Htables : forall objects grantTableList,
             respects stays_local
               (CollectGrantTableIdList_tables env objects grantTableList)).
  { induction objects as [|object rest IH]; intros;
      cbn [CollectGrantTableIdList_tables]; unfold as_relvar, unchecked_access;
      local ltac:(apply IH). }
  assert (Hprivileges : forall privilegeList isFirst privsString,
             respects stays_local
               (PlanGrantStmt_privileges privilegeList isFirst privsString)).
  { induction privilegeList as [|priv rest IH]; intros;
      cbn [PlanGrantStmt_privileges]; local ltac:(apply IH). }
  assert (Htargets : forall privsString granteesString tableIdList ddlString,
             respects stays_local
               (PlanGrantStmt_targets env ext grantStmt privsString granteesString
                  tableIdList ddlString)).
  { induction tableIdList as [|relationId rest IH]; intros;
      cbn [PlanGrantStmt_targets];
      local ltac:(first [apply IH | apply local_DDLTaskList]). }
  unfold PlanGrantStmt, CollectGrantTableIdList.
  local ltac:(first [ apply Hnamespaces | apply Htables | apply Hprivileges
                    | apply Htargets ]).
Qed.

(** X27. Planning is local: whatever the statement, and whether they end
    with jobs or with an error, [PlanAlterTableStmt], [PlanRenameStmt],
    [PlanAlterObjectSchemaStmt] and [PlanGrantStmt] send no command to a
    worker and hand no task to an executor; what they add to the log are
    events on this node only (locks, lookups, warnings). They also leave
    the commit protocol and the validity of indexes as they found them. *)
Theorem planners_stay_local :
  forall env ext alterTableStatement renameStmt alterObjectSchemaStmt grantStmt
         command s,
    stays_local s (snd (PlanAlterTableStmt env alterTableStatement command s))
    /\ stays_local s (snd (PlanRenameStmt env ext renameStmt command s))
    /\ stays_local s (snd (PlanAlterObjectSchemaStmt env alterObjectSchemaStmt command s))
    /\ stays_local s (snd (PlanGrantStmt env ext grantStmt s)).
Proof.
  intros. split; [|split; [|split]].
  - apply local_PlanAlterTableStmt.
  - apply local_PlanRenameStmt.
  - apply local_PlanAlterObjectSchemaStmt.
  - apply local_PlanGrantStmt.
Qed.


(** ** Distributed VACUUM, partitions, and the foreign key graph *)

Lemma VacuumTaskList_foreach_tasks :
  forall env ext relationId vacuumOptions vacuumColumnList shards base start tail s,
    VacuumTaskList_foreach env ext shards (base + Z.of_nat start)
      (DeparseVacuumStmtPrefix vacuumOptions ++ tail)
      (String.length (DeparseVacuumStmtPrefix vacuumOptions))
      (get_namespace_name env (get_rel_namespace env relationId))
      (get_rel_name env relationId)
      (DeparseVacuumColumnNames vacuumColumnList) s
    = (Ok (map (fun numbered =>
                  shard_vacuum_task env ext relationId vacuumOptions vacuumColumnList
                    (base + Z.of_nat (fst numbered)) (snd numbered))
             (combine (seq start (List.length shards)) shards)),
       with_log s
         (log s ++ map (fun si => EvFinalizedShardPlacementList si.(shardId)) shards)).
Proof.
  intros env ext relationId vacuumOptions vacuumColumnList shards base.
  induction shards as [|si rest IH]; intros start tail s.
  - cbn. unfold ret. now rewrite app_nil_r, with_log_same.
  - cbn [VacuumTaskList_foreach List.length seq combine map].
    rewrite substring_prefix. rewrite string_app_assoc.
    unfold FinalizedShardPlacementList, bind at 1 2.
    rewrite emit_run. unfold ret at 1. unfold bind at 1.
    replace (base + Z.of_nat start + 1) with (base + Z.of_nat (S start)) by lia.
    rewrite IH. unfold ret. rewrite with_log_with_log, log_with_log.
    rewrite <- app_assoc. reflexivity.
Qed.

Lemma VacuumTaskList_tasks :
  forall env ext relationId vacuumOptions vacuumColumnList s,
    VacuumTaskList env ext relationId vacuumOptions vacuumColumnList s
    = (Ok (vacuum_tasks env ext relationId vacuumOptions vacuumColumnList),
       with_log s
         (log s ++ EvLockRelationOid relationId ShareUpdateExclusiveLock
                   :: task_list_effects (LoadShardIntervalList env relationId)
                        (List.length (LoadShardIntervalList env relationId)))).
Proof.
  intros env ext relationId vacuumOptions vacuumColumnList s.
  unfold VacuumTaskList, LockRelationOid, LockShardListMetadata, vacuum_tasks.
  cbv zeta. unfold bind. rewrite !emit_run.
  pose proof (VacuumTaskList_foreach_tasks env ext relationId vacuumOptions
                vacuumColumnList (LoadShardIntervalList env relationId) 1 0
                EmptyString) as Hloop.
  rewrite string_app_nil_r in Hloop. cbn [Z.of_nat] in Hloop.
  rewrite Z.add_0_r in Hloop. rewrite Hloop.
  rewrite !with_log_with_log, !log_with_log.
  unfold task_list_effects. rewrite firstn_all, <- !app_assoc. reflexivity.
Qed.

Lemma ProcessVacuumStmt_execute_log :
  forall env ext vacuumStmt relationIdList start executedVacuumCount s,
    (forall taskList, tasks_outcome env taskList = None) ->
    exists s',
      ProcessVacuumStmt_execute env ext vacuumStmt relationIdList (Z.of_nat start)
        executedVacuumCount s = (Ok tt, s')
      /\ log s'
         = log s ++ flat_map (vacuum_requests env ext vacuumStmt)
                      (combine (seq start (List.length relationIdList)) relationIdList).
Proof.
  intros env ext vacuumStmt relationIdList.
  induction relationIdList as [|relationId rest IH];
    intros start executedVacuumCount s Hworkers.
  - exists s. cbn. split; [reflexivity|now rewrite app_nil_r].
  - cbn [ProcessVacuumStmt_execute List.length seq combine flat_map].
    unfold vacuum_requests at 1. cbn [fst snd].
    replace (Z.of_nat start + 1) with (Z.of_nat (S start)) by lia.
    destruct (IsDistributedTable env relationId).
    + assert (Hstep :
        forall s1,
          exists s',
            (taskList <- VacuumTaskList env ext relationId (options vacuumStmt)
                           (VacuumColumnList ext vacuumStmt (Z.of_nat start)) ;;
             ExecuteModifyTasksWithoutResults env taskList ;;;
             ProcessVacuumStmt_execute env ext vacuumStmt rest (Z.of_nat (S start))
               (executedVacuumCount + 1)) s1 = (Ok tt, s')
            /\ log s'
               = log s1
                 ++ (EvLockRelationOid relationId ShareUpdateExclusiveLock
                     :: task_list_effects (LoadShardIntervalList env relationId)
                          (List.length (LoadShardIntervalList env relationId))
                     ++ [EvExecuteModifyTasksWithoutResults
                           (vacuum_tasks env ext relationId (options vacuumStmt)
                              (VacuumColumnList ext vacuumStmt (Z.of_nat start)))])
                 ++ flat_map (vacuum_requests env ext vacuumStmt)
                      (combine (seq (S start) (List.length rest)) rest)).
      { intros s1. unfold bind at 1. rewrite VacuumTaskList_tasks.
        unfold bind at 1. unfold ExecuteModifyTasksWithoutResults, request.
        rewrite Hworkers. unfold bind at 1. rewrite emit_run. unfold ret at 1.
        match goal with
        | |- context [ProcessVacuumStmt_execute _ _ _ _ _ _ ?st] =>
            destruct (IH (S start) (executedVacuumCount + 1) st Hworkers)
              as (s' & Hrun & Hlog)
        end.
        exists s'. split; [exact Hrun|].
        rewrite Hlog. rewrite !log_with_log. rewrite <- !app_assoc.
        cbn [app]. rewrite <- !app_assoc. reflexivity. }
      unfold bind at 1.
      destruct ((executedVacuumCount =? 0) && has_flag (options vacuumStmt) VACOPT_VACUUM).
      * destruct (Hstep (with_commit_protocol s COMMIT_PROTOCOL_BARE
                           (MultiShardCommitProtocol s))) as (s' & Hrun & Hlog).
        exists s'. split; [exact Hrun|exact Hlog].
      * unfold ret at 1. apply Hstep.
    + cbn [app]. apply IH. exact Hworkers.
Qed.

(** X28. A VACUUM or ANALYZE with propagation enabled whose targets all
    exist, one of them distributed, on workers that carry out the tasks:
    [ProcessVacuumStmt] first resolves the targets, locking each one (with
    an [AccessExclusiveLock] for VACUUM FULL, a [ShareUpdateExclusiveLock]
    otherwise), then goes through them in the order of the statement and
    does nothing more for those that are not distributed. For each
    distributed table it takes the relation lock and the shard metadata
    lock, looks up the placements, and hands the tasks of that table, one
    per shard, to the parallel executor, once. The column list of a table
    is the one given at its position in the statement, also when targets
    before it are not distributed. *)
Theorem ProcessVacuumStmt_runs_tasks :
  forall env ext vacuumStmt s,
    let targets := ExtractVacuumTargetRels ext vacuumStmt in
    let relationIdList := map (relid_of env) targets in
    forallb (fun rangeVar => OidIsValid (relid_of env rangeVar)) targets = true ->
    names_distributed_relation env relationIdList = true ->
    (forall taskList, tasks_outcome env taskList = None) ->
    exists s',
      ProcessVacuumStmt env ext true vacuumStmt s = (Ok tt, s')
      /\ log s'
         = log s ++ vacuum_target_locks env vacuumStmt targets
                 ++ flat_map (vacuum_requests env ext vacuumStmt)
                      (combine (seq 0 (List.length relationIdList)) relationIdList).
Proof.
  intros env ext vacuumStmt s targets relationIdList Hexist Hnames Hworkers.
  unfold ProcessVacuumStmt. fold targets. cbv zeta. unfold bind at 1.
  pose proof (ProcessVacuumStmt_lookup_run env (vacuum_lock_mode vacuumStmt)
                targets [] s (vacuum_lock_mode_locks vacuumStmt)) as Hlookup.
  rewrite Hexist in Hlookup. unfold vacuum_lock_mode in Hlookup at 1.
  rewrite Hlookup. cbn [app]. fold relationIdList.
  fold (vacuum_target_locks env vacuumStmt targets).
  unfold bind. rewrite IsDistributedVacuumStmt_run. rewrite Hnames.
  cbn [negb andb].
  assert (Hwarning : unqualified_vacuum_warning vacuumStmt relationIdList = []).
  { destruct relationIdList; [discriminate Hnames|reflexivity]. }
  rewrite Hwarning. cbn [app]. rewrite app_nil_r, with_log_same.
  destruct (ProcessVacuumStmt_execute_log env ext vacuumStmt relationIdList 0 0
              (with_log s (log s ++ vacuum_target_locks env vacuumStmt targets))
              Hworkers) as (s' & Hrun & Hlog).
  exists s'. split; [exact Hrun|].
  rewrite Hlog, log_with_log. now rewrite <- app_assoc.
Qed.

Lemma ProcessVacuumStmt_runs_tasks_witness :
  exists s',
    ProcessVacuumStmt (sample_env false false) sample_externals true
      (vacuum_statement (Z.lor VACOPT_VACUUM VACOPT_ANALYZE)
         [("notes", []); ("warehouses", ["id"; "city"])])
      fresh_session
    = (Ok tt, s')
    /\ log s'
       = [ EvLockRelationOid notes ShareUpdateExclusiveLock;
           EvLockRelationOid warehouses ShareUpdateExclusiveLock;
           EvLockRelationOid warehouses ShareUpdateExclusiveLock;
           EvLockShardListMetadata [102012] ShareLock;
           EvFinalizedShardPlacementList 102012;
           EvExecuteModifyTasksWithoutResults
             [ {| jobId := INVALID_JOB_ID;
                  taskId := 1;
                  taskType := VACUUM_ANALYZE_TASK;
                  queryString := "VACUUM (ANALYZE) public.warehouses_102012 (id,city)";
                  replicationModel := REPLICATION_MODEL_INVALID;
                  anchorShardId := 102012;
                  taskPlacementList := sample_placements 102012;
                  relationShardList := [] |} ] ].
Proof.
  destruct (ProcessVacuumStmt_runs_tasks (sample_env false false) sample_externals
              (vacuum_statement (Z.lor VACOPT_VACUUM VACOPT_ANALYZE)
                 [("notes", []); ("warehouses", ["id"; "city"])])
              fresh_session eq_refl eq_refl (fun _ => eq_refl))
    as (s' & Hrun & Hlog).
  exists s'. split; [exact Hrun|]. rewrite Hlog. reflexivity.
Defined.



(** X30. DROP SCHEMA followed by the flush of the foreign key graph, in a
    session where the graph was not marked: the graph is invalidated
    exactly once when the statement is a DROP SCHEMA ... CASCADE and one of
    its schemas exists and holds a distributed table that takes part in a
    foreign key, and not at all otherwise. The invalidation comes after the
    locks on [pg_class] of the scan. Either way the mark is cleared again,
    nothing else in the session changed, and a second flush does
    nothing. *)
Theorem drop_schema_invalidates_graph_once :
  forall env ext dropStatement s,
    s.(shouldInvalidateForeignKeyGraph) = false ->
    let flushed :=
      with_log s
        (log s ++ drop_schema_events env ext dropStatement
               ++ if is_DROP_CASCADE dropStatement.(behavior) &&
                     existsb (schema_holds_foreign_key_table env ext)
                       dropStatement.(ds_objects)
                  then [EvInvalidateForeignKeyGraph] else []) in
    (ProcessDropSchemaStmt env ext dropStatement ;;; InvalidateForeignKeyGraphForDDL) s
    = (Ok tt, flushed)
    /\ InvalidateForeignKeyGraphForDDL flushed = (Ok tt, flushed).
Proof.
  intros env ext [objects dropBehavior] s Hflag flushed. subst flushed.
  unfold drop_schema_events.
  cbn [behavior ds_objects]. unfold bind at 1. unfold ProcessDropSchemaStmt.
  cbn [behavior ds_objects].
  destruct s as [connection protocol saved invalidate block parallel durable pending
                   events].
  cbn in Hflag. subst invalidate.
  destruct (is_DROP_CASCADE dropBehavior); cbn [negb andb].
  - rewrite ProcessDropSchemaStmt_foreach_run.
    destruct (existsb (schema_holds_foreign_key_table env ext) objects);
      cbn; rewrite ?app_nil_r, <- ?app_assoc; split; reflexivity.
  - cbn. rewrite app_nil_r. split; reflexivity.
Qed.

Lemma drop_schema_invalidates_graph_once_witness :
  (ProcessDropSchemaStmt sample_catalog sample_externals
     {| ds_objects := ["no_such_schema"; "public"]; behavior := DROP_CASCADE |} ;;;
   InvalidateForeignKeyGraphForDDL) fresh_session
  = (Ok tt,
     with_log fresh_session
       [ EvLockRelationOid RelationRelationId AccessShareLock;
         EvInvalidateForeignKeyGraph ])
  /\ (ProcessDropSchemaStmt sample_catalog sample_externals
        {| ds_objects := ["public"]; behavior := DROP_RESTRICT |} ;;;
      InvalidateForeignKeyGraphForDDL) fresh_session
     = (Ok tt, fresh_session).
Proof.
  split.
  - exact (proj1 (drop_schema_invalidates_graph_once sample_catalog sample_externals
                    {| ds_objects := ["no_such_schema"; "public"];
                       behavior := DROP_CASCADE |} fresh_session eq_refl)).
  - exact (proj1 (drop_schema_invalidates_graph_once sample_catalog sample_externals
                    {| ds_objects := ["public"]; behavior := DROP_RESTRICT |}
                    fresh_session eq_refl)).
Defined.
